(* ===== verification/_CoqProject ===== *)
-Q . S2P
Prelude.v
GoStrings.v
GoConv.v
Float64.v
GoTime.v
Json.v
GoDate.v
JsonFloat.v
JsonCodec.v
Verdict.v
Engine.v
Settings.v
Policy.v
RateLimit.v
Health.v
Egress.v
EgressInv.v
EgressSel.v
EgressOps.v
EgressCount.v
EgressProps.v
EgressBreaker.v
EgressLife.v
Regex.v
Syntax.v
Pipeline.v
PipelineProps.v
Builtin.v
BuiltinProps.v
Textproto.v
Feedback.v
Store.v
Memory.v
Restart.v
Process.v
ProcessProps.v
Verifier.v
VerifierProps.v
Service.v
Runner.v
RunnerProps.v
RunnerCases.v
Csv.v
Ingest.v
Reports.v
Upload.v
UploadProps.v
Worker.v
Fleet.v
Control.v
GoNet.v
Blocklist.v
Crypto.v
Auth.v
Postgres.v
PostgresProps.v
CachePg.v
PostgresLife.v
Wire.v
Columns.v
RunnerPg.v
Mock.v
Ports.v
Api.v
ApiProps.v
ApiJson.v
Client.v
Web.v
WebProps.v
Boot.v
Assembly.v
AssemblyProps.v
Agent.v
