(* ===== verification/Prelude.v ===== *)
(** A verification development of rcptto, a self-hosted email verification
    service written in Go.

    * The program

    A request to verify an address goes through these parts:
    - the funnel ([internal/pipeline]): syntax, disposable domains, provider
      class, canonical form, MX lookup; it settles the address or yields a task;
    - the cache ([internal/store], [internal/store/memory]) of stable verdicts;
    - the policy ([internal/policy]): which providers are probed at all;
    - the limiter ([internal/ratelimit]): a token bucket per destination;
    - the egress manager ([internal/egress]): a pool of sending identities with
      health scores, circuit breakers, quarantine, warm-up and daily caps, which
      chooses the identity of a probe and learns from its signals;
    - an engine ([pkg/engine/builtin]): the SMTP conversation up to RCPT TO, on
      this machine or on a remote agent ([internal/worker]);
    - the verifier ([internal/verifier]), which composes all of these.
    Around it: the bulk-job runner ([internal/jobs]), the ingestion of uploaded
    lists ([internal/ingest]), the dashboard ([internal/web]), the JSON API
    ([internal/api]), the runtime settings ([internal/settings]), the stores in
    memory and over PostgreSQL ([internal/store]) and the server that wires them
    ([cmd/rcptto-server]).

    * Files and what they model

    Go itself: [GoStrings] the [strings] package on byte strings, [GoConv]
    [strconv] and base64, [GoNet] the parsing of IP addresses, [Crypto] SHA-256
    and HMAC, with published test vectors, [Float64]
    IEEE 754 binary64 on rationals with rounding to nearest even, [GoTime]
    instants and durations in integer nanoseconds, [Regex] the regular
    expressions used, by derivatives, [Csv] the reader and writer of
    [encoding/csv], [Textproto] the replies of [net/textproto], [GoDate] the
    calendar and RFC 3339, and [encoding/json]: [Json] UTF-8, the scanner and the
    printer, [JsonFloat] the shortest decimal of a float64, [JsonCodec] the
    encoding and decoding of structs by their tags, with a relation [codes]
    between an encoder and a decoder that is closed under the constructions.

    - [Verdict], [Engine]: [pkg/verdict], [pkg/engine].
    - [Settings], [Policy]: [internal/settings], [internal/policy].
    - [RateLimit]: [internal/ratelimit]; [reserve] is the method of that name,
      [Wait] its caller, which sleeps for the delay.
    - [Health], [Egress]: [internal/egress/health.go], [identity.go] and
      [manager.go].  [Manager] is the Go struct under its mutex; each method is a
      function on it.  [EgressInv], [EgressSel], [EgressOps] hold the invariant,
      the specification of the selection and the runs of method calls,
      [EgressCount] how far the counters grow in them; [EgressProps],
      [EgressBreaker] and [EgressLife] the theorems.
    - [Syntax], [Pipeline], [PipelineProps]: [internal/pipeline].
    - [Builtin], [BuiltinProps]: [pkg/engine/builtin].  [Feedback] relates the
      destination a probe's signals are filed under to the one selection reads.
    - [Store], [Memory]: [internal/store] and [internal/store/memory].  [Store]
      states the cache's contract as a class with laws ([ResultStoreLaws]), which
      [Memory] discharges, and the calls the runner makes of a job store as a class
      of operations ([JobStoreOps]).  [Restart] composes the manager's persistence with
      the store across a restart.
    - [Postgres]: [internal/store/postgres], each method a function on the tables
      of the migrations, with the outcome of each statement as an argument.
      [PostgresProps] relates the tables to the in-memory job store,
      [PostgresLife] has restarts, settings, migrations and examples;
      [CachePg] discharges the cache's contract over the database, with
      statements that fail at any time.
      [Columns] discharges the interface of the JSON columns with the documents
      the program writes.
    - [Verifier], [VerifierProps]: [internal/verifier], proved against the
      interfaces of the cache, the pool and the engines; [Service] assembles it
      from the manager, the SMTP engine and the in-memory cache.
    - [Runner], [RunnerProps], [RunnerCases]: [internal/jobs/runner.go] as an
      interleaving semantics: an event is one atomic action of one goroutine.
      The runner is generic in its store; [RunnerPg] runs it over the tables and
      simulates every such run by one over the in-memory store.
    - [Ingest]: [internal/ingest].  [Reports]: [internal/web/buckets.go],
      [metrics.go] and the job view of [web.go].  [Upload], [UploadProps]:
      [internal/web/upload.go].
    - [Worker]: [internal/worker].  [Wire]: its messages as JSON bytes, the
      agent's handlers and the client on them.  [Fleet]: the agents' registration
      and health loop of [cmd/rcptto-server/main.go], as a step relation.
    - [Mock]: [pkg/engine/mock], an instance of the engine's contract.
    - [Control]: the settings manager of [cmd/rcptto-server/main.go] and the form
      of [internal/web/settings.go]; a change is a sequence of atomic actions,
      which [cstep] interleaves.
    - [Blocklist]: [internal/egress/audit].  [Auth]: [internal/web/auth.go].
    - [Ports]: the interfaces of the API and the dashboard as records of
      operations, and the adapters of main.  [Api], [ApiProps]: [internal/api];
      [ApiJson]: its request and response bodies as bytes; [Client]: a client
      that submits a list and reads the results, knowing nothing but the bytes.
      [Web], [WebProps]: [internal/web/web.go], the metrics page and the root
      router of main.
    - [Boot]: the start of the server and of the agent, from the environment to
      the handlers.  [Assembly], [AssemblyProps]: [pipeline.New], [verifier.New]
      and the whole server over one state: the handlers of the API and of the
      dashboard with its uploads, exports and settings, and between the requests
      the steps of the jobs, whose addresses the same service verifies, of the
      health loop, of the audits and of the persister.  Requests and background
      steps are taken one after the other there; how calls of the manager
      interleave within a request is in [Process], [Fleet] and [Runner].
    - [Process], [ProcessProps]: the life of the server: requests, jobs, the
      health loop, the audits, the persister and the shutdown of [run], as an
      interleaving semantics; a crash is the end of a run at any event.  [Agent]:
      the router, the dialers and the life of the agent's process.

    A definition keeps the name of the Go function, method or type it
    translates; a prefix is added where two would clash.  Structs are records,
    string enumerations are inductive types with a constructor for any other
    string, maps are [gmap]s (an iteration takes the entries in an order given
    or shown irrelevant), [(value, error)] is [result], and a possible panic is
    [None].  The clock is never read: each operation takes the instant it runs at.

    * What the theorems show

    - Egress: no sequence of calls panics or breaks the invariant, given saved
      states a manager can have written; counters grow by one per call at most;
      [Binding] hands out a best eligible identity or fails exactly when there is
      none; a quarantine and an open breaker hold for their cool-down whatever
      calls come in between (an [Enable] or a [Restore] ends a quarantine), the
      daily cap over any sequence of [Binding]s of a window; warm-up
      in closed form; scores stay in [0, 1] under float64 rounding; signals act
      only on their identity and destination; snapshot, persistence and restore
      round-trip.
    - Verifier: fresh verdicts are valid; stable verdicts are remembered until
      their time-to-live ends, in either store, and unknown ones never stored; skipped providers
      are not probed; a probe that cannot be made is deferred as unknown.
    - Engine: the lines sent never go beyond the envelope; verdict and signal
      agree; exchanger failover; a definite verdict has the reply that justifies it.
    - Funnel: the regular expressions and guards decide one declarative grammar;
      a surviving task is ready to probe; rejections that need no DNS do not
      depend on it; canonical keys identify exactly the spellings of a mailbox.
    - Limiter: balances bounded and schedules exact in float64 arithmetic.
    - Jobs: in every interleaving each row gets exactly one result, each distinct
      address is verified at most once and none in another's place, every job ends, and one that is not cancelled and
      none of whose results the store refuses completes, over the in-memory store
      and over PostgreSQL; a client of the API then reads, from bytes alone, one
      result for each row it posted.
    - Uploads, exports and reports: parsing is total and bounded, the detected
      column is the best guess, an exported list can be uploaded again, the
      bucket counts are those of the downloads, staged uploads are bounded.
    - Agents: a remote probe, as bytes over the wire, is the agent's own probe;
      the manager's view of which agents are reachable follows the registry in
      every interleaving; an agent dials from its own address.
    - PostgreSQL: the job store refines the in-memory one, to the microsecond; a
      failed call changes nothing; reputation survives a restart, but for identities
      registered after it is restored (the remote agents'); an interrupted
      migration run is completed by the next.
    - Control plane: the components stay within the hard limits in every
      interleaving of changes, and what is stored is what [Validate] accepts;
      the blocklist audit withdraws exactly the listed identities.
    - HTTP: a request with neither a key nor a signed session changes nothing; a
      session is worth its login and lasts its time; every API request is
      answered and keeps the server well formed; submissions and pages of results
      do what they answer; the fleet page, policy edits and manual quarantine.
    - Start: a server that starts is well formed, so these hold from its first
      request on; whatever it is sent and whatever runs in the background, no step
      panics and every request is answered.
    - Bytes: SMTP replies, the protocol's messages, the documents of the database
      and the bodies of the API are read back as what was written, up to bytes
      that are not UTF-8.
    - Lifetime: what a crash leaves on disk is an earlier state of the pool; a
      graceful exit has saved the last snapshot, and every shutdown ends.
    Other theorems prove behaviours that differ from the comments (a cancelled
    completed job, a lost feedback destination, a disabled identity that returns
    after a quarantine, simultaneous settings changes that part the store from
    the running components, a fresh verdict evicted with the expired one, a policy
    edit answered with "not found", a probe rate from the environment above the
    hard limit, a change during a write marked as saved, a reply with a NUL byte
    that PostgreSQL refuses, and the like).

    * Bounds and fuel

    Loops that are not structural take fuel, with a proof that the fuel given is
    enough: the daily reset loop the number of days due ([daily_loop_iter]), the
    CSV reader the length of its input ([Read_total]), the JSON scanner the
    length of its text ([scan_fuel]), the search for the shortest decimal the 17
    digits that determine a float64 ([float_roundtrip]), the paging loops the
    number of results ([collect_all], [allResults_complete]), the upload
    cache its size ([make_room_spec]).  Runs of goroutines are arbitrary finite
    sequences of events; [steps_left] bounds the steps of a job.  Indices and
    cursors that can overflow are wrapped to 64 bits; counters that count the
    elements of an in-memory list are integers, and so are the counters of the
    egress manager, which [EgressCount] bounds in every run.

    * Parameters and what is not modelled

    DNS ([Resolver]), the SMTP peer (a function of the lines or bytes sent), the
    network, what a TIMESTAMPTZ keeps ([PgTime]), whether a database statement
    succeeds, the largest capacity [make] can allocate, the XLSX library, the
    Unicode tables beyond ASCII, the platform's conversion of an out-of-range
    float64 to an integer ([FloatConv]), the texts of floats and times on the
    dashboard's pages and forms, the texts of errors and random bytes are
    parameters.  The documents of a column and the bodies of a request are
    interfaces with laws ([Codec], [VerdictDoc], [Decoder]), which [Columns] and
    [ApiJson] discharge; a JSONB column is taken to give back a document of the
    same members and values as the one written.  A fused multiply-add is not
    assumed: every float64 operation rounds.  An HTTP request is taken after its path has been split into
    unescaped segments and its form and query parsed.  A timer may fire, and a
    timeout pass, at any moment.  Log lines, HTML templates and sockets are not
    modelled; the opening of the database is given by its outcome. *)

(** ** Shared definitions

    Results of fallible calls, the notation and tactics of the development, its
    hint databases, 64-bit wrap-around and the generic lemmas on lists the
    components use. *)

From Stdlib Require Export Ascii ZArith Lia.
From stdpp Require Export base gmap strings list numbers.

#[global] Open Scope Z_scope.

(** The development's own scope: the early-return and error notations of the
    translated Go code live here. *)
Declare Scope rcptto_scope.
Delimit Scope rcptto_scope with rcptto.
#[global] Open Scope rcptto_scope.

(** A Go call that returns [(value, error)]: on an error the value is the zero
    value and is not looked at, so the model keeps either the value or the
    error. *)
Inductive result (E A : Type) : Type :=
| Ok (a : A)
| Err (e : E).
Arguments Ok {E A} a.
Arguments Err {E A} e.

Notation "'let?' x := c1 'in' c2" :=
  (match c1 with Ok x => c2 | Err e => Err e end)
  (at level 10, x pattern, c1 at level 200, c2 at level 200) : rcptto_scope.

(** Hint databases: [rcptto] for the invariants and the routine facts,
    [gostr] for the rewriting of the string functions. *)
Create HintDb rcptto.
Create Rewrite HintDb gostr.

(** ** Tactics of the development *)

(** Case analysis on every [match] and [if] of the goal and the hypotheses. *)
Ltac cases_match := repeat case_match; simplify_eq/=.
Ltac bool_to_prop :=
  repeat match goal with
  | H : (_ && _) = true |- _ => apply andb_true_iff in H; destruct H
  | H : (_ || _) = false |- _ => apply orb_false_iff in H; destruct H
  | H : negb _ = true |- _ => apply negb_true_iff in H
  | H : negb _ = false |- _ => apply negb_false_iff in H
  | H : bool_decide _ = true |- _ => apply bool_decide_eq_true_1 in H
  | H : bool_decide _ = false |- _ => apply bool_decide_eq_false_1 in H
  | H : (_ =? _) = true |- _ => apply Z.eqb_eq in H
  | H : (_ =? _) = false |- _ => apply Z.eqb_neq in H
  | H : (_ <? _) = true |- _ => apply Z.ltb_lt in H
  | H : (_ <? _) = false |- _ => apply Z.ltb_ge in H
  | H : (_ <=? _) = true |- _ => apply Z.leb_le in H
  | H : (_ <=? _) = false |- _ => apply Z.leb_gt in H
  | H : (_ >=? _) = true |- _ => rewrite Z.geb_leb in H
  | H : (_ >=? _) = false |- _ => rewrite Z.geb_leb in H
  | H : (_ >? _) = true |- _ => rewrite Z.gtb_ltb in H
  | H : (_ >? _) = false |- _ => rewrite Z.gtb_ltb in H
  end.
(** Splits the boolean guards of the translated conditions and calls [lia]. *)
Ltac guard_lia := cases_match; bool_to_prop; try lia.

(** ** Machine integers *)

(** Go's [int] and [int64] on the supported 64-bit platforms. *)
Definition min_int64 : Z := - 2 ^ 63.
Definition max_int64 : Z := 2 ^ 63 - 1.
Definition int64_ok (z : Z) : bool := (min_int64 <=? z) && (z <=? max_int64).

(** Two's complement wrap-around of an [int64] operation. *)
Definition wrap64 (z : Z) : Z := (z + 2 ^ 63) mod 2 ^ 64 - 2 ^ 63.

Lemma wrap64_id z : int64_ok z = true -> wrap64 z = z.
Proof.
  unfold int64_ok, wrap64, min_int64, max_int64. intros H. bool_to_prop.
  rewrite Z.mod_small; lia.
Qed.

Lemma wrap64_range z : int64_ok (wrap64 z) = true.
Proof.
  unfold int64_ok, wrap64, min_int64, max_int64.
  pose proof (Z.mod_pos_bound (z + 2 ^ 63) (2 ^ 64) eq_refl).
  apply andb_true_iff; split; apply Z.leb_le; lia.
Qed.

(** [len] of a slice. *)
Definition len {A} (l : list A) : Z := Z.of_nat (length l).

Lemma len_nonneg {A} (l : list A) : 0 <= len l.
Proof. unfold len; lia. Qed.

Lemma len_app {A} (l k : list A) : len (l ++ k) = len l + len k.
Proof. unfold len; rewrite length_app; lia. Qed.

(** The length does not depend on the order. *)
#[global] Instance len_perm {A} : Proper (Permutation ==> eq) (@len A).
Proof. intros l k H. unfold len. by rewrite H. Qed.

#[export] Hint Resolve len_nonneg : rcptto.

(** ** Lists *)

Lemma forallb_Forall {A} (f : A -> bool) l :
  forallb f l = true <-> Forall (fun x => f x = true) l.
Proof. rewrite forallb_forall, List.Forall_forall. done. Qed.

Lemma existsb_Exists {A} (f : A -> bool) l :
  existsb f l = true <-> Exists (fun x => f x = true) l.
Proof. rewrite existsb_exists, List.Exists_exists. done. Qed.
