(* ===== verification/GoStrings.v ===== *)
(** The part of Go's [strings] package the program uses, on byte strings.

    A Go string is a sequence of bytes; here it is a [string], whose characters
    are bytes, and the functions work on its list of bytes.  [TrimSpace] and
    [Fields] follow [unicode.IsSpace] exactly, through the UTF-8 encodings of
    the white-space runes.  [ToLower] is exact on ASCII strings; on a string
    with a byte above 127 Go maps every rune through the Unicode tables, which
    are a parameter ([UnicodeTables]). *)

From S2P Require Import Prelude.

(** ** Bytes *)

Definition bytes (s : string) : list ascii := String.list_ascii_of_string s.
Definition of_bytes (l : list ascii) : string := String.string_of_list_ascii l.
Definition byte_val (a : ascii) : Z := Z.of_N (N_of_ascii a).
(** [len(s)] *)
Definition slen (s : string) : Z := len (bytes s).

Definition byte_in (lo hi : Z) (a : ascii) : bool := (lo <=? byte_val a) && (byte_val a <=? hi).
Definition is_upper (a : ascii) : bool := byte_in 65 90 a.
Definition is_lower (a : ascii) : bool := byte_in 97 122 a.
Definition is_digit (a : ascii) : bool := byte_in 48 57 a.
Definition is_ascii_byte (a : ascii) : bool := byte_val a <? 128.
Definition is_ascii (s : string) : bool := forallb is_ascii_byte (bytes s).

Definition lower_byte (a : ascii) : ascii :=
  if is_upper a then ascii_of_N (N_of_ascii a + 32) else a.

(** The Unicode case tables of Go's [unicode] package: [strings.Map] with
    [unicode.ToLower], used on the strings that are not ASCII. *)
Class UnicodeTables := { unicode_to_lower : string -> string }.

(** [strings.ToLower] *)
Definition ToLower `{UnicodeTables} (s : string) : string :=
  if is_ascii s then of_bytes (map lower_byte (bytes s)) else unicode_to_lower s.

(** ** White space *)

(** The one-, two- and three-byte UTF-8 encodings of the runes for which
    [unicode.IsSpace] holds. *)
Definition is_space1 (a : ascii) : bool := byte_in 9 13 a || (byte_val a =? 32).
Definition is_space2 (a b : ascii) : bool :=
  (byte_val a =? 194) && ((byte_val b =? 133) || (byte_val b =? 160)).
Definition is_space3 (a b c : ascii) : bool :=
  let '(x, y, z) := (byte_val a, byte_val b, byte_val c) in
  ((x =? 225) && (y =? 154) && (z =? 128))
  || ((x =? 226) && (y =? 128)
      && (((128 <=? z) && (z <=? 138)) || (z =? 168) || (z =? 169) || (z =? 175)))
  || ((x =? 226) && (y =? 129) && (z =? 159))
  || ((x =? 227) && (y =? 128) && (z =? 128)).

Section TrimRun.
Variable sp2 : ascii -> ascii -> bool.
Variable sp3 : ascii -> ascii -> ascii -> bool.

(** Drops the white-space runes at the head of a byte list. *)
Fixpoint trim_run (l : list ascii) : list ascii :=
  match l with
  | [] => []
  | a :: l1 =>
      if is_space1 a then trim_run l1 else
      match l1 with
      | [] => l
      | b :: l2 =>
          if sp2 a b then trim_run l2 else
          match l2 with
          | [] => l
          | c :: l3 => if sp3 a b c then trim_run l3 else l
          end
      end
  end.
End TrimRun.

Definition trim_left (l : list ascii) : list ascii := trim_run is_space2 is_space3 l.
Definition trim_right (l : list ascii) : list ascii :=
  reverse (trim_run (fun b a => is_space2 a b) (fun c b a => is_space3 a b c) (reverse l)).

(** [strings.TrimSpace] *)
Definition TrimSpace (s : string) : string := of_bytes (trim_right (trim_left (bytes s))).

(** [strings.Fields]: the maximal runs of bytes between white-space runes.
    [cur] is the field being read, last byte first. *)
Definition flush_field (cur : list ascii) (rest : list string) : list string :=
  match cur with [] => rest | _ => of_bytes (reverse cur) :: rest end.

Fixpoint fields_from (cur l : list ascii) : list string :=
  match l with
  | [] => flush_field cur []
  | a :: l1 =>
      if is_space1 a then flush_field cur (fields_from [] l1) else
      match l1 with
      | [] => fields_from (a :: cur) l1
      | b :: l2 =>
          if is_space2 a b then flush_field cur (fields_from [] l2) else
          match l2 with
          | [] => fields_from (a :: cur) l1
          | c :: l3 =>
              if is_space3 a b c then flush_field cur (fields_from [] l3)
              else fields_from (a :: cur) l1
          end
      end
  end.

Definition Fields (s : string) : list string := fields_from [] (bytes s).

(** ** Searching *)

Fixpoint index_byte (c : ascii) (l : list ascii) : option nat :=
  match l with
  | [] => None
  | a :: l => if Ascii.eqb a c then Some 0%nat else S <$> index_byte c l
  end.

Fixpoint last_index_byte (c : ascii) (l : list ascii) : option nat :=
  match l with
  | [] => None
  | a :: l =>
      match last_index_byte c l with
      | Some i => Some (S i)
      | None => if Ascii.eqb a c then Some 0%nat else None
      end
  end.

Definition index_result (o : option nat) : Z := from_option Z.of_nat (-1) o.

(** [strings.IndexByte] and [strings.LastIndexByte]: -1 when absent. *)
Definition IndexByte (s : string) (c : ascii) : Z := index_result (index_byte c (bytes s)).
Definition LastIndexByte (s : string) (c : ascii) : Z := index_result (last_index_byte c (bytes s)).

(** Slicing [s[:n]] and [s[n:]] at an index in range. *)
Definition slice_to (s : string) (n : Z) : string := of_bytes (take (Z.to_nat n) (bytes s)).
Definition slice_from (s : string) (n : Z) : string := of_bytes (drop (Z.to_nat n) (bytes s)).

Fixpoint has_prefix (p l : list ascii) : bool :=
  match p, l with
  | [], _ => true
  | a :: p, b :: l => Ascii.eqb a b && has_prefix p l
  | _ :: _, [] => false
  end.

(** [strings.HasPrefix], [strings.HasSuffix], [strings.TrimSuffix],
    [strings.TrimPrefix] *)
Definition HasPrefix (s p : string) : bool := has_prefix (bytes p) (bytes s).
Definition HasSuffix (s p : string) : bool := has_prefix (reverse (bytes p)) (reverse (bytes s)).
Definition TrimSuffix (s p : string) : string :=
  if HasSuffix s p then slice_to s (slen s - slen p) else s.
Definition TrimPrefix (s p : string) : string :=
  if HasPrefix s p then slice_from s (slen p) else s.

Fixpoint contains (sub l : list ascii) : bool :=
  has_prefix sub l || match l with [] => false | _ :: l => contains sub l end.

(** [strings.Contains] *)
Definition Contains (s sub : string) : bool := contains (bytes sub) (bytes s).

(** [strings.Split] with a one-byte separator *)
Fixpoint split_on (c : ascii) (l : list ascii) : list (list ascii) :=
  match l with
  | [] => [[]]
  | a :: l =>
      if Ascii.eqb a c then [] :: split_on c l else
      match split_on c l with
      | [] => [[a]]
      | p :: ps => (a :: p) :: ps
      end
  end.

Definition Split (s : string) (c : ascii) : list string := of_bytes <$> split_on c (bytes s).

(** [strings.ReplaceAll] of a one-byte pattern *)
Definition ReplaceByte (s : string) (c : ascii) (new : string) : string :=
  of_bytes (concat (map (fun a => if Ascii.eqb a c then bytes new else [a]) (bytes s))).

(** [strings.Cut] with a one-byte separator *)
Definition Cut (s : string) (c : ascii) : string * string * bool :=
  let i := IndexByte s c in
  if i <? 0 then (s, "", false) else (slice_to s i, slice_from s (i + 1), true).

(** [strings.Join] *)
Fixpoint Join (l : list string) (sep : string) : string :=
  match l with
  | [] => ""
  | [s] => s
  | s :: l => s +:+ sep +:+ Join l sep
  end.

(** The helper [firstNonEmpty] the packages share. *)
Fixpoint firstNonEmpty (vals : list string) : string :=
  match vals with
  | [] => ""
  | v :: vals => if String.eqb v "" then firstNonEmpty vals else v
  end.

(** ** Lemmas *)

Lemma bytes_of_bytes l : bytes (of_bytes l) = l.
Proof. apply String.list_ascii_of_string_of_list_ascii. Qed.

Lemma of_bytes_bytes s : of_bytes (bytes s) = s.
Proof. apply String.string_of_list_ascii_of_string. Qed.

#[export] Hint Rewrite bytes_of_bytes of_bytes_bytes : gostr.

Lemma bytes_inj s t : bytes s = bytes t -> s = t.
Proof. intros H. by rewrite <- (of_bytes_bytes s), <- (of_bytes_bytes t), H. Qed.

Lemma bytes_app s t : bytes (s +:+ t) = (bytes s ++ bytes t)%list.
Proof. induction s as [|a s IH]; simpl; [done|]. by f_equal. Qed.

Lemma of_bytes_app l k : of_bytes (l ++ k) = of_bytes l +:+ of_bytes k.
Proof. apply bytes_inj. rewrite bytes_app. by autorewrite with gostr. Qed.

#[export] Hint Rewrite bytes_app : gostr.

Lemma slen_app s t : slen (s +:+ t) = slen s + slen t.
Proof. unfold slen. by rewrite bytes_app, len_app. Qed.

Lemma slen_nonneg s : 0 <= slen s.
Proof. apply len_nonneg. Qed.

Lemma slen_0 s : slen s = 0 -> s = "".
Proof.
  unfold slen, len. intros H. apply bytes_inj.
  destruct (bytes s); simpl in *; [done|lia].
Qed.

#[export] Hint Resolve slen_nonneg : rcptto.

Lemma has_prefix_spec p l : has_prefix p l = true <-> exists k, l = (p ++ k)%list.
Proof.
  revert l. induction p as [|a p IH]; intros l; simpl.
  - split; eauto.
  - destruct l as [|b l]; [naive_solver|].
    rewrite andb_true_iff, Ascii.eqb_eq, IH. naive_solver.
Qed.

Lemma HasPrefix_spec s p : HasPrefix s p = true <-> exists t, s = p +:+ t.
Proof.
  unfold HasPrefix. rewrite has_prefix_spec. split.
  - intros [k Hk]. exists (of_bytes k). apply bytes_inj. by autorewrite with gostr.
  - intros [t ->]. exists (bytes t). apply bytes_app.
Qed.

Lemma HasSuffix_spec s p : HasSuffix s p = true <-> exists t, s = t +:+ p.
Proof.
  unfold HasSuffix. rewrite has_prefix_spec. split.
  - intros [k Hk]. exists (of_bytes (reverse k)). apply bytes_inj. autorewrite with gostr.
    apply (f_equal reverse) in Hk. by rewrite reverse_app, !reverse_involutive in Hk.
  - intros [t ->]. exists (reverse (bytes t)). by rewrite bytes_app, reverse_app.
Qed.

Lemma contains_spec sub l : contains sub l = true <-> exists p q, l = (p ++ sub ++ q)%list.
Proof.
  induction l as [|a l IH]; simpl; rewrite orb_true_iff, has_prefix_spec.
  - split.
    + intros [[k Hk]|?]; [|done]. by exists [], k.
    + intros (p & q & H). left. symmetry in H. apply app_nil in H as [-> H].
      exists q. naive_solver.
  - rewrite IH. split.
    + intros [[k Hk]|(p & q & Hpq)].
      * exists [], k. done.
      * exists (a :: p), q. by rewrite Hpq.
    + intros ([|b p] & q & H); simpl in *.
      * left. exists q. done.
      * right. exists p, q. naive_solver.
Qed.

Lemma split_on_nonempty c l : split_on c l <> [].
Proof. destruct l; simpl; [done|]. by repeat case_match. Qed.

(** Splitting a list that has no separator, and at its first separator. *)
Lemma split_on_no_sep c l : Forall (fun a => a <> c) l -> split_on c l = [l].
Proof.
  induction 1 as [|a l Ha _ IH]; simpl; [done|].
  destruct (Ascii.eqb_spec a c); [done|]. by rewrite IH.
Qed.

Lemma split_on_app c l k :
  Forall (fun a => a <> c) l -> split_on c (l ++ c :: k) = l :: split_on c k.
Proof.
  induction 1 as [|a l Ha _ IH]; simpl.
  - by rewrite Ascii.eqb_refl.
  - destruct (Ascii.eqb_spec a c); [done|]. by rewrite IH.
Qed.

(** No part of a split contains the separator. *)
Lemma split_on_parts c l : Forall (Forall (fun a => a <> c)) (split_on c l).
Proof.
  induction l as [|a l IH]; simpl; [by repeat constructor|].
  destruct (Ascii.eqb_spec a c); [by constructor|].
  destruct (split_on c l) as [|p ps]; [by repeat constructor|].
  inv IH. by repeat constructor.
Qed.

Lemma index_byte_Some c l i :
  index_byte c l = Some i ->
  exists p q, l = (p ++ c :: q)%list /\ length p = i /\ Forall (fun a => a <> c) p.
Proof.
  revert i. induction l as [|a l IH]; intros i; simpl; [done|].
  destruct (Ascii.eqb_spec a c) as [->|Hne].
  - intros [= <-]. exists [], l. by repeat constructor.
  - intros H. apply fmap_Some in H as (j & Hj & ->).
    destruct (IH j Hj) as (p & q & -> & <- & Hp).
    exists (a :: p), q. by repeat constructor.
Qed.

Lemma index_byte_None c l : index_byte c l = None <-> Forall (fun a => a <> c) l.
Proof.
  induction l as [|a l IH]; simpl; [by split|].
  destruct (Ascii.eqb_spec a c) as [->|Hne].
  - split; [done|]. by inversion 1.
  - rewrite Forall_cons_iff, <- IH. destruct (index_byte c l); naive_solver.
Qed.

Lemma last_index_byte_None c l : last_index_byte c l = None <-> Forall (fun a => a <> c) l.
Proof.
  induction l as [|a l IH]; simpl; [by split|].
  rewrite Forall_cons_iff, <- IH.
  destruct (last_index_byte c l); [naive_solver|].
  destruct (Ascii.eqb_spec a c); naive_solver.
Qed.

Lemma last_index_byte_Some c l i :
  last_index_byte c l = Some i ->
  exists p q, l = (p ++ c :: q)%list /\ length p = i /\ Forall (fun a => a <> c) q.
Proof.
  revert i. induction l as [|a l IH]; intros i; simpl; [done|].
  destruct (last_index_byte c l) as [j|] eqn:Hj.
  - intros [= <-]. destruct (IH j eq_refl) as (p & q & -> & <- & Hq).
    by exists (a :: p), q.
  - destruct (Ascii.eqb_spec a c) as [->|]; [|done].
    intros [= <-]. exists [], l. repeat split. by apply last_index_byte_None.
Qed.

Lemma firstNonEmpty_2 a b : firstNonEmpty [a; b] = if String.eqb a "" then b else a.
Proof. simpl. destruct (String.eqb a ""); [|done]. by destruct (String.eqb_spec b ""). Qed.

(** ** Lower-casing ASCII strings *)

Lemma byte_val_range a : 0 <= byte_val a < 256.
Proof. unfold byte_val. pose proof (N_ascii_bounded a). lia. Qed.

Lemma byte_val_ascii_of n : (n < 256)%N -> byte_val (ascii_of_N n) = Z.of_N n.
Proof. intros H. unfold byte_val. by rewrite N_ascii_embedding. Qed.

Lemma byte_val_lower a :
  byte_val (lower_byte a) = if is_upper a then byte_val a + 32 else byte_val a.
Proof.
  unfold lower_byte. destruct (is_upper a) eqn:E; [|done].
  unfold is_upper, byte_in, byte_val in *. bool_to_prop.
  rewrite N_ascii_embedding; lia.
Qed.

Lemma lower_byte_idemp a : lower_byte (lower_byte a) = lower_byte a.
Proof.
  unfold lower_byte at 1. destruct (is_upper (lower_byte a)) eqn:E; [|done].
  unfold is_upper at 1, byte_in in E. rewrite byte_val_lower in E.
  unfold is_upper, byte_in in E. guard_lia.
Qed.

Lemma is_ascii_lower l : forallb is_ascii_byte l = true -> forallb is_ascii_byte (map lower_byte l) = true.
Proof.
  rewrite !forallb_Forall, List.Forall_map. apply Forall_impl. intros a.
  unfold is_ascii_byte. rewrite byte_val_lower. unfold is_upper, byte_in.
  destruct (_ && _) eqn:E; bool_to_prop; [|done]. intros _. apply Z.ltb_lt. lia.
Qed.

Section Lower.
Context `{UnicodeTables}.

Lemma ToLower_ascii s : is_ascii s = true -> ToLower s = of_bytes (map lower_byte (bytes s)).
Proof. unfold ToLower. by intros ->. Qed.

Lemma ToLower_is_ascii s : is_ascii s = true -> is_ascii (ToLower s) = true.
Proof.
  intros Ha. rewrite ToLower_ascii by done. unfold is_ascii.
  rewrite bytes_of_bytes. by apply is_ascii_lower.
Qed.

Lemma ToLower_idemp s : is_ascii s = true -> ToLower (ToLower s) = ToLower s.
Proof.
  intros Ha. rewrite (ToLower_ascii (ToLower s)) by by apply ToLower_is_ascii.
  rewrite (ToLower_ascii s) by done. autorewrite with gostr.
  rewrite map_map. f_equal. apply map_ext, lower_byte_idemp.
Qed.

Lemma ToLower_app s t :
  is_ascii s = true -> is_ascii t = true -> ToLower (s +:+ t) = ToLower s +:+ ToLower t.
Proof.
  intros Hs Ht. rewrite !ToLower_ascii; try done.
  - by rewrite bytes_app, map_app, of_bytes_app.
  - unfold is_ascii in *. rewrite bytes_app, forallb_app. by rewrite Hs, Ht.
Qed.
End Lower.

(** ASCII lower-casing alone: the tables of a program that meets no other rune. *)
Definition ascii_tables : UnicodeTables := {| unicode_to_lower := fun s => s |}.
