(* ===== verification/GoConv.v ===== *)
(** Go's [strconv] and [encoding/base64] as the program uses them.

    Decimal integers within the range of [int64], booleans, and the raw URL-safe
    base64 alphabet, each with the round trip its users rely on. *)

From S2P Require Import Prelude GoStrings.
Local Open Scope list_scope.
Local Open Scope Z_scope.

(** ** Decimal integers *)

Definition digit_value (a : ascii) : option Z := if is_digit a then Some (byte_val a - 48) else None.

Fixpoint digits_value (acc : Z) (l : list ascii) : option Z :=
  match l with
  | [] => Some acc
  | a :: l => match digit_value a with Some d => digits_value (acc * 10 + d) l | None => None end
  end.

(** [strconv.Atoi] and [strconv.ParseInt(s, 10, 64)]: an optional sign and
    decimal digits, within the range of [int64]; [None] for an error. *)
Definition Atoi (s : string) : option Z :=
  let '(neg, ds) := match bytes s with
                    | a :: l => if Ascii.eqb a "-"%char then (true, l)
                                else if Ascii.eqb a "+"%char then (false, l) else (false, a :: l)
                    | [] => (false, [])
                    end in
  match ds with
  | [] => None
  | _ => match digits_value 0 ds with
         | Some z => let z := if neg then - z else z in if int64_ok z then Some z else None
         | None => None
         end
  end.

Definition digit_char (d : Z) : ascii := ascii_of_N (Z.to_N (48 + d)).

(** The decimal digits of [n] in front of [acc]; the fuel bounds their number. *)
Fixpoint dec_loop (fuel : nat) (n : Z) (acc : list ascii) : list ascii :=
  match fuel with
  | O => acc
  | S fuel => let acc := digit_char (n mod 10) :: acc in if n <? 10 then acc else dec_loop fuel (n / 10) acc
  end.

(** [strconv.FormatInt(z, 10)] and [strconv.Itoa]: an [int64] has at most 19 digits. *)
Definition FormatInt (z : Z) : string :=
  of_bytes (if z <? 0 then "-"%char :: dec_loop 20 (- z) [] else dec_loop 20 z []).

(** [strconv.FormatBool] *)
Definition FormatBool (b : bool) : string := if b then "true" else "false".

Lemma digit_char_value d : 0 <= d < 10 -> digit_value (digit_char d) = Some d.
Proof.
  intros Hd. assert (Hc : d = 0 \/ d = 1 \/ d = 2 \/ d = 3 \/ d = 4 \/ d = 5 \/ d = 6 \/ d = 7 \/ d = 8 \/ d = 9) by lia.
  by repeat destruct Hc as [->|Hc]; [..|subst].
Qed.

Lemma digit_char_digit d : 0 <= d < 10 -> is_digit (digit_char d) = true.
Proof. intros H. apply digit_char_value in H. unfold digit_value in H. by destruct (is_digit _). Qed.

Lemma dec_loop_value fuel : forall n acc,
  0 <= n < 10 ^ Z.of_nat fuel -> (0 < fuel)%nat ->
  digits_value 0 (dec_loop fuel n acc) = digits_value n acc.
Proof.
  induction fuel as [|fuel IH]; intros n acc Hn Hf; [lia|]. cbn [dec_loop].
  rewrite Nat2Z.inj_succ, Z.pow_succ_r in Hn by lia. pose proof (Z.mod_pos_bound n 10 ltac:(lia)) as Hm.
  destruct (Z.ltb_spec n 10) as [Hlt|Hge].
  - cbn [digits_value]. rewrite digit_char_value by done. f_equal. rewrite Z.mod_small by lia. lia.
  - rewrite IH.
    + cbn [digits_value]. rewrite digit_char_value by done. f_equal. pose proof (Z.div_mod n 10). lia.
    + split; [apply Z.div_pos; lia|]. apply Z.div_lt_upper_bound; lia.
    + destruct fuel; [|lia]. simpl in Hn. lia.
Qed.

Lemma dec_loop_head fuel n acc :
  0 <= n -> (0 < fuel)%nat -> exists d l, 0 <= d < 10 /\ dec_loop fuel n acc = digit_char d :: l.
Proof.
  revert n acc. induction fuel as [|fuel IH]; intros n acc Hn Hf; [lia|]. cbn [dec_loop].
  pose proof (Z.mod_pos_bound n 10 ltac:(lia)). destruct (Z.ltb_spec n 10) as [Hlt|Hge]; [by eauto|].
  destruct fuel; [simpl; eauto|]. apply IH; [apply Z.div_pos; lia|lia].
Qed.

Lemma digit_char_not_sign d : 0 <= d < 10 ->
  Ascii.eqb (digit_char d) "-"%char = false /\ Ascii.eqb (digit_char d) "+"%char = false.
Proof.
  intros Hd. assert (Hc : d = 0 \/ d = 1 \/ d = 2 \/ d = 3 \/ d = 4 \/ d = 5 \/ d = 6 \/ d = 7 \/ d = 8 \/ d = 9) by lia.
  by repeat destruct Hc as [->|Hc]; [..|subst].
Qed.

(** An integer of 64 bits reads back. *)
Lemma Atoi_FormatInt z : int64_ok z = true -> Atoi (FormatInt z) = Some z.
Proof.
  intros Hz. assert (Hr : - 10 ^ 19 < z < 10 ^ 19)
    by (unfold int64_ok, min_int64, max_int64 in Hz; bool_to_prop; lia).
  unfold Atoi, FormatInt. rewrite bytes_of_bytes. destruct (Z.ltb_spec z 0) as [Hneg|Hpos].
  - change (Ascii.eqb "-" "-") with true. cbv iota beta.
    destruct (dec_loop_head 20 (- z) []) as (d & l & _ & E); [lia..|]. rewrite E, <- E.
    rewrite dec_loop_value by (change (Z.of_nat 20) with 20; lia). cbn [digits_value].
    rewrite Z.opp_involutive, Hz. done.
  - destruct (dec_loop_head 20 z []) as (d & l & Hd & E); [lia..|]. rewrite E.
    destruct (digit_char_not_sign d Hd) as [-> ->]. rewrite <- E.
    rewrite dec_loop_value by (change (Z.of_nat 20) with 20; lia). cbn [digits_value]. by rewrite Hz.
Qed.

(** A decimal number contains no byte other than digits and a sign. *)
Lemma dec_loop_bytes fuel : forall n acc (P : ascii -> Prop),
  0 <= n -> (forall d, 0 <= d < 10 -> P (digit_char d)) -> Forall P acc -> Forall P (dec_loop fuel n acc).
Proof.
  induction fuel as [|fuel IH]; intros n acc P Hn HP Ha; cbn [dec_loop]; [done|].
  pose proof (Z.mod_pos_bound n 10 ltac:(lia)). assert (Forall P (digit_char (n mod 10) :: acc)) by (constructor; auto).
  destruct (n <? 10); [done|]. apply IH; [apply Z.div_pos; lia|done|done].
Qed.

(** ** Base64 *)

(** The URL-safe alphabet of RFC 4648 and its inverse. *)
Definition b64_char (v : Z) : ascii :=
  ascii_of_N (Z.to_N (if v <? 26 then 65 + v else if v <? 52 then 71 + v else if v <? 62 then v - 4
                      else if v =? 62 then 45 else 95)).
Definition b64_value (a : ascii) : option Z :=
  let n := byte_val a in
  if (65 <=? n) && (n <=? 90) then Some (n - 65)
  else if (97 <=? n) && (n <=? 122) then Some (n - 71)
  else if (48 <=? n) && (n <=? 57) then Some (n + 4)
  else if n =? 45 then Some 62 else if n =? 95 then Some 63 else None.

Definition byte_of (n : Z) : ascii := ascii_of_N (Z.to_N (n mod 256)).

(** [base64.RawURLEncoding.EncodeToString] *)
Fixpoint b64_encode (l : list ascii) : list ascii :=
  match l with
  | a :: b :: c :: l =>
      let v := byte_val a * 65536 + byte_val b * 256 + byte_val c in
      b64_char (v / 262144) :: b64_char (v / 4096 mod 64) :: b64_char (v / 64 mod 64) :: b64_char (v mod 64)
        :: b64_encode l
  | [a; b] =>
      let v := byte_val a * 65536 + byte_val b * 256 in
      [b64_char (v / 262144); b64_char (v / 4096 mod 64); b64_char (v / 64 mod 64)]
  | [a] => let v := byte_val a * 65536 in [b64_char (v / 262144); b64_char (v / 4096 mod 64)]
  | [] => []
  end.

(** The groups of four of [DecodeString]; a short group is accepted from two
    characters on, and its spare bits are not looked at. *)
Fixpoint b64_groups (l : list ascii) : option (list ascii) :=
  match l with
  | [] => Some []
  | [_] => None
  | [a; b] =>
      v ← b64_value a; w ← b64_value b;
      let n := v * 262144 + w * 4096 in Some [byte_of (n / 65536)]
  | [a; b; c] =>
      v ← b64_value a; w ← b64_value b; x ← b64_value c;
      let n := v * 262144 + w * 4096 + x * 64 in Some [byte_of (n / 65536); byte_of (n / 256)]
  | a :: b :: c :: d :: l =>
      v ← b64_value a; w ← b64_value b; x ← b64_value c; y ← b64_value d; rest ← b64_groups l;
      let n := v * 262144 + w * 4096 + x * 64 + y in
      Some (byte_of (n / 65536) :: byte_of (n / 256) :: byte_of n :: rest)
  end.

(** [base64.RawURLEncoding.DecodeString]: line breaks are skipped; [None] for
    any other byte outside the alphabet. *)
Definition is_break (a : ascii) : bool := Ascii.eqb a "010"%char || Ascii.eqb a "013"%char.
Definition b64_decode (l : list ascii) : option (list ascii) :=
  b64_groups (List.filter (fun a => negb (is_break a)) l).

Lemma b64_char_value v : 0 <= v < 64 -> b64_value (b64_char v) = Some v /\ is_break (b64_char v) = false.
Proof.
  intros Hv. assert (Hall : forallb (fun n => match b64_value (b64_char (Z.of_nat n)) with
    | Some w => (w =? Z.of_nat n) && negb (is_break (b64_char (Z.of_nat n))) | None => false end) (seq 0 64) = true)
    by (vm_compute; reflexivity).
  rewrite forallb_forall in Hall. specialize (Hall (Z.to_nat v)). rewrite Z2Nat.id in Hall by lia.
  assert (Hin : In (Z.to_nat v) (seq 0 64)) by (apply in_seq; lia). specialize (Hall Hin).
  destruct (b64_value (b64_char v)); [|done]. apply andb_true_iff in Hall as [H1 H2].
  apply Z.eqb_eq in H1 as ->. by apply negb_true_iff in H2.
Qed.

Lemma byte_of_val n a : n mod 256 = byte_val a -> byte_of n = a.
Proof. intros H. unfold byte_of. rewrite H. unfold byte_val. rewrite N2Z.id. apply ascii_N_embedding. Qed.

(** Induction three bytes at a time. *)
Lemma list_ind3 (P : list ascii -> Prop) :
  P [] -> (forall a, P [a]) -> (forall a b, P [a; b]) -> (forall a b c l, P l -> P (a :: b :: c :: l)) -> forall l, P l.
Proof.
  intros H0 H1 H2 H3. fix IH 1. intros [|a [|b [|c l]]]; [apply H0|apply H1|apply H2|]. apply H3, IH.
Qed.

Ltac b64_range := pose proof (byte_val_range) as Hrange; repeat match goal with
  | a : ascii |- _ => lazymatch goal with H : 0 <= byte_val a < 256 |- _ => fail | _ => pose proof (Hrange a) end end;
  clear Hrange.

Lemma b64_encode_clean l : Forall (fun a => is_break a = false) (b64_encode l).
Proof.
  induction l as [|a|a b|a b c l IH] using list_ind3; cbn [b64_encode]; repeat constructor; try exact IH;
    apply b64_char_value; b64_range; Z.to_euclidean_division_equations; lia.
Qed.

Lemma b64_groups_encode l : b64_groups (b64_encode l) = Some l.
Proof.
  induction l as [|a|a b|a b c l IH] using list_ind3; cbn [b64_encode b64_groups]; [done|..]; b64_range.
  all: rewrite !(fun v H => proj1 (b64_char_value v H)) by (Z.to_euclidean_division_equations; lia).
  all: cbn [mbind option_bind]; rewrite ?IH; cbn [mbind option_bind].
  all: repeat f_equal; apply byte_of_val; Z.to_euclidean_division_equations; lia.
Qed.

Lemma b64_roundtrip l : b64_decode (b64_encode l) = Some l.
Proof.
  unfold b64_decode. rewrite <- b64_groups_encode. f_equal. pose proof (b64_encode_clean l) as Hc.
  induction Hc as [|a k Ha _ IH]; [done|]. cbn. by rewrite Ha, IH.
Qed.
