(* ===== verification/Float64.v ===== *)
(** IEEE 754 binary64, the arithmetic behind Go's [float64].

    A finite value is the rational it denotes; every operation computes the
    exact rational and rounds it to the nearest representable one, ties to
    even, with subnormals and overflow to infinity.  The sign of zero is not
    kept: the program only compares values and divides by positive ones.

    The lemmas give what the components rely on: rounding is monotone, leaves
    representable values alone, and moves a value of [0, 1] by at most 2^-54. *)

From Stdlib Require Import QArith Qround Qpower Qreduction Qabs Lqa.
From S2P Require Import Prelude.

Local Open Scope Q_scope.

(** ** Rounding *)

Definition pow2 (e : Z) : Q := (2 # 1) ^ e.

(** The binary exponent of a positive rational: 2^e <= q < 2^(e+1). *)
Definition qlog2 (q : Q) : Z :=
  let k := (Z.log2 (Qnum q) - Z.log2 (Zpos (Qden q)))%Z in
  if Qle_bool (pow2 k) q then k else (k - 1)%Z.

(** Nearest integer, ties to even. *)
Definition rne (x : Q) : Z :=
  let f := Qfloor x in
  match Qcompare (x - inject_Z f) (1 # 2) with
  | Lt => f
  | Gt => (f + 1)%Z
  | Eq => if Z.even f then f else (f + 1)%Z
  end.

(** Exponent of the last place at [q]: 53 bits of precision, and no finer than
    the subnormal step 2^-1074. *)
Definition ulp_exp (q : Q) : Z := Z.max (qlog2 q - 52) (-1074).

Definition rnd_pos (q : Q) : Q :=
  inject_Z (rne (q * pow2 (- ulp_exp q))) * pow2 (ulp_exp q).

Definition rnd (q : Q) : Q :=
  Qred (match Qcompare q 0 with
        | Eq => 0
        | Gt => rnd_pos q
        | Lt => - rnd_pos (- q)
        end).

(** ** Values and operations *)

Inductive float64 : Type :=
| NaN
| Inf (negative : bool)
| Fin (q : Q).

Definition Qltb (x y : Q) : bool := negb (Qle_bool y x).

(** The float64 nearest to a rational. *)
Definition f64 (q : Q) : float64 :=
  let r := rnd q in
  if Qle_bool (pow2 1024) (Qabs r) then Inf (Qltb q 0) else Fin r.

Definition f64_of_Z (z : Z) : float64 := f64 (inject_Z z).

Definition fneg (x : float64) : float64 :=
  match x with NaN => NaN | Inf s => Inf (negb s) | Fin q => Fin (Qred (- q)) end.

Definition fadd (x y : float64) : float64 :=
  match x, y with
  | NaN, _ | _, NaN => NaN
  | Inf s, Inf t => if Bool.eqb s t then Inf s else NaN
  | Inf s, Fin _ | Fin _, Inf s => Inf s
  | Fin p, Fin q => f64 (p + q)
  end.

Definition fsub (x y : float64) : float64 := fadd x (fneg y).

Definition Qsign_neg (q : Q) : bool := Qltb q 0.
Definition Qis0 (q : Q) : bool := Qeq_bool q 0.

Definition fmul (x y : float64) : float64 :=
  match x, y with
  | NaN, _ | _, NaN => NaN
  | Inf s, Inf t => Inf (xorb s t)
  | Inf s, Fin q | Fin q, Inf s => if Qis0 q then NaN else Inf (xorb s (Qsign_neg q))
  | Fin p, Fin q => f64 (p * q)
  end.

Definition fdiv (x y : float64) : float64 :=
  match x, y with
  | NaN, _ | _, NaN => NaN
  | Inf s, Inf t => NaN
  | Inf s, Fin q => Inf (xorb s (Qsign_neg q))
  | Fin p, Inf _ => Fin 0
  | Fin p, Fin q => if Qis0 q then (if Qis0 p then NaN else Inf (Qsign_neg p)) else f64 (p / q)
  end.

(** Comparisons: false as soon as one side is NaN. *)
Definition fle (x y : float64) : bool :=
  match x, y with
  | NaN, _ | _, NaN => false
  | Inf true, _ | _, Inf false => true
  | Fin p, Fin q => Qle_bool p q
  | Inf false, _ | _, Inf true => false
  end.

Definition flt (x y : float64) : bool :=
  match x, y with
  | NaN, _ | _, NaN => false
  | Fin p, Fin q => Qltb p q
  | Inf true, Inf true | Inf false, _ | _, Inf true => false
  | Inf true, _ | _, Inf false => true
  end.

Definition feq (x y : float64) : bool := fle x y && fle y x.

(** The value truncated toward zero, for the conversion to an integer type. *)
Definition ftrunc (q : Q) : Z := Z.quot (Qnum q) (Zpos (Qden q)).

(** What a conversion to [int64] gives out of range is left to the
    implementation by the language specification: a parameter. *)
Class FloatConv := { f2i_out_of_range : float64 -> Z }.

Definition f64_to_int64 `{FloatConv} (x : float64) : Z :=
  match x with
  | Fin q => if int64_ok (ftrunc q) then ftrunc q else f2i_out_of_range x
  | _ => f2i_out_of_range x
  end.

(** The two 64-bit platforms: amd64 returns the minimum, arm64 saturates and
    sends NaN to zero. *)
Definition amd64 : FloatConv := {| f2i_out_of_range := fun _ => min_int64 |}.
Definition arm64 : FloatConv :=
  {| f2i_out_of_range := fun x =>
       match x with
       | NaN => 0%Z
       | Inf s => if s then min_int64 else max_int64
       | Fin q => if Qltb q 0 then min_int64 else max_int64
       end |}.

(** A float64 literal of the source, written as the rational it denotes. *)
Notation "'f#' q" := (f64 q%Q) (at level 9, q at level 8) : rcptto_scope.

Example f64_tenth : f64 (1 # 10) = Fin (3602879701896397 # 36028797018963968).
Proof. vm_compute. reflexivity. Qed.
Example f64_sum : fadd (f64 (1 # 10)) (f64 (2 # 10)) = Fin (1351079888211149 # 4503599627370496).
Proof. vm_compute. reflexivity. Qed.

(** ** Powers of two *)

Lemma two_nz : ~ (2 # 1) == 0.
Proof. discriminate. Qed.

Lemma pow2_pos e : 0 < pow2 e.
Proof. apply Qpower_0_lt. reflexivity. Qed.

Lemma pow2_plus a b : pow2 (a + b) == pow2 a * pow2 b.
Proof. apply Qpower_plus, two_nz. Qed.

Lemma pow2_le a b : (a <= b)%Z -> pow2 a <= pow2 b.
Proof. intros H. apply Qpower_le_compat_l; [done|]. discriminate. Qed.

Lemma pow2_lt_inv a b : pow2 a < pow2 b -> (a < b)%Z.
Proof. intros H. eapply Qpower_lt_compat_l_inv; [exact H|reflexivity]. Qed.

Lemma pow2_Z n : (0 <= n)%Z -> pow2 n == inject_Z (2 ^ n).
Proof. intros H. unfold pow2. symmetry. apply (Zpower_Qpower 2 n H). Qed.

Lemma pow2_inv a : pow2 a * pow2 (- a) == 1.
Proof. rewrite <- pow2_plus. replace (a + - a)%Z with 0%Z by lia. reflexivity. Qed.

Lemma pow2_cancel a x y : x * pow2 a <= y * pow2 a -> x <= y.
Proof. apply Qmult_le_r, pow2_pos. Qed.

(** ** Exponents *)

Lemma qlog2_spec q : 0 < q -> pow2 (qlog2 q) <= q /\ q < pow2 (qlog2 q + 1).
Proof.
  intros Hq. assert (Hn : (0 < Qnum q)%Z) by (unfold Qlt in Hq; simpl in Hq; lia).
  pose proof (Z.log2_spec (Qnum q) Hn) as [Hn1 Hn2].
  pose proof (Z.log2_spec (Zpos (Qden q)) eq_refl) as [Hd1 Hd2].
  pose proof (Z.log2_nonneg (Qnum q)) as Ha. pose proof (Z.log2_nonneg (Zpos (Qden q))) as Hb.
  set (a := Z.log2 (Qnum q)) in *. set (b := Z.log2 (Zpos (Qden q))) in *.
  assert (Hqd : q * inject_Z (Zpos (Qden q)) == inject_Z (Qnum q)).
  { unfold Qeq, inject_Z; simpl. lia. }
  rewrite Zle_Qle, <- pow2_Z in Hn1, Hd1 by lia.
  rewrite Zlt_Qlt, <- pow2_Z in Hn2, Hd2 by lia.
  set (d := inject_Z (Zpos (Qden q))) in *. set (n := inject_Z (Qnum q)) in *.
  unfold qlog2. fold a b.
  assert (Hup : q < pow2 (a - b + 1)).
  { apply (Qmult_lt_r _ _ (pow2 b) (pow2_pos b)).
    rewrite <- pow2_plus. replace (a - b + 1 + b)%Z with (Z.succ a) by lia.
    apply Qle_lt_trans with (q * d); [|by rewrite Hqd].
    rewrite !(Qmult_comm q). apply Qmult_le_compat_r; [done|by apply Qlt_le_weak]. }
  assert (Hlo : pow2 (a - b - 1) <= q).
  { apply (pow2_cancel (Z.succ b)). rewrite <- pow2_plus.
    replace (a - b - 1 + Z.succ b)%Z with a by lia.
    apply Qle_trans with (q * d); [by rewrite Hqd|].
    rewrite !(Qmult_comm q). apply Qmult_le_compat_r; by apply Qlt_le_weak. }
  destruct (Qle_bool (pow2 (a - b)) q) eqn:E.
  - apply Qle_bool_iff in E. done.
  - replace (a - b - 1 + 1)%Z with (a - b)%Z by lia. split; [done|].
    apply Qnot_le_lt. intros Hc. apply Qle_bool_iff in Hc. congruence.
Qed.

Lemma qlog2_mono x y : 0 < x -> x <= y -> (qlog2 x <= qlog2 y)%Z.
Proof.
  intros Hx Hxy. destruct (qlog2_spec x Hx) as [H1 _].
  destruct (qlog2_spec y) as [_ H2]; [by apply Qlt_le_trans with x|].
  enough (qlog2 x < qlog2 y + 1)%Z by lia. apply pow2_lt_inv.
  eapply Qle_lt_trans; [exact H1|]. eapply Qle_lt_trans; [exact Hxy|done].
Qed.

Lemma qlog2_lt q e : 0 < q -> q < pow2 e -> (qlog2 q < e)%Z.
Proof.
  intros Hq He. destruct (qlog2_spec q Hq) as [H1 _].
  apply pow2_lt_inv. by eapply Qle_lt_trans.
Qed.

(** ** Nearest integer *)

Lemma rne_bounds x : (Qfloor x <= rne x <= Qfloor x + 1)%Z.
Proof. unfold rne. destruct (Qcompare _ _); [destruct (Z.even _)| |]; lia. Qed.

Lemma rne_Z n : rne (inject_Z n) = n.
Proof.
  unfold rne. rewrite Qfloor_Z.
  assert (Hc : (inject_Z n - inject_Z n ?= 1 # 2) = Lt).
  { rewrite <- Qlt_alt. unfold Qminus. rewrite Qplus_opp_r. reflexivity. }
  by rewrite Hc.
Qed.

Lemma rne_mono x y : x <= y -> (rne x <= rne y)%Z.
Proof.
  intros Hxy. pose proof (Qfloor_resp_le x y Hxy) as Hf.
  destruct (Z.eq_dec (Qfloor x) (Qfloor y)) as [He|Hne].
  - unfold rne. rewrite <- He. set (f := Qfloor x).
    destruct (x - inject_Z f ?= 1 # 2) eqn:Ex; destruct (y - inject_Z f ?= 1 # 2) eqn:Ey;
      rewrite <- ?Qeq_alt, <- ?Qlt_alt, <- ?Qgt_alt in *; try destruct (Z.even f); try lia; lra.
  - pose proof (rne_bounds x). pose proof (rne_bounds y). lia.
Qed.

Lemma rne_le_Z x n : x <= inject_Z n -> (rne x <= n)%Z.
Proof. intros H. rewrite <- (rne_Z n) at 1. by apply rne_mono. Qed.

Lemma rne_ge_Z x n : inject_Z n <= x -> (n <= rne x)%Z.
Proof. intros H. rewrite <- (rne_Z n). by apply rne_mono. Qed.

Lemma rne_err x : - (1 # 2) <= inject_Z (rne x) - x /\ inject_Z (rne x) - x <= 1 # 2.
Proof.
  pose proof (Qfloor_le x) as H1. pose proof (Qlt_floor x) as H2.
  rewrite inject_Z_plus in H2. change (inject_Z 1) with 1 in H2.
  unfold rne. destruct (x - inject_Z (Qfloor x) ?= 1 # 2) eqn:Ex;
    rewrite <- ?Qeq_alt, <- ?Qlt_alt, <- ?Qgt_alt in Ex; try destruct (Z.even _);
    rewrite ?inject_Z_plus; change (inject_Z 1) with 1; split; lra.
Qed.

#[global] Instance rne_proper : Proper (Qeq ==> eq) rne.
Proof. intros x y H. apply Z.le_antisymm; apply rne_mono; rewrite H; apply Qle_refl. Qed.

(** ** Rounding of positive rationals *)

Lemma ulp_exp_mono x y : 0 < x -> x <= y -> (ulp_exp x <= ulp_exp y)%Z.
Proof. intros Hx H. pose proof (qlog2_mono x y Hx H). unfold ulp_exp. lia. Qed.

Lemma rnd_pos_le_pow2 x e :
  0 < x -> x <= pow2 e -> (ulp_exp x <= e)%Z -> rnd_pos x <= pow2 e.
Proof.
  intros Hx Hle Hu. unfold rnd_pos. set (u := ulp_exp x) in *.
  assert (Hs : x * pow2 (- u) <= inject_Z (2 ^ (e - u))).
  { rewrite <- pow2_Z by lia. apply (pow2_cancel u).
    rewrite <- Qmult_assoc, (Qmult_comm (pow2 (- u))), pow2_inv, Qmult_1_r, <- pow2_plus.
    by replace (e - u + u)%Z with e by lia. }
  apply rne_le_Z in Hs. rewrite Zle_Qle, <- pow2_Z in Hs by lia.
  apply Qle_trans with (pow2 (e - u) * pow2 u).
  - apply Qmult_le_compat_r; [done|apply Qlt_le_weak, pow2_pos].
  - rewrite <- pow2_plus. replace (e - u + u)%Z with e by lia. apply Qle_refl.
Qed.

Lemma rnd_pos_ge_pow2 y e :
  0 < y -> pow2 e <= y -> (ulp_exp y <= e)%Z -> pow2 e <= rnd_pos y.
Proof.
  intros Hy Hle Hu. unfold rnd_pos. set (u := ulp_exp y) in *.
  assert (Hs : inject_Z (2 ^ (e - u)) <= y * pow2 (- u)).
  { rewrite <- pow2_Z by lia. apply (pow2_cancel u).
    rewrite <- Qmult_assoc, (Qmult_comm (pow2 (- u))), pow2_inv, Qmult_1_r, <- pow2_plus.
    by replace (e - u + u)%Z with e by lia. }
  apply rne_ge_Z in Hs. rewrite Zle_Qle, <- pow2_Z in Hs by lia.
  apply Qle_trans with (pow2 (e - u) * pow2 u).
  - rewrite <- pow2_plus. replace (e - u + u)%Z with e by lia. apply Qle_refl.
  - apply Qmult_le_compat_r; [done|apply Qlt_le_weak, pow2_pos].
Qed.

Lemma rnd_pos_mono x y : 0 < x -> x <= y -> rnd_pos x <= rnd_pos y.
Proof.
  intros Hx Hxy. assert (Hy : 0 < y) by (by eapply Qlt_le_trans).
  pose proof (ulp_exp_mono x y Hx Hxy) as Hu.
  destruct (Z.eq_dec (ulp_exp x) (ulp_exp y)) as [He|Hne].
  - unfold rnd_pos. rewrite <- He.
    apply Qmult_le_compat_r; [|apply Qlt_le_weak, pow2_pos].
    rewrite <- Zle_Qle. apply rne_mono.
    apply Qmult_le_compat_r; [done|apply Qlt_le_weak, pow2_pos].
  - (* the power of two at y separates the two values *)
    destruct (qlog2_spec x Hx) as [_ Hx2]. destruct (qlog2_spec y Hy) as [Hy1 _].
    assert (Hul : (ulp_exp y = qlog2 y - 52)%Z /\ (qlog2 x < qlog2 y)%Z)
      by (unfold ulp_exp in *; lia).
    destruct Hul as [Hul Hlt]. apply Qle_trans with (pow2 (qlog2 y)).
    + apply rnd_pos_le_pow2; [done| |lia].
      apply Qlt_le_weak. eapply Qlt_le_trans; [exact Hx2|]. apply pow2_le. lia.
    + apply rnd_pos_ge_pow2; [done|done|lia].
Qed.

Lemma rnd_pos_nonneg x : 0 < x -> 0 <= rnd_pos x.
Proof.
  intros Hx. unfold rnd_pos. apply Qmult_le_0_compat; [|apply Qlt_le_weak, pow2_pos].
  change 0 with (inject_Z 0). rewrite <- Zle_Qle. apply rne_ge_Z.
  apply Qmult_le_0_compat; apply Qlt_le_weak; [done|apply pow2_pos].
Qed.

(** Half a unit in the last place. *)
Lemma rnd_pos_err x :
  0 < x -> Qabs (rnd_pos x - x) <= (1 # 2) * pow2 (ulp_exp x).
Proof.
  intros Hx. unfold rnd_pos. set (u := ulp_exp x). set (s := x * pow2 (- u)).
  assert (Hxs : x == s * pow2 u).
  { unfold s. rewrite <- Qmult_assoc, (Qmult_comm (pow2 (- u))), pow2_inv. ring. }
  destruct (rne_err s) as [H1 H2]. pose proof (pow2_pos u) as Hp.
  assert (Hd : inject_Z (rne s) * pow2 u - x == (inject_Z (rne s) - s) * pow2 u).
  { rewrite Hxs at 1. ring. }
  rewrite Hd. rewrite Qabs_Qmult, (Qabs_pos (pow2 u)) by (by apply Qlt_le_weak).
  apply Qmult_le_compat_r; [|by apply Qlt_le_weak].
  apply Qabs_Qle_condition. split; lra.
Qed.

(** A multiple of the unit in the last place is left alone. *)
Lemma rnd_pos_exact z k : z == inject_Z k * pow2 (ulp_exp z) -> rnd_pos z == z.
Proof.
  intros Hz. unfold rnd_pos. set (u := ulp_exp z) in *.
  assert (Hk : z * pow2 (- u) == inject_Z k).
  { rewrite Hz, <- Qmult_assoc, pow2_inv. ring. }
  rewrite Hk, rne_Z. by symmetry.
Qed.

Lemma rnd_pos_idemp x : 0 < x -> 0 < rnd_pos x -> rnd_pos (rnd_pos x) == rnd_pos x.
Proof.
  intros Hx Hz. set (u := ulp_exp x). set (M := rne (x * pow2 (- u))).
  assert (Hzd : rnd_pos x == inject_Z M * pow2 u) by reflexivity.
  set (z := rnd_pos x) in *.
  assert (Hu : (-1074 <= u)%Z /\ (qlog2 x - 52 <= u)%Z) by (unfold u, ulp_exp; lia).
  assert (HM : (M <= 2 ^ 53)%Z).
  { apply rne_le_Z. rewrite <- pow2_Z by lia. apply (pow2_cancel u).
    rewrite <- Qmult_assoc, (Qmult_comm (pow2 (- u))), pow2_inv, Qmult_1_r, <- pow2_plus.
    destruct (qlog2_spec x Hx) as [_ H]. apply Qlt_le_weak.
    eapply Qlt_le_trans; [exact H|]. apply pow2_le. lia. }
  destruct (Z.eq_dec M (2 ^ 53)%Z) as [HM53|HM53].
  - assert (Hz53 : z == pow2 (u + 53)).
    { rewrite Hzd, HM53, <- pow2_Z, <- pow2_plus by lia. by rewrite Z.add_comm. }
    assert (Hl : qlog2 z = (u + 53)%Z).
    { destruct (qlog2_spec z Hz) as [H1 H2].
      assert (u + 53 < qlog2 z + 1)%Z by (apply pow2_lt_inv; by rewrite <- Hz53).
      enough (qlog2 z < u + 53 + 1)%Z by lia. apply pow2_lt_inv.
      eapply Qle_lt_trans; [exact H1|]. rewrite (pow2_plus (u + 53) 1), Hz53.
      pose proof (pow2_pos (u + 53)). change (pow2 1) with 2. lra. }
    apply rnd_pos_exact with (2 ^ 52)%Z. unfold ulp_exp. rewrite Hl, Z.max_l by lia.
    rewrite <- pow2_Z, <- pow2_plus by lia.
    replace (52 + (u + 53 - 52))%Z with (u + 53)%Z by lia. exact Hz53.
  - assert (Hl : (qlog2 z < u + 53)%Z).
    { apply qlog2_lt; [done|]. rewrite Hzd, Z.add_comm, pow2_plus.
      apply Qmult_lt_compat_r; [apply pow2_pos|]. rewrite pow2_Z, <- Zlt_Qlt by lia. lia. }
    set (v := ulp_exp z). assert (Hv : (v <= u)%Z) by (unfold v, ulp_exp; lia).
    apply rnd_pos_exact with (M * 2 ^ (u - v))%Z. fold v.
    rewrite inject_Z_mult, <- pow2_Z, <- Qmult_assoc, <- pow2_plus by lia.
    by replace (u - v + v)%Z with u by lia.
Qed.

(** ** Rounding of rationals *)

Lemma rnd_gt x : 0 < x -> rnd x == rnd_pos x.
Proof.
  intros H. unfold rnd. rewrite Qred_correct.
  by rewrite (proj1 (Qgt_alt x 0)).
Qed.

Lemma rnd_lt x : x < 0 -> rnd x == - rnd_pos (- x).
Proof.
  intros H. unfold rnd. rewrite Qred_correct.
  by rewrite (proj1 (Qlt_alt x 0)).
Qed.

Lemma rnd_0 x : x == 0 -> rnd x == 0.
Proof.
  intros H. unfold rnd. rewrite Qred_correct.
  by rewrite (proj1 (Qeq_alt x 0)).
Qed.

Lemma rnd_mono x y : x <= y -> rnd x <= rnd y.
Proof.
  intros H. destruct (Q_dec x 0) as [[Hx|Hx]|Hx]; destruct (Q_dec y 0) as [[Hy|Hy]|Hy];
    try lra; rewrite ?(rnd_lt x), ?(rnd_gt x), ?(rnd_0 x), ?(rnd_lt y), ?(rnd_gt y), ?(rnd_0 y) by done.
  - apply Qopp_le_compat, rnd_pos_mono; lra.
  - pose proof (rnd_pos_nonneg (- x) ltac:(lra)). pose proof (rnd_pos_nonneg y Hy). lra.
  - pose proof (rnd_pos_nonneg (- x) ltac:(lra)). lra.
  - by apply rnd_pos_mono.
  - by apply rnd_pos_nonneg.
  - lra.
Qed.

Lemma rnd_red x : Qred (rnd x) = rnd x.
Proof. unfold rnd. apply Qred_complete, Qred_correct. Qed.

Lemma rnd_eq_leibniz x y : rnd x == rnd y -> rnd x = rnd y.
Proof. intros H. rewrite <- (rnd_red x), <- (rnd_red y). by apply Qred_complete. Qed.

#[global] Instance rnd_proper : Proper (Qeq ==> eq) rnd.
Proof.
  intros x y H. apply rnd_eq_leibniz, Qle_antisym; apply rnd_mono; rewrite H; apply Qle_refl.
Qed.

Lemma rnd_opp x : rnd (- x) == - rnd x.
Proof.
  destruct (Q_dec x 0) as [[Hx|Hx]|Hx].
  - rewrite (rnd_lt x), rnd_gt by lra. by rewrite Qopp_involutive.
  - rewrite (rnd_gt x) by done. rewrite rnd_lt by lra. apply Qopp_comp.
    rewrite <- !rnd_gt by lra. by rewrite (Qopp_involutive x).
  - rewrite (rnd_0 x), rnd_0 by lra. reflexivity.
Qed.

Lemma rnd_idemp x : rnd (rnd x) = rnd x.
Proof.
  apply rnd_eq_leibniz.
  assert (Hpos : forall p, 0 < p -> rnd (rnd_pos p) == rnd_pos p).
  { intros p Hp. destruct (Qle_lt_or_eq _ _ (rnd_pos_nonneg p Hp)) as [Hz|Hz].
    - rewrite rnd_gt by done. by apply rnd_pos_idemp.
    - rewrite rnd_0 by (by symmetry). exact Hz. }
  destruct (Q_dec x 0) as [[Hx|Hx]|Hx].
  - rewrite (rnd_proper _ _ (rnd_lt x Hx)), rnd_opp, (rnd_lt x Hx).
    apply Qopp_comp, Hpos. lra.
  - rewrite (rnd_proper _ _ (rnd_gt x Hx)), (rnd_gt x Hx). by apply Hpos.
  - rewrite (rnd_0 (rnd x)) by (by apply rnd_0). symmetry. by apply rnd_0.
Qed.

Lemma rnd_at_0 : rnd 0 = 0. Proof. vm_compute. reflexivity. Qed.
Lemma rnd_at_1 : rnd 1 = 1. Proof. vm_compute. reflexivity. Qed.

Lemma rnd_zero x : x == 0 -> rnd x = 0.
Proof. intros H. by rewrite (rnd_proper _ _ H), rnd_at_0. Qed.

(** On the unit interval rounding moves a value by at most 2^-54. *)
Lemma rnd_err_unit x : 0 <= x -> x <= 1 -> Qabs (rnd x - x) <= 1 # (2 ^ 54).
Proof.
  intros H0 H1. destruct (Qle_lt_or_eq _ _ H0) as [Hx|Hx].
  2:{ rewrite <- (rnd_proper _ _ Hx), <- Hx, rnd_at_0. discriminate. }
  destruct (Qle_lt_or_eq _ _ H1) as [Hx1|Hx1].
  2:{ rewrite (rnd_proper _ _ Hx1), Hx1, rnd_at_1. discriminate. }
  rewrite rnd_gt by done. eapply Qle_trans; [by apply rnd_pos_err|].
  assert (Hl : (qlog2 x < 0)%Z) by (apply qlog2_lt; [done|exact Hx1]).
  apply Qle_trans with ((1 # 2) * pow2 (-53)); [|discriminate].
  rewrite !(Qmult_comm (1 # 2)). apply Qmult_le_compat_r; [|discriminate].
  apply pow2_le. unfold ulp_exp. lia.
Qed.

(** ** Values of the unit interval *)

(** A float64 of [0, 1]: the probabilities, weights and scores of the program. *)
Definition funit (x : float64) : Prop :=
  exists q, x = Fin q /\ rnd q = q /\ 0 <= q /\ q <= 1.

Lemma f64_unit q : 0 <= q -> q <= 1 -> f64 q = Fin (rnd q).
Proof.
  intros H0 H1. unfold f64.
  assert (Hr0 : 0 <= rnd q) by (rewrite <- rnd_at_0; by apply rnd_mono).
  assert (Hr1 : rnd q <= 1) by (rewrite <- rnd_at_1; by apply rnd_mono).
  destruct (Qle_bool (pow2 1024) (Qabs (rnd q))) eqn:E; [|done].
  apply Qle_bool_iff in E. rewrite Qabs_pos in E by done.
  assert (1 < pow2 1024) by reflexivity. lra.
Qed.

Lemma funit_f64 q : 0 <= q -> q <= 1 -> funit (f64 q).
Proof.
  intros H0 H1. exists (rnd q). rewrite f64_unit by done.
  repeat split; [apply rnd_idemp| |].
  - rewrite <- rnd_at_0. by apply rnd_mono.
  - rewrite <- rnd_at_1. by apply rnd_mono.
Qed.

(** ** Exact values and finite results *)

Lemma Qred_inject_Z z : Qred (inject_Z z) = inject_Z z.
Proof.
  unfold Qred, inject_Z. simpl. pose proof (Z.ggcd_gcd z 1) as Hg.
  pose proof (Z.ggcd_correct_divisors z 1) as Hd.
  destruct (Z.ggcd z 1) as [g [a b]]. simpl in *. rewrite Z.gcd_1_r in Hg. subst g.
  destruct Hd as [-> Hb]. assert (b = 1)%Z as -> by lia. simpl. by destruct a.
Qed.

(** Integers up to 2^53 are represented exactly. *)
Lemma rnd_Z z : (- 2 ^ 53 <= z <= 2 ^ 53)%Z -> rnd (inject_Z z) = inject_Z z.
Proof.
  assert (Hpos : forall n, (0 < n <= 2 ^ 53)%Z -> rnd_pos (inject_Z n) == inject_Z n).
  { intros n Hn. destruct (Z.eq_dec n (2 ^ 53)%Z) as [->|Hne]; [vm_compute; reflexivity|].
    assert (Hq : 0 < inject_Z n) by (change 0 with (inject_Z 0); rewrite <- Zlt_Qlt; lia).
    assert (Hl : (qlog2 (inject_Z n) < 53)%Z)
      by (apply qlog2_lt; [done|]; rewrite pow2_Z, <- Zlt_Qlt by lia; lia).
    set (u := ulp_exp (inject_Z n)). assert (Hu : (u <= 0)%Z) by (unfold u, ulp_exp; lia).
    apply rnd_pos_exact with (n * 2 ^ (- u))%Z. fold u.
    rewrite inject_Z_mult, <- pow2_Z, <- Qmult_assoc, <- pow2_plus by lia.
    rewrite Z.add_opp_diag_l. change (pow2 0) with 1. ring. }
  intros Hz. rewrite <- (Qred_inject_Z z), <- rnd_red. apply Qred_complete.
  rewrite Qred_inject_Z. destruct (Z.lt_trichotomy z 0) as [Hn|[->|Hn]].
  - assert (Hq : inject_Z z < 0) by (change 0 with (inject_Z 0); by rewrite <- Zlt_Qlt).
    rewrite rnd_lt by done. rewrite <- inject_Z_opp, Hpos by lia. rewrite inject_Z_opp. ring.
  - by rewrite rnd_0.
  - assert (Hq : 0 < inject_Z z) by (change 0 with (inject_Z 0); by rewrite <- Zlt_Qlt).
    rewrite rnd_gt by done. apply Hpos. lia.
Qed.

(** Far from the overflow threshold a result is finite. *)
Lemma f64_fin q : - pow2 1000 <= q -> q <= pow2 1000 -> f64 q = Fin (rnd q).
Proof.
  intros H0 H1. unfold f64. destruct (Qle_bool (pow2 1024) (Qabs (rnd q))) eqn:E; [|done].
  exfalso. apply Qle_bool_iff in E.
  assert (Hr1 : rnd q <= pow2 1000).
  { eapply Qle_trans; [by apply rnd_mono|]. apply Qle_bool_iff. vm_compute. reflexivity. }
  assert (Hr0 : - pow2 1000 <= rnd q).
  { eapply Qle_trans; [|apply rnd_mono, H0]. apply Qle_bool_iff. vm_compute. reflexivity. }
  assert (Ha : Qabs (rnd q) <= pow2 1000) by (apply Qabs_Qle_condition; lra).
  assert (pow2 1000 < pow2 1024) by reflexivity. lra.
Qed.

Lemma f64_of_Z_exact z : (- 2 ^ 53 <= z <= 2 ^ 53)%Z -> f64_of_Z z = Fin (inject_Z z).
Proof.
  intros Hz. unfold f64_of_Z. rewrite f64_fin.
  - by rewrite rnd_Z.
  - apply Qle_trans with (inject_Z (- 2 ^ 53)); [by vm_compute|]. rewrite <- Zle_Qle. lia.
  - apply Qle_trans with (inject_Z (2 ^ 53)); [rewrite <- Zle_Qle; lia|by vm_compute].
Qed.

(** Any rounded result is finite or an infinity of its sign. *)
Lemma f64_cases q : f64 q = Fin (rnd q) \/ f64 q = Inf (Qltb q 0).
Proof. unfold f64. case_match; auto. Qed.
