(* ===== verification/GoTime.v ===== *)
(** Go's [time] package as the program uses it.

    An instant is a number of nanoseconds since the zero [time.Time] (January 1
    of year 1), so [IsZero] is the test for 0; a duration is a signed number of
    nanoseconds that fits in an [int64].  The clock is never read inside the
    model: every operation takes the instant [now] it runs at. *)

From Stdlib Require Import QArith.
From S2P Require Import Prelude Float64.
Local Open Scope Z_scope.

Abbreviation Time := Z (only parsing).
Abbreviation Duration := Z (only parsing).

Definition Nanosecond : Duration := 1.
Definition Second : Duration := 1000000000.
Definition Minute : Duration := 60 * Second.
Definition Hour : Duration := 60 * Minute.

Definition IsZero (t : Time) : bool := t =? 0.
(** [t.After(u)] and [t.Before(u)] *)
Definition After (t u : Time) : bool := u <? t.
Definition Before (t u : Time) : bool := t <? u.
(** [t.Add(d)] *)
Definition Add (t : Time) (d : Duration) : Time := t + d.
(** [t.Sub(u)]: saturates at the extreme durations. *)
Definition Sub (t u : Time) : Duration := Z.max min_int64 (Z.min max_int64 (t - u)).

(** [d.Seconds()]: whole seconds plus the remaining nanoseconds as a fraction,
    each converted and divided in float64. *)
Definition Seconds (d : Duration) : float64 :=
  let sec := Z.quot d Second in
  let nsec := Z.rem d Second in
  fadd (f64_of_Z sec) (fdiv (f64_of_Z nsec) (f64 (1000000000 # 1))).

Lemma Sub_pos t u : (Sub t u >? 0) = (t >? u).
Proof.
  unfold Sub, min_int64, max_int64. rewrite !Z.gtb_ltb.
  destruct (Z.ltb_spec u t); [apply Z.ltb_lt|apply Z.ltb_ge]; lia.
Qed.

(** Below the saturation point a lower bound on [Sub] is one on the difference. *)
Lemma Sub_ge t u d : 0 <= d <= max_int64 -> (Sub t u >=? d) = (t - u >=? d).
Proof.
  unfold Sub, min_int64, max_int64. intros Hd. rewrite !Z.geb_leb.
  destruct (Z.leb_spec d (t - u)); [apply Z.leb_le|apply Z.leb_gt]; lia.
Qed.

Lemma Sub_gt t u d : 0 <= d < max_int64 -> (Sub t u >? d) = (t - u >? d).
Proof.
  unfold Sub, min_int64, max_int64. intros Hd. rewrite !Z.gtb_ltb.
  destruct (Z.ltb_spec d (t - u)); [apply Z.ltb_lt|apply Z.ltb_ge]; lia.
Qed.
