(* ===== verification/Json.v ===== *)
(** Go's [encoding/json] as the program uses it: the text.

    A document is kept the way the decoder's scanner sees it: strings and
    numbers as the bytes between their delimiters, which the decoder looks at
    only once it knows the field they go to.  The encoder's strings are escaped
    as [Marshal] does, with its HTML escaping.  Every document the encoder prints
    is read back by the scanner. *)

From S2P Require Import Prelude GoStrings GoConv.
Local Open Scope list_scope.
Local Open Scope Z_scope.

Definition QUOTE : ascii := ascii_of_N 34.
Definition BACKSLASH : ascii := ascii_of_N 92.

(** ** UTF-8 *)

(** The number of bytes of the rune at the head, as [utf8.DecodeRune] accepts
    it; 0 when the head byte begins none. *)
Definition rune_len (l : list ascii) : nat :=
  match l with
  | [] => 0%nat
  | a :: l =>
      let n := byte_val a in
      if n <? 128 then 1%nat
      else if n <? 194 then 0%nat
      else if n <? 224 then match l with b :: _ => if byte_in 128 191 b then 2%nat else 0%nat | [] => 0%nat end
      else if n <? 240 then
        match l with
        | b :: c :: _ =>
            if byte_in (if n =? 224 then 160 else 128) (if n =? 237 then 159 else 191) b && byte_in 128 191 c
            then 3%nat else 0%nat
        | _ => 0%nat
        end
      else if n <? 245 then
        match l with
        | b :: c :: d :: _ =>
            if byte_in (if n =? 240 then 144 else 128) (if n =? 244 then 143 else 191) b && byte_in 128 191 c &&
               byte_in 128 191 d
            then 4%nat else 0%nat
        | _ => 0%nat
        end
      else 0%nat
  end.

(** [utf8.AppendRune] for a code point that is not a surrogate. *)
Definition AppendRune (r : Z) : list ascii :=
  if r <? 128 then [byte_of r]
  else if r <? 2048 then [byte_of (192 + r / 64); byte_of (128 + r mod 64)]
  else if r <? 65536 then [byte_of (224 + r / 4096); byte_of (128 + r / 64 mod 64); byte_of (128 + r mod 64)]
  else [byte_of (240 + r / 262144); byte_of (128 + r / 4096 mod 64); byte_of (128 + r / 64 mod 64); byte_of (128 + r mod 64)].

Definition RuneError : Z := 65533.

(** A string with every byte that is part of no rune replaced by U+FFFD.  [skip]
    counts the bytes left of the rune being copied. *)
Fixpoint to_valid (skip : nat) (l : list ascii) : list ascii :=
  match l with
  | [] => []
  | a :: l' =>
      match skip with
      | S k => a :: to_valid k l'
      | O => match rune_len l with
             | O => AppendRune RuneError ++ to_valid 0 l'
             | S k => a :: to_valid k l'
             end
      end
  end.

Definition valid_utf8 (s : string) : Prop := to_valid 0 (bytes s) = bytes s.
#[global] Instance valid_utf8_dec s : Decision (valid_utf8 s).
Proof. unfold valid_utf8. apply _. Defined.

(** ** Strings *)

Definition hex_digit (d : Z) : ascii := ascii_of_N (Z.to_N (if d <? 10 then 48 + d else 87 + d)).
Definition hex_val (a : ascii) : option Z :=
  let n := byte_val a in
  if (48 <=? n) && (n <=? 57) then Some (n - 48)
  else if (97 <=? n) && (n <=? 102) then Some (n - 87)
  else if (65 <=? n) && (n <=? 70) then Some (n - 55)
  else None.

(** The escape of an ASCII byte: quotes, control characters and the characters
    [HTMLEscape] is concerned with. *)
Definition escape_byte (a : ascii) : list ascii :=
  let n := byte_val a in
  if (n =? 34) || (n =? 92) then [BACKSLASH; a]
  else if n =? 8 then [BACKSLASH; "b"%char] else if n =? 12 then [BACKSLASH; "f"%char]
  else if n =? 10 then [BACKSLASH; "n"%char] else if n =? 13 then [BACKSLASH; "r"%char]
  else if n =? 9 then [BACKSLASH; "t"%char]
  else if (n <? 32) || (n =? 60) || (n =? 62) || (n =? 38)
  then [BACKSLASH; "u"%char; "0"%char; "0"%char; hex_digit (n / 16); hex_digit (n mod 16)]
  else [a].

(** The line separators U+2028 and U+2029, which are escaped too. *)
Definition line_separator (a b c : ascii) : bool :=
  (byte_val a =? 226) && (byte_val b =? 128) && ((byte_val c =? 168) || (byte_val c =? 169)).

(** [appendString], between the quotes. *)
Fixpoint escape (skip : nat) (l : list ascii) : list ascii :=
  match l with
  | [] => []
  | a :: l' =>
      match skip with
      | S k => a :: escape k l'
      | O =>
          if byte_val a <? 128 then escape_byte a ++ escape 0 l'
          else match rune_len l with
          | O => BACKSLASH :: bytes "ufffd" ++ escape 0 l'
          | S k =>
              match l' with
              | b :: c :: l3 =>
                  if line_separator a b c
                  then BACKSLASH :: bytes "u202" ++ [hex_digit (byte_val c - 160)] ++ escape 0 l3
                  else a :: escape k l'
              | _ => a :: escape k l'
              end
          end
      end
  end.

(** The scanner's string states, from after the opening quote: the bytes up to
    the closing one, and what follows. *)
Definition simple_escape (e : ascii) : option ascii :=
  if bool_decide (e = QUOTE \/ e = BACKSLASH \/ e = "/"%char) then Some e
  else if Ascii.eqb e "b" then Some (ascii_of_N 8) else if Ascii.eqb e "f" then Some (ascii_of_N 12)
  else if Ascii.eqb e "n" then Some (ascii_of_N 10) else if Ascii.eqb e "r" then Some (ascii_of_N 13)
  else if Ascii.eqb e "t" then Some (ascii_of_N 9) else None.

Definition hex4 (a b c d : ascii) : option Z :=
  w ← hex_val a; x ← hex_val b; y ← hex_val c; z ← hex_val d; Some (w * 4096 + x * 256 + y * 16 + z).

Definition prefixed (p : list ascii) (r : option (list ascii * list ascii)) : option (list ascii * list ascii) :=
  '(raw, rest) ← r; Some (p ++ raw, rest).

Fixpoint scan_string (l : list ascii) : option (list ascii * list ascii) :=
  match l with
  | [] => None
  | a :: l1 =>
      if Ascii.eqb a QUOTE then Some ([], l1)
      else if Ascii.eqb a BACKSLASH then
        match l1 with
        | [] => None
        | e :: l2 =>
            if Ascii.eqb e "u" then
              match l2 with
              | h1 :: h2 :: h3 :: h4 :: l3 =>
                  match hex4 h1 h2 h3 h4 with
                  | Some _ => prefixed [a; e; h1; h2; h3; h4] (scan_string l3)
                  | None => None
                  end
              | _ => None
              end
            else match simple_escape e with Some _ => prefixed [a; e] (scan_string l2) | None => None end
        end
      else if byte_val a <? 32 then None
      else prefixed [a] (scan_string l1)
  end.

(** [utf16.IsSurrogate], and [utf16.DecodeRune] where it gives a rune. *)
Definition is_surrogate (r : Z) : bool := (55296 <=? r) && (r <? 57344).
Definition surrogate_pair (r1 r2 : Z) : option Z :=
  if (55296 <=? r1) && (r1 <? 56320) && (56320 <=? r2) && (r2 <? 57344)
  then Some ((r1 - 55296) * 1024 + (r2 - 56320) + 65536) else None.

(** [getu4]: the code of an escape at the head, and what follows it. *)
Definition getu4 (l : list ascii) : option Z :=
  match l with
  | a :: e :: h1 :: h2 :: h3 :: h4 :: _ => if Ascii.eqb a BACKSLASH && Ascii.eqb e "u" then hex4 h1 h2 h3 h4 else None
  | _ => None
  end.

(** [unquote] of the bytes between the quotes, which the scanner has accepted. *)
Fixpoint unquote (skip : nat) (l : list ascii) : list ascii :=
  match l with
  | [] => []
  | a :: l1 =>
      match skip with
      | S k => a :: unquote k l1
      | O =>
          if Ascii.eqb a BACKSLASH then
            match l1 with
            | [] => []
            | e :: l2 =>
                if Ascii.eqb e "u" then
                  match l2 with
                  | h1 :: h2 :: h3 :: h4 :: l3 =>
                      let r := default RuneError (hex4 h1 h2 h3 h4) in
                      if is_surrogate r then
                        match getu4 l3 ≫= surrogate_pair r, l3 with
                        | Some r, _ :: _ :: _ :: _ :: _ :: _ :: l4 => AppendRune r ++ unquote 0 l4
                        | _, _ => AppendRune RuneError ++ unquote 0 l3
                        end
                      else AppendRune r ++ unquote 0 l3
                  | _ => []
                  end
                else default e (simple_escape e) :: unquote 0 l2
            end
          else match rune_len l with
          | O => AppendRune RuneError ++ unquote 0 l1
          | S k => a :: unquote k l1
          end
      end
  end.

Example escape_text : of_bytes (escape 0 (bytes "a<b\")) = "a\u003cb\\".
Proof. reflexivity. Qed.
Example unquote_pair : of_bytes (unquote 0 (bytes "\ud83d\ude00\u00e9\ud800x")) = "😀é" +:+ of_bytes (AppendRune RuneError) +:+ "x".
Proof. vm_compute. reflexivity. Qed.

(** ** Strings read back *)

(** Where [k] bytes of a rune are left to copy. *)
Definition rune_tail (k : nat) (l : list ascii) : Prop :=
  (k <= length l)%nat /\ Forall (fun a => 128 <= byte_val a) (take k l).

Lemma rune_tail_0 l : rune_tail 0 l.
Proof. split; [lia|constructor]. Qed.
Lemma rune_tail_S k a l : rune_tail (S k) (a :: l) -> 128 <= byte_val a /\ rune_tail k l.
Proof. intros [H1 H2]. simpl in *. apply list.Forall_cons in H2 as [H2 H3]. repeat split; [done|lia|done]. Qed.

Lemma rune_len_tail a l k : rune_len (a :: l) = S k -> rune_tail k l /\ (byte_val a < 128 -> k = 0%nat).
Proof.
  unfold rune_len, byte_in. intros H. cases_match; bool_to_prop.
  all: split; [split; simpl; [lia|rewrite ?list.Forall_cons, list.Forall_nil; repeat split; lia]|lia].
Qed.

Lemma rune_len_ascii a l : byte_val a < 128 -> rune_len (a :: l) = 1%nat.
Proof. intros H. unfold rune_len. by rewrite (proj2 (Z.ltb_lt _ _) H). Qed.

(** The length of a rune is read off its own bytes. *)
Lemma rune_len_local a l k rest : rune_len (a :: l) = S k -> rune_len (a :: take k l ++ rest) = S k.
Proof.
  intros H. destruct l as [|b [|c [|d l]]]; unfold rune_len in *.
  all: repeat match type of H with context [if ?x then _ else _] => destruct x eqn:? end; simplify_eq; cbn [take app].
  all: repeat match goal with E : ?x = _ |- context [?x] => rewrite E end; done.
Qed.

Lemma escape_skip k l : rune_tail k l -> escape k l = take k l ++ escape 0 (drop k l).
Proof.
  revert l. induction k as [|k IH]; intros l Hk; [by rewrite take_0, drop_0|].
  destruct l as [|a l]; [by destruct Hk; simpl in *; lia|]. apply rune_tail_S in Hk as [_ Hk]. simpl. by rewrite IH.
Qed.

(** Escaped bytes are scanned and unquoted one by one. *)
Lemma scan_escape_byte a rest :
  byte_val a < 128 -> scan_string (escape_byte a ++ rest) = prefixed (escape_byte a) (scan_string rest).
Proof. intros Ha. destruct a as [[] [] [] [] [] [] [] []]; try reflexivity; by vm_compute in Ha. Qed.

Lemma unquote_escape_byte a rest : byte_val a < 128 -> unquote 0 (escape_byte a ++ rest) = a :: unquote 0 rest.
Proof. intros Ha. destruct a as [[] [] [] [] [] [] [] []]; try reflexivity; by vm_compute in Ha. Qed.

Lemma high_byte a : 128 <= byte_val a ->
  Ascii.eqb a QUOTE = false /\ Ascii.eqb a BACKSLASH = false /\ (byte_val a <? 32) = false.
Proof. intros Ha. destruct a as [[] [] [] [] [] [] [] []]; try (by vm_compute in Ha); done. Qed.

Lemma prefixed_app p q r : prefixed p (prefixed q r) = prefixed (p ++ q) r.
Proof. destruct r as [[raw rest]|]; simpl; [|done]. by rewrite app_assoc. Qed.

Lemma prefixed_nil r : prefixed [] r = r.
Proof. by destruct r as [[]|]. Qed.

Lemma scan_copied k l rest :
  rune_tail k l -> scan_string (take k l ++ rest) = prefixed (take k l) (scan_string rest).
Proof.
  revert l. induction k as [|k IH]; intros l Hk; [cbn [take app]; by rewrite prefixed_nil|].
  destruct l as [|a l]; [by destruct Hk; simpl in *; lia|]. apply rune_tail_S in Hk as [Ha Hk].
  destruct (high_byte a Ha) as (H1 & H2 & H3). cbn [take app scan_string]. rewrite H1, H2, H3, IH by done. apply prefixed_app.
Qed.

(** What the two line separators are. *)
Lemma separator_run a b c :
  line_separator a b c = true ->
  [a; b; c] = AppendRune 8232 /\ hex_digit (byte_val c - 160) = "8"%char \/
  [a; b; c] = AppendRune 8233 /\ hex_digit (byte_val c - 160) = "9"%char.
Proof.
  intros H. assert (E : forall x n, 0 <= n < 256 -> byte_val x = n -> x = byte_of n).
  { intros x n Hn Hx. symmetry. apply byte_of_val. by rewrite Z.mod_small. }
  unfold line_separator in H. bool_to_prop. apply orb_true_iff in H0 as [Hc|Hc]; apply Z.eqb_eq in Hc; [left|right].
  all: rewrite (E a 226), (E b 128) by (lia || done).
  all: split; [|by rewrite Hc].
  - rewrite (E c 168) by (lia || done). reflexivity.
  - rewrite (E c 169) by (lia || done). reflexivity.
Qed.

(** One step of the encoder: what it prints for the first rune [p] of [l], and
    the rest [l'] it goes on with. *)
Inductive escape_step : list ascii -> list ascii -> list ascii -> Prop :=
| step_ascii a l : byte_val a < 128 -> escape_step (a :: l) (escape_byte a) l
| step_bad a l : 128 <= byte_val a -> rune_len (a :: l) = 0%nat -> escape_step (a :: l) (BACKSLASH :: bytes "ufffd") l
| step_sep a b c l u : [a; b; c] = AppendRune u -> (u = 8232 \/ u = 8233) ->
    escape_step (a :: b :: c :: l) (BACKSLASH :: bytes "u202" ++ [if u =? 8232 then "8"%char else "9"%char]) l
| step_rune a k l l' : 128 <= byte_val a -> rune_len (a :: l) = S k -> rune_tail k l -> l' = drop k l ->
    escape_step (a :: l) (a :: take k l) l'.

Lemma escape_cases a l : exists p l', escape_step (a :: l) p l' /\ escape 0 (a :: l) = p ++ escape 0 l' /\ (length l' <= length l)%nat.
Proof.
  destruct (Z.ltb_spec (byte_val a) 128) as [Ha|Ha].
  { exists (escape_byte a), l. split; [by constructor|]. cbn [escape]. by rewrite (proj2 (Z.ltb_lt _ _) Ha). }
  pose proof (proj2 (Z.ltb_ge _ _) Ha) as Ha'. destruct (rune_len (a :: l)) as [|k] eqn:Hk.
  { exists (BACKSLASH :: bytes "ufffd"), l. split; [by constructor|]. cbn [escape]. by rewrite Ha', Hk. }
  assert (Hgo : a :: escape k l = (a :: take k l) ++ escape 0 (drop k l)).
  { rewrite escape_skip; [done|]. by apply rune_len_tail in Hk as []. }
  assert (Hrune : escape_step (a :: l) (a :: take k l) (drop k l)).
  { apply (step_rune a k l); try done. by apply rune_len_tail in Hk as []. }
  assert (Hlen : (length (drop k l) <= length l)%nat) by (rewrite length_drop; lia).
  assert (Hcopy : escape 0 (a :: l) = a :: escape k l ->
            exists p l', escape_step (a :: l) p l' /\ escape 0 (a :: l) = p ++ escape 0 l' /\ (length l' <= length l)%nat).
  { intros E. exists (a :: take k l), (drop k l). by rewrite E. }
  destruct l as [|b [|c l3]]; [by apply Hcopy; cbn [escape]; rewrite Ha', Hk..|].
  destruct (line_separator a b c) eqn:Hs.
  - destruct (separator_run a b c Hs) as [[E Eh]|[E Eh]].
    + eexists _, l3. split; [by apply (step_sep a b c l3 8232); auto|]. cbn [escape]. rewrite Ha', Hk, Hs, Eh. split; [done|simpl; lia].
    + eexists _, l3. split; [by apply (step_sep a b c l3 8233); auto|]. cbn [escape]. rewrite Ha', Hk, Hs, Eh. split; [done|simpl; lia].
  - apply Hcopy. cbn [escape]. by rewrite Ha', Hk, Hs.
Qed.

(** Induction along the runes of a string. *)
Lemma escape_ind (P : list ascii -> Prop) :
  P [] -> (forall a l p l', escape_step (a :: l) p l' -> escape 0 (a :: l) = p ++ escape 0 l' -> P l' -> P (a :: l)) ->
  forall l, P l.
Proof.
  intros H0 HS l. remember (length l) as n eqn:Hn. assert (Hle : (length l <= n)%nat) by lia. clear Hn.
  revert l Hle. induction n as [|n IH]; intros [|a l] Hle; [done|simpl in Hle; lia|done|].
  destruct (escape_cases a l) as (p & l' & Hs & He & Hl). apply (HS a l p l' Hs He), IH. simpl in Hle. lia.
Qed.

(** The scanner finds the end of every escaped string. *)
Lemma scan_escape l rest : scan_string (escape 0 l ++ QUOTE :: rest) = Some (escape 0 l, rest).
Proof.
  induction l as [|a l p l' Hs E IH] using escape_ind; [done|]. rewrite E, <- app_assoc.
  assert (Hp : scan_string (p ++ escape 0 l' ++ QUOTE :: rest) = prefixed p (scan_string (escape 0 l' ++ QUOTE :: rest))).
  { inversion Hs as [a' l0 Ha|a' l0 Ha Hk|a' b c l0 u Eu Hu|a' k l0 l1 Ha Hk Ht]; subst.
    - by apply scan_escape_byte.
    - reflexivity.
    - by destruct (u =? 8232).
    - destruct (high_byte a Ha) as (H1 & H2 & H3). cbn [app scan_string]. rewrite H1, H2, H3, scan_copied by done. apply prefixed_app. }
  by rewrite Hp, IH.
Qed.

Lemma to_valid_skip k l : rune_tail k l -> to_valid k l = take k l ++ to_valid 0 (drop k l).
Proof.
  revert l. induction k as [|k IH]; intros l Hk; [by rewrite drop_0|].
  destruct l as [|a l]; [by destruct Hk; simpl in *; lia|]. apply rune_tail_S in Hk as [_ Hk]. simpl. by rewrite IH.
Qed.
Lemma unquote_skip k l rest : rune_tail k l -> unquote k (take k l ++ rest) = take k l ++ unquote 0 rest.
Proof.
  revert l. induction k as [|k IH]; intros l Hk; [done|].
  destruct l as [|a l]; [by destruct Hk; simpl in *; lia|]. apply rune_tail_S in Hk as [_ Hk]. simpl. by rewrite IH.
Qed.

(** And unquoting it gives the string back, with U+FFFD for what is not UTF-8. *)
Lemma unquote_escape l : unquote 0 (escape 0 l) = to_valid 0 l.
Proof.
  induction l as [|a l p l' Hs E IH] using escape_ind; [done|]. rewrite E.
  inversion Hs as [a' l0 Ha|a' l0 Ha Hk|a' b c l0 u Eu Hu|a' k l0 l1 Ha Hk Ht]; subst.
  - rewrite unquote_escape_byte, IH by done. cbn [to_valid]. by rewrite (rune_len_ascii a l' Ha).
  - change (AppendRune RuneError ++ unquote 0 (escape 0 l') = to_valid 0 (a :: l')). cbn [to_valid]. by rewrite Hk, IH.
  - transitivity ([a; b; c] ++ unquote 0 (escape 0 l')); [rewrite Eu; by destruct Hu as [->| ->]|]. rewrite IH. symmetry.
    destruct Hu as [->| ->]; injection Eu as -> -> ->; reflexivity.
  - destruct (high_byte a Ha) as (_ & H2 & _). cbn [app unquote to_valid]. rewrite H2, Hk.
    rewrite (rune_len_local a l k) by done. rewrite unquote_skip, IH by done. by rewrite <- to_valid_skip.
Qed.

Lemma unquote_valid s : valid_utf8 s -> of_bytes (unquote 0 (escape 0 (bytes s))) = s.
Proof. intros H. by rewrite unquote_escape, H, of_bytes_bytes. Qed.

(** ** Documents *)

Inductive json :=
| JNull
| JBool (b : bool)
| JNum (text : list ascii)
| JStr (raw : list ascii)
| JArr (l : list json)
| JObj (l : list (list ascii * json)).

(** Elements separated by commas. *)
Fixpoint commas (l : list (list ascii)) : list ascii :=
  match l with
  | [] => []
  | [x] => x
  | x :: l => x ++ ","%char :: commas l
  end.

Definition quoted (raw : list ascii) : list ascii := QUOTE :: raw ++ [QUOTE].

(** The encoder's output. *)
Fixpoint print (j : json) : list ascii :=
  match j with
  | JNull => bytes "null"
  | JBool b => bytes (FormatBool b)
  | JNum text => text
  | JStr raw => quoted raw
  | JArr l => "["%char :: commas (map print l) ++ ["]"%char]
  | JObj l => "{"%char :: commas (map (fun m => quoted m.1 ++ ":"%char :: print m.2) l) ++ ["}"%char]
  end.

Definition json_space (a : ascii) : bool := bool_decide (byte_val a ∈ [32; 9; 10; 13]).
Fixpoint skip_space (l : list ascii) : list ascii :=
  match l with a :: l' => if json_space a then skip_space l' else l | [] => [] end.

(** The digits at the head. *)
Fixpoint span_digits (l : list ascii) : list ascii * list ascii :=
  match l with
  | a :: l' => if is_digit a then let '(ds, rest) := span_digits l' in (a :: ds, rest) else ([], l)
  | [] => ([], [])
  end.

(** The parts of a number: each returns the bytes it takes. *)
Definition scan_minus (l : list ascii) : list ascii * list ascii :=
  match l with a :: l' => if Ascii.eqb a "-" then ([a], l') else ([], l) | [] => ([], l) end.
Definition scan_int (l : list ascii) : option (list ascii * list ascii) :=
  match l with
  | a :: l' => if Ascii.eqb a "0" then Some ([a], l') else if is_digit a then Some (span_digits l) else None
  | [] => None
  end.
Definition scan_frac (l : list ascii) : option (list ascii * list ascii) :=
  match l with
  | a :: l' =>
      if Ascii.eqb a "." then match span_digits l' with ([], _) => None | (ds, rest) => Some (a :: ds, rest) end
      else Some ([], l)
  | [] => Some ([], [])
  end.
Definition scan_exp (l : list ascii) : option (list ascii * list ascii) :=
  match l with
  | a :: l' =>
      if Ascii.eqb a "e" || Ascii.eqb a "E" then
        let '(sign, l'') := match l' with
                            | b :: l'' => if Ascii.eqb b "+" || Ascii.eqb b "-" then ([b], l'') else ([], l')
                            | [] => ([], l')
                            end in
        match span_digits l'' with ([], _) => None | (ds, rest) => Some (a :: sign ++ ds, rest) end
      else Some ([], l)
  | [] => Some ([], [])
  end.
Definition scan_number (l : list ascii) : option (list ascii * list ascii) :=
  let '(m, l) := scan_minus l in
  '(i, l) ← scan_int l; '(f, l) ← scan_frac l; '(e, l) ← scan_exp l;
  Some (m ++ i ++ f ++ e, l).

(** A keyword after its first letter. *)
Definition scan_word (w : string) (j : json) (l : list ascii) : option (json * list ascii) :=
  if has_prefix (bytes w) l then Some (j, drop (length (bytes w)) l) else None.

Definition maxNestingDepth : Z := 10000.

(** The scanner with the structure it finds.  [depth] is the number of open
    arrays and objects; a byte is taken at least every other call, so twice the
    length of the text is fuel enough ([scan_fuel]). *)
Fixpoint scan_value (fuel : nat) (depth : Z) (l : list ascii) : option (json * list ascii) :=
  match fuel with
  | O => None
  | S fuel =>
      match skip_space l with
      | [] => None
      | a :: l =>
          if Ascii.eqb a "{" then
            if depth + 1 >? maxNestingDepth then None
            else match skip_space l with
            | b :: rest => if Ascii.eqb b "}" then Some (JObj [], rest)
                           else '(ms, rest) ← scan_members fuel (depth + 1) l; Some (JObj ms, rest)
            | [] => None
            end
          else if Ascii.eqb a "[" then
            if depth + 1 >? maxNestingDepth then None
            else match skip_space l with
            | b :: rest => if Ascii.eqb b "]" then Some (JArr [], rest)
                           else '(js, rest) ← scan_elements fuel (depth + 1) l; Some (JArr js, rest)
            | [] => None
            end
          else if Ascii.eqb a QUOTE then '(raw, rest) ← scan_string l; Some (JStr raw, rest)
          else if Ascii.eqb a "t" then scan_word "rue" (JBool true) l
          else if Ascii.eqb a "f" then scan_word "alse" (JBool false) l
          else if Ascii.eqb a "n" then scan_word "ull" JNull l
          else '(text, rest) ← scan_number (a :: l); Some (JNum text, rest)
      end
  end
with scan_elements (fuel : nat) (depth : Z) (l : list ascii) : option (list json * list ascii) :=
  match fuel with
  | O => None
  | S fuel =>
      '(j, l) ← scan_value fuel depth l;
      match skip_space l with
      | a :: l =>
          if Ascii.eqb a "," then '(js, l) ← scan_elements fuel depth l; Some (j :: js, l)
          else if Ascii.eqb a "]" then Some ([j], l) else None
      | [] => None
      end
  end
with scan_members (fuel : nat) (depth : Z) (l : list ascii) : option (list (list ascii * json) * list ascii) :=
  match fuel with
  | O => None
  | S fuel =>
      match skip_space l with
      | a :: l =>
          if negb (Ascii.eqb a QUOTE) then None
          else
            '(key, l) ← scan_string l;
            match skip_space l with
            | b :: l =>
                if negb (Ascii.eqb b ":") then None
                else
                  '(j, l) ← scan_value fuel depth l;
                  match skip_space l with
                  | c :: l =>
                      if Ascii.eqb c "," then '(ms, l) ← scan_members fuel depth l; Some ((key, j) :: ms, l)
                      else if Ascii.eqb c "}" then Some ([(key, j)], l) else None
                  | [] => None
                  end
            | [] => None
            end
      | [] => None
      end
  end.

Definition scan (l : list ascii) : option (json * list ascii) := scan_value (2 * length l + 1) 0 l.

(** Examples are written with ' for the quotes. *)
Definition ticks (s : string) : list ascii := (fun a => if Ascii.eqb a "'" then QUOTE else a) <$> bytes s.

Example scan_text :
  scan (ticks " {'a' : [1.5e3, -0,true , null],'b':{} }x")
  = Some (JObj [(bytes "a", JArr [JNum (bytes "1.5e3"); JNum (bytes "-0"); JBool true; JNull]); (bytes "b", JObj [])], ["x"%char]).
Proof. reflexivity. Qed.

(** ** Documents read back *)

(** What may follow a number without being read as part of it. *)
Definition stops (rest : list ascii) : bool :=
  match rest with
  | [] => true
  | a :: _ => negb (is_digit a || bool_decide (a ∈ ["."; "e"; "E"]%char))
  end.

Definition local (f : list ascii -> option (list ascii * list ascii)) : Prop :=
  forall t p r rest, f t = Some (p, r) -> stops rest = true -> f (t ++ rest) = Some (p, r ++ rest).

Lemma stops_digit a l : stops (a :: l) = true -> is_digit a = false /\ Ascii.eqb a "." = false /\ Ascii.eqb a "e" = false /\ Ascii.eqb a "E" = false.
Proof.
  unfold stops. intros H. bool_to_prop. split; [done|].
  repeat split; apply Ascii.eqb_neq; intros ->; apply H0; set_solver.
Qed.

Lemma span_digits_app t p r rest :
  span_digits t = (p, r) -> stops rest = true -> span_digits (t ++ rest) = (p, r ++ rest).
Proof.
  revert p r. induction t as [|a t IH]; intros p r H Hr; cbn [span_digits app] in *.
  - injection H as <- <-. destruct rest as [|a rest]; [done|]. apply stops_digit in Hr as (Hd & _). cbn [span_digits]. by rewrite Hd.
  - destruct (is_digit a); [|by simplify_eq]. destruct (span_digits t) as [ds r'] eqn:E. simplify_eq.
    by rewrite (IH ds r eq_refl Hr).
Qed.

(** Digits up to a byte that is none. *)
Definition no_digit (rest : list ascii) : bool := match rest with a :: _ => negb (is_digit a) | [] => true end.

Lemma stops_no_digit rest : stops rest = true -> no_digit rest = true.
Proof. destruct rest as [|a rest]; [done|]. intros H. apply stops_digit in H as (H & _). cbn. by rewrite H. Qed.

Lemma span_digits_run l rest : Forall (fun a => is_digit a = true) l -> no_digit rest = true -> span_digits (l ++ rest) = (l, rest).
Proof.
  intros Hl Hr. induction Hl as [|a l Ha _ IH]; cbn [app span_digits].
  - destruct rest as [|a rest]; [done|]. cbn in *. by destruct (is_digit a).
  - by rewrite Ha, IH.
Qed.

Lemma scan_int_local : local scan_int.
Proof.
  intros [|a t] p r rest H Hr; [done|]. cbn [scan_int app] in *. destruct (Ascii.eqb a "0"); [by simplify_eq|].
  destruct (is_digit a) eqn:Ha; [|done]. injection H as H. f_equal. by apply (span_digits_app (a :: t)).
Qed.

Lemma scan_frac_local : local scan_frac.
Proof.
  intros [|a t] p r rest H Hr; cbn [scan_frac app] in *.
  - simplify_eq. destruct rest as [|a rest]; [done|]. apply stops_digit in Hr as (_ & Hd & _). cbn [scan_frac]. by rewrite Hd.
  - destruct (Ascii.eqb a "."); [|by simplify_eq]. destruct (span_digits t) as [[|d ds] r'] eqn:E; [done|].
    rewrite (span_digits_app t _ _ rest E Hr). by simplify_eq.
Qed.

Lemma scan_exp_local : local scan_exp.
Proof.
  intros [|a t] p r rest H Hr; cbn [scan_exp app] in *.
  - simplify_eq. destruct rest as [|a rest]; [done|]. apply stops_digit in Hr as (_ & _ & H1 & H2). cbn [scan_exp]. by rewrite H1, H2.
  - destruct (Ascii.eqb a "e" || Ascii.eqb a "E"); [|by simplify_eq].
    destruct t as [|b t]; [by cbn in H|]. cbn [app].
    destruct (Ascii.eqb b "+" || Ascii.eqb b "-").
    + destruct (span_digits t) as [[|d ds] r'] eqn:E; [done|]. rewrite (span_digits_app t _ _ rest E Hr). by simplify_eq.
    + destruct (span_digits (b :: t)) as [[|d ds] r'] eqn:E; [done|].
      rewrite (span_digits_app (b :: t) _ _ rest E Hr : span_digits (b :: t ++ rest) = _). by simplify_eq.
Qed.

Lemma scan_number_local : local scan_number.
Proof.
  intros t p r rest H Hr. unfold scan_number in *. destruct t as [|a t]; [done|]. cbn [scan_minus app] in *.
  destruct (Ascii.eqb a "-"); apply bind_Some in H as ([i l1] & H1 & H); apply bind_Some in H as ([f l2] & H2 & H);
    apply bind_Some in H as ([e l3] & H3 & H); simplify_eq.
  - by rewrite (scan_int_local _ _ _ rest H1 Hr); cbn; rewrite (scan_frac_local _ _ _ rest H2 Hr); cbn; rewrite (scan_exp_local _ _ _ rest H3 Hr).
  - rewrite (scan_int_local (a :: t) _ _ rest H1 Hr : scan_int (a :: t ++ rest) = _). cbn.
    by rewrite (scan_frac_local _ _ _ rest H2 Hr); cbn; rewrite (scan_exp_local _ _ _ rest H3 Hr).
Qed.

(** Induction through the lists of a document. *)
Lemma json_nested_ind (P : json -> Prop) :
  P JNull -> (forall b, P (JBool b)) -> (forall t, P (JNum t)) -> (forall raw, P (JStr raw)) ->
  (forall l, Forall P l -> P (JArr l)) -> (forall l, Forall (fun m => P m.2) l -> P (JObj l)) -> forall j, P j.
Proof.
  intros Hn Hb Ht Hs Ha Ho. fix IH 1. intros [|b|t|raw|l|l]; [exact Hn|apply Hb|apply Ht|apply Hs|apply Ha|apply Ho].
  - induction l as [|x l IHl]; constructor; [apply IH|exact IHl].
  - induction l as [|[k x] l IHl]; constructor; [apply IH|exact IHl].
Qed.

(** The documents the encoder builds: escaped strings, texts of numbers. *)
Definition escaped (raw : list ascii) : Prop := exists s, raw = escape 0 s.
Definition number_ok (t : list ascii) : Prop := scan_number t = Some (t, []).

Fixpoint encoded (j : json) : Prop :=
  match j with
  | JNull | JBool _ => True
  | JNum t => number_ok t
  | JStr raw => escaped raw
  | JArr l => foldr (fun x acc => encoded x /\ acc) True l
  | JObj l => foldr (fun m acc => escaped m.1 /\ encoded m.2 /\ acc) True l
  end.

Fixpoint nesting (j : json) : Z :=
  match j with
  | JArr l => 1 + foldr (fun x acc => Z.max (nesting x) acc) 0 l
  | JObj l => 1 + foldr (fun m acc => Z.max (nesting m.2) acc) 0 l
  | _ => 0
  end.

Lemma escaped_scan raw rest : escaped raw -> scan_string (raw ++ QUOTE :: rest) = Some (raw, rest).
Proof. intros [s ->]. apply scan_escape. Qed.

(** A number starts with a digit or a minus sign. *)
Lemma number_head t : number_ok t ->
  exists a t', t = a :: t' /\ json_space a = false /\ a <> "]"%char /\ a <> "}"%char /\
    forall l, Ascii.eqb a "{" = false /\ Ascii.eqb a "[" = false /\ Ascii.eqb a QUOTE = false /\ Ascii.eqb a "t" = false /\
      Ascii.eqb a "f" = false /\ Ascii.eqb a "n" = false /\ (l : list ascii) = l.
Proof.
  intros H. destruct t as [|a t]; [done|]. exists a, t. split; [done|].
  assert (Ha : Ascii.eqb a "-" = true \/ is_digit a = true).
  { unfold number_ok, scan_number in H. cbn [scan_minus] in H. destruct (Ascii.eqb a "-"); [by left|right].
    apply bind_Some in H as ([i l1] & H1 & _). cbn [scan_int] in H1. destruct (Ascii.eqb a "0") eqn:E.
    - by apply Ascii.eqb_eq in E as ->.
    - by destruct (is_digit a). }
  clear H. destruct a as [[] [] [] [] [] [] [] []]; destruct Ha; try discriminate; repeat split; discriminate.
Qed.

Lemma print_head j : encoded j -> exists a t, print j = a :: t /\ json_space a = false /\ a <> "]"%char /\ a <> "}"%char.
Proof.
  destruct j as [|[]|t|raw|l|l]; intros H; try (by eexists _, _).
  destruct (number_head t H) as (a & t' & -> & H1 & H2 & H3 & _). by exists a, t'.
Qed.

Lemma skip_printed j rest : encoded j -> skip_space (print j ++ rest) = print j ++ rest.
Proof. intros H. destruct (print_head j H) as (a & t & -> & Hs & _). cbn [app skip_space]. by rewrite Hs. Qed.

(** Only the end of a number depends on what follows it. *)
Definition is_number (j : json) : bool := match j with JNum _ => true | _ => false end.

Section ReadBack.
Variable rest : list ascii.

Definition reads_back (j : json) : Prop :=
  encoded j -> forall fuel depth after, (2 * length (print j) <= fuel)%nat -> depth + nesting j <= maxNestingDepth ->
  (is_number j = true -> stops after = true) -> scan_value fuel depth (print j ++ after) = Some (j, after).

Lemma commas_cons x y l : commas (x :: y :: l) = x ++ ","%char :: commas (y :: l).
Proof. done. Qed.

Lemma elements_read l fuel depth :
  l <> [] -> Forall reads_back l -> foldr (fun x acc => encoded x /\ acc) True l ->
  (2 * length (commas (map print l)) + 1 <= fuel)%nat -> depth + foldr (fun x acc => Z.max (nesting x) acc) 0 l <= maxNestingDepth ->
  scan_elements fuel depth (commas (map print l) ++ "]"%char :: rest) = Some (l, rest).
Proof.
  revert fuel. induction l as [|x l IH]; intros fuel Hne Hr He Hf Hd; [done|]. clear Hne.
  apply list.Forall_cons in Hr as [Hx Hr]. destruct He as [Ex He]. cbn [foldr] in Hd.
  destruct fuel as [|fuel]; [lia|]. cbn [scan_elements]. destruct l as [|y l].
  - cbn [map commas] in *. rewrite Hx by (done || lia). done.
  - cbn [map] in *. rewrite commas_cons in *. rewrite <- app_assoc. rewrite length_app in Hf. cbn [length] in Hf.
    rewrite Hx by (done || lia). cbn [mbind option_bind app skip_space]. change (json_space ",") with false. cbv iota.
    change (Ascii.eqb "," ",") with true. cbv iota. by rewrite IH by (done || lia).
Qed.

Lemma members_read l fuel depth :
  l <> [] -> Forall (fun m => reads_back m.2) l -> foldr (fun m acc => escaped m.1 /\ encoded m.2 /\ acc) True l ->
  (2 * length (commas (map (fun m => quoted m.1 ++ ":"%char :: print m.2) l)) <= fuel)%nat ->
  depth + foldr (fun m acc => Z.max (nesting m.2) acc) 0 l <= maxNestingDepth ->
  scan_members fuel depth (commas (map (fun m => quoted m.1 ++ ":"%char :: print m.2) l) ++ "}"%char :: rest) = Some (l, rest).
Proof.
  revert fuel. induction l as [|[k x] l IH]; intros fuel Hne Hr He Hf Hd; [done|]. clear Hne.
  apply list.Forall_cons in Hr as [Hx Hr]. destruct He as (Ek & Ex & He). cbn [foldr fst snd] in *.
  assert (Hgo : forall fuel after l' out,
    (2 * length (print x) <= fuel)%nat ->
    stops after = true -> after <> [] ->
    match skip_space after with
    | c :: l => if Ascii.eqb c "," then '(ms, l) ← scan_members fuel depth l; Some ((k, x) :: ms, l)
                else if Ascii.eqb c "}" then Some ([(k, x)], l) else None
    | [] => None
    end = Some (l', out) ->
    scan_members (S fuel) depth ((quoted k ++ ":"%char :: print x) ++ after) = Some (l', out)).
  { intros f after l' out Hf' Hst _ Hk. unfold quoted. rewrite <- !app_assoc. cbn [app scan_members skip_space].
    change (json_space QUOTE) with false. cbv iota. change (negb (Ascii.eqb QUOTE QUOTE)) with false. cbv iota.
    rewrite <- app_assoc. cbn [app]. rewrite escaped_scan by done. cbn [mbind option_bind skip_space].
    change (json_space ":") with false. cbv iota. change (negb (Ascii.eqb ":" ":")) with false. cbv iota.
    rewrite Hx by (done || lia). exact Hk. }
  destruct fuel as [|fuel]; [destruct l; cbn in Hf; lia|]. destruct l as [|y l].
  - cbn [map commas] in *. apply Hgo; try done. rewrite length_app in Hf. cbn in Hf. lia.
  - cbn [map fst snd] in *. rewrite commas_cons in *. rewrite <- app_assoc. rewrite !length_app in Hf. cbn [length] in Hf.
    apply Hgo; [lia|done|done|]. cbn [app skip_space]. change (json_space ",") with false. cbv iota.
    change (Ascii.eqb "," ",") with true. cbv iota. by rewrite IH by (done || lia).
Qed.
End ReadBack.

Lemma commas_head (p : list ascii) l rest a t : p = a :: t -> exists t', commas (p :: l) ++ rest = a :: t'.
Proof. intros ->. destruct l; cbn; eauto. Qed.

(** A printed document is scanned to itself. *)
Lemma scan_print j : reads_back j.
Proof.
  induction j as [|b|t|raw|l IH|l IH] using json_nested_ind; intros He fuel depth after Hf Hd Hst.
  all: destruct fuel as [|fuel]; [cbn in Hf; try (destruct b; cbn in Hf); try lia|].
  - done.
  - by destruct b.
  - destruct (number_head t He) as (a & t' & -> & _). cbn in Hf. lia.
  - cbn [print]. destruct (number_head t He) as (a & t' & -> & Hs & _ & _ & Hn).
    destruct (Hn []) as (H1 & H2 & H3 & H4 & H5 & H6 & _). cbn [app scan_value skip_space]. rewrite Hs, H1, H2, H3, H4, H5, H6.
    pose proof (scan_number_local (a :: t') _ [] after He (Hst eq_refl)) as E. cbn [app] in E. rewrite E. done.
  - cbn [print]. unfold quoted. cbn [app scan_value skip_space]. change (json_space QUOTE) with false. cbv iota.
    rewrite <- app_assoc. cbn [app]. by rewrite escaped_scan.
  - cbn [print nesting encoded] in *. cbn [app scan_value skip_space]. change (json_space "[") with false. cbv iota.
    change (Ascii.eqb "[" "{") with false. change (Ascii.eqb "[" "[") with true. cbv iota.
    destruct (Z.gtb_spec (depth + 1) maxNestingDepth); [|].
    { exfalso. assert (0 <= foldr (fun x acc => Z.max (nesting x) acc) 0 l); [|lia]. clear. induction l; cbn; lia. }
    rewrite <- app_assoc. cbn [app]. destruct l as [|x l]; [done|].
    destruct He as [Ex He']. destruct (print_head x Ex) as (a & p & Ep & Hs & H1 & _).
    pose proof (elements_read after (x :: l) fuel (depth + 1)) as HE. cbn [length] in Hf. rewrite length_app in Hf.
    rewrite HE by (done || (cbn [length] in Hf; lia)).
    destruct (commas_head (print x) (map print l) ("]"%char :: after) a p Ep) as [t' Et].
    change (map print (x :: l)) with (print x :: map print l). rewrite Et. cbn [skip_space]. rewrite Hs.
    by rewrite (proj2 (Ascii.eqb_neq a "]") H1).
  - cbn [print nesting encoded] in *. cbn [app scan_value skip_space]. change (json_space "{") with false. cbv iota.
    change (Ascii.eqb "{" "{") with true. cbv iota.
    destruct (Z.gtb_spec (depth + 1) maxNestingDepth); [|].
    { exfalso. assert (0 <= foldr (fun m acc => Z.max (nesting m.2) acc) 0 l); [|lia]. clear. induction l; cbn; lia. }
    rewrite <- app_assoc. cbn [app]. destruct l as [|[k x] l]; [done|].
    pose proof (members_read after ((k, x) :: l) fuel (depth + 1)) as HE. cbn [length] in Hf. rewrite length_app in Hf.
    rewrite HE by (done || (cbn [length] in Hf; lia)).
    set (p := quoted k ++ ":"%char :: print x).
    destruct (commas_head p (map (fun m => quoted m.1 ++ ":"%char :: print m.2) l) ("}"%char :: after) QUOTE (k ++ QUOTE :: ":"%char :: print x)) as [t' Et].
    { unfold p, quoted. cbn [app]. by rewrite <- app_assoc. }
    change (map (fun m => quoted m.1 ++ ":"%char :: print m.2) ((k, x) :: l)) with (p :: map (fun m => quoted m.1 ++ ":"%char :: print m.2) l).
    rewrite Et. done.
Qed.

(** ** The fuel is enough *)

Lemma skip_space_le l : (length (skip_space l) <= length l)%nat.
Proof. induction l as [|a l IH]; cbn [skip_space]; [done|]. destruct (json_space a); cbn [length]; lia. Qed.

Lemma skip_space_lt l a l' : skip_space l = a :: l' -> (length l' < length l)%nat.
Proof. intros E. pose proof (skip_space_le l) as H. rewrite E in H. cbn in H. lia. Qed.

Lemma prefixed_Some p r raw rest : prefixed p r = Some (raw, rest) -> exists raw', r = Some (raw', rest).
Proof. destruct r as [[]|]; cbn; intros H; simplify_eq. eauto. Qed.

Lemma scan_string_lt l raw rest : scan_string l = Some (raw, rest) -> (length rest < length l)%nat.
Proof.
  revert raw. remember (length l) as n eqn:Hn. assert (Hle : (length l <= n)%nat) by lia.
  enough (forall n l raw, (length l <= n)%nat -> scan_string l = Some (raw, rest) -> (length rest < length l)%nat) as G
    by (intros raw H; rewrite Hn; by apply (G n l raw)). clear.
  induction n as [|n IH]; intros [|a l] raw Hle; try done; [cbn in Hle; lia|]. cbn [scan_string length] in *.
  destruct (Ascii.eqb a QUOTE); [intros; simplify_eq; lia|]. destruct (Ascii.eqb a BACKSLASH).
  - destruct l as [|e l]; [done|]. cbn [length] in *. destruct (Ascii.eqb e "u").
    + destruct l as [|h1 [|h2 [|h3 [|h4 l]]]]; try done. destruct (hex4 h1 h2 h3 h4); [|done]. cbn [length] in *.
      intros H. apply prefixed_Some in H as [raw' H]. apply IH in H; lia.
    + destruct (simple_escape e); [|done]. intros H. apply prefixed_Some in H as [raw' H]. apply IH in H; lia.
  - destruct (byte_val a <? 32); [done|]. intros H. apply prefixed_Some in H as [raw' H]. apply IH in H; lia.
Qed.

Lemma span_digits_le l : (length (span_digits l).2 <= length l)%nat.
Proof. induction l as [|a l IH]; cbn [span_digits]; [done|]. destruct (is_digit a); [|done]. destruct (span_digits l). cbn in *. lia. Qed.

Lemma scan_number_lt l text rest : scan_number l = Some (text, rest) -> (length rest < length l)%nat.
Proof.
  unfold scan_number. destruct (scan_minus l) as [m l0] eqn:E0. intros H.
  assert (H0 : (length l0 <= length l)%nat) by (destruct l as [|a l]; cbn in E0; [by simplify_eq|]; destruct (Ascii.eqb a "-"); simplify_eq; cbn; lia).
  apply bind_Some in H as ([i l1] & H1 & H); apply bind_Some in H as ([f l2] & H2 & H); apply bind_Some in H as ([e l3] & H3 & H); simplify_eq.
  assert (length l1 < length l0)%nat.
  { destruct l0 as [|a l0]; [done|]. cbn [scan_int] in H1. destruct (Ascii.eqb a "0"); [simplify_eq; cbn; lia|].
    destruct (is_digit a) eqn:Ha; [|done]. cbn [span_digits] in H1. rewrite Ha in H1. pose proof (span_digits_le l0).
    destruct (span_digits l0); cbn in *. simplify_eq. lia. }
  assert (length l2 <= length l1)%nat.
  { destruct l1 as [|a l1]; cbn [scan_frac] in H2; [by simplify_eq|]. destruct (Ascii.eqb a "."); [|by simplify_eq].
    pose proof (span_digits_le l1). destruct (span_digits l1) as [[|] ?]; cbn in *; simplify_eq. lia. }
  assert (length rest <= length l2)%nat; [|lia].
  destruct l2 as [|a l2]; cbn [scan_exp] in H3; [by simplify_eq|]. destruct (_ || _); [|by simplify_eq].
  destruct l2 as [|b l2]; [done|]. destruct (Ascii.eqb b "+" || Ascii.eqb b "-").
  - pose proof (span_digits_le l2). destruct (span_digits l2) as [[|] ?]; cbn in *; simplify_eq. lia.
  - pose proof (span_digits_le (b :: l2)). destruct (span_digits (b :: l2)) as [[|] ?]; cbn in *; simplify_eq. lia.
Qed.

(** Case analysis along the scanner's branches. *)
Ltac scan_cases H :=
  repeat match type of H with
  | match ?x with _ => _ end = Some _ => destruct x eqn:?; try discriminate H
  | _ ≫= _ = Some _ => apply bind_Some in H as ([] & ? & H)
  end.

Lemma scan_word_le w j l j' rest : scan_word w j l = Some (j', rest) -> (length rest <= length l)%nat.
Proof. unfold scan_word. intros H. scan_cases H. simplify_eq. rewrite length_drop. lia. Qed.

Ltac scan_bounds :=
  repeat match goal with
  | H : skip_space _ = _ :: _ |- _ => apply skip_space_lt in H
  | H : scan_string _ = Some _ |- _ => apply scan_string_lt in H
  | H : scan_number _ = Some _ |- _ => apply scan_number_lt in H
  | H : scan_word _ _ _ = Some _ |- _ => apply scan_word_le in H
  | IH : forall d l x r, ?f d l = Some (x, r) -> _, H : ?f _ _ = Some _ |- _ => apply IH in H
  end.

(** Each part of the scanner takes at least one byte. *)
Lemma scan_takes fuel :
  (forall d l j r, scan_value fuel d l = Some (j, r) -> (length r < length l)%nat) /\
  (forall d l js r, scan_elements fuel d l = Some (js, r) -> (length r < length l)%nat) /\
  (forall d l ms r, scan_members fuel d l = Some (ms, r) -> (length r < length l)%nat).
Proof.
  induction fuel as [|fuel (IHv & IHe & IHm)]; [done|]. split; [|split]; intros d l x r H.
  - cbn [scan_value] in H. scan_cases H; simplify_eq; scan_bounds; cbn [length] in *; lia.
  - cbn [scan_elements] in H. scan_cases H; simplify_eq; scan_bounds; cbn [length] in *; lia.
  - cbn [scan_members] in H. scan_cases H; simplify_eq; scan_bounds; cbn [length] in *; lia.
Qed.

Lemma bind_ext {A B} (o1 o2 : option A) (f g : A -> option B) :
  o1 = o2 -> (forall a, o1 = Some a -> f a = g a) -> o1 ≫= f = o2 ≫= g.
Proof. intros <- H. destruct o1; cbn; auto. Qed.

(** With twice the length of the text and one the result does not depend on the
    fuel: [None] means that the text is malformed. *)
Lemma scan_fuel f1 : forall f2,
  (forall d l, (2 * length l + 1 <= f1)%nat -> (2 * length l + 1 <= f2)%nat -> scan_value f1 d l = scan_value f2 d l) /\
  (forall d l, (2 * length l + 2 <= f1)%nat -> (2 * length l + 2 <= f2)%nat -> scan_elements f1 d l = scan_elements f2 d l) /\
  (forall d l, (2 * length l + 1 <= f1)%nat -> (2 * length l + 1 <= f2)%nat -> scan_members f1 d l = scan_members f2 d l).
Proof.
  induction f1 as [|f1 IH]; intros f2; [split; [|split]; intros; lia|].
  destruct f2 as [|f2]; [split; [|split]; intros; lia|]. destruct (IH f2) as (IHv & IHe & IHm).
  split; [|split]; intros d l H1 H2.
  - cbn [scan_value]. destruct (skip_space l) as [|a l1] eqn:E; [done|]. apply skip_space_lt in E.
    rewrite IHe, IHm by lia. done.
  - cbn [scan_elements]. apply bind_ext; [apply IHv; lia|]. intros [j r] Hj. apply scan_takes in Hj.
    destruct (skip_space r) as [|a l1] eqn:E; [done|]. apply skip_space_lt in E. by rewrite IHe by lia.
  - cbn [scan_members]. destruct (skip_space l) as [|a l1] eqn:E; [done|]. apply skip_space_lt in E.
    destruct (negb _); [done|]. apply bind_ext; [done|]. intros [k l2] Hk. apply scan_string_lt in Hk.
    destruct (skip_space l2) as [|b l3] eqn:E2; [done|]. apply skip_space_lt in E2. destruct (negb _); [done|].
    apply bind_ext; [apply IHv; lia|]. intros [j l4] Hj. apply scan_takes in Hj.
    destruct (skip_space l4) as [|c l5] eqn:E4; [done|]. apply skip_space_lt in E4. by rewrite IHm by lia.
Qed.

(** ** Reading a document *)

(** [Decoder.Decode] reads the first value of a stream and leaves the rest. *)
Definition first_value (l : list ascii) : option json := fst <$> scan l.

(** [Unmarshal] wants a value and nothing but space after it. *)
Definition only_value (l : list ascii) : option json :=
  '(j, rest) ← scan l; match skip_space rest with [] => Some j | _ => None end.

(** A body read through [http.MaxBytesReader]: the value must be complete within
    the limit.  A string, number or keyword ends with the byte after it or at the
    end of the body, which the reader does not report once the limit is reached. *)
Definition MaxBytes (limit : Z) (body : list ascii) : option json :=
  '(j, rest) ← scan (take (Z.to_nat limit) body);
  match j, rest with
  | (JArr _ | JObj _), _ | _, _ :: _ => Some j
  | _, [] => if len body <=? limit then Some j else None
  end.

(** A body read through [io.LimitReader]: the limit is the end of the body. *)
Definition LimitReader (limit : Z) (body : list ascii) : option json := first_value (take (Z.to_nat limit) body).

Lemma scan_printed j rest :
  encoded j -> nesting j <= maxNestingDepth -> (is_number j = true -> stops rest = true) -> scan (print j ++ rest) = Some (j, rest).
Proof. intros He Hn Hr. unfold scan. apply scan_print; try done. rewrite length_app. lia. Qed.

Lemma only_printed j : encoded j -> nesting j <= maxNestingDepth -> only_value (print j) = Some j.
Proof. intros He Hn. unfold only_value. rewrite <- (app_nil_r (print j)), scan_printed by done. done. Qed.
