(* ===== verification/GoDate.v ===== *)
(** Go's [time] package: the calendar and the text of an instant.

    An instant is a number of nanoseconds since January 1 of year 1, UTC
    ([GoTime]); its text is the one of RFC 3339 with nanoseconds, which
    [time.Time] uses in JSON, in the zone the server runs in.  The text of an
    instant of the years 0 to 9999 reads back as that instant. *)

From S2P Require Import Prelude GoStrings GoConv Float64 GoTime Json.
Local Open Scope list_scope.
Local Open Scope Z_scope.

(** ** The calendar *)

Definition is_leap (y : Z) : bool := (y mod 4 =? 0) && (negb (y mod 100 =? 0) || (y mod 400 =? 0)).

(** [daysIn] *)
Definition days_in (m y : Z) : Z :=
  if m =? 2 then if is_leap y then 29 else 28
  else if bool_decide (m ∈ [4; 6; 9; 11]) then 30 else 31.

(** Days are counted from March 1 of year 0, in cycles of 400 years of 146097
    days; a year of a cycle starts in March. *)
Definition cycle_year (doe : Z) : Z * Z :=
  let c := Z.min (doe / 36524) 3 in
  let r := doe - c * 36524 in
  let q := r / 1461 in
  let r := r mod 1461 in
  let n := Z.min (r / 365) 3 in
  (100 * c + 4 * q + n, r - n * 365).

(** Month counted from March and day of the month, of the day of such a year. *)
Definition month_day (doy : Z) : Z * Z := let mp := (5 * doy + 2) / 153 in (mp, doy - (153 * mp + 2) / 5 + 1).

Definition march : Z := 306.

(** [Date]: year, month and day of a day since January 1 of year 1. *)
Definition civil (days : Z) : Z * Z * Z :=
  let z := days + march in
  let '(yoe, doy) := cycle_year (z mod 146097) in
  let '(mp, d) := month_day doy in
  let m := if mp <? 10 then mp + 3 else mp - 9 in
  (z / 146097 * 400 + yoe + (if m <=? 2 then 1 else 0), m, d).

(** And back: [time.Date] for a valid date. *)
Definition day_number (y m d : Z) : Z :=
  let y := if m <=? 2 then y - 1 else y in
  let yoe := y mod 400 in
  let mp := if m <=? 2 then m + 9 else m - 3 in
  y / 400 * 146097 + (365 * yoe + yoe / 4 - yoe / 100) + ((153 * mp + 2) / 5 + d - 1) - march.

Example civil_unix_epoch : civil 719162 = (1970, 1, 1).
Proof. reflexivity. Qed.
Example civil_leap_day : civil (day_number 2024 2 29) = (2024, 2, 29) /\ civil (day_number 2024 2 29 + 1) = (2024, 3, 1).
Proof. split; reflexivity. Qed.

(** A cycle's days and years. *)
Lemma cycle_year_spec doe yoe doy :
  0 <= doe < 146097 -> cycle_year doe = (yoe, doy) ->
  0 <= yoe < 400 /\ 0 <= doy < 366 /\ doe = 365 * yoe + yoe / 4 - yoe / 100 + doy /\
  (doy = 365 -> (yoe + 1) mod 4 = 0 /\ ((yoe + 1) mod 100 = 0 -> yoe = 399)).
Proof.
  intros Hd E. unfold cycle_year in E. injection E as E1 E2.
  set (c := Z.min (doe / 36524) 3) in *. set (r := doe - c * 36524) in *. set (n := Z.min (r mod 1461 / 365) 3) in *.
  assert (Hc : 0 <= c <= 3 /\ 0 <= r < 36525 /\ (c < 3 -> r < 36524)) by (subst c r; Z.to_euclidean_division_equations; lia).
  assert (Hq : 0 <= r / 1461 < 25) by (Z.to_euclidean_division_equations; lia).
  assert (Hr : r = 1461 * (r / 1461) + r mod 1461 /\ 0 <= r mod 1461 < 1461)
    by (split; [apply Z.div_mod; lia|apply Z.mod_pos_bound; lia]).
  assert (Hn : 0 <= n <= 3 /\ 0 <= r mod 1461 - n * 365 < 366 /\ (n < 3 -> r mod 1461 - n * 365 < 365))
    by (subst n; Z.to_euclidean_division_equations; lia).
  set (q := r / 1461) in *. set (s := r mod 1461) in *. clearbody c n q s.
  assert (Hy4 : yoe / 4 = 25 * c + q) by (subst yoe; Z.to_euclidean_division_equations; lia).
  assert (Hy100 : yoe / 100 = c) by (subst yoe; Z.to_euclidean_division_equations; lia).
  rewrite Hy4, Hy100. split; [lia|]. split; [lia|]. split; [subst r; lia|]. intros H. assert (n = 3) by lia. subst n yoe doy.
  split; [Z.to_euclidean_division_equations; lia|]. intros H100.
  assert (Hm : (4 * q + 4) mod 100 = 0).
  { rewrite <- H100. replace (100 * c + 4 * q + 3 + 1) with (4 * q + 4 + c * 100) by lia. by rewrite Z.mod_add. }
  assert (q = 24) by (Z.to_euclidean_division_equations; lia). lia.
Qed.

(** The months of a year that starts in March. *)
Lemma month_day_spec doy mp d :
  0 <= doy < 366 -> month_day doy = (mp, d) ->
  0 <= mp < 12 /\ doy = (153 * mp + 2) / 5 + d - 1 /\ 1 <= d <= 31 /\
  (bool_decide (mp ∈ [1; 3; 6; 8]) = true -> d <= 30) /\ (mp = 11 -> d <= 29 /\ (d = 29 -> doy = 365)).
Proof.
  intros Hd E.
  assert (Hall : forallb (fun n => let doy := Z.of_nat n in let '(mp, d) := month_day doy in
    (0 <=? mp) && (mp <? 12) && (doy =? (153 * mp + 2) / 5 + d - 1) && (1 <=? d) && (d <=? 31) &&
    (negb (bool_decide (mp ∈ [1; 3; 6; 8])) || (d <=? 30)) &&
    (negb (mp =? 11) || ((d <=? 29) && (negb (d =? 29) || (doy =? 365))))) (seq 0 366) = true) by (vm_compute; reflexivity).
  rewrite forallb_forall in Hall. assert (Hin : In (Z.to_nat doy) (seq 0 366)) by (apply in_seq; lia).
  specialize (Hall (Z.to_nat doy) Hin).
  cbv zeta in Hall. rewrite Z2Nat.id in Hall by lia. rewrite E in Hall.
  apply andb_true_iff in Hall as [Hall H11]. apply andb_true_iff in Hall as [Hall H30]. bool_to_prop.
  split; [lia|]. split; [lia|]. split; [lia|]. split.
  - intros Hb. rewrite Hb in H30. by apply Z.leb_le.
  - intros ->. cbn in H11. bool_to_prop. split; [done|]. intros ->. cbn in *. by apply Z.eqb_eq.
Qed.

(** Every day has a valid date, and the date gives the day back. *)
Lemma civil_spec days y m d :
  civil days = (y, m, d) -> 1 <= m <= 12 /\ 1 <= d <= days_in m y /\ day_number y m d = days.
Proof.
  unfold civil. set (z := days + march). intros E. pose proof (Z.mod_pos_bound z 146097 ltac:(lia)) as Hz.
  destruct (cycle_year (z mod 146097)) as [yoe doy] eqn:Ey. destruct (month_day doy) as [mp d'] eqn:Em.
  destruct (cycle_year_spec _ _ _ Hz Ey) as (Hy & Hdoy & Hdoe & Hleap).
  destruct (month_day_spec _ _ _ Hdoy Em) as (Hmp & Hd & Hd31 & Hd30 & Hfeb). injection E as <- <- <-.
  pose proof (Z.div_mod z 146097 ltac:(lia)) as Hdm.
  assert (Hyear : (z / 146097 * 400 + yoe) / 400 = z / 146097 /\ (z / 146097 * 400 + yoe) mod 400 = yoe).
  { rewrite Z.add_comm, Z.div_add, Z.mod_add, Z.div_small, Z.mod_small by lia. split; [lia|done]. }
  destruct Hyear as [Hy1 Hy2]. destruct (Z.ltb_spec mp 10) as [Hm|Hm].
  - destruct (Z.leb_spec (mp + 3) 2) as [Hl|Hl]; [lia|]. rewrite Z.add_0_r. split; [lia|]. split.
    + split; [lia|]. unfold days_in. destruct (Z.eqb_spec (mp + 3) 2); [lia|].
      destruct (bool_decide (mp + 3 ∈ [4; 6; 9; 11])) eqn:Eb; [|lia]. apply Hd30. apply bool_decide_eq_true in Eb. apply bool_decide_eq_true.
      set_unfold. lia.
    + unfold day_number. rewrite (proj2 (Z.leb_gt _ _) Hl), Hy1, Hy2. replace (mp + 3 - 3) with mp by lia. lia.
  - destruct (Z.leb_spec (mp - 9) 2) as [Hl|Hl]; [|lia]. split; [lia|]. split.
    + split; [lia|]. unfold days_in. destruct (Z.eqb_spec (mp - 9) 2) as [H2|H2].
      * destruct (Hfeb ltac:(lia)) as [Hle H29]. unfold is_leap.
        destruct (Z.eq_dec d' 29) as [->|]; [|repeat case_match; lia]. destruct (Hleap (H29 eq_refl)) as [H4 H100].
        assert (Hm4 : (z / 146097 * 400 + yoe + 1) mod 4 = 0) by (Z.to_euclidean_division_equations; lia).
        rewrite Hm4. cbn [Z.eqb andb]. destruct (Z.eqb_spec ((z / 146097 * 400 + yoe + 1) mod 100) 0) as [H0|H0]; [|done].
        assert (yoe = 399) as -> by (apply H100; Z.to_euclidean_division_equations; lia).
        replace (z / 146097 * 400 + 399 + 1) with ((z / 146097 + 1) * 400) by lia. by rewrite Z.mod_mul.
      * destruct (bool_decide (mp - 9 ∈ [4; 6; 9; 11])) eqn:Eb; [|lia]. apply bool_decide_eq_true in Eb.
        set_unfold. lia.
    + unfold day_number. rewrite (proj2 (Z.leb_le _ _) Hl). replace (z / 146097 * 400 + yoe + 1 - 1) with (z / 146097 * 400 + yoe) by lia.
      rewrite Hy1, Hy2. replace (mp - 9 + 9) with mp by lia. lia.
Qed.

(** ** Text *)

(** [n] in [w] decimal digits. *)
Fixpoint fixed (w : nat) (n : Z) : list ascii :=
  match w with O => [] | S w => fixed w (n / 10) ++ [digit_char (n mod 10)] end.

Fixpoint drop_zeros (l : list ascii) : list ascii :=
  match l with a :: l' => if Ascii.eqb a "0" then drop_zeros l' else l | [] => [] end.

(** The fraction of a second, without trailing zeros. *)
Definition fraction (nsec : Z) : list ascii :=
  if nsec =? 0 then [] else "."%char :: reverse (drop_zeros (reverse (fixed 9 nsec))).

(** The offset of the zone, in minutes. *)
Definition zone_text (zone : Z) : list ascii :=
  if zone =? 0 then ["Z"%char]
  else (if zone <? 0 then "-"%char else "+"%char) :: fixed 2 (Z.abs zone / 60) ++ ":"%char :: fixed 2 (Z.abs zone mod 60).

Definition nanos_per_day : Z := 86400 * Second.

(** [Time.MarshalJSON], between the quotes: [None] outside the years 0 to 9999. *)
Definition format_time (zone : Z) (t : Time) : option (list ascii) :=
  let local := t + zone * Minute in
  let '(y, m, d) := civil (local / nanos_per_day) in
  let s := local mod nanos_per_day / Second in
  if (0 <=? y) && (y <=? 9999) then
    Some (fixed 4 y ++ "-"%char :: fixed 2 m ++ "-"%char :: fixed 2 d ++ "T"%char ::
          fixed 2 (s / 3600) ++ ":"%char :: fixed 2 (s / 60 mod 60) ++ ":"%char :: fixed 2 (s mod 60) ++
          fraction (local mod Second) ++ zone_text zone)
  else None.

(** A number of the given digits between two bounds. *)
Definition bounded (l : list ascii) (lo hi : Z) : option Z :=
  n ← digits_value 0 l; if (lo <=? n) && (n <=? hi) then Some n else None.

(** The nanoseconds, cut after nine digits; and what follows them. *)
Definition parse_fraction (l : list ascii) : Z * list ascii :=
  match l with
  | a :: l' =>
      if Ascii.eqb a "." then
        match span_digits l' with
        | ([], _) => (0, l)
        | (ds, rest) => (default 0 (digits_value 0 (take 9 (ds ++ replicate 9 "0"%char))), rest)
        end
      else (0, l)
  | [] => (0, l)
  end.

Definition parse_zone (l : list ascii) : option Z :=
  match l with
  | [a] => if Ascii.eqb a "Z" then Some 0 else None
  | [s; h1; h2; c; m1; m2] =>
      h ← bounded [h1; h2] 0 23; m ← bounded [m1; m2] 0 59;
      if negb (Ascii.eqb c ":") then None
      else if Ascii.eqb s "+" then Some (h * 60 + m) else if Ascii.eqb s "-" then Some (- (h * 60 + m)) else None
  | _ => None
  end.

(** [parseStrictRFC3339], of [Time.UnmarshalJSON]: the texts of RFC 3339. *)
Definition parse_time (l : list ascii) : option Time :=
  match l with
  | y1 :: y2 :: y3 :: y4 :: p1 :: m1 :: m2 :: p2 :: d1 :: d2 :: p3 :: h1 :: h2 :: p4 :: i1 :: i2 :: p5 :: s1 :: s2 :: l =>
      y ← bounded [y1; y2; y3; y4] 0 9999; m ← bounded [m1; m2] 1 12; d ← bounded [d1; d2] 1 (days_in m y);
      h ← bounded [h1; h2] 0 23; i ← bounded [i1; i2] 0 59; s ← bounded [s1; s2] 0 59;
      if bool_decide ([p1; p2; p3; p4; p5] = ["-"; "-"; "T"; ":"; ":"]%char) then
        let '(nsec, l) := parse_fraction l in
        zone ← parse_zone l;
        Some (day_number y m d * nanos_per_day + (h * 3600 + i * 60 + s) * Second + nsec - zone * Minute)
      else None
  | _ => None
  end.

Example format_example : of_bytes <$> format_time 90 (63850000000 * Second + 120000000) = Some "2024-04-29T16:36:40.12+01:30".
Proof. vm_compute. reflexivity. Qed.
Example parse_example : parse_time (bytes "2024-04-29T16:36:40.12+01:30") = Some (63850000000 * Second + 120000000).
Proof. vm_compute. reflexivity. Qed.
Example parse_no_leap : parse_time (bytes "2023-02-29T00:00:00Z") = None.
Proof. reflexivity. Qed.

(** ** The text reads back *)

Lemma fixed_length w n : length (fixed w n) = w.
Proof. revert n. induction w as [|w IH]; intros n; cbn [fixed]; [done|]. rewrite length_app, IH. cbn. lia. Qed.

Lemma digits_value_app a l k : digits_value a (l ++ k) = b ← digits_value a l; digits_value b k.
Proof. revert a. induction l as [|x l IH]; intros a; cbn; [done|]. destruct (digit_value x); cbn; [apply IH|done]. Qed.

Lemma fixed_value w n : 0 <= n < 10 ^ Z.of_nat w -> digits_value 0 (fixed w n) = Some n.
Proof.
  revert n. induction w as [|w IH]; intros n Hn; cbn [fixed]; [cbn in *; f_equal; lia|].
  rewrite Nat2Z.inj_succ, Z.pow_succ_r in Hn by lia. rewrite digits_value_app, IH.
  - cbn [mbind option_bind digits_value]. rewrite digit_char_value by (apply Z.mod_pos_bound; lia).
    f_equal. pose proof (Z.div_mod n 10). lia.
  - split; [apply Z.div_pos; lia|]. apply Z.div_lt_upper_bound; lia.
Qed.

Lemma fixed_digits w n : Forall (fun a => is_digit a = true) (fixed w n).
Proof.
  revert n. induction w as [|w IH]; intros n; cbn [fixed]; [done|]. apply list.Forall_app. split; [apply IH|].
  constructor; [|done]. apply digit_char_digit, Z.mod_pos_bound. lia.
Qed.

Lemma fixed2_bounded lo hi n : 0 <= lo -> hi <= 99 -> lo <= n <= hi -> bounded (fixed 2 n) lo hi = Some n.
Proof.
  intros Hlo Hhi Hn. unfold bounded. rewrite fixed_value by (change (10 ^ Z.of_nat 2) with 100; lia). cbn [mbind option_bind].
  by rewrite (proj2 (Z.leb_le lo n)), (proj2 (Z.leb_le n hi)) by lia.
Qed.

Lemma fixed2 n : exists a b, fixed 2 n = [a; b].
Proof. by eexists _, _. Qed.
Lemma fixed4 n : exists a b c d, fixed 4 n = [a; b; c; d].
Proof. by eexists _, _, _, _. Qed.

(** Dropping zeros at the end and adding them again. *)
Lemma drop_zeros_app l : exists n, l = replicate n "0"%char ++ drop_zeros l.
Proof.
  induction l as [|a l [n IH]]; [by exists 0%nat|]. cbn [drop_zeros]. destruct (Ascii.eqb a "0") eqn:E; [|by exists 0%nat].
  apply Ascii.eqb_eq in E as ->. exists (S n). cbn. by rewrite <- IH.
Qed.

Lemma trim_zeros l : exists n, l = reverse (drop_zeros (reverse l)) ++ replicate n "0"%char.
Proof.
  destruct (drop_zeros_app (reverse l)) as [n E]. exists n. rewrite <- (reverse_involutive l) at 1. rewrite E at 1.
  by rewrite reverse_app, reverse_replicate.
Qed.

Lemma zone_stops zone : stops (zone_text zone) = true.
Proof. unfold zone_text. by repeat case_match. Qed.

Lemma zone_no_fraction zone : parse_fraction (zone_text zone) = (0, zone_text zone).
Proof. unfold zone_text. by repeat case_match. Qed.

Lemma fraction_read nsec zone :
  0 <= nsec < Second -> parse_fraction (fraction nsec ++ zone_text zone) = (nsec, zone_text zone).
Proof.
  intros Hn. unfold fraction. destruct (Z.eqb_spec nsec 0) as [->|Hz]; [apply zone_no_fraction|].
  destruct (trim_zeros (fixed 9 nsec)) as [n E]. set (ds := reverse (drop_zeros (reverse (fixed 9 nsec)))) in *.
  assert (Hd : Forall (fun a => is_digit a = true) ds).
  { pose proof (fixed_digits 9 nsec) as H. rewrite E in H. by apply list.Forall_app in H as []. }
  assert (Hv : digits_value 0 (fixed 9 nsec) = Some nsec) by (apply fixed_value; exact Hn).
  assert (Hl : (length ds <= 9 /\ n = 9 - length ds)%nat).
  { pose proof (fixed_length 9 nsec) as H. rewrite E, length_app, length_replicate in H. lia. }
  assert (Hne : ds <> []).
  { intros H0. rewrite E, H0 in Hv. destruct Hl as [_ ->]. rewrite H0 in Hv. vm_compute in Hv. congruence. }
  cbn [app parse_fraction]. change (Ascii.eqb "." ".") with true. cbv iota.
  rewrite span_digits_run by (done || apply stops_no_digit, zone_stops). clearbody ds. destruct ds as [|a ds'] eqn:Eds; [done|]. rewrite <- Eds in *. f_equal.
  assert (take 9 (ds ++ replicate 9 "0"%char) = fixed 9 nsec) as ->; [|by rewrite Hv].
  rewrite E, take_app_ge by lia. rewrite take_replicate. f_equal. f_equal. lia.
Qed.

Lemma zone_read zone : -1440 < zone < 1440 -> parse_zone (zone_text zone) = Some zone.
Proof.
  intros Hz. unfold zone_text. destruct (Z.eqb_spec zone 0) as [->|Hnz]; [done|].
  pose proof (Z.mod_pos_bound (Z.abs zone) 60 ltac:(lia)) as Hm. pose proof (Z.div_mod (Z.abs zone) 60 ltac:(lia)) as Hdm.
  assert (Hh : 0 <= Z.abs zone / 60 <= 23) by (Z.to_euclidean_division_equations; lia).
  pose proof (fixed2_bounded 0 23 (Z.abs zone / 60) ltac:(lia) ltac:(lia) Hh) as B1.
  pose proof (fixed2_bounded 0 59 (Z.abs zone mod 60) ltac:(lia) ltac:(lia) ltac:(lia)) as B2.
  destruct (fixed2 (Z.abs zone / 60)) as (a & b & E1). destruct (fixed2 (Z.abs zone mod 60)) as (c & d & E2). rewrite E1, E2 in *.
  cbn [app parse_zone]. rewrite B1, B2. cbn [mbind option_bind]. change (negb (Ascii.eqb ":" ":")) with false. cbv iota.
  destruct (Z.ltb_spec zone 0); cbn; f_equal; lia.
Qed.

(** The text of an instant reads back. *)
Lemma parse_format_time zone t text : -1440 < zone < 1440 -> format_time zone t = Some text -> parse_time text = Some t.
Proof.
  intros Hz H. unfold format_time in H. set (local := t + zone * Minute) in *.
  destruct (civil (local / nanos_per_day)) as [[y m] d] eqn:Ec. destruct (civil_spec _ _ _ _ Ec) as (Hm & Hd & Hdays).
  set (s := local mod nanos_per_day / Second) in *. destruct ((0 <=? y) && (y <=? 9999)) eqn:Ey; [|done]. apply (inj Some) in H. rewrite <- H. clear H.
  assert (Hs : 0 <= s < 86400 /\ local mod nanos_per_day = Second * s + local mod Second /\ 0 <= local mod Second < Second).
  { pose proof (Z.mod_pos_bound local nanos_per_day eq_refl). subst s. unfold nanos_per_day, Second in *.
    Z.to_euclidean_division_equations; lia. }
  destruct Hs as (Hs & Hsub & Hns). apply andb_true_iff in Ey as [Ey1 Ey2]. apply Z.leb_le in Ey1, Ey2.
  assert (Hd31 : days_in m y <= 31) by (unfold days_in; repeat case_match; lia).
  assert (By : bounded (fixed 4 y) 0 9999 = Some y).
  { unfold bounded. rewrite fixed_value by (change (10 ^ Z.of_nat 4) with 10000; lia). cbn [mbind option_bind].
    by rewrite (proj2 (Z.leb_le _ _) Ey1), (proj2 (Z.leb_le _ _) Ey2). }
  assert (Bm : bounded (fixed 2 m) 1 12 = Some m) by (apply fixed2_bounded; lia).
  assert (Bd : bounded (fixed 2 d) 1 (days_in m y) = Some d) by (apply fixed2_bounded; lia).
  assert (Bh : bounded (fixed 2 (s / 3600)) 0 23 = Some (s / 3600)) by (apply fixed2_bounded; Z.to_euclidean_division_equations; lia).
  assert (Bi : bounded (fixed 2 (s / 60 mod 60)) 0 59 = Some (s / 60 mod 60)) by (apply fixed2_bounded; Z.to_euclidean_division_equations; lia).
  assert (Bs : bounded (fixed 2 (s mod 60)) 0 59 = Some (s mod 60)) by (apply fixed2_bounded; Z.to_euclidean_division_equations; lia).
  destruct (fixed4 y) as (y1 & y2 & y3 & y4 & Y). destruct (fixed2 m) as (m1 & m2 & M). destruct (fixed2 d) as (d1 & d2 & D).
  destruct (fixed2 (s / 3600)) as (h1 & h2 & Hh). destruct (fixed2 (s / 60 mod 60)) as (i1 & i2 & Hi). destruct (fixed2 (s mod 60)) as (s1 & s2 & Hse).
  rewrite Y, M, D, Hh, Hi, Hse in *. cbn [app]. cbn [parse_time]. rewrite By. cbn [mbind option_bind]. rewrite Bm. cbn [mbind option_bind].
  rewrite Bd, Bh, Bi, Bs. cbn [mbind option_bind]. rewrite bool_decide_true by done. rewrite fraction_read by done. rewrite zone_read by done.
  cbn [mbind option_bind]. f_equal. rewrite Hdays. pose proof (Z.div_mod local nanos_per_day ltac:(done)) as Hdm.
  assert (s / 3600 * 3600 + s / 60 mod 60 * 60 + s mod 60 = s) as -> by (Z.to_euclidean_division_equations; lia). subst local. lia.
Qed.
