(* ===== verification/JsonFloat.v ===== *)
(** Go's [strconv] for float64 as [encoding/json] uses it: the shortest decimal
    text that reads back, and the value nearest to a decimal text.

    The text of every float64 value reads back as that value. *)

From Stdlib Require Import QArith Qround Qpower Qreduction Qabs.
From S2P Require Import Prelude GoStrings GoConv Float64 Json.
Local Open Scope list_scope.
Local Open Scope Z_scope.

(** ** From text to value *)

(** The rational [d] * 10^[e]. *)
Definition dec (d e : Z) : Q := if 0 <=? e then inject_Z (d * 10 ^ e) else d # Z.to_pos (10 ^ (- e)).

(** A signed exponent after its letter. *)
Definition exp_value (l : list ascii) : Z :=
  match l with
  | a :: l' =>
      if Ascii.eqb a "-" then - default 0 (digits_value 0 l')
      else if Ascii.eqb a "+" then default 0 (digits_value 0 l') else default 0 (digits_value 0 l)
  | [] => 0
  end.

(** The digits of a number without its point, and its exponent of ten. *)
Definition number_parts (t : list ascii) : option (bool * Z * Z) :=
  let '(m, l) := scan_minus t in
  '(i, l) ← scan_int l; '(f, l) ← scan_frac l; '(e, l) ← scan_exp l;
  d ← digits_value 0 (i ++ tail f);
  Some (match m with [] => false | _ => true end, d, exp_value (tail e) - len (tail f)).

(** [strconv.ParseFloat] of the text of a JSON number: out of range is an error. *)
Definition json_float (t : list ascii) : option float64 :=
  '(neg, d, e) ← number_parts t;
  match f64 (dec (if neg : bool then - d else d) e) with Fin q => Some (Fin q) | _ => None end.

(** ** From value to text *)

(** Whether the decimal [d] * 10^-[k] is read as [q]. *)
Definition reads_as (q : Q) (d k : Z) : bool := Qeq_bool (rnd (dec d (- k))) q.

(** The neighbours of [q] on the grid of 10^-[k]; one that reads as [q], the
    nearer one if both do. *)
Definition on_grid (q : Q) (k : Z) : option Z :=
  let scaled := (q * dec 1 k)%Q in
  let lo := Qfloor scaled in
  match reads_as q lo k, reads_as q (lo + 1) k with
  | true, true =>
      match Qcompare scaled ((2 * lo + 1) # 2) with
      | Lt => Some lo
      | Gt => Some (lo + 1)
      | Eq => Some (if Z.even lo then lo else lo + 1)
      end
  | true, false => Some lo
  | false, true => Some (lo + 1)
  | false, false => None
  end.

(** The coarsest grid with such a decimal: the shortest digits. *)
Fixpoint shortest (fuel : nat) (k : Z) (q : Q) : option (Z * Z) :=
  match fuel with
  | O => None
  | S fuel => match on_grid q k with Some d => Some (d, k) | None => shortest fuel (k + 1) q end
  end.

(** The first grid tried has less than one point up to [q]; the last one has the
    places of the smallest float64, which holds every value. *)
Definition first_grid (q : Q) : Z := - ((qlog2 q + 1) * 30103 / 100000) - 2.
Definition last_grid : Z := 1074.

(** The decimal digits of a positive number. *)
Definition digits (n : Z) : list ascii := dec_loop (Z.to_nat (Z.log2 n) + 1) n [].

Definition zeros (n : Z) : list ascii := replicate (Z.to_nat n) "0"%char.

(** The format 'f': [dp] digits before the point. *)
Definition plain_text (ds : list ascii) (dp : Z) : list ascii :=
  if len ds <=? dp then ds ++ zeros (dp - len ds)
  else if 0 <? dp then take (Z.to_nat dp) ds ++ "."%char :: drop (Z.to_nat dp) ds
  else "0"%char :: "."%char :: zeros (- dp) ++ ds.

(** The format 'e', with the exponent of two digits at least, one when it is
    negative. *)
Definition exp_digits (x : Z) : list ascii :=
  if x <? 0 then "-"%char :: digits (- x) else "+"%char :: (if x <? 10 then ["0"%char] else []) ++ digits x.
Definition exp_text (ds : list ascii) (dp : Z) : list ascii :=
  match ds with
  | [] => []
  | a :: l => a :: (match l with [] => [] | _ => "."%char :: l end) ++ "e"%char :: exp_digits (dp - 1)
  end.

(** [floatEncoder] for a positive value. *)
Definition pos_text (q : Q) : option (list ascii) :=
  '(d, k) ← shortest (Z.to_nat (last_grid + 1 - first_grid q)) (first_grid q) q;
  let ds := digits d in
  Some (if Qltb q (1 # 1000000) || negb (Qltb q (inject_Z (10 ^ 21))) then exp_text ds (len ds - k)
        else plain_text ds (len ds - k)).

(** [floatEncoder]: NaN and the infinities are refused. *)
Definition float_text (x : float64) : option (list ascii) :=
  match x with
  | Fin q =>
      match Qcompare q 0 with
      | Eq => Some ["0"%char]
      | Gt => pos_text q
      | Lt => t ← pos_text (Qred (- q)); Some ("-"%char :: t)
      end
  | _ => None
  end.

Example float_texts :
  map (option_map of_bytes) [float_text (f64 (95 # 100)); float_text (f64 1); float_text (f64 (-(1 # 3))); float_text (f64 (3 # 20000000))]
  = [Some "0.95"; Some "1"; Some "-0.3333333333333333"; Some "1.5e-7"].
Proof. vm_compute. reflexivity. Qed.
Example float_reads :
  json_float (bytes "0.95") = Some (f64 (95 # 100)) /\ json_float (bytes "-1.5E-7") = Some (f64 (-(3 # 20000000))) /\
  json_float (bytes "1e400") = None.
Proof. vm_compute. done. Qed.

(** ** Decimals *)

Lemma dec_spec d e : (dec d e == inject_Z d * (10 # 1) ^ e)%Q.
Proof.
  unfold dec. destruct (Z.leb_spec 0 e) as [He|He].
  - rewrite inject_Z_mult, Zpower_Qpower by done. done.
  - replace e with (- (- e)) at 2 by lia. rewrite Qpower_opp. change (10 # 1)%Q with (inject_Z 10).
    rewrite <- Zpower_Qpower by lia. rewrite Qmake_Qdiv, Z2Pos.id by (apply Z.pow_pos_nonneg; lia). done.
Qed.

Lemma dec_shift d e n : 0 <= n -> (dec (d * 10 ^ n) e == dec d (e + n))%Q.
Proof.
  intros Hn. rewrite !dec_spec, inject_Z_mult, Zpower_Qpower by done. change (inject_Z 10) with (10 # 1)%Q.
  rewrite (Qpower_plus (10 # 1) e n) by discriminate. ring.
Qed.

(** The values of the type: what [f64] gives. *)
Definition finite (x : float64) : Prop := match x with Fin q => f64 q = Fin q | _ => False end.
#[global] Instance finite_dec x : Decision (finite x).
Proof. destruct x as [| |q]; cbn; [right; tauto..|]. destruct (f64 q) as [| |r] eqn:E; [right; congruence..|]. destruct (decide (Qnum r = Qnum q /\ Qden r = Qden q)) as [[H1 H2]|H]; [left|right]; destruct r, q; cbn in *; naive_solver. Defined.

Lemma f64_finite q x : f64 q = Fin x -> finite (Fin x).
Proof.
  unfold finite, f64. destruct (Qle_bool (pow2 1024) (Qabs (rnd q))) eqn:E; [done|]. intros [= <-]. rewrite rnd_idemp. by rewrite E.
Qed.

Lemma f64_value q : f64 q = Fin q -> rnd q = q.
Proof. unfold f64. by destruct (Qle_bool _ _); intros H; simplify_eq. Qed.

Lemma f64_reads q q' : f64 q = Fin q -> (rnd q' == q)%Q -> f64 q' = Fin q.
Proof.
  intros H E. pose proof (f64_value q H) as Hq.
  assert (rnd q' = q) as Hr. { rewrite <- Hq. apply rnd_eq_leibniz. by rewrite Hq. }
  unfold f64 in *. rewrite Hr. rewrite Hq in H. by destruct (Qle_bool _ _).
Qed.

(** A positive value is a multiple of the smallest one. *)
Lemma finite_multiple q : f64 q = Fin q -> (0 < q)%Q -> exists n, 0 < n /\ (q == inject_Z n * pow2 (-1074))%Q.
Proof.
  intros H Hp. pose proof (f64_value q H) as Hq.
  assert (E : (q == inject_Z (rne (q * pow2 (- ulp_exp q)) * 2 ^ (ulp_exp q + 1074)) * pow2 (-1074))%Q).
  { rewrite <- Hq at 1. rewrite rnd_gt by done. unfold rnd_pos.
    assert (0 <= ulp_exp q + 1074) by (unfold ulp_exp; lia).
    rewrite inject_Z_mult, <- pow2_Z by done. rewrite <- Qmult_assoc, <- pow2_plus.
    by replace (ulp_exp q + 1074 + -1074) with (ulp_exp q) by lia. }
  eexists. split; [|exact E]. apply Z.nle_gt. intros Hle. apply (Qlt_irrefl 0).
  eapply Qlt_le_trans; [exact Hp|]. rewrite E. apply (Qmult_le_r _ _ _ (pow2_pos 1074)).
  rewrite <- Qmult_assoc, <- pow2_plus. change (pow2 (-1074 + 1074)) with 1%Q. rewrite Qmult_1_r, Qmult_0_l.
  rewrite <- (Zle_Qle _ 0). done.
Qed.

(** On the last grid every value is a point. *)
Lemma last_grid_exact q : f64 q = Fin q -> (0 < q)%Q -> (first_grid q <= last_grid)%Z /\ exists d, on_grid q last_grid = Some d.
Proof.
  intros H Hp. destruct (finite_multiple q H Hp) as (n & Hn & E).
  pose proof (f64_value q H) as Hq. split.
  - assert (Hlog : -1074 <= qlog2 q).
    { destruct (qlog2_spec q Hp) as [_ Hlt]. assert (pow2 (-1074) < pow2 (qlog2 q + 1))%Q as Hl.
      { eapply Qle_lt_trans; [|exact Hlt]. rewrite E. rewrite <- (Qmult_1_l (pow2 (-1074))) at 1.
        apply Qmult_le_compat_r; [|apply Qlt_le_weak, pow2_pos]. change 1%Q with (inject_Z 1). rewrite <- Zle_Qle. lia. }
      apply pow2_lt_inv in Hl. lia. }
    unfold first_grid, last_grid. Z.to_euclidean_division_equations; lia.
  - set (N := n * 5 ^ 1074).
    assert (Es : (q * dec 1 last_grid == inject_Z N)%Q).
    { rewrite E, dec_spec. unfold N, last_grid. rewrite inject_Z_mult, Zpower_Qpower by lia.
      change (10 # 1)%Q with (2 * 5)%Q. rewrite Qmult_power. unfold pow2. change (inject_Z 5) with 5%Q.
      transitivity (inject_Z n * 5 ^ 1074 * ((2 # 1) ^ (-1074) * 2 ^ 1074))%Q; [ring|].
      change ((2 # 1) ^ (-1074) * 2 ^ 1074)%Q with (pow2 (-1074) * pow2 (1074))%Q. rewrite <- pow2_plus. change (pow2 (-1074 + 1074)) with 1%Q. ring. }
    assert (Hfl : Qfloor (q * dec 1 last_grid) = N) by (rewrite Es; apply Qfloor_Z).
    assert (Hr : reads_as q N last_grid = true).
    { unfold reads_as. apply Qeq_bool_iff. rewrite <- Hq. assert (dec N (- last_grid) == q)%Q as ->; [|done].
      rewrite dec_spec, <- Es, dec_spec. transitivity (q * ((10 # 1) ^ last_grid * (10 # 1) ^ (- last_grid)))%Q.
      - change (inject_Z 1) with 1%Q. ring.
      - rewrite <- (Qpower_plus (10 # 1)) by discriminate. rewrite Z.add_opp_diag_r. ring. }
    unfold on_grid. rewrite Hfl, Hr. destruct (reads_as q (N + 1) last_grid); [|by eexists].
    by destruct (_ ?= _)%Q; eexists.
Qed.

Lemma on_grid_reads q k d : (0 < q)%Q -> on_grid q k = Some d -> 0 < d /\ reads_as q d k = true.
Proof.
  intros Hq H. assert (Hr : reads_as q d k = true /\ 0 <= d).
  { assert (Hs : (0 <= q * dec 1 k)%Q).
    { rewrite dec_spec. apply Qmult_le_0_compat; [by apply Qlt_le_weak|]. rewrite Qmult_1_l. apply Qpower_0_le. discriminate. }
    assert (Hlo : 0 <= Qfloor (q * dec 1 k)) by (apply (Qfloor_resp_le 0), Hs).
    unfold on_grid in H. destruct (reads_as q (Qfloor _) k) eqn:E1, (reads_as q (Qfloor _ + 1) k) eqn:E2; [|simplify_eq; auto with lia..|done].
    destruct (_ ?= _)%Q; [destruct (Z.even _)|..]; simplify_eq; auto with lia. }
  destruct Hr as [Hr Hd]. split; [|done]. destruct (Z.eq_dec d 0) as [->|]; [|lia]. exfalso.
  unfold reads_as in Hr. apply Qeq_bool_iff in Hr. rewrite rnd_zero in Hr.
  - rewrite Hr in Hq. by apply Qlt_irrefl in Hq.
  - rewrite dec_spec. ring.
Qed.

Lemma shortest_reads fuel : forall k q d k', (0 < q)%Q -> shortest fuel k q = Some (d, k') -> 0 < d /\ reads_as q d k' = true.
Proof.
  induction fuel as [|fuel IH]; intros k q d k' Hq H; [done|]. cbn [shortest] in H.
  destruct (on_grid q k) as [d0|] eqn:E; [|by apply (IH (k + 1))]. simplify_eq. by apply on_grid_reads.
Qed.

Lemma shortest_found fuel : forall k q k0, on_grid q k0 <> None -> k <= k0 < k + Z.of_nat fuel -> shortest fuel k q <> None.
Proof.
  induction fuel as [|fuel IH]; intros k q k0 H0 Hk; [lia|]. cbn [shortest]. destruct (on_grid q k) eqn:E; [done|].
  apply (IH (k + 1) q k0); [done|]. assert (k <> k0) by congruence. lia.
Qed.

(** The digits of a positive number do not start with a zero. *)
Lemma dec_loop_lead fuel : forall n acc,
  0 < n < 10 ^ Z.of_nat fuel -> exists a l, dec_loop fuel n acc = a :: l /\ Ascii.eqb a "0" = false.
Proof.
  induction fuel as [|fuel IH]; intros n acc Hf; [cbn in Hf; lia|]. cbn [dec_loop].
  rewrite Nat2Z.inj_succ, Z.pow_succ_r in Hf by lia. destruct (Z.ltb_spec n 10) as [H10|H10].
  - rewrite Z.mod_small by lia. eexists _, _. split; [done|].
    assert (Hc : n = 1 \/ n = 2 \/ n = 3 \/ n = 4 \/ n = 5 \/ n = 6 \/ n = 7 \/ n = 8 \/ n = 9) by lia.
    by repeat destruct Hc as [->|Hc]; [..|subst].
  - apply IH. split; [apply Z.div_str_pos; lia|]. apply Z.div_lt_upper_bound; lia.
Qed.

Lemma digits_spec n : 0 < n ->
  digits_value 0 (digits n) = Some n /\ Forall (fun a => is_digit a = true) (digits n) /\
  exists a l, digits n = a :: l /\ Ascii.eqb a "0" = false.
Proof.
  intros Hn. unfold digits. set (fuel := (Z.to_nat (Z.log2 n) + 1)%nat).
  assert (Hf : 0 < n < 10 ^ Z.of_nat fuel).
  { split; [lia|]. destruct (Z.log2_spec n Hn) as [_ H]. pose proof (Z.log2_nonneg n). replace (Z.of_nat fuel) with (Z.succ (Z.log2 n)) by lia.
    eapply Z.lt_le_trans; [exact H|]. apply Z.pow_le_mono_l. lia. }
  split; [by rewrite dec_loop_value by lia|]. split; [|by apply dec_loop_lead].
  apply dec_loop_bytes; [lia|apply digit_char_digit|done].
Qed.

Lemma digits_value_zeros n a : digits_value a (zeros n) = Some (a * 10 ^ Z.max n 0).
Proof.
  unfold zeros. destruct (Z.le_ge_cases n 0) as [Hn|Hn].
  { replace (Z.to_nat n) with 0%nat by lia. rewrite Z.max_r by lia. cbn. f_equal. lia. }
  rewrite Z.max_l by lia. rewrite <- (Z2Nat.id n) at 2 by lia. generalize (Z.to_nat n) as k. clear. intros k. revert a.
  induction k as [|k IH]; intros a; cbn [replicate digits_value]; [cbn; f_equal; lia|].
  change (digit_value "0") with (Some 0). cbv iota. rewrite IH. f_equal. rewrite Nat2Z.inj_succ, Z.pow_succ_r by lia. lia.
Qed.

Lemma zeros_digits n : Forall (fun a => is_digit a = true) (zeros n).
Proof. unfold zeros. induction (Z.to_nat n); cbn; by constructor. Qed.

Lemma zeros_len n : 0 <= n -> len (zeros n) = n.
Proof. intros H. unfold len, zeros. rewrite length_replicate. lia. Qed.

(** ** The shape of a text *)

(** The integer part, the fraction with its point and the exponent with its
    letter, of an unsigned number. *)
Record shape (ip fp ep : list ascii) : Prop := {
  sh_int : ip = ["0"%char] \/ exists a l, ip = a :: l /\ Ascii.eqb a "0" = false;
  sh_int_digits : Forall (fun a => is_digit a = true) ip;
  sh_frac : fp = [] \/ exists a l, fp = "."%char :: a :: l /\ Forall (fun a => is_digit a = true) (a :: l);
  sh_exp : ep = [] \/ exists s a l, ep = "e"%char :: s :: a :: l /\ (s = "-"%char \/ s = "+"%char) /\ Forall (fun a => is_digit a = true) (a :: l);
}.

Lemma shape_scan ip fp ep :
  shape ip fp ep ->
  scan_minus (ip ++ fp ++ ep) = ([], ip ++ fp ++ ep) /\ scan_int (ip ++ fp ++ ep) = Some (ip, fp ++ ep) /\
  scan_frac (fp ++ ep) = Some (fp, ep) /\ scan_exp ep = Some (ep, []).
Proof.
  intros [Hi Hd Hf He].
  assert (Hend : no_digit (fp ++ ep) = true /\ no_digit ep = true).
  { destruct Hf as [->|(a & l & -> & _)], He as [->|(s & b & k & -> & _)]; done. }
  destruct Hend as [Hend1 Hend2]. repeat split.
  - destruct Hi as [->|(a & l & -> & _)]; [done|]. apply list.Forall_cons in Hd as [Ha _]. cbn [app scan_minus].
    destruct (Ascii.eqb a "-") eqn:E; [|done]. by apply Ascii.eqb_eq in E as ->.
  - destruct Hi as [->|(a & l & -> & Ha)]; [done|]. pose proof Hd as Hd'. apply list.Forall_cons in Hd as [Hd _].
    pose proof (span_digits_run (a :: l) (fp ++ ep) Hd' Hend1) as E. cbn [app scan_int] in *. by rewrite Ha, Hd, E.
  - destruct Hf as [->|(a & l & -> & Hl)]; [by destruct He as [->|(s & b & k & -> & _)]|].
    pose proof (span_digits_run (a :: l) ep Hl Hend2) as E. cbn [app scan_frac] in *. change (Ascii.eqb "." ".") with true. cbv iota. by rewrite E.
  - destruct He as [->|(s & b & k & -> & Hs & Hl)]; [done|].
    pose proof (span_digits_run (b :: k) [] Hl eq_refl) as E. rewrite app_nil_r in E. cbn [scan_exp].
    by destruct Hs as [->| ->]; cbv iota; cbn -[span_digits]; rewrite E.
Qed.

Lemma shape_number ip fp ep d :
  shape ip fp ep -> digits_value 0 (ip ++ tail fp) = Some d ->
  (number_ok (ip ++ fp ++ ep) /\ number_parts (ip ++ fp ++ ep) = Some (false, d, exp_value (tail ep) - len (tail fp))) /\
  (number_ok ("-"%char :: ip ++ fp ++ ep) /\
   number_parts ("-"%char :: ip ++ fp ++ ep) = Some (true, d, exp_value (tail ep) - len (tail fp))).
Proof.
  intros Hs Hd. destruct (shape_scan ip fp ep Hs) as (H0 & H1 & H2 & H3).
  unfold number_ok, scan_number, number_parts. split.
  - rewrite H0, H1. cbn [mbind option_bind]. rewrite H2. cbn [mbind option_bind]. rewrite H3. cbn [mbind option_bind]. by rewrite Hd.
  - cbn [scan_minus]. change (Ascii.eqb "-" "-") with true. cbv iota.
    rewrite H1. cbn [mbind option_bind]. rewrite H2. cbn [mbind option_bind]. rewrite H3. cbn [mbind option_bind]. by rewrite Hd.
Qed.

(** A text of a decimal: its shape and its value. *)
Definition text_of (t : list ascii) (d k : Z) : Prop :=
  exists ip fp ep d', t = ip ++ fp ++ ep /\ shape ip fp ep /\ digits_value 0 (ip ++ tail fp) = Some d' /\
    (dec d' (exp_value (tail ep) - len (tail fp)) == dec d (- k))%Q.

Lemma digits_value_cat a l k b : digits_value a l = Some b -> digits_value a (l ++ k) = digits_value b k.
Proof. revert a. induction l as [|x l IH]; intros a H; cbn in *; [by simplify_eq|]. destruct (digit_value x); [by apply IH|done]. Qed.

Lemma plain_text_of d k : 0 < d -> text_of (plain_text (digits d) (len (digits d) - k)) d k.
Proof.
  intros Hd. destruct (digits_spec d Hd) as (Hv & Hdig & a & l & E & Ha). unfold plain_text. set (ds := digits d) in *. set (dp := len ds - k).
  destruct (Z.leb_spec (len ds) dp) as [Hk|Hk]; [|destruct (Z.ltb_spec 0 dp) as [Hp|Hp]].
  - exists (ds ++ zeros (dp - len ds)), [], [], (d * 10 ^ (- k)). rewrite app_nil_r. split; [done|]. split; [|split].
    + constructor; [right; rewrite E; by eexists _, _|apply list.Forall_app; split; [done|apply zeros_digits]|by left|by left].
    + cbn [tail]. rewrite app_nil_r, (digits_value_cat _ _ _ _ Hv), digits_value_zeros. do 2 f_equal. f_equal. lia.
    + rewrite dec_shift by lia. done.
  - set (n := Z.to_nat dp). assert (Hn : (0 < n < length ds)%nat) by (unfold len in *; lia).
    destruct (drop n ds) as [|b r] eqn:Er; [apply (f_equal length) in Er; rewrite length_drop in Er; cbn in Er; lia|].
    exists (take n ds), ("."%char :: b :: r), [], d. rewrite app_nil_r. split; [done|]. split; [|split].
    + constructor; [|by apply Forall_take| |by left].
      * right. rewrite E. destruct n as [|n']; [lia|]. cbn [take]. by eexists _, _.
      * right. exists b, r. split; [done|]. rewrite <- Er. by apply Forall_drop.
    + cbn [tail]. rewrite <- Er, take_drop. done.
    + cbn [tail exp_value]. rewrite <- Er. assert (0 - len (drop n ds) = - k) as -> by (unfold len in *; rewrite length_drop; lia). done.
  - exists ["0"%char], ("."%char :: zeros (- dp) ++ ds), [], d. rewrite app_nil_r. split; [done|]. split; [|split].
    + constructor; [by left|by constructor| |by left]. right.
      assert (Hall : Forall (fun a => is_digit a = true) (zeros (- dp) ++ ds)) by (apply list.Forall_app; split; [apply zeros_digits|done]).
      destruct (zeros (- dp) ++ ds) as [|b r] eqn:Er; [rewrite E in Er; by destruct (zeros (- dp))|]. by exists b, r.
    + change (digits_value 0 (zeros (- dp) ++ ds) = Some d). rewrite (digits_value_cat 0 (zeros (- dp)) ds 0); [done|].
      by rewrite digits_value_zeros.
    + cbn [tail exp_value]. rewrite len_app, zeros_len by lia. assert (0 - (- dp + len ds) = - k) as -> by lia. done.
Qed.

Lemma exp_digits_spec x : exists s a l, exp_digits x = s :: a :: l /\ (s = "-"%char \/ s = "+"%char) /\
  Forall (fun a => is_digit a = true) (a :: l) /\ exp_value (exp_digits x) = x.
Proof.
  unfold exp_digits. destruct (Z.ltb_spec x 0) as [Hx|Hx].
  - destruct (digits_spec (- x) ltac:(lia)) as (Hv & Hd & a & l & E & _). rewrite E in *. exists "-"%char, a, l.
    split; [done|]. split; [by left|]. split; [done|]. cbn [exp_value]. change (Ascii.eqb "-" "-") with true. cbv iota. rewrite Hv. cbn. lia.
  - assert (Hgo : exists a l, (if x <? 10 then ["0"%char] else []) ++ digits x = a :: l /\ Forall (fun a => is_digit a = true) (a :: l) /\
              digits_value 0 (a :: l) = Some x).
    { destruct (Z.eq_dec x 0) as [->|Hnz]; [by eexists _, _; split; [reflexivity|]; split; [repeat constructor|]|].
      destruct (digits_spec x ltac:(lia)) as (Hv & Hd & a & l & E & _). rewrite E in *.
      destruct (x <? 10); cbn [app]; [exists "0"%char, (a :: l)|by exists a, l]. split; [done|]. split; [by constructor|]. exact Hv. }
    destruct Hgo as (a & l & E & Hd & Hv). rewrite E. exists "+"%char, a, l. split; [done|]. split; [by right|]. split; [done|].
    cbn [exp_value]. change (Ascii.eqb "+" "-") with false. change (Ascii.eqb "+" "+") with true. cbv iota. by rewrite Hv.
Qed.

Lemma exp_text_of d k : 0 < d -> text_of (exp_text (digits d) (len (digits d) - k)) d k.
Proof.
  intros Hd. destruct (digits_spec d Hd) as (Hv & Hdig & a & l & E & Ha). rewrite E in *. set (dp := len (a :: l) - k).
  destruct (exp_digits_spec (dp - 1)) as (s & b & r & Ex & Hs & Hr & Hx). apply list.Forall_cons in Hdig as [Hda Hdl].
  exists [a], (match l with [] => [] | _ => "."%char :: l end), ("e"%char :: exp_digits (dp - 1)), d.
  assert (Ht : tail (match l with [] => [] | _ => "."%char :: l end) = l) by (by destruct l).
  split; [done|]. split; [|split].
  - constructor; [right; by exists a, []|by constructor| |right; exists s, b, r; by rewrite Ex].
    destruct l as [|c l]; [by left|right; by exists c, l].
  - by rewrite Ht.
  - rewrite Ht. cbn [tail]. rewrite Hx. assert (dp - 1 - len l = - k) as -> by (unfold dp, len; cbn [length]; lia). done.
Qed.

Lemma f64_opp q : f64 q = Fin q -> f64 (Qred (- q)) = Fin (Qred (- q)).
Proof.
  intros Hq. pose proof (f64_value q Hq) as Hq'. assert (Hro : rnd (Qred (- q)) = Qred (- q)).
  { rewrite <- (rnd_red (Qred (- q))). apply Qred_complete. rewrite Qred_correct, rnd_opp. by rewrite Hq'. }
  unfold f64 in *. rewrite Hro. rewrite Hq' in Hq. assert (Qabs (Qred (- q)) == Qabs q)%Q as Ha by (by rewrite Qred_correct, Qabs_opp).
  destruct (Qle_bool (pow2 1024) (Qabs q)) eqn:E1; [done|]. destruct (Qle_bool (pow2 1024) (Qabs (Qred (- q)))) eqn:E2; [|done].
  exfalso. apply Qle_bool_iff in E2. rewrite Ha in E2. apply Qle_bool_iff in E2. congruence.
Qed.

Lemma text_of_reads t d k : text_of t d k ->
  number_ok t /\ number_ok ("-"%char :: t) /\
  forall q, f64 q = Fin q -> reads_as q d k = true -> json_float t = Some (Fin q) /\ json_float ("-"%char :: t) = Some (Fin (Qred (- q))).
Proof.
  intros (ip & fp & ep & d' & -> & Hs & Hd & He). destruct (shape_number ip fp ep d' Hs Hd) as [[H1 H2] [H3 H4]].
  split; [done|]. split; [done|]. intros q Hq Hr. unfold json_float. rewrite H2, H4. cbn [mbind option_bind].
  unfold reads_as in Hr. apply Qeq_bool_iff in Hr.
  assert (Hrd : (rnd (dec d' (exp_value (tail ep) - len (tail fp))) == q)%Q) by (by rewrite He). split.
  - by rewrite (f64_reads q).
  - pose proof (f64_opp q Hq) as Hneg.
    rewrite (f64_reads (Qred (- q))); [done|done|]. rewrite Qred_correct, <- Hrd, <- rnd_opp.
    assert (dec (- d') (exp_value (tail ep) - len (tail fp)) == - dec d' (exp_value (tail ep) - len (tail fp)))%Q as ->; [|done].
    rewrite !dec_spec, inject_Z_opp. ring.
Qed.

Lemma pos_text_spec q : f64 q = Fin q -> (0 < q)%Q ->
  exists t d k, pos_text q = Some t /\ text_of t d k /\ reads_as q d k = true.
Proof.
  intros H Hp. destruct (last_grid_exact q H Hp) as (Hle & d0 & Hd0). unfold pos_text.
  destruct (shortest _ (first_grid q) q) as [[d k]|] eqn:Es.
  - destruct (shortest_reads _ _ _ _ _ Hp Es) as [Hd Hr]. cbn [mbind option_bind]. eexists _, d, k. split; [done|]. split; [|done].
    destruct (_ || _); [by apply exp_text_of|by apply plain_text_of].
  - exfalso. revert Es. apply (shortest_found _ _ _ last_grid); [congruence|lia].
Qed.

(** Every value has a text, the text is a number of JSON, and it reads back. *)
Lemma float_roundtrip x : finite x -> exists t, float_text x = Some t /\ number_ok t /\ json_float t = Some x.
Proof.
  destruct x as [| |q]; [done..|]. cbn [finite float_text]. intros H. destruct (Qcompare_spec q 0) as [E|E|E].
  - exists ["0"%char]. split; [done|]. split; [done|]. assert (q = 0%Q) as ->; [|reflexivity].
    pose proof (f64_value q H) as Hq. rewrite <- Hq. by apply rnd_zero.
  - assert (Hr : Qred q = q).
    { pose proof (f64_value q H) as Hq. rewrite <- Hq. apply rnd_red. }
    assert (Hp : (0 < Qred (- q))%Q). { rewrite Qred_correct. apply (Qopp_lt_compat _ 0) in E. exact E. }
    pose proof (f64_opp q H) as Hn.
    destruct (pos_text_spec _ Hn Hp) as (t & d & k & Ht & Hof & Hread). rewrite Ht. cbn [mbind option_bind]. eexists. split; [done|].
    destruct (text_of_reads t d k Hof) as (_ & H2 & H3). split; [done|]. destruct (H3 _ Hn Hread) as [_ ->]. do 2 f_equal.
    rewrite <- Hr at 2. apply Qred_complete. rewrite Qred_correct. ring.
  - destruct (pos_text_spec q H E) as (t & d & k & Ht & Hof & Hread). exists t. split; [done|].
    destruct (text_of_reads t d k Hof) as (H2 & _ & H3). split; [done|]. by destruct (H3 _ H Hread) as [-> _].
Qed.

(** ** Integers *)

Lemma FormatInt_number z : int64_ok z = true -> number_ok (bytes (FormatInt z)).
Proof.
  intros Hz. assert (Hr : - 10 ^ 20 < z < 10 ^ 20) by (unfold int64_ok, min_int64, max_int64 in Hz; bool_to_prop; lia).
  destruct (Z.eq_dec z 0) as [->|Hnz]; [done|]. unfold FormatInt. rewrite bytes_of_bytes.
  assert (Hn : 0 < Z.abs z < 10 ^ Z.of_nat 20) by (change (10 ^ Z.of_nat 20) with (10 ^ 20); lia).
  assert (Hs : shape (dec_loop 20 (Z.abs z) []) [] []).
  { constructor; [right; by apply dec_loop_lead| |by left|by left]. apply dec_loop_bytes; [lia|apply digit_char_digit|done]. }
  assert (Hv : digits_value 0 (dec_loop 20 (Z.abs z) [] ++ tail []) = Some (Z.abs z)).
  { cbn [tail]. rewrite app_nil_r, dec_loop_value by lia. done. }
  destruct (shape_number _ _ _ _ Hs Hv) as [[H1 _] [H2 _]]. cbn [app] in H1, H2. rewrite app_nil_r in H1, H2.
  destruct (Z.ltb_spec z 0); [replace (- z) with (Z.abs z) by lia; exact H2|]. rewrite Z.abs_eq in H1 by lia. exact H1.
Qed.
