(* ===== verification/JsonCodec.v ===== *)
(** Go's [encoding/json]: values to documents and back.

    A decoder gives, for the documents decoded one after the other into a
    variable that was zero, the value of the variable: a struct's field sees the
    values of all members with its name, in order, so that repeated keys, [null]
    and nested structs behave as in [Unmarshal], which writes into what is
    already there.  A decoder also tells which documents it reports an error
    for; it goes on after one. *)

From Stdlib Require Import QArith.
From S2P Require Import Prelude GoStrings GoConv Float64 GoTime Json GoDate JsonFloat.
Local Open Scope list_scope.
Local Open Scope Z_scope.

(** A string as JSON hands it on: bytes that are not UTF-8 become U+FFFD. *)
Definition utf8 (s : string) : string := of_bytes (to_valid 0 (bytes s)).

Lemma utf8_valid s : valid_utf8 s -> utf8 s = s.
Proof. intros H. unfold utf8. by rewrite H, of_bytes_bytes. Qed.

(** ** Encoders *)

Definition e_string (s : string) : json := JStr (escape 0 (bytes s)).
Definition e_int (z : Z) : json := JNum (bytes (FormatInt z)).
Definition e_float (x : float64) : option json := JNum <$> float_text x.
Definition e_time (zone : Z) (t : Time) : option json := JStr <$> format_time zone t.
Definition e_list {A} (e : A -> option json) (l : list A) : option json := JArr <$> mapM e l.

(** A member of a struct: its name, whether it is written, its value.  A member
    with [omitempty] is not written when its value is empty. *)
Abbreviation member J := (string * bool * J)%type (only parsing).

Definition written {J} (l : list (member J)) : list (list ascii * J) :=
  omap (fun m => if m.1.2 : bool then Some (bytes m.1.1, m.2) else None) l.

Definition e_struct (l : list (member (option json))) : option json :=
  JObj <$> mapM (fun m => pair m.1 <$> m.2) (written l).

(** [Marshal], and [Encoder.Encode], which ends the line. *)
Definition Marshal {A} (e : A -> option json) (a : A) : option (list ascii) := print <$> e a.
Definition Encode {A} (e : A -> option json) (a : A) : option (list ascii) :=
  (fun t => t ++ [ascii_of_N 10]) <$> Marshal e a.

(** ** Decoders *)

Record decoder (A : Type) := { dval : list json -> A; dbad : json -> bool }.
Arguments dval {A} _ _.
Arguments dbad {A} _ _.

(** A value that the last document it accepts sets. *)
Definition d_scalar {A} (zero : A) (get : json -> option A) : decoder A := {|
  dval h := fold_left (fun a j => default a (get j)) h zero;
  dbad j := match j with JNull => false | _ => match get j with Some _ => false | None => true end end |}.

Definition d_string : decoder string := d_scalar "" (fun j => match j with JStr raw => Some (of_bytes (unquote 0 raw)) | _ => None end).
Definition d_int : decoder Z := d_scalar 0 (fun j => match j with JNum t => Atoi (of_bytes t) | _ => None end).
Definition d_bool : decoder bool := d_scalar false (fun j => match j with JBool b => Some b | _ => None end).
Definition d_float : decoder float64 := d_scalar (Fin 0) (fun j => match j with JNum t => json_float t | _ => None end).
(** [Time.UnmarshalJSON] looks at the text between the quotes as it is. *)
Definition d_time : decoder Time := d_scalar 0 (fun j => match j with JStr raw => parse_time raw | _ => None end).

(** A slice: the elements ever written, each with the documents decoded into it,
    and its length.  An array is decoded into the elements that are there; an
    empty array makes a new slice. *)
Fixpoint overlay (l : list json) (buf : list (list json)) : list (list json) :=
  match l, buf with
  | [], _ => buf
  | j :: l, [] => [j] :: overlay l []
  | j :: l, h :: buf => (h ++ [j]) :: overlay l buf
  end.
Definition slice_step (s : list (list json) * nat) (j : json) : list (list json) * nat :=
  match j with
  | JNull | JArr [] => ([], 0%nat)
  | JArr l => (overlay l s.1, length l)
  | _ => s
  end.
Definition d_list {A} (d : decoder A) : decoder (list A) := {|
  dval h := let '(buf, n) := fold_left slice_step h ([], 0%nat) in dval d <$> take n buf;
  dbad j := match j with JNull => false | JArr l => existsb (dbad d) l | _ => true end |}.

(** The name of a field and a key are compared with case folding: besides the
    letters' cases, the long s and the Kelvin sign fold to ASCII letters. *)
Fixpoint fold_name (l : list ascii) : list ascii :=
  match l with
  | [] => []
  | a :: l1 =>
      match l1 with
      | b :: l2 =>
          if (byte_val a =? 197) && (byte_val b =? 191) then "s"%char :: fold_name l2
          else match l2 with
          | c :: l3 =>
              if (byte_val a =? 226) && (byte_val b =? 132) && (byte_val c =? 170) then "k"%char :: fold_name l3
              else lower_byte a :: fold_name l1
          | [] => lower_byte a :: fold_name l1
          end
      | [] => [lower_byte a]
      end
  end.
Definition key_is (name : string) (key : list ascii) : bool := bool_decide (fold_name (unquote 0 key) = bytes name).

(** What is decoded into the field of a name: the values of all its members. *)
Definition field_of (name : string) (j : json) : list json :=
  match j with JObj ms => omap (fun m => if key_is name m.1 then Some m.2 else None) ms | _ => [] end.
Definition hist (name : string) (h : list json) : list json := concat (field_of name <$> h).

Definition d_struct {A} (bad : list (string * (json -> bool))) (val : (string -> list json) -> A) : decoder A := {|
  dval h := val (fun name => hist name h);
  dbad j :=
    match j with
    | JNull => false
    | JObj ms => existsb (fun m => existsb (fun f => key_is f.1 m.1 && f.2 m.2) bad) ms
    | _ => true
    end |}.

(** [DisallowUnknownFields]: a member of another name is an error. *)
Definition strict {A} (names : list string) (d : decoder A) : decoder A := {|
  dval := dval d;
  dbad j := dbad d j ||
    match j with JObj ms => existsb (fun m => negb (existsb (fun n => key_is n m.1) names)) ms | _ => false end |}.

(** [map[string]float64]: an object adds its members to what is there. *)
Definition d_floats : decoder (gmap string float64) := {|
  dval h := fold_left (fun acc j =>
    match j with
    | JNull => ∅
    | JObj ms => fold_left (fun acc m => <[of_bytes (unquote 0 m.1) := dval d_float [m.2]]> acc) ms acc
    | _ => acc
    end) h ∅;
  dbad j := match j with JNull => false | JObj ms => existsb (fun m => dbad d_float m.2) ms | _ => true end |}.

(** Decoding a document read by [rd]; [None] is an error. *)
Definition Decode {A} (rd : list ascii -> option json) (d : decoder A) (body : list ascii) : option A :=
  j ← rd body; if dbad d j then None else Some (dval d [j]).
(** What the variable is when the error is not looked at. *)
Definition Decoded {A} (rd : list ascii -> option json) (d : decoder A) (body : list ascii) : A :=
  dval d (match rd body with Some j => [j] | None => [] end).
Definition Unmarshal {A} (d : decoder A) (text : list ascii) : option A := Decode only_value d text.

(** ** Documents decode to what was encoded *)

(** An encoder's document: it is printed and scanned back ([scan_printed]), and
    decodes without an error to [a]. *)
Definition codes {A} (o : option json) (d : decoder A) (depth : Z) (a : A) : Prop :=
  exists j, o = Some j /\ encoded j /\ nesting j <= depth /\ dbad d j = false /\ dval d [j] = a.

Lemma codes_string s : codes (Some (e_string s)) d_string 0 (utf8 s).
Proof.
  exists (e_string s). split; [done|]. split; [by exists (bytes s)|]. split; [done|]. split; [done|]. cbn. by rewrite unquote_escape.
Qed.

Lemma codes_int z : int64_ok z = true -> codes (Some (e_int z)) d_int 0 z.
Proof.
  intros Hz. exists (e_int z). pose proof (Atoi_FormatInt z Hz) as E. split; [done|]. split; [by apply FormatInt_number|]. split; [done|].
  cbn. by rewrite of_bytes_bytes, E.
Qed.

Lemma codes_bool b : codes (Some (JBool b)) d_bool 0 b.
Proof. by exists (JBool b). Qed.

Lemma codes_float x : finite x -> codes (e_float x) d_float 0 x.
Proof.
  intros Hx. destruct (float_roundtrip x Hx) as (t & Ht & Hn & Hr). exists (JNum t). unfold e_float. rewrite Ht. cbn. by rewrite Hr.
Qed.

(** The instants that have a text: the years 0 to 9999. *)
Definition dated_time (zone : Z) (t : Time) : Prop := -1440 < zone < 1440 /\ format_time zone t <> None.

(** A text of digits, signs and the letters T and Z needs no escaping. *)
Definition time_byte (a : ascii) : bool := is_digit a || bool_decide (a ∈ ["-"; ":"; "T"; "."; "Z"; "+"]%char).

Lemma time_byte_escape l : Forall (fun a => time_byte a = true) l -> escape 0 l = l.
Proof.
  induction 1 as [|a l Ha _ IH]; [done|].
  assert (Hb : byte_val a <? 128 = true /\ escape_byte a = [a])
    by (clear -Ha; destruct a as [[] [] [] [] [] [] [] []]; vm_compute in Ha; try discriminate Ha; done).
  destruct Hb as [H1 H2]. cbn [escape]. rewrite H1, H2. cbn. by rewrite IH.
Qed.

Lemma format_time_bytes zone t text : format_time zone t = Some text -> Forall (fun a => time_byte a = true) text.
Proof.
  assert (Hf : forall w n, Forall (fun a => time_byte a = true) (fixed w n)).
  { intros w n. eapply list.Forall_impl; [apply fixed_digits|]. intros a Ha. unfold time_byte. by rewrite Ha. }
  intros H. unfold format_time in H. destruct (civil _) as [[y m] d]. destruct (_ && _); [|done]. apply (inj Some) in H. rewrite <- H.
  repeat first [apply list.Forall_app; split; [by apply Hf|]|apply list.Forall_cons; split; [done|]].
  apply list.Forall_app. split.
  - unfold fraction. destruct (_ =? 0); [done|]. apply list.Forall_cons. split; [done|].
    destruct (trim_zeros (fixed 9 ((t + zone * Minute) mod Second))) as [n E]. pose proof (Hf 9%nat ((t + zone * Minute) mod Second)) as F.
    rewrite E in F. by apply list.Forall_app in F as [].
  - unfold zone_text. destruct (zone =? 0); [by constructor|]. apply list.Forall_cons. split; [by destruct (zone <? 0)|].
    apply list.Forall_app. split; [apply Hf|]. apply list.Forall_cons. split; [done|apply Hf].
Qed.

Lemma codes_time zone t : dated_time zone t -> codes (e_time zone t) d_time 0 t.
Proof.
  intros [Hz Ht]. unfold e_time. destruct (format_time zone t) as [text|] eqn:E; [|done]. exists (JStr text). split; [done|].
  split; [exists text; symmetry; by eapply time_byte_escape, format_time_bytes|]. split; [done|].
  cbn. by rewrite (parse_format_time zone t text Hz E).
Qed.

Lemma codes_weaken {A} o (d : decoder A) n m a : codes o d n a -> n <= m -> codes o d m a.
Proof. intros (j & H1 & H2 & H3 & H4 & H5) Hn. exists j. repeat split; try done. lia. Qed.

Lemma overlay_nil l : overlay l [] = (fun j => [j]) <$> l.
Proof. induction l as [|j l IH]; cbn; [done|]. by rewrite IH. Qed.

Lemma codes_list {A B} (e : A -> option json) (d : decoder B) depth l l' :
  0 <= depth -> Forall2 (fun a b => codes (e a) d depth b) l l' -> codes (e_list e l) (d_list d) (depth + 1) l'.
Proof.
  intros Hd H. assert (Hjs : exists js, mapM e l = Some js /\ foldr (fun x acc => encoded x /\ acc) True js /\
    foldr (fun x acc => Z.max (nesting x) acc) 0 js <= depth /\ existsb (dbad d) js = false /\ (fun j => dval d [j]) <$> js = l').
  { induction H as [|a b l l' (j & H1 & H2 & H3 & H4 & H5) _ (js & J1 & J2 & J3 & J4 & J5)]; [by exists []|].
    exists (j :: js). cbn. rewrite H1. cbn. rewrite J1, H4, J4. cbn. repeat split; try done; [lia|]. by rewrite H5, J5. }
  destruct Hjs as (js & J1 & J2 & J3 & J4 & J5). exists (JArr js). unfold e_list. rewrite J1. split; [done|]. split; [done|].
  split; [cbn; lia|]. split; [done|]. cbn -[take]. destruct js as [|j js]; [cbn in *; by rewrite <- J5|].
  cbn [slice_step fst fold_left]. rewrite overlay_nil, take_ge by (by rewrite length_fmap). by rewrite <- list_fmap_compose, <- J5.
Qed.

(** *** Structs *)

(** A field name of lower-case letters, digits and underscores. *)
Definition plain_name (n : string) : bool :=
  bool_decide (escape 0 (bytes n) = bytes n) && bool_decide (fold_name (unquote 0 (bytes n)) = bytes n) &&
  bool_decide (unquote 0 (bytes n) = bytes n).

Lemma key_is_plain n m : plain_name m = true -> key_is n (bytes m) = String.eqb n m.
Proof.
  unfold plain_name, key_is. intros H. bool_to_prop. rewrite H1. destruct (String.eqb_spec n m) as [->|Hn]; [by apply bool_decide_eq_true|].
  apply bool_decide_eq_false. intros E. apply Hn. rewrite <- (of_bytes_bytes n), <- (of_bytes_bytes m). by rewrite E.
Qed.

(** The member of exactly this name, as a database selects it: the last one. *)
Definition is_key (name : string) (key : list ascii) : bool := bool_decide (unquote 0 key = bytes name).
Definition get_member (name : string) (j : json) : option json :=
  match j with JObj ms => list.last (omap (fun m => if is_key name m.1 then Some m.2 else None) ms) | _ => None end.

Lemma is_key_plain n m : plain_name m = true -> is_key n (bytes m) = String.eqb n m.
Proof.
  unfold plain_name, is_key. intros H. bool_to_prop. rewrite H0. destruct (String.eqb_spec n m) as [->|Hn]; [by apply bool_decide_eq_true|].
  apply bool_decide_eq_false. intros E. apply Hn. rewrite <- (of_bytes_bytes n), <- (of_bytes_bytes m). by rewrite E.
Qed.

(** What the member of a name is decoded from. *)
Fixpoint pick (name : string) (l : list (member (option json))) : list json :=
  match l with
  | [] => []
  | m :: l =>
      if String.eqb name m.1.1 then (if m.1.2 then option_list m.2 else []) ++ pick name l else pick name l
  end.

(** A member that can be written and that the decoder of its field accepts. *)
Definition member_ok (bad : list (string * (json -> bool))) (depth : Z) (m : member (option json)) : Prop :=
  plain_name m.1.1 = true /\
  (m.1.2 = true -> exists j, m.2 = Some j /\ encoded j /\ nesting j <= depth /\
     existsb (fun f => String.eqb f.1 m.1.1 && f.2 j) bad = false).

Lemma existsb_ext {A} (f g : A -> bool) l : (forall x, f x = g x) -> existsb f l = existsb g l.
Proof. intros H. induction l as [|x l IH]; cbn; [done|]. by rewrite H, IH. Qed.

Lemma e_struct_ok {A} (bad : list (string * (json -> bool))) (val : (string -> list json) -> A) depth l :
  0 <= depth -> Forall (member_ok bad depth) l ->
  exists ms, e_struct l = Some (JObj ms) /\ encoded (JObj ms) /\ nesting (JObj ms) <= depth + 1 /\
    dbad (d_struct bad val) (JObj ms) = false /\
    forall name, hist name [JObj ms] = pick name l /\ get_member name (JObj ms) = list.last (pick name l).
Proof.
  intros Hd H. assert (Hms : exists ms, mapM (fun m => pair m.1 <$> m.2) (written l) = Some ms /\
    foldr (fun m acc => escaped m.1 /\ encoded m.2 /\ acc) True ms /\ foldr (fun m acc => Z.max (nesting m.2) acc) 0 ms <= depth /\
    existsb (fun m => existsb (fun f => key_is f.1 m.1 && f.2 m.2) bad) ms = false /\
    forall name, omap (fun m => if key_is name m.1 then Some m.2 else None) ms = pick name l /\
                 omap (fun m => if is_key name m.1 then Some m.2 else None) ms = pick name l).
  { induction H as [|[[n b] o] l [Hn Hm] _ (ms & M1 & M2 & M3 & M4 & M5)]; [by exists []|]. cbn [fst snd] in *.
    unfold written in *. cbn. destruct b; [|exists ms; do 4 (split; [done|]); intros name; destruct (M5 name) as [-> ->]; by destruct (String.eqb name n)].
    destruct (Hm eq_refl) as (j & -> & He & Hj & Hb). exists ((bytes n, j) :: ms). cbn. rewrite M1, M4. cbn. split; [done|].
    pose proof Hn as Hn'. unfold plain_name in Hn'. bool_to_prop.
    split; [split; [by exists (bytes n)|done]|]. split; [lia|]. split.
    - rewrite orb_false_r. erewrite existsb_ext; [exact Hb|]. intros f. cbn. by rewrite key_is_plain.
    - intros name. destruct (M5 name) as [E1 E2]. rewrite key_is_plain, is_key_plain by done. destruct (String.eqb name n); cbn; by rewrite E1, E2. }
  destruct Hms as (ms & M1 & M2 & M3 & M4 & M5). exists ms. unfold e_struct. rewrite M1. split; [done|]. split; [done|].
  split; [cbn; lia|]. split; [done|]. intros name. destruct (M5 name) as [E1 E2]. unfold hist, get_member. cbn. rewrite app_nil_r. by rewrite E1, E2.
Qed.

Lemma codes_struct {A} (bad : list (string * (json -> bool))) (val : (string -> list json) -> A) depth l a :
  0 <= depth -> Forall (member_ok bad depth) l -> (forall h, (forall n, h n = pick n l) -> val h = a) ->
  codes (e_struct l) (d_struct bad val) (depth + 1) a.
Proof.
  intros Hd Hl Hv. destruct (e_struct_ok bad val depth l Hd Hl) as (ms & H1 & H2 & H3 & H4 & H5).
  exists (JObj ms). repeat split; try done. cbn -[hist]. apply Hv. intros n. apply H5.
Qed.

Lemma written_keys l ms :
  forallb (fun m => plain_name m.1.1) l = true -> e_struct l = Some (JObj ms) ->
  Forall (fun m => exists n, n ∈ (fun m : member (option json) => m.1.1) <$> l /\ m.1 = bytes n /\ plain_name n = true) ms.
Proof.
  intros Hl Hj. unfold e_struct in Hj. apply fmap_Some in Hj as (ms' & Hms & E). injection E as <-.
  revert ms Hms. induction l as [|[[n b] o] l IH]; intros ms Hms; [change (Some [] = Some ms) in Hms; by injection Hms as <-|].
  cbn in Hl. apply andb_true_iff in Hl as [Hn Hl]. specialize (IH Hl). unfold written in Hms. cbn in Hms.
  assert (Hw : forall ms, Forall (fun m : list ascii * json => exists x, x ∈ (fun m : member (option json) => m.1.1) <$> l /\ m.1 = bytes x /\ plain_name x = true) ms ->
    Forall (fun m : list ascii * json => exists x, x ∈ (fun m : member (option json) => m.1.1) <$> (n, b, o) :: l /\ m.1 = bytes x /\ plain_name x = true) ms).
  { intros k Hk. eapply list.Forall_impl; [exact Hk|]. intros m (x & Hx & Hm). exists x. split; [by right|done]. }
  destruct b; [|by apply Hw, IH]. cbn in Hms. destruct o as [x|]; [|done]. cbn in Hms. apply bind_Some in Hms as (ms' & Hms' & Hms).
  change (Some ((bytes n, x) :: ms') = Some ms) in Hms. injection Hms as <-. constructor; [|by apply Hw, IH].
  exists n. split; [by left|done].
Qed.

(** Members of the struct's own names pass. *)
Lemma codes_strict {A} names l (d : decoder A) depth a :
  codes (e_struct l) d depth a -> forallb (fun m => plain_name m.1.1) l = true ->
  forallb (fun m => existsb (fun n => String.eqb n m.1.1) names) l = true -> codes (e_struct l) (strict names d) depth a.
Proof.
  intros (j & H1 & H2 & H3 & H4 & H5) Hp Hn. exists j. do 3 (split; [done|]). split; [|done]. cbn. rewrite H4. cbn.
  pose proof H1 as Hj. unfold e_struct in Hj. apply fmap_Some in Hj as (ms & _ & ->). pose proof (written_keys l ms Hp H1) as Hk.
  apply not_true_iff_false. intros Hx. apply existsb_Exists in Hx. apply list.Exists_exists in Hx as (m & Hm & Hx).
  rewrite list.Forall_forall in Hk. destruct (Hk m Hm) as (n & Hin & Hmn & Hpn). rewrite Hmn in Hx. apply negb_true_iff in Hx.
  apply list_elem_of_fmap in Hin as (x & -> & Hxl). rewrite forallb_forall in Hn. specialize (Hn x ltac:(by apply list_elem_of_In)).
  rewrite <- (existsb_ext (fun n => key_is n (bytes x.1.1)) _ names) in Hn by (intros y; by apply key_is_plain). congruence.
Qed.

(** A member in place: present with a document of its field, or empty. *)
Lemma member_codes {A} bad depth n b o (d : decoder A) k a :
  plain_name n = true -> codes o d k a -> k <= depth ->
  (forall j, existsb (fun f => String.eqb f.1 n && f.2 j) bad = dbad d j) -> member_ok bad depth (n, b, o).
Proof.
  intros Hn (j & -> & He & Hj & Hbad & _) Hk Hb. split; [done|]. cbn. intros _. exists j. repeat split; try done; [lia|]. by rewrite Hb.
Qed.

(** A member the decoder does not look at, and one that is not written. *)
Lemma member_skipped {A} bad depth n b o (d : decoder A) k a :
  plain_name n = true -> codes o d k a -> k <= depth ->
  (forall j, existsb (fun f => String.eqb f.1 n && f.2 j) bad = false) -> member_ok bad depth (n, b, o).
Proof.
  intros Hn (j & -> & He & Hj & _ & _) Hk Hb. split; [done|]. cbn. intros _. exists j. split; [done|]. split; [done|]. split; [lia|done].
Qed.
Lemma member_absent bad depth n o : plain_name n = true -> member_ok bad depth (n, false, o).
Proof. by split. Qed.

Lemma dval_present {A} o (d : decoder A) depth a : codes o d depth a -> dval d (option_list o) = a.
Proof. by intros (j & -> & _ & _ & _ & <-). Qed.

(** ** Members with their types *)

(** Members written always, and with [omitempty]. *)
Definition str (n s : string) : string * bool * option json := (n, true, Some (e_string s)).
Definition str_opt (n s : string) : string * bool * option json := (n, negb (String.eqb s ""), Some (e_string s)).
Definition int (n : string) (z : Z) : string * bool * option json := (n, true, Some (e_int z)).
Definition int_opt (n : string) (z : Z) : string * bool * option json := (n, negb (z =? 0), Some (e_int z)).
Definition flag (n : string) (b : bool) : string * bool * option json := (n, true, Some (JBool b)).
Definition list_opt {A} (n : string) (e : A -> option json) (l : list A) : string * bool * option json :=
  (n, match l with [] => false | _ => true end, e_list e l).

Lemma dval_str_opt s : dval d_string (if negb (String.eqb s "") then option_list (Some (e_string s)) else []) = utf8 s.
Proof. destruct (String.eqb_spec s "") as [->|_]; [done|]. apply (dval_present (Some (e_string s)) d_string 0), codes_string. Qed.
Lemma dval_int_opt z : int64_ok z = true -> dval d_int (if negb (z =? 0) then option_list (Some (e_int z)) else []) = z.
Proof. intros H. destruct (Z.eqb_spec z 0) as [->|_]; [done|]. by apply (dval_present (Some (e_int z)) d_int 0), codes_int. Qed.
Lemma dval_list_opt {A B} (e : A -> option json) (d : decoder B) depth l l' :
  codes (e_list e l) (d_list d) depth l' -> (l = [] -> l' = []) ->
  dval (d_list d) (if match l with [] => false | _ => true end then option_list (e_list e l) else []) = l'.
Proof. intros H Hn. destruct l as [|a l]; [by rewrite Hn|]. by apply (dval_present _ _ depth). Qed.

Lemma codes_strings l : codes (e_list (fun s => Some (e_string s)) l) (d_list d_string) 1 (utf8 <$> l).
Proof.
  apply (codes_list _ _ 0); [done|]. induction l as [|s l IH]; cbn; constructor; [apply codes_string|exact IH].
Qed.

Create HintDb codes.
#[export] Hint Resolve codes_string codes_int codes_bool codes_float codes_time codes_strings : codes.

(** Proves that a struct's document decodes: the members one by one, by the
    lemmas of their types, then the fields. *)
Ltac codes_members :=
  repeat first [apply Forall_nil_2 | apply Forall_cons_2];
  first [ eapply member_codes; [reflexivity|eauto with codes|lia|
            intros ?; cbn [existsb fst snd String.eqb Ascii.eqb Bool.eqb andb orb]; rewrite ?orb_false_r; reflexivity]
        | apply member_absent; reflexivity
        | eapply member_skipped; [reflexivity|eauto with codes|lia|reflexivity] ].
Ltac codes_fields :=
  let h := fresh "h" in let Hh := fresh "Hh" in
  intros h Hh; rewrite !Hh;
  cbn [pick str str_opt int int_opt flag list_opt fst snd String.eqb Ascii.eqb Bool.eqb app]; rewrite ?app_nil_r;
  lazymatch goal with |- _ = ?r => let r' := eval hnf in r in change r with r' end;
  f_equal; first [by eapply dval_present; eauto with codes | by f_equal; eapply dval_present; eauto with codes | apply dval_str_opt | by apply dval_int_opt
                 | by eapply dval_list_opt; [eauto with codes|intros ->] | idtac].
Ltac codes_struct_tac depth := apply (codes_struct _ _ depth); [lia|codes_members|codes_fields].

(** ** Texts *)

Lemma Decode_printed {A} (d : decoder A) depth o a (rd : list ascii -> option json) text :
  codes o d depth a -> (forall j, o = Some j -> encoded j -> nesting j <= depth -> rd text = Some j) -> Decode rd d text = Some a.
Proof.
  intros (j & -> & H2 & H3 & H4 & <-) Hr. unfold Decode. rewrite (Hr j) by done. cbn. by rewrite H4.
Qed.

Lemma Unmarshal_Marshal {A B} (e : A -> option json) (d : decoder B) depth a b :
  codes (e a) d depth b -> depth <= maxNestingDepth ->
  exists text, Marshal e a = Some text /\ Unmarshal d text = Some b.
Proof.
  intros H Hd. pose proof H as (j & Hj & He & Hn & _). exists (print j). unfold Marshal. rewrite Hj. split; [done|].
  eapply Decode_printed; [exact H|]. intros j' Hj' He' Hn'. assert (j' = j) as -> by congruence. apply only_printed; [done|lia].
Qed.

(** A struct or an array read back through the readers with a limit. *)
Definition composite (j : json) : bool := match j with JArr _ | JObj _ => true | _ => false end.

Lemma MaxBytes_printed limit j rest :
  encoded j -> nesting j <= maxNestingDepth -> composite j = true -> len (print j) <= limit ->
  MaxBytes limit (print j ++ rest) = Some j.
Proof.
  intros He Hn Hc Hl. unfold MaxBytes. unfold len in Hl. rewrite take_app_ge by lia.
  rewrite scan_printed by (done || by destruct j). cbn. by destruct j.
Qed.

Lemma LimitReader_printed limit j rest :
  encoded j -> nesting j <= maxNestingDepth -> stops rest = true -> len (print j) <= limit ->
  LimitReader limit (print j ++ rest) = Some j.
Proof.
  intros He Hn Hr Hl. unfold LimitReader, first_value. unfold len in Hl. rewrite take_app_ge by lia.
  assert (Hst : stops (take (Z.to_nat limit - length (print j)) rest) = true).
  { destruct (Z.to_nat limit - length (print j))%nat; [done|]. by destruct rest. }
  by rewrite scan_printed.
Qed.
