(* ===== verification/Verdict.v ===== *)
(** [pkg/verdict]: the public result of a verification.

    [Status] and [SubStatus] are Go string types: besides the declared
    constants they can hold any other string (a value decoded from a remote
    agent, for example), which the last constructor stands for. *)

From Stdlib Require Import QArith.
From S2P Require Import Prelude Float64 GoTime.
Local Open Scope Z_scope.

#[global] Instance Q_eq_decision : EqDecision Q.
Proof. solve_decision. Defined.
#[global] Instance float64_eq_decision : EqDecision float64.
Proof. solve_decision. Defined.

Inductive Status : Type :=
| StatusDeliverable
| StatusUndeliverable
| StatusRisky
| StatusUnknown
| Status_other (s : string).

#[global] Instance Status_eq_decision : EqDecision Status.
Proof. solve_decision. Defined.

(** [Status.Valid] *)
Definition Status_Valid (s : Status) : bool :=
  match s with
  | StatusDeliverable | StatusUndeliverable | StatusRisky | StatusUnknown => true
  | Status_other _ => false
  end.

(** [Status.String]: the underlying string *)
Definition Status_String (s : Status) : string :=
  match s with
  | StatusDeliverable => "deliverable"
  | StatusUndeliverable => "undeliverable"
  | StatusRisky => "risky"
  | StatusUnknown => "unknown"
  | Status_other s => s
  end.

Inductive SubStatus : Type :=
| SubValidMailbox
| SubInvalidSyntax
| SubNoMXRecord
| SubDomainNotFound
| SubMailboxNotFound
| SubCatchAll
| SubRoleAccount
| SubDisposable
| SubFullMailbox
| SubLowDeliverability
| SubGreylisted
| SubTimeout
| SubBlocked
| SubPort25Blocked
| SubProviderSkipped
| SubTemporaryFailure
| SubNoConnect
| SubStatus_other (s : string).

#[global] Instance SubStatus_eq_decision : EqDecision SubStatus.
Proof. solve_decision. Defined.

(** [SubStatus.String] *)
Definition SubStatus_String (s : SubStatus) : string :=
  match s with
  | SubValidMailbox => "valid_mailbox"
  | SubInvalidSyntax => "invalid_syntax"
  | SubNoMXRecord => "no_mx_record"
  | SubDomainNotFound => "domain_not_found"
  | SubMailboxNotFound => "mailbox_not_found"
  | SubCatchAll => "catch_all"
  | SubRoleAccount => "role_account"
  | SubDisposable => "disposable"
  | SubFullMailbox => "full_mailbox"
  | SubLowDeliverability => "low_deliverability"
  | SubGreylisted => "greylisted"
  | SubTimeout => "timeout"
  | SubBlocked => "blocked"
  | SubPort25Blocked => "port25_blocked"
  | SubProviderSkipped => "provider_skipped"
  | SubTemporaryFailure => "temporary_failure"
  | SubNoConnect => "no_connect"
  | SubStatus_other s => s
  end.

(** The zero values of the two string types. *)
Definition Status_zero : Status := Status_other "".
Definition SubStatus_zero : SubStatus := SubStatus_other "".

Record SyntaxCheck := { Syntax_Valid : bool }.
Record MXCheck := { MX_Found : bool; MX_Records : list string }.
Record SMTPCheck := { SMTP_Probed : bool; SMTP_Code : Z; SMTP_Response : string }.

Record Checks := {
  Checks_Syntax : SyntaxCheck;
  Checks_MX : MXCheck;
  Checks_Disposable : bool;
  Checks_Role : bool;
  Checks_Free : bool;
  Checks_CatchAll : bool;
  Checks_SMTP : SMTPCheck;
}.

Definition Checks_zero : Checks := {|
  Checks_Syntax := {| Syntax_Valid := false |};
  Checks_MX := {| MX_Found := false; MX_Records := [] |};
  Checks_Disposable := false; Checks_Role := false; Checks_Free := false;
  Checks_CatchAll := false;
  Checks_SMTP := {| SMTP_Probed := false; SMTP_Code := 0; SMTP_Response := "" |};
|}.

Record Verdict := {
  Email : string;
  Normalized : string;
  vStatus : Status;
  vSubStatus : SubStatus;
  Confidence : float64;
  vChecks : Checks;
  Provider : string;
  Engine : string;
  EgressID : string;
  Cached : bool;
  CheckedAt : Time;
}.

(** What [Validate] rejects, in the order it checks. *)
Inductive validate_error := EmptyEmail | InvalidStatus (s : Status) | ConfidenceOutOfRange (c : float64).

(** [Verdict.Validate] *)
Definition Validate (v : Verdict) : option validate_error :=
  if String.eqb (Email v) "" then Some EmptyEmail
  else if negb (Status_Valid (vStatus v)) then Some (InvalidStatus (vStatus v))
  else if flt (Confidence v) (f64 0) || flt (f64 1) (Confidence v)
       then Some (ConfidenceOutOfRange (Confidence v))
  else None.

(** A verdict with a non-empty address, one of the four statuses and a
    confidence in [0, 1] passes. *)
Lemma Validate_ok v :
  Email v <> "" -> Status_Valid (vStatus v) = true -> funit (Confidence v) -> Validate v = None.
Proof.
  intros He Hs (q & Hq & _ & H0 & H1). unfold Validate. rewrite Hs, Hq.
  rewrite (proj2 (String.eqb_neq _ _) He).
  change (f64 0) with (Fin 0). change (f64 1) with (Fin 1). cbn [flt negb]. unfold Qltb.
  by rewrite (proj2 (Qle_bool_iff 0 q) H0), (proj2 (Qle_bool_iff q 1) H1).
Qed.

Definition set_Cached (c : bool) (v : Verdict) : Verdict :=
  {| Email := Email v; Normalized := Normalized v; vStatus := vStatus v;
     vSubStatus := vSubStatus v; Confidence := Confidence v; vChecks := vChecks v;
     Provider := Provider v; Engine := Engine v; EgressID := EgressID v;
     Cached := c; CheckedAt := CheckedAt v |}.
