(* ===== verification/Engine.v ===== *)
(** [pkg/engine]: the contract of a verification engine.

    A task, the identity it is bound to, the feedback signals of a probe and an
    engine's capabilities.  The interface itself is the function type [Engine_]
    of [Verifier.v]: what the verifier needs of the in-process SMTP engine, of a
    remote agent's client or of any other engine. *)

From S2P Require Import Prelude GoStrings Float64 GoTime Verdict.

Record Task := {
  Task_ID : string;
  Task_JobID : string;
  Task_Email : string;
  Task_Normalized : string;
  Task_Domain : string;
  Task_Provider : string;
  Task_MX : list string;
}.

(** The identity a probe leaves from.  Dialling is the network's business; the
    model keeps what the engine and the manager read of a binding. *)
Record EgressBinding := {
  binding_ID : string;
  binding_HELO : string;
  binding_MailFrom : string;
}.

Inductive SignalKind : Type :=
| SignalAccepted
| SignalMailboxGone
| SignalTempFail
| SignalBlocked
| SignalConnRefused
| SignalTimeout
| SignalKind_other (s : string).

#[global] Instance SignalKind_eq_decision : EqDecision SignalKind.
Proof. solve_decision. Defined.

Record Signal := {
  Signal_Kind : SignalKind;
  Signal_EgressID : string;
  Signal_Destination : string;
  Signal_Code : Z;
  Signal_Detail : string;
}.

Record Caps := {
  SupportsCatchAll : bool;
  SupportsProxy : bool;
  NeedsPort25 : bool;
}.
