(* ===== verification/Settings.v ===== *)
(** [internal/settings]: the operator-tunable configuration, its hard limits
    and its defaults. *)

From Stdlib Require Import QArith.
From S2P Require Import Prelude Float64.
Local Open Scope Z_scope.

Definition MaxProbeRate : float64 := f64 10.
Definition MaxProbeBurst : float64 := f64 50.
Definition MaxJobConcurrency : Z := 100.
Definition MaxEmailsPerJobCeiling : Z := 1000000.
Definition MaxThreshold : Z := 50.

Record Settings := {
  ProbeRate : float64;
  ProbeBurst : float64;
  JobConcurrency : Z;
  MaxEmailsPerJob : Z;
  DetectCatchAll : bool;
  QuarantineThreshold : Z;
  CircuitThreshold : Z;
}.

(** [Default] *)
Definition Default : Settings := {|
  ProbeRate := f64 1; ProbeBurst := f64 5; JobConcurrency := 10; MaxEmailsPerJob := 100000;
  DetectCatchAll := true; QuarantineThreshold := 5; CircuitThreshold := 3 |}.

(** The cases of [Validate]; each wraps [ErrInvalid]. *)
Inductive setting_error :=
| RateNotPositive | RateTooHigh | BurstNotPositive | BurstTooHigh
| ConcurrencyTooLow | ConcurrencyTooHigh | EmailsTooLow | EmailsTooHigh
| QuarantineOutOfRange | CircuitOutOfRange.

(** [Settings.Validate] *)
Definition Validate (s : Settings) : option setting_error :=
  if fle (ProbeRate s) (f64 0) then Some RateNotPositive
  else if flt MaxProbeRate (ProbeRate s) then Some RateTooHigh
  else if fle (ProbeBurst s) (f64 0) then Some BurstNotPositive
  else if flt MaxProbeBurst (ProbeBurst s) then Some BurstTooHigh
  else if JobConcurrency s <? 1 then Some ConcurrencyTooLow
  else if JobConcurrency s >? MaxJobConcurrency then Some ConcurrencyTooHigh
  else if MaxEmailsPerJob s <? 1 then Some EmailsTooLow
  else if MaxEmailsPerJob s >? MaxEmailsPerJobCeiling then Some EmailsTooHigh
  else if (QuarantineThreshold s <? 1) || (QuarantineThreshold s >? MaxThreshold)
       then Some QuarantineOutOfRange
  else if (CircuitThreshold s <? 1) || (CircuitThreshold s >? MaxThreshold)
       then Some CircuitOutOfRange
  else None.

(** [Settings.WithDefaults] *)
Definition WithDefaults (s : Settings) : Settings := {|
  ProbeRate := if fle (ProbeRate s) (f64 0) then ProbeRate Default else ProbeRate s;
  ProbeBurst := if fle (ProbeBurst s) (f64 0) then ProbeBurst Default else ProbeBurst s;
  JobConcurrency := if JobConcurrency s <=? 0 then JobConcurrency Default else JobConcurrency s;
  MaxEmailsPerJob := if MaxEmailsPerJob s <=? 0 then MaxEmailsPerJob Default else MaxEmailsPerJob s;
  DetectCatchAll := DetectCatchAll s;
  QuarantineThreshold := if QuarantineThreshold s <=? 0 then QuarantineThreshold Default
                         else QuarantineThreshold s;
  CircuitThreshold := if CircuitThreshold s <=? 0 then CircuitThreshold Default
                      else CircuitThreshold s |}.

(** ** Lemmas *)

(** What a float64 that passes [x <= 0] and [x > m] is: a number of ]0, m], or
    NaN, which every comparison lets through. *)
Definition accepted_float (x : float64) (m : Q) : Prop :=
  x = NaN \/ exists q, x = Fin q /\ (0 < q)%Q /\ (q <= m)%Q.

Lemma accepted_float_spec x m :
  fle x (Fin 0) = false /\ flt (Fin m) x = false <-> accepted_float x m.
Proof.
  unfold accepted_float. split.
  - intros [H1 H2]. destruct x as [|[]|q]; [by left|done|done|right].
    cbn [fle flt] in *. exists q. split; [done|]. unfold Qltb in H2. apply negb_false_iff in H2.
    split; [|by apply Qle_bool_iff].
    destruct (Qlt_le_dec 0 q) as [|Hle]; [done|]. apply Qle_bool_iff in Hle. congruence.
  - intros [->|(q & -> & H0 & Hm)]; [done|]. cbn [fle flt]. unfold Qltb.
    rewrite (proj2 (Qle_bool_iff q m)) by done. split; [|done].
    destruct (Qle_bool q 0) eqn:E; [|done]. apply Qle_bool_iff in E.
    exfalso. by apply (Qlt_not_le _ _ H0).
Qed.

(** What [Validate] accepts: the hard limits that [settings.go] documents, and NaN
    for the rate and the burst, which passes every comparison of the code. *)
Definition in_limits (s : Settings) : Prop :=
  accepted_float (ProbeRate s) 10 /\ accepted_float (ProbeBurst s) 50 /\
  1 <= JobConcurrency s <= 100 /\ 1 <= MaxEmailsPerJob s <= 1000000 /\
  1 <= QuarantineThreshold s <= 50 /\ 1 <= CircuitThreshold s <= 50.

Lemma Validate_None s : Validate s = None <-> in_limits s.
Proof.
  unfold in_limits. rewrite <- !accepted_float_spec. unfold Validate.
  change (f64 0) with (Fin 0). change MaxProbeRate with (Fin 10). change MaxProbeBurst with (Fin 50).
  unfold MaxJobConcurrency, MaxEmailsPerJobCeiling, MaxThreshold.
  rewrite !Z.gtb_ltb.
  destruct (fle (ProbeRate s) (Fin 0)); [naive_solver|].
  destruct (flt (Fin 10) (ProbeRate s)); [naive_solver|].
  destruct (fle (ProbeBurst s) (Fin 0)); [naive_solver|].
  destruct (flt (Fin 50) (ProbeBurst s)); [naive_solver|].
  repeat match goal with
  | |- context [?a <? ?b] => destruct (Z.ltb_spec a b); simpl; [split; [discriminate|lia]|]
  end.
  split; [intros _; repeat split; (done || lia)|done].
Qed.

Lemma WithDefaults_id s : in_limits s -> WithDefaults s = s.
Proof.
  intros (H1 & H2 & H3 & H4 & H5 & H6). apply accepted_float_spec in H1, H2.
  unfold WithDefaults. change (f64 0) with (Fin 0).
  rewrite (proj1 H1), (proj1 H2), !(proj2 (Z.leb_gt _ _)) by lia. by destruct s.
Qed.

(** ** Guarantees *)

(** [Validate] accepts exactly the settings within the hard limits: rate in
    ]0, 10], burst in ]0, 50], concurrency, job size and both thresholds in
    their ranges; a rate or burst that is NaN is accepted too, since every
    comparison with it is false.  Accepted settings are left alone by
    [WithDefaults]. *)
Theorem settings_validate_limits s :
  (Validate s = None <-> in_limits s) /\ (Validate s = None -> WithDefaults s = s).
Proof. split; [apply Validate_None|]. intros H. by apply WithDefaults_id, Validate_None. Qed.

(** Zero or negative in every field that has a default: what an absent field of
    an older row decodes to. *)
Definition no_field_above (s : Settings) : Prop :=
  (fle (ProbeRate s) (Fin 0) = true \/ accepted_float (ProbeRate s) 10) /\
  (fle (ProbeBurst s) (Fin 0) = true \/ accepted_float (ProbeBurst s) 50) /\
  JobConcurrency s <= 100 /\ MaxEmailsPerJob s <= 1000000 /\
  QuarantineThreshold s <= 50 /\ CircuitThreshold s <= 50.

Lemma defaulted_float x d m :
  accepted_float d m -> fle x (Fin 0) = true \/ accepted_float x m ->
  accepted_float (if fle x (Fin 0) then d else x) m.
Proof.
  intros Hd [->|Hx]; [done|]. pose proof (proj2 (accepted_float_spec x m) Hx) as [-> _]. done.
Qed.

(** [WithDefaults] repairs every partially populated record: when no field is
    above its hard limit the completed record passes [Validate]. *)
Theorem settings_defaults_valid s : no_field_above s -> Validate (WithDefaults s) = None.
Proof.
  intros (H1 & H2 & H3 & H4 & H5 & H6). apply Validate_None. unfold in_limits. simpl.
  split; [|split]; [apply defaulted_float; [|done]; right; exists 1%Q; done
                   |apply defaulted_float; [|done]; right; exists 5%Q; done|].
  repeat split; try (case_match; bool_to_prop; simpl; lia).
Qed.

Lemma settings_defaults_valid_witness :
  Validate (WithDefaults {| ProbeRate := f64 0; ProbeBurst := f64 7; JobConcurrency := 0;
    MaxEmailsPerJob := 50; DetectCatchAll := false; QuarantineThreshold := 0; CircuitThreshold := 9 |}) = None.
Proof.
  apply (settings_defaults_valid {| ProbeRate := f64 0; ProbeBurst := f64 7; JobConcurrency := 0;
    MaxEmailsPerJob := 50; DetectCatchAll := false; QuarantineThreshold := 0; CircuitThreshold := 9 |}).
  split; [left; reflexivity|]. split; [right; right; exists 7%Q; by repeat split|]. simpl. lia.
Defined.
