(* ===== verification/Policy.v ===== *)
(** [internal/policy]: the provider-policy engine.

    A Go map is iterated in an order the language leaves open; [New] takes the
    entries in the order of one such iteration, and the order does not matter
    when no two keys differ only in case. *)

From Stdlib Require Sorting.Sorted.
From S2P Require Import Prelude GoStrings.

Inductive Strategy : Type :=
| StrategyProbe
| StrategySkip
| StrategyStatistical
| Strategy_other (s : string).

#[global] Instance Strategy_eq_decision : EqDecision Strategy.
Proof. solve_decision. Defined.

Record Rule := { rule_Strategy : Strategy; rule_Reason : string }.

Record Set_ := { rules : gmap string Rule; defRule : Rule }.

Definition defaultDefaultRule : Rule :=
  {| rule_Strategy := StrategyProbe; rule_Reason := "no policy configured; probe by default" |}.

(** [normalize] *)
Definition normalize (r : Rule) : Rule :=
  match rule_Strategy r with
  | Strategy_other EmptyString => {| rule_Strategy := StrategyProbe; rule_Reason := rule_Reason r |}
  | _ => r
  end.

Record Entry := { entry_Key : string; entry_Rule : Rule }.

(** Insertion by key, for [sort.Slice] with [Key < Key]: the keys are distinct,
    so every sort gives the same slice. *)
Fixpoint insert_entry (e : Entry) (l : list Entry) : list Entry :=
  match l with
  | [] => [e]
  | x :: l' => if String.ltb (entry_Key x) (entry_Key e) then x :: insert_entry e l' else e :: l
  end.

Definition sort_entries (l : list Entry) : list Entry := foldr insert_entry [] l.

Section Policy.
Context `{UnicodeTables}.

(** [Set.Set]; also the body of [New]'s loop *)
Definition Set_rule (providerOrDomain : string) (r : Rule) (s : Set_) : Set_ :=
  let key := ToLower providerOrDomain in
  if String.eqb key "default" then {| rules := rules s; defRule := r |}
  else {| rules := <[key := r]> (rules s); defRule := defRule s |}.

(** [New] *)
Definition New (entries : list (string * Rule)) : Set_ :=
  fold_left (fun s e => Set_rule e.1 e.2 s) entries {| rules := ∅; defRule := defaultDefaultRule |}.

(** [Default] *)
Definition Default : Set_ :=
  New [("gmail", {| rule_Strategy := StrategySkip; rule_Reason := "Gmail throttles/blocks repeated SMTP probing; results are unreliable" |});
       ("yahoo", {| rule_Strategy := StrategySkip; rule_Reason := "Yahoo commonly accepts-then-bounces later; a probe verdict is not trustworthy" |});
       ("microsoft", {| rule_Strategy := StrategySkip; rule_Reason := "Microsoft aggressively rate-limits and blocks unfamiliar probing IPs" |});
       ("microsoft365", {| rule_Strategy := StrategySkip; rule_Reason := "Microsoft 365 inherits Microsoft's probing-hostile posture" |})].

(** [Set.Lookup] *)
Definition Lookup (s : Set_) (providerOrDomain : string) : Rule :=
  match rules s !! ToLower providerOrDomain with
  | Some r => normalize r
  | None => normalize (defRule s)
  end.

(** [Set.List] *)
Definition List_ (s : Set_) : list Entry :=
  sort_entries ((fun kr => {| entry_Key := kr.1; entry_Rule := normalize kr.2 |}) <$> map_to_list (rules s))
  ++ [{| entry_Key := "default"; entry_Rule := normalize (defRule s) |}].

(** ** Lemmas *)

(** The fallback is kept apart from the lookup map. *)
Definition set_wf (s : Set_) : Prop := rules s !! "default" = None.

Lemma Set_rule_wf k r s : set_wf s -> set_wf (Set_rule k r s).
Proof.
  intros W. unfold Set_rule. destruct (String.eqb_spec (ToLower k) "default"); [done|].
  unfold set_wf. simpl. by rewrite lookup_insert_ne.
Qed.

Lemma fold_rules_wf entries s :
  set_wf s -> set_wf (fold_left (fun s e => Set_rule e.1 e.2 s) entries s).
Proof.
  revert s. induction entries as [|e entries IH]; intros s W; simpl; [done|]. by apply IH, Set_rule_wf.
Qed.

Lemma New_set_wf entries : set_wf (New entries).
Proof. by apply fold_rules_wf. Qed.

Lemma Set_rule_comm k1 r1 k2 r2 s :
  ToLower k1 <> ToLower k2 ->
  Set_rule k1 r1 (Set_rule k2 r2 s) = Set_rule k2 r2 (Set_rule k1 r1 s).
Proof.
  intros Hne. unfold Set_rule.
  destruct (String.eqb_spec (ToLower k1) "default"), (String.eqb_spec (ToLower k2) "default");
    simpl; try congruence.
  by rewrite insert_insert_ne.
Qed.

Lemma normalize_set r : rule_Strategy (normalize r) <> Strategy_other "".
Proof. unfold normalize. destruct r as [[| | |[]] ?]; done. Qed.

(** Byte-wise order of Go strings. *)
Lemma string_ltb_trans a b c :
  String.ltb a b = true -> String.ltb b c = true -> String.ltb a c = true.
Proof.
  unfold String.ltb. revert b c. induction a as [|x a IH]; intros [|y b] [|z c]; simpl; try done.
  unfold Ascii.compare.
  destruct (N.compare_spec (N_of_ascii x) (N_of_ascii y)) as [Hxy|Hxy|Hxy];
  destruct (N.compare_spec (N_of_ascii y) (N_of_ascii z)) as [Hyz|Hyz|Hyz]; try done;
  destruct (N.compare_spec (N_of_ascii x) (N_of_ascii z)) as [Hxz|Hxz|Hxz]; try done; try lia.
  apply IH.
Qed.

Lemma string_ltb_total a b : a <> b -> String.ltb a b = false -> String.ltb b a = true.
Proof.
  unfold String.ltb. intros Hne. rewrite (String.compare_antisym b a).
  destruct (String.compare a b) eqn:E; simpl; [by apply String.compare_eq_iff in E|done|done].
Qed.

Definition key_lt (x y : Entry) : Prop := String.ltb (entry_Key x) (entry_Key y) = true.

Lemma insert_entry_perm e l : insert_entry e l ≡ₚ e :: l.
Proof.
  induction l as [|x l IH]; simpl; [done|]. case_match; [|done].
  rewrite IH. apply Permutation_swap.
Qed.

Lemma sort_entries_perm l : sort_entries l ≡ₚ l.
Proof. induction l as [|e l IH]; simpl; [done|]. by rewrite insert_entry_perm, IH. Qed.

Lemma insert_entry_sorted e l :
  entry_Key e ∉ entry_Key <$> l -> Sorted.StronglySorted key_lt l ->
  Sorted.StronglySorted key_lt (insert_entry e l).
Proof.
  intros Hn Hs. induction Hs as [|x l Hs IH HF]; simpl; [repeat constructor|].
  rewrite fmap_cons, not_elem_of_cons in Hn. destruct Hn as [Hne Hn].
  destruct (String.ltb (entry_Key x) (entry_Key e)) eqn:E.
  - constructor; [by apply IH|]. rewrite insert_entry_perm. by constructor.
  - apply string_ltb_total in E; [|done]. constructor; [by constructor|]. constructor; [done|].
    eapply Forall_impl; [|exact HF]. intros y Hy. by eapply string_ltb_trans.
Qed.

Lemma sort_entries_sorted l :
  NoDup (entry_Key <$> l) -> Sorted.StronglySorted key_lt (sort_entries l).
Proof.
  induction l as [|e l IH]; simpl; [constructor|]. rewrite list.NoDup_cons. intros [Hn Hnd].
  apply insert_entry_sorted; [|by apply IH]. by rewrite sort_entries_perm.
Qed.

(** ** Guarantees *)

(** The listing of a policy set is the set: its explicit rules in strictly
    increasing key order, each with the strategy [Lookup] would apply, and the
    default last. *)
Theorem policy_List_spec s :
  exists l, List_ s = l ++ [{| entry_Key := "default"; entry_Rule := normalize (defRule s) |}] /\
    Sorted.StronglySorted key_lt l /\
    forall k r, {| entry_Key := k; entry_Rule := r |} ∈ l <-> exists r0, rules s !! k = Some r0 /\ r = normalize r0.
Proof.
  eexists. split; [reflexivity|]. split.
  - apply sort_entries_sorted. rewrite <- list_fmap_compose. simpl. apply NoDup_fst_map_to_list.
  - intros k r. rewrite sort_entries_perm, list_elem_of_fmap. split.
    + intros ([k0 r0] & [= -> ->] & Hin). apply elem_of_map_to_list in Hin. eauto.
    + intros (r0 & Hr0 & ->). exists (k, r0). split; [done|]. by apply elem_of_map_to_list.
Qed.

(** A rule set at runtime is the one looked up, case-insensitively, and the
    other keys keep theirs; setting "default" changes exactly the keys without
    a rule of their own.  A resolved rule always has a strategy. *)
Theorem policy_set_lookup s k r p :
  set_wf s ->
  Lookup (Set_rule k r s) p =
    (if decide (ToLower p = ToLower k) then normalize r
     else if decide (ToLower k = "default" /\ rules s !! ToLower p = None) then normalize r
     else Lookup s p) /\
  rule_Strategy (Lookup s p) <> Strategy_other "".
Proof.
  intros W. split; [|unfold Lookup; case_match; apply normalize_set].
  unfold Lookup, Set_rule. destruct (String.eqb_spec (ToLower k) "default") as [Hk|Hk]; simpl.
  - case_decide as Hp; [by rewrite Hp, Hk, W|]. destruct (rules s !! ToLower p) eqn:E.
    + rewrite decide_False; [done|]. intros [_ ?]. done.
    + by rewrite decide_True.
  - rewrite lookup_insert. destruct (decide (ToLower k = ToLower p)) as [Hp|Hp].
    + by rewrite decide_True.
    + rewrite decide_False by congruence. rewrite decide_False; [done|]. by intros [? _].
Qed.

(** The policy built from a map does not depend on the order Go iterates it
    in, as long as no two keys are equal up to case. *)
Theorem policy_New_order entries entries' :
  NoDup ((fun e : string * Rule => ToLower e.1) <$> entries) -> entries ≡ₚ entries' ->
  New entries = New entries'.
Proof.
  intros Hnd Hp. unfold New. generalize {| rules := ∅; defRule := defaultDefaultRule |}. revert Hnd.
  induction Hp as [|e l l' _ IH|e1 e2 l|l1 l2 l3 H1 IH1 H2 IH2]; intros Hnd s; simpl.
  - done.
  - rewrite fmap_cons in Hnd. apply list.NoDup_cons in Hnd as [_ Hnd]. by apply IH.
  - rewrite !fmap_cons in Hnd. apply list.NoDup_cons in Hnd as [Hn _]. rewrite Set_rule_comm; [done|].
    intros He. apply Hn. rewrite He. by left.
  - rewrite IH1 by done. apply IH2. by rewrite <- H1.
Qed.
End Policy.

Definition ex_rule (st : Strategy) : Rule := {| rule_Strategy := st; rule_Reason := "" |}.

Lemma policy_set_lookup_witness :
  Lookup (H := ascii_tables) (Set_rule (H := ascii_tables) "Example.COM" (ex_rule StrategySkip)
    (Default (H := ascii_tables))) "example.com" = ex_rule StrategySkip /\
  rule_Strategy (Lookup (H := ascii_tables) (Default (H := ascii_tables)) "example.com") <> Strategy_other "".
Proof.
  exact (policy_set_lookup (H := ascii_tables) (Default (H := ascii_tables)) "Example.COM"
    (ex_rule StrategySkip) "example.com" (New_set_wf (H := ascii_tables) _)).
Defined.

Lemma policy_New_order_witness :
  New (H := ascii_tables) [("Gmail", ex_rule StrategySkip); ("default", ex_rule StrategyProbe)]
  = New (H := ascii_tables) [("default", ex_rule StrategyProbe); ("Gmail", ex_rule StrategySkip)].
Proof.
  apply (policy_New_order (H := ascii_tables)
    [("Gmail", ex_rule StrategySkip); ("default", ex_rule StrategyProbe)]
    [("default", ex_rule StrategyProbe); ("Gmail", ex_rule StrategySkip)]).
  - apply (bool_decide_unpack _). vm_compute. exact I.
  - apply perm_swap.
Defined.
