(* ===== verification/RateLimit.v ===== *)
(** [internal/ratelimit]: per-destination pacing of SMTP probes.

    A token bucket per destination, in float64 arithmetic.  The lock makes
    [reserve] atomic; [now] is the instant it reads from the clock.  The
    duration of a delay is a float64 converted to an [int64], whose result out
    of range is the platform's choice ([FloatConv]). *)

From Stdlib Require Import QArith Qabs Lqa.
From S2P Require Import Prelude Float64 GoTime.
Local Open Scope Z_scope.

Definition defaultRate : float64 := f64 1.
Definition defaultBurst : float64 := f64 5.
Definition defaultMaxWait : Duration := 30 * Second.
Definition defaultMaxIdle : Duration := 10 * Minute.

Record Config := { cfg_Rate : float64; cfg_Burst : float64; cfg_MaxWait : Duration; cfg_MaxIdle : Duration }.

Record bucket := { tokens : float64; last : Time; lastAccess : Time }.

Record Limiter := {
  rate : float64;
  burst : float64;
  maxWait : Duration;
  maxIdle : Duration;
  buckets : gmap string bucket;
}.

(** [New] *)
Definition New (cfg : Config) : Limiter := {|
  rate := if fle (cfg_Rate cfg) (f64 0) then defaultRate else cfg_Rate cfg;
  burst := if fle (cfg_Burst cfg) (f64 0) then defaultBurst else cfg_Burst cfg;
  maxWait := if cfg_MaxWait cfg <=? 0 then defaultMaxWait else cfg_MaxWait cfg;
  maxIdle := if cfg_MaxIdle cfg <=? 0 then defaultMaxIdle else cfg_MaxIdle cfg;
  buckets := ∅ |}.

Definition set_buckets (bs : gmap string bucket) (l : Limiter) : Limiter :=
  {| rate := rate l; burst := burst l; maxWait := maxWait l; maxIdle := maxIdle l; buckets := bs |}.

(** [evictIdleLocked] *)
Definition evictIdleLocked (now : Time) (l : Limiter) : Limiter :=
  set_buckets (filter (fun kb => (Sub now (lastAccess kb.2) >? maxIdle l) = false) (buckets l)) l.

(** The refill of [reserve]: the balance grows with the time elapsed, up to the
    burst. *)
Definition refill (l : Limiter) (now : Time) (b : bucket) : bucket :=
  let elapsed := Sub now (last b) in
  if elapsed >? 0 then
    let t := fadd (tokens b) (fmul (Seconds elapsed) (rate l)) in
    {| tokens := if flt (burst l) t then burst l else t; last := now; lastAccess := now |}
  else {| tokens := tokens b; last := last b; lastAccess := now |}.

(** [b.tokens--] *)
Definition take (b : bucket) : bucket :=
  {| tokens := fsub (tokens b) (f64 1); last := last b; lastAccess := lastAccess b |}.

Section Limiter.
Context `{FloatConv}.

(** [reserve]: the delay, whether the probe may go, and the limiter after it. *)
Definition reserve (key : string) (now : Time) (l : Limiter) : Duration * bool * Limiter :=
  let l := evictIdleLocked now l in
  let b := default {| tokens := burst l; last := now; lastAccess := 0 |} (buckets l !! key) in
  let b := refill l now b in
  let keep b := set_buckets (<[key := b]> (buckets l)) l in
  if fle (f64 1) (tokens b) then (0, true, keep (take b))
  else
    let deficit := fsub (f64 1) (tokens b) in
    let delay := f64_to_int64 (fmul (fdiv deficit (rate l)) (f64_of_Z Second)) in
    if delay >? maxWait l then (0, false, keep b) else (delay, true, keep (take b)).

Inductive wait_error (Er : Type) := ErrWaitTooLong | Canceled (e : Er).
Arguments ErrWaitTooLong {Er}.
Arguments Canceled {Er} e.

(** [sleepCtx]: the context ends [ends] from now with an error, or not at all;
    [tie] is what [select] takes when both channels are ready. *)
Definition sleepCtx {Er} (ends : option (Duration * Er)) (tie : bool) (d : Duration) : option Er :=
  match ends with
  | None => None
  | Some (at_, e) => if at_ <? d then Some e else if (at_ =? d) && tie then Some e else None
  end.

(** [Wait]; [sleep] is what the context-aware sleep of that length returns. *)
Definition Wait {Er} (sleep : Duration -> option Er) (key : string) (now : Time) (l : Limiter)
    : option (wait_error Er) * Limiter :=
  let '(delay, ok, l) := reserve key now l in
  (if negb ok then Some ErrWaitTooLong
   else if delay <=? 0 then None
   else Canceled <$> sleep delay, l).
End Limiter.

(** [Len] *)
Definition Len (l : Limiter) : Z := Z.of_nat (size (buckets l)).

(** [SetRate] *)
Definition SetRate (r b : float64) (l : Limiter) : Limiter :=
  {| rate := if flt (f64 0) r then r else rate l;
     burst := if flt (f64 0) b then b else burst l;
     maxWait := maxWait l; maxIdle := maxIdle l; buckets := buckets l |}.

(** ** Lemmas: balances *)

(** A closed inequality of rationals. *)
Ltac qdec := apply Qle_bool_iff; vm_compute; reflexivity.

(** A representable number of tokens between -2^53 and [B]. *)
Definition balance_ok (B : Q) (x : float64) : Prop :=
  exists q, x = Fin q /\ rnd q = q /\ (- pow2 53 <= q)%Q /\ (q <= B)%Q.

Lemma sub_one q : (- pow2 53 <= q)%Q -> (q <= pow2 53)%Q -> fsub (Fin q) (f64 1) = Fin (rnd (q - 1)).
Proof.
  intros H0 H1. change (f64 1) with (Fin 1). unfold fsub, fneg, fadd.
  assert (He : (q + Qred (- (1)) == q - 1)%Q) by (rewrite Qred_correct; ring).
  assert (Hp : (pow2 53 + 1 <= pow2 1000)%Q) by qdec.
  rewrite f64_fin; [by rewrite (rnd_proper _ _ He)| |]; rewrite He; lra.
Qed.

(** Taking a token never leaves the range: at -2^53 the subtraction is absorbed. *)
Lemma take_ok B b : (B <= pow2 53)%Q -> balance_ok B (tokens b) -> balance_ok B (tokens (take b)).
Proof.
  intros HB (q & Hq & Hr & H0 & H1). unfold take. simpl. rewrite Hq, sub_one by lra.
  exists (rnd (q - 1)). split; [done|]. split; [apply rnd_idemp|]. split.
  - apply Qle_trans with (rnd (- pow2 53 - 1)); [by vm_compute|]. apply rnd_mono. lra.
  - rewrite <- Hr in H1. eapply Qle_trans; [|exact H1]. apply rnd_mono. lra.
Qed.

Lemma rnd_nonneg x : (0 <= x)%Q -> (0 <= rnd x)%Q.
Proof. intros Hx. rewrite <- rnd_at_0. by apply rnd_mono. Qed.

(** The elapsed time in seconds: at least its whole seconds. *)
Lemma Seconds_ge d k :
  0 <= k <= 2 ^ 50 -> k * Second <= d <= max_int64 ->
  exists s, Seconds d = Fin s /\ (inject_Z k <= s)%Q.
Proof.
  intros Hk Hd. assert (Hd0 : 0 <= d) by (unfold Second in Hd; lia). unfold Seconds.
  assert (Hq : k <= Z.quot d Second <= 2 ^ 53).
  { rewrite Z.quot_div_nonneg by done. split.
    - apply Z.div_le_lower_bound; [done|lia].
    - apply Z.div_le_upper_bound; [done|]. unfold max_int64, Second in *. lia. }
  assert (Hr : 0 <= Z.rem d Second <= 2 ^ 53).
  { pose proof (Z.rem_bound_pos d Second Hd0 eq_refl). unfold Second in *. lia. }
  rewrite !f64_of_Z_exact by lia.
  change (f64 (1000000000 # 1)) with (Fin (1000000000 # 1)). cbn [fdiv].
  change (Qis0 (1000000000 # 1)) with false. cbv iota.
  set (n := (inject_Z (Z.rem d Second) / (1000000000 # 1))%Q).
  assert (Hn : (0 <= n)%Q /\ (n <= pow2 53)%Q).
  { assert (Hi : (0 <= inject_Z (Z.rem d Second))%Q) by (change 0%Q with (inject_Z 0); rewrite <- Zle_Qle; lia).
    assert (Hi' : (inject_Z (Z.rem d Second) <= pow2 53)%Q) by (rewrite pow2_Z, <- Zle_Qle by lia; lia).
    assert (Hpp : (0 < pow2 53)%Q) by reflexivity. unfold n. split.
    - apply Qle_shift_div_l; [reflexivity|lra].
    - apply Qle_shift_div_r; [reflexivity|lra]. }
  assert (Hb : (pow2 53 + pow2 53 <= pow2 1000)%Q) by qdec.
  assert (Hp : (0 < pow2 53)%Q) by reflexivity.
  rewrite f64_fin by lra. cbn [fadd].
  pose proof (rnd_nonneg n (proj1 Hn)) as Hr0.
  assert (Hr1 : (rnd n <= pow2 53)%Q).
  { apply Qle_trans with (rnd (pow2 53)); [apply rnd_mono; apply Hn|qdec]. }
  assert (Hz : (inject_Z k <= inject_Z (Z.quot d Second))%Q) by (rewrite <- Zle_Qle; lia).
  assert (Hz0 : (0 <= inject_Z k)%Q) by (change 0%Q with (inject_Z 0); rewrite <- Zle_Qle; lia).
  assert (Hz1 : (inject_Z (Z.quot d Second) <= pow2 53)%Q) by (rewrite pow2_Z, <- Zle_Qle by lia; lia).
  rewrite f64_fin by lra. eexists. split; [reflexivity|].
  rewrite <- (rnd_Z k) by lia. apply rnd_mono. lra.
Qed.

(** A limiter with a positive finite rate, a burst of at most [B], and every
    balance in range. *)
Record limiter_ok (B : Q) (l : Limiter) : Prop := {
  lok_rate : exists r, rate l = Fin r /\ (0 < r)%Q;
  lok_burst : balance_ok B (burst l) /\ flt (f64 0) (burst l) = true;
  lok_idle : 0 <= maxIdle l;
  lok_buckets : map_Forall (fun _ b => balance_ok B (tokens b)) (buckets l);
}.

Lemma refill_ok B l now b :
  limiter_ok B l -> balance_ok B (tokens b) -> balance_ok B (tokens (refill l now b)).
Proof.
  intros [(r & Hr & Hr0) [(bq & Hbq & Hbr & Hb0 & Hb1) _] _ _] (q & Hq & Hqr & H0 & H1).
  unfold refill. destruct (Sub now (last b) >? 0) eqn:E; simpl; [|by exists q].
  rewrite Z.gtb_ltb in E. apply Z.ltb_lt in E.
  destruct (Seconds_ge (Sub now (last b)) 0) as (s & Hs & Hs0); [lia|unfold Sub, min_int64, max_int64 in *; lia|].
  rewrite Hs, Hr, Hq, Hbq. cbn [fmul]. change (inject_Z 0) with 0%Q in Hs0.
  assert (Hx : (0 <= s * r)%Q) by (apply Qmult_le_0_compat; lra).
  assert (Hcap : forall x, (x = Inf false \/ exists y, x = Fin y /\ rnd y = y /\ (q <= y)%Q) ->
            balance_ok B (if flt (Fin bq) x then Fin bq else x)).
  { intros x [->|(y & -> & Hy & Hyq)]; cbn [flt]; [by exists bq|].
    destruct (Qltb bq y) eqn:Ec; [by exists bq|]. exists y. repeat split; try done; [lra|].
    unfold Qltb in Ec. apply negb_false_iff, Qle_bool_iff in Ec. lra. }
  apply Hcap.
  assert (Hneg : forall x, (0 <= x)%Q -> Qltb x 0 = false)
    by (intros x ?; unfold Qltb; apply negb_false_iff; by apply Qle_bool_iff).
  destruct (f64_cases (s * r)) as [-> | ->]; [|left; by rewrite Hneg].
  pose proof (rnd_nonneg (s * r) Hx) as Hp. cbn [fadd].
  assert (Hge : (q <= rnd (q + rnd (s * r)))%Q) by (rewrite <- Hqr at 1; apply rnd_mono; lra).
  destruct (Qlt_le_dec (q + rnd (s * r)) 0) as [Hlt|Hle].
  - right. exists (rnd (q + rnd (s * r))). split; [|split; [apply rnd_idemp|done]].
    assert (Hb : (pow2 53 <= pow2 1000)%Q) by qdec.
    assert (Hb' : (0 <= pow2 1000)%Q) by qdec.
    apply f64_fin; lra.
  - destruct (f64_cases (q + rnd (s * r))) as [-> | ->]; [|left; by rewrite Hneg].
    right. exists (rnd (q + rnd (s * r))). split; [done|]. split; [apply rnd_idemp|done].
Qed.

Lemma evict_lookup now l key :
  buckets (evictIdleLocked now l) !! key
  = b ← buckets l !! key; if Sub now (lastAccess b) >? maxIdle l then None else Some b.
Proof.
  simpl. rewrite map_lookup_filter. destruct (buckets l !! key) as [b|]; simpl; [|done].
  destruct (Sub now (lastAccess b) >? maxIdle l); by unfold guard; case_decide.
Qed.

Lemma evict_ok B now l : limiter_ok B l -> limiter_ok B (evictIdleLocked now l).
Proof.
  intros [H1 H2 H3 H4]. constructor; try done.
  intros k b Hk. rewrite evict_lookup in Hk. destruct (buckets l !! k) as [b0|] eqn:E; [|done].
  simpl in Hk. case_match; simplify_eq. by apply (H4 k).
Qed.

Lemma limiter_ok_insert B l key b :
  limiter_ok B l -> balance_ok B (tokens b) -> limiter_ok B (set_buckets (<[key := b]> (buckets l)) l).
Proof. intros [H1 H2 H3 H4] Hb. constructor; try done. by apply map_Forall_insert_2. Qed.

Section Guarantees.
Context `{FloatConv}.

(** The bucket [reserve] decides on: the one kept, or a full one, refilled. *)
Definition bucket_at (key : string) (now : Time) (l : Limiter) : bucket :=
  refill l now (default {| tokens := burst l; last := now; lastAccess := 0 |}
                  (buckets (evictIdleLocked now l) !! key)).

Lemma bucket_at_ok B key now l : limiter_ok B l -> balance_ok B (tokens (bucket_at key now l)).
Proof.
  intros L. apply refill_ok; [done|].
  destruct (buckets (evictIdleLocked now l) !! key) as [b|] eqn:E; simpl.
  - by apply (lok_buckets B _ (evict_ok B now l L) key).
  - apply (lok_burst B l L).
Qed.

(** [reserve] as one decision on that bucket. *)
Lemma reserve_cases key now l :
  let b := bucket_at key now l in
  let keep b := set_buckets (<[key := b]> (buckets (evictIdleLocked now l))) l in
  let delay := f64_to_int64 (fmul (fdiv (fsub (f64 1) (tokens b)) (rate l)) (f64_of_Z Second)) in
  reserve key now l =
    if fle (f64 1) (tokens b) then (0, true, keep (take b))
    else if delay >? maxWait l then (0, false, keep b) else (delay, true, keep (take b)).
Proof. reflexivity. Qed.

(** How [Wait] ends under a context that ends: refused, cancelled while a granted
    probe sleeps, with its token spent, or granted within [maxWait]. *)
Theorem Wait_outcomes {Er} (ends : option (Duration * Er)) tie key now l :
  let '(delay, ok, l') := reserve key now l in
  Wait (sleepCtx ends tie) key now l =
    (if negb ok then Some (ErrWaitTooLong Er)
     else match ends with
          | Some (at_, e) => if (0 <? delay) && ((at_ <? delay) || ((at_ =? delay) && tie)) then Some (Canceled Er e) else None
          | None => None
          end, l') /\
  (ok = true -> delay <= Z.max 0 (maxWait l)).
Proof.
  unfold Wait, sleepCtx. destruct (reserve key now l) as [[delay ok] l'] eqn:E. split.
  - f_equal. destruct ok; cbn [negb]; [|done]. rewrite Z.leb_antisym. destruct (0 <? delay); cbn [negb andb]; [|by destruct ends as [[]|]].
    destruct ends as [[at_ e]|]; [|done]. destruct (at_ <? delay); [done|]. by destruct ((at_ =? delay) && tie).
  - intros ->. rewrite (reserve_cases key now l) in E. cbn zeta in E. destruct (fle _ _); [simplify_eq; lia|].
    destruct (_ >? _) eqn:Em; simplify_eq. lia.
Qed.

Lemma reserve_ok B key now l :
  (B <= pow2 53)%Q -> limiter_ok B l -> limiter_ok B (reserve key now l).2.
Proof.
  intros HB L. rewrite reserve_cases. cbv zeta.
  pose proof (bucket_at_ok B key now l L) as Hb.
  assert (Hk : forall b, balance_ok B (tokens b) ->
            limiter_ok B (set_buckets (<[key := b]> (buckets (evictIdleLocked now l))) l)).
  { intros b Hb'. by apply (limiter_ok_insert B (evictIdleLocked now l)); [apply evict_ok|]. }
  repeat case_match; simpl; apply Hk; try done; by apply take_ok.
Qed.

(** Reservations and changes of the rate, in the order the lock admits them. *)
Inductive rl_op := RReserve (key : string) (now : Time) | RSetRate (r b : float64).

Definition rl_step (l : Limiter) (o : rl_op) : Limiter :=
  match o with
  | RReserve key now => (reserve key now l).2
  | RSetRate r b => SetRate r b l
  end.

(** Rates and bursts that a validated configuration can carry. *)
Definition rl_op_ok (B : Q) (o : rl_op) : Prop :=
  match o with
  | RReserve _ _ => True
  | RSetRate r b => (exists q, r = Fin q) /\ balance_ok B b
  end.

Lemma rl_step_ok B l o : (B <= pow2 53)%Q -> rl_op_ok B o -> limiter_ok B l -> limiter_ok B (rl_step l o).
Proof.
  intros HB Ho L. destruct o as [key now|r b]; simpl; [by apply reserve_ok|].
  destruct Ho as [(q & ->) Hb]. destruct L as [H1 H2 H3 H4].
  constructor; cbn [rate burst maxIdle buckets SetRate]; try done.
  - change (f64 0) with (Fin 0). cbn [flt]. destruct (Qltb 0 q) eqn:E; [|done].
    exists q. split; [done|]. unfold Qltb in E. apply negb_true_iff in E.
    destruct (Qlt_le_dec 0 q) as [|Hle]; [done|]. apply Qle_bool_iff in Hle. congruence.
  - destruct (flt (f64 0) b) eqn:E; [by split|done].
Qed.

(** C26: No destination ever accumulates more than its burst: over any sequence
    of reservations and rate changes whose bursts are at most [B], every
    balance stays a finite float64 of at most [B] (and not below -2^53), the
    rounding of the refills and of the rate included. *)
Theorem limiter_balance_bounded B l ops key b :
  (B <= pow2 53)%Q -> limiter_ok B l -> Forall (rl_op_ok B) ops ->
  buckets (fold_left rl_step ops l) !! key = Some b -> balance_ok B (tokens b).
Proof.
  intros HB L Hops Hb. assert (L' : limiter_ok B (fold_left rl_step ops l)).
  { revert l L Hb. induction Hops as [|o ops Ho Hops IH]; intros l L Hb; simpl in *; [done|].
    apply IH; [by apply rl_step_ok|done]. }
  by apply (lok_buckets B _ L' key).
Qed.

Lemma evict_insert_now key now b l :
  0 <= maxIdle l -> lastAccess b = now ->
  evictIdleLocked now (set_buckets (<[key := b]> (buckets (evictIdleLocked now l))) l)
  = set_buckets (<[key := b]> (buckets (evictIdleLocked now l))) l.
Proof.
  intros Hi Hb. unfold set_buckets. simpl. unfold evictIdleLocked, set_buckets. simpl. f_equal.
  rewrite map_filter_insert_True.
  - f_equal. by rewrite map_filter_filter_l.
  - simpl. rewrite Hb. unfold Sub. rewrite Z.sub_diag, Z.gtb_ltb. apply Z.ltb_ge.
    unfold min_int64, max_int64. lia.
Qed.

(** A bucket already refilled at [now]. *)
Definition settled (now : Time) (x : bucket) : Prop :=
  lastAccess x = now /\ (Sub now (last x) >? 0) = false.

Lemma refill_settled l now b : settled now (refill l now b).
Proof.
  unfold refill, settled. destruct (Sub now (last b) >? 0) eqn:E; simpl; [|done].
  split; [done|]. unfold Sub. by rewrite Z.sub_diag.
Qed.

Lemma refill_id l now x : settled now x -> refill l now x = x.
Proof. intros [H1 H2]. unfold refill. rewrite H2, <- H1. by destruct x. Qed.

Lemma bucket_at_keep key now b l :
  0 <= maxIdle l -> settled now b ->
  bucket_at key now (set_buckets (<[key := b]> (buckets (evictIdleLocked now l))) l) = b.
Proof.
  intros Hi Hb. unfold bucket_at at 1. rewrite evict_insert_now by (done || apply Hb).
  cbn [buckets set_buckets]. rewrite lookup_insert_eq. by apply refill_id.
Qed.

(** A second request at the instant of a refusal meets the same bucket. *)
Lemma reserve_refused_again key now l :
  0 <= maxIdle l ->
  let b := bucket_at key now l in
  let l' := set_buckets (<[key := b]> (buckets (evictIdleLocked now l))) l in
  fle (f64 1) (tokens b) = false ->
  (f64_to_int64 (fmul (fdiv (fsub (f64 1) (tokens b)) (rate l)) (f64_of_Z Second)) >? maxWait l) = true ->
  reserve key now l' = (0, false, l').
Proof.
  intros Hi b l' E1 E2.
  assert (Hb : settled now b) by apply refill_settled.
  pose proof (evict_insert_now key now b l Hi (proj1 Hb)) as Hev. fold l' in Hev.
  rewrite reserve_cases. cbv zeta.
  assert (Hbb : bucket_at key now l' = b) by (by apply bucket_at_keep).
  rewrite Hbb, Hev, E1. change (rate l') with (rate l). change (maxWait l') with (maxWait l).
  rewrite E2. unfold l', set_buckets. cbn. by rewrite insert_insert_eq.
Qed.

(** What a reservation costs: a granted one waits at most [maxWait] and
    leaves the balance one token lower; a refused one leaves the refilled
    balance as it is, so that asking again at once is refused again and changes
    nothing. *)
Theorem reserve_outcomes key now l d ok l' :
  0 <= maxIdle l -> reserve key now l = (d, ok, l') ->
  let b := bucket_at key now l in
  if ok then (d <= Z.max 0 (maxWait l)) /\ buckets l' !! key = Some (take b)
  else buckets l' !! key = Some b /\ reserve key now l' = (0, false, l').
Proof.
  intros Hi Hr b. rewrite reserve_cases in Hr. cbv zeta in Hr. fold b in Hr.
  destruct (fle (f64 1) (tokens b)) eqn:E1.
  { injection Hr as <- <- <-. split; [lia|]. apply lookup_insert_eq. }
  set (dl := f64_to_int64 _) in Hr. destruct (dl >? maxWait l) eqn:E2; injection Hr as <- <- <-.
  - split; [apply lookup_insert_eq|]. exact (reserve_refused_again key now l Hi E1 E2).
  - split; [bool_to_prop; lia|]. apply lookup_insert_eq.
Qed.

(** ** The schedule of simultaneous callers *)

Fixpoint reserve_n (n : nat) (key : string) (now : Time) (l : Limiter) : list (Duration * bool) :=
  match n with
  | O => []
  | S n => let '(d, ok, l) := reserve key now l in (d, ok) :: reserve_n n key now l
  end.

(** The answer to the [i]-th of them, for a burst of [b] tokens. *)
Definition schedule (l : Limiter) (b i : Z) : Duration * bool :=
  if i <? b then (0, true)
  else
    let delay := f64_to_int64 (fmul (fdiv (f64_of_Z (i - b + 1)) (rate l)) (f64_of_Z Second)) in
    if delay >? maxWait l then (0, false) else (delay, true).

Lemma deficit_Z z : - 2 ^ 53 < z <= 2 ^ 53 -> fsub (f64 1) (Fin (inject_Z z)) = f64_of_Z (1 - z).
Proof.
  intros Hz. rewrite f64_of_Z_exact by lia. change (f64 1) with (Fin 1). cbn [fsub fneg fadd].
  assert (He : (1 + Qred (- inject_Z z) == inject_Z (1 - z))%Q)
    by (rewrite Qred_correct; unfold Z.sub; rewrite inject_Z_plus, inject_Z_opp; reflexivity).
  assert (Hb : (inject_Z (2 ^ 53) <= pow2 1000)%Q) by qdec.
  assert (H1 : (inject_Z (- 2 ^ 53) <= inject_Z (1 - z))%Q) by (rewrite <- Zle_Qle; lia).
  assert (H2 : (inject_Z (1 - z) <= inject_Z (2 ^ 53))%Q) by (rewrite <- Zle_Qle; lia).
  rewrite inject_Z_opp in H1.
  rewrite f64_fin by (rewrite He; lra). rewrite (rnd_proper _ _ He). by rewrite rnd_Z by lia.
Qed.

Lemma take_Z b z :
  - 2 ^ 53 < z <= 2 ^ 53 -> tokens b = Fin (inject_Z z) -> tokens (take b) = Fin (inject_Z (z - 1)).
Proof.
  intros Hz Hb. unfold take. cbn [tokens]. rewrite Hb.
  assert (H1 : (inject_Z (- 2 ^ 53) <= inject_Z z)%Q) by (rewrite <- Zle_Qle; lia).
  assert (H2 : (inject_Z z <= inject_Z (2 ^ 53))%Q) by (rewrite <- Zle_Qle; lia).
  rewrite inject_Z_opp in H1. rewrite <- !pow2_Z in * by lia. rewrite sub_one by done.
  assert (He : (inject_Z z - 1 == inject_Z (z - 1))%Q)
    by (unfold Z.sub; rewrite inject_Z_plus; reflexivity).
  rewrite (rnd_proper _ _ He). by rewrite rnd_Z by lia.
Qed.

Lemma fle_1_Z z : fle (f64 1) (Fin (inject_Z z)) = (1 <=? z).
Proof.
  change (f64 1) with (Fin 1). cbn [fle]. change 1%Q with (inject_Z 1).
  destruct (Z.leb_spec 1 z) as [Hz|Hz].
  - apply Qle_bool_iff. by rewrite <- Zle_Qle.
  - destruct (Qle_bool _ _) eqn:E; [|done]. apply Qle_bool_iff in E. rewrite <- Zle_Qle in E. lia.
Qed.

(** One step of the schedule. *)
Lemma reserve_schedule key now l b i :
  0 <= maxIdle l -> 0 <= i < 2 ^ 52 -> 0 <= b < 2 ^ 52 ->
  tokens (bucket_at key now l) = Fin (inject_Z (b - i)) ->
  (reserve key now l).1 = schedule l b i /\
  ((schedule l b i).2 = true ->
     let l' := (reserve key now l).2 in
     rate l' = rate l /\ maxWait l' = maxWait l /\ maxIdle l' = maxIdle l /\
     tokens (bucket_at key now l') = Fin (inject_Z (b - (i + 1)))).
Proof.
  intros Hm Hi Hb Ht. rewrite reserve_cases. cbv zeta. unfold schedule.
  rewrite Ht, fle_1_Z, deficit_Z by lia. replace (1 - (b - i)) with (i - b + 1) by lia.
  assert (Hkeep : forall d : Z, let l' := (d, true, set_buckets (<[key := take (bucket_at key now l)]>
        (buckets (evictIdleLocked now l))) l).2 in
     rate l' = rate l /\ maxWait l' = maxWait l /\ maxIdle l' = maxIdle l /\
     tokens (bucket_at key now l') = Fin (inject_Z (b - (i + 1)))).
  { intros d. cbn [snd]. repeat split. rewrite bucket_at_keep; [|done|].
    - rewrite (take_Z _ (b - i)) by (lia || done). by replace (b - i - 1) with (b - (i + 1)) by lia.
    - exact (refill_settled l now _). }
  destruct (Z.leb_spec 1 (b - i)), (Z.ltb_spec i b); try lia; [by split|].
  set (dl := f64_to_int64 _). destruct (dl >? maxWait l); split; done.
Qed.

(** Simultaneous callers are paced exactly as advertised: with a burst of
    [b] whole tokens and a fresh destination, the first [b] of them go at once
    and the later ones are delayed by their place in the queue divided by the
    rate, until the first whose delay would exceed [maxWait], who is refused. *)
Theorem reserve_n_schedule key now l b n :
  0 <= maxIdle l -> 0 <= b < 2 ^ 52 -> Z.of_nat n < 2 ^ 52 ->
  burst l = Fin (inject_Z b) -> buckets l !! key = None ->
  (forall i, 0 <= i < Z.of_nat n -> (schedule l b i).2 = true) ->
  reserve_n (S n) key now l = (fun i => schedule l b (Z.of_nat i)) <$> seq 0 (S n).
Proof.
  intros Hm Hb Hn Hbu Hnone Hok.
  assert (Ht : tokens (bucket_at key now l) = Fin (inject_Z (b - 0))).
  { unfold bucket_at. rewrite evict_lookup, Hnone. simpl. unfold refill. cbn [last].
    unfold Sub. rewrite Z.sub_diag. simpl. by rewrite Hbu, Z.sub_0_r. }
  assert (Hgen : forall k j l', (j + k = n)%nat -> rate l' = rate l -> maxWait l' = maxWait l ->
    maxIdle l' = maxIdle l -> tokens (bucket_at key now l') = Fin (inject_Z (b - Z.of_nat j)) ->
    reserve_n (S k) key now l' = (fun i => schedule l b (Z.of_nat i)) <$> seq j (S k)).
  { induction k as [|k IH]; intros j l' Hj Hr Hw Hi Htj;
      destruct (reserve_schedule key now l' b (Z.of_nat j)) as [H1 H2]; try (done || lia);
      assert (Hs : schedule l' b (Z.of_nat j) = schedule l b (Z.of_nat j))
        by (unfold schedule; by rewrite Hr, Hw); rewrite Hs in H1, H2.
    - simpl. destruct (reserve key now l') as [[d ok] l'']. simpl in *. by rewrite H1.
    - destruct (H2 (Hok (Z.of_nat j) ltac:(lia))) as (Hr' & Hw' & Hi' & Ht').
      change (reserve_n (S (S k)) key now l') with
        (let '(d, ok, l'') := reserve key now l' in (d, ok) :: reserve_n (S k) key now l'').
      destruct (reserve key now l') as [[d ok] l'']. simpl in H1, Hr', Hw', Hi', Ht'.
      rewrite (IH (S j) l''); [|lia|congruence|congruence|congruence|].
      + rewrite H1. done.
      + rewrite Ht'. by replace (Z.of_nat (S j)) with (Z.of_nat j + 1) by lia. }
  apply (Hgen n 0%nat l); (done || lia).
Qed.

(** Enough elapsed time fills a bucket. *)
Lemma refill_full l now b r bq q k :
  rate l = Fin r -> (0 < r)%Q -> (r <= pow2 53)%Q -> burst l = Fin bq -> rnd bq = bq ->
  tokens b = Fin q -> (- pow2 53 <= q)%Q -> (q <= pow2 53)%Q ->
  0 < k <= 2 ^ 33 -> k * Second <= now - last b ->
  (bq <= q + rnd (inject_Z k * r))%Q ->
  let t := fadd (tokens b) (fmul (Seconds (Sub now (last b))) (rate l)) in
  exists y, (t = Inf false \/ t = Fin y) /\ (t = Fin y -> (bq <= y)%Q).
Proof.
  intros Hr Hr0 Hr1 Hbu Hbq Hq Hq0 Hq1 Hk He Hfull t.
  destruct (Seconds_ge (Sub now (last b)) k) as (s & Hs & Hs0); [lia| |].
  { unfold Sub, Second, min_int64, max_int64 in *. lia. }
  unfold t. rewrite Hs, Hr, Hq. cbn [fmul].
  assert (Hk0 : (0 <= inject_Z k)%Q) by (change 0%Q with (inject_Z 0); rewrite <- Zle_Qle; lia).
  assert (Hm : (inject_Z k * r <= s * r)%Q) by (apply Qmult_le_compat_r; lra).
  assert (Hneg : forall x, (0 <= x)%Q -> Qltb x 0 = false)
    by (intros x ?; unfold Qltb; apply negb_false_iff; by apply Qle_bool_iff).
  assert (Hx0 : (0 <= inject_Z k * r)%Q) by (apply Qmult_le_0_compat; lra).
  pose proof (rnd_mono _ _ Hm) as Hrm.
  destruct (f64_cases (s * r)) as [-> | ->]; [|rewrite Hneg by lra; exists 0%Q; split; [by left|done]].
  cbn [fadd]. exists (rnd (q + rnd (s * r))).
  assert (Hge : (bq <= rnd (q + rnd (s * r)))%Q) by (rewrite <- Hbq; apply rnd_mono; lra).
  destruct (f64_cases (q + rnd (s * r))) as [-> | Hinf]; [split; [by right|done]|].
  rewrite Hinf. split; [|done]. left. f_equal. unfold Qltb. apply negb_false_iff, Qle_bool_iff.
  destruct (Qlt_le_dec (q + rnd (s * r)) 0) as [Hlt|]; [|done]. exfalso.
  rewrite f64_fin in Hinf; [done| |].
  - pose proof (rnd_nonneg _ Hx0). assert ((pow2 53 <= pow2 1000)%Q) by qdec. lra.
  - assert ((0 <= pow2 1000)%Q) by qdec. lra.
Qed.

(** Evicting an idle destination changes no decision: when the idle time is
    enough to earn the burst back, the bucket [reserve] would have decided on
    holds the same balance as the full one it creates after the eviction. *)
Theorem eviction_harmless key now l b r bq q k :
  rate l = Fin r -> (0 < r)%Q -> (r <= pow2 53)%Q -> burst l = Fin bq -> rnd bq = bq ->
  buckets l !! key = Some b -> tokens b = Fin q -> (- pow2 53 <= q)%Q -> (q <= pow2 53)%Q ->
  last b <= lastAccess b -> (Sub now (lastAccess b) >? maxIdle l) = true ->
  0 < k <= 2 ^ 33 -> k * Second <= maxIdle l ->
  (bq <= q + rnd (inject_Z k * r))%Q ->
  bucket_at key now l = {| tokens := burst l; last := now; lastAccess := now |} /\
  feq (tokens (refill l now b)) (tokens (bucket_at key now l)) = true.
Proof.
  intros Hr Hr0 Hr1 Hbu Hbq Hb Hq Hq0 Hq1 Hla Hidle Hk Hmi Hfull.
  assert (Hat : bucket_at key now l = {| tokens := burst l; last := now; lastAccess := now |}).
  { unfold bucket_at. rewrite evict_lookup, Hb. simpl. rewrite Hidle. unfold refill. simpl.
    unfold Sub. by rewrite Z.sub_diag. }
  split; [done|]. rewrite Hat. cbn [tokens]. rewrite Z.gtb_ltb in Hidle. apply Z.ltb_lt in Hidle.
  assert (Hd : k * Second < now - last b) by (unfold Sub, Second, min_int64, max_int64 in *; lia).
  destruct (refill_full l now b r bq q k) as (y & Hy & Hyge); try (done || lia).
  unfold refill. rewrite Sub_pos, Z.gtb_ltb, (proj2 (Z.ltb_lt _ _)) by (unfold Second in *; lia).
  cbn [tokens]. rewrite Hbu. assert (Hrefl : feq (Fin bq) (Fin bq) = true).
  { unfold feq. cbn [fle]. rewrite (proj2 (Qle_bool_iff bq bq)) by apply Qle_refl. done. }
  destruct Hy as [-> |Hy]; [done|]. specialize (Hyge Hy). rewrite Hy. cbn [flt]. unfold Qltb.
  destruct (Qle_bool y bq) eqn:E; [|done]. simpl. unfold feq. cbn [fle].
  by rewrite E, (proj2 (Qle_bool_iff bq y)).
Qed.
End Guarantees.

(** ** Witnesses, at the default configuration *)

Definition ex_limiter : Limiter :=
  New {| cfg_Rate := f64 0; cfg_Burst := f64 0; cfg_MaxWait := 0; cfg_MaxIdle := 0 |}.

Lemma ex_limiter_ok : limiter_ok 50 ex_limiter.
Proof.
  constructor; [exists 1%Q; by split| |done|apply map_Forall_empty].
  split; [|reflexivity]. exists 5%Q. repeat split; by vm_compute.
Qed.

Abbreviation ex_limiter_ops :=
  [RReserve "d" 5; RSetRate (f64 (1 # 2)) (f64 50); RReserve "d" (90 * Second)].

Lemma limiter_balance_bounded_witness :
  exists b, buckets (fold_left (rl_step (H := amd64)) ex_limiter_ops ex_limiter) !! "d" = Some b /\
    balance_ok 50 (tokens b).
Proof.
  destruct (buckets (fold_left (rl_step (H := amd64)) ex_limiter_ops ex_limiter) !! "d") as [b|] eqn:E;
    [|vm_compute in E; discriminate].
  exists b. split; [reflexivity|].
  apply (limiter_balance_bounded (H := amd64) 50 ex_limiter ex_limiter_ops "d" b).
  - by vm_compute.
  - exact ex_limiter_ok.
  - repeat constructor; [by exists (1 # 2)%Q|]. exists 50%Q. repeat split; by vm_compute.
  - exact E.
Defined.

Lemma reserve_outcomes_witness :
  exists d l', reserve (H := amd64) "d" 7 ex_limiter = (d, true, l') /\ d <= Z.max 0 (maxWait ex_limiter).
Proof.
  destruct (reserve (H := amd64) "d" 7 ex_limiter) as [[d ok] l'] eqn:E.
  assert (Hok : ok = true) by (vm_compute in E; congruence). subst ok.
  exists d, l'. split; [reflexivity|].
  exact (proj1 (reserve_outcomes (H := amd64) "d" 7 ex_limiter d true l' ltac:(done) E)).
Defined.

Lemma reserve_n_schedule_witness :
  reserve_n (H := amd64) 36 "d" 7 ex_limiter
  = (fun i => schedule (H := amd64) ex_limiter 5 (Z.of_nat i)) <$> seq 0 36 /\
  schedule (H := amd64) ex_limiter 5 34 = (30 * Second, true) /\
  schedule (H := amd64) ex_limiter 5 35 = (0, false).
Proof.
  split; [|by vm_compute].
  apply (reserve_n_schedule (H := amd64) "d" 7 ex_limiter 5 35); try done.
  intros i Hi. assert (Hall : forallb (fun n => (schedule (H := amd64) ex_limiter 5 (Z.of_nat n)).2) (seq 0 35) = true)
    by (vm_compute; reflexivity).
  rewrite forallb_forall in Hall. rewrite <- (Z2Nat.id i) by lia. apply Hall.
  apply in_seq. lia.
Defined.

Lemma eviction_harmless_witness :
  feq (tokens (refill ex_limiter (3 + 601 * Second) {| tokens := f64 (-29); last := 3; lastAccess := 3 |}))
      (f64 5) = true.
Proof.
  exact (proj2 (eviction_harmless "d" (3 + 601 * Second)
    (set_buckets {[ "d" := {| tokens := f64 (-29); last := 3; lastAccess := 3 |} ]} ex_limiter)
    {| tokens := f64 (-29); last := 3; lastAccess := 3 |} 1 5 (-29) 600
    eq_refl eq_refl ltac:(qdec) eq_refl eq_refl eq_refl eq_refl ltac:(qdec) ltac:(qdec)
    ltac:(simpl; lia) eq_refl ltac:(lia) ltac:(vm_compute; discriminate) ltac:(qdec))).
Defined.

(** A very small positive rate switches the pacing off on amd64: the delay no
    longer fits in an [int64], the conversion gives the smallest one, and
    [Wait] lets every caller through at once without ever refusing. *)
Theorem tiny_rate_unpaced :
  let l := New {| cfg_Rate := f64 (1 # 10 ^ 10); cfg_Burst := f64 1; cfg_MaxWait := 0; cfg_MaxIdle := 0 |} in
  reserve_n (H := amd64) 4 "d" 7 l = [(0, true); (min_int64, true); (min_int64, true); (min_int64, true)] /\
  reserve_n (H := arm64) 4 "d" 7 l = [(0, true); (0, false); (0, false); (0, false)].
Proof. split; vm_compute; reflexivity. Qed.
