(* ===== verification/Health.v ===== *)
(** [internal/egress/health.go]: the per-(identity, destination) health score
    and circuit breaker.

    [health] is an exponential moving average in float64 arithmetic; [circuit]
    is a breaker with the states closed, open and half-open.  The theorems show
    that the score stays in [0, 1] whatever the rounding; what the breaker does
    through whole runs of the manager is in [EgressBreaker]. *)

From Stdlib Require Import QArith Qabs Lqa.
From S2P Require Import Prelude Float64 GoTime.
Local Open Scope Z_scope.

(** ** Health score *)

Record health := { score : float64; samples : Z }.

Definition newHealth : health := {| score := f64 1; samples := 0 |}.

(** [health.observe]: [h.score*(1-alpha) + target*alpha], each operation
    rounded. *)
Definition observe (good : bool) (alpha : float64) (h : health) : health :=
  let target := if good then f64 1 else f64 0 in
  {| score := fadd (fmul (score h) (fsub (f64 1) alpha)) (fmul target alpha);
     samples := samples h + 1 |}.

(** ** Circuit breaker *)

Inductive cbState := cbClosed | cbOpen | cbHalfOpen.

#[global] Instance cbState_eq_decision : EqDecision cbState.
Proof. solve_decision. Defined.

Record circuit := { cb_state : cbState; failures : Z; openUntil : Time }.

(** [&circuit{}] *)
Definition circuit_zero : circuit := {| cb_state := cbClosed; failures := 0; openUntil := 0 |}.

(** [circuit.allow] returns whether a probe may go and moves an expired open
    breaker to half-open. *)
Definition allow (now : Time) (c : circuit) : bool * circuit :=
  match cb_state c with
  | cbOpen =>
      if After now (openUntil c)
      then (true, {| cb_state := cbHalfOpen; failures := failures c; openUntil := openUntil c |})
      else (false, c)
  | _ => (true, c)
  end.

(** [circuit.onSuccess] *)
Definition onSuccess (c : circuit) : circuit :=
  {| cb_state := cbClosed; failures := 0; openUntil := openUntil c |}.

(** [circuit.onFailure] *)
Definition onFailure (now : Time) (threshold : Z) (cooldown : Duration) (c : circuit) : circuit :=
  let n := failures c + 1 in
  if bool_decide (cb_state c = cbHalfOpen) || (n >=? threshold)
  then {| cb_state := cbOpen; failures := n; openUntil := Add now cooldown |}
  else {| cb_state := cb_state c; failures := n; openUntil := openUntil c |}.

(** ** Lemmas: the score *)

Section Score.
Local Open Scope Q_scope.

Lemma fsub_unit a : rnd a = a -> 0 <= a -> a <= 1 -> fsub (f64 1) (Fin a) = Fin (rnd (1 - a)).
Proof.
  intros _ H0 H1. change (f64 1) with (Fin 1). unfold fsub, fneg, fadd.
  assert (He : 1 + Qred (- a) == 1 - a) by (rewrite Qred_correct; reflexivity).
  rewrite f64_unit by (rewrite He; lra). by rewrite He.
Qed.

Lemma fmul_unit x y : 0 <= x -> x <= 1 -> 0 <= y -> y <= 1 ->
  fmul (Fin x) (Fin y) = Fin (rnd (x * y)).
Proof. intros. unfold fmul. apply f64_unit; nra. Qed.

Lemma rnd_unit x : 0 <= x -> x <= 1 -> 0 <= rnd x /\ rnd x <= 1.
Proof.
  intros H0 H1. split; [rewrite <- rnd_at_0|rewrite <- rnd_at_1]; by apply rnd_mono.
Qed.

Lemma rnd_unit_upper x : 0 <= x -> x <= 1 -> rnd x <= x + (1 # 2 ^ 54).
Proof.
  intros H0 H1. pose proof (rnd_err_unit x H0 H1) as He.
  apply Qabs_Qle_condition in He. lra.
Qed.

(** A sum that exceeds 1 by no more than 2^-53 is rounded down to 1. *)
Lemma f64_sum_unit x : 0 <= x -> x <= 1 + (1 # 2 ^ 53) -> f64 x = Fin (rnd x) /\ 0 <= rnd x /\ rnd x <= 1.
Proof.
  intros H0 H1.
  assert (Hr0 : 0 <= rnd x) by (rewrite <- rnd_at_0; by apply rnd_mono).
  assert (Hr1 : rnd x <= 1).
  { eapply Qle_trans; [apply rnd_mono, H1|]. apply Qle_bool_iff. vm_compute. reflexivity. }
  split; [|done]. unfold f64.
  destruct (Qle_bool (pow2 1024) (Qabs (rnd x))) eqn:E; [|done].
  apply Qle_bool_iff in E. rewrite Qabs_pos in E by done.
  assert (1 < pow2 1024) by reflexivity. lra.
Qed.

Lemma ema_unit h a t :
  funit h -> funit a -> t = f64 0 \/ t = f64 1 ->
  funit (fadd (fmul h (fsub (f64 1) a)) (fmul t a)).
Proof.
  intros (h' & -> & _ & Hh0 & Hh1) (a' & -> & Ha & Ha0 & Ha1) Ht.
  rewrite fsub_unit by done.
  destruct (rnd_unit (1 - a')) as [Hc0 Hc1]; [lra|lra|].
  pose proof (rnd_unit_upper (1 - a') ltac:(lra) ltac:(lra)) as Hcu.
  set (c := rnd (1 - a')) in *. rewrite fmul_unit by done.
  assert (Hhc : 0 <= h' * c /\ h' * c <= c) by nra.
  destruct (rnd_unit (h' * c)) as [Hp0 Hp1]; [lra|lra|].
  pose proof (rnd_unit_upper (h' * c) ltac:(lra) ltac:(lra)) as Hpu.
  set (p := rnd (h' * c)) in *.
  assert (Hta : exists b, fmul t (Fin a') = Fin b /\ 0 <= b /\ b <= a').
  { destruct Ht as [-> | ->].
    - change (f64 0) with (Fin 0). exists 0. rewrite fmul_unit by lra.
      rewrite rnd_zero by ring. repeat split; (done || lra).
    - change (f64 1) with (Fin 1). exists a'. rewrite fmul_unit by lra.
      rewrite (rnd_proper _ _ (Qmult_1_l a')), Ha. repeat split; (done || lra). }
  destruct Hta as (b & -> & Hb0 & Hb1). unfold fadd.
  assert (H53 : (1 # 2 ^ 53) == (1 # 2 ^ 54) + (1 # 2 ^ 54)) by reflexivity.
  destruct (f64_sum_unit (p + b)) as (He & H0 & H1); [lra|lra|].
  exists (rnd (p + b)). rewrite He. repeat split; try done. apply rnd_idemp.
Qed.

Lemma fhalf_unit a : funit a -> funit (fmul a (f64 (1 # 2))).
Proof.
  intros (a' & -> & _ & H0 & H1). change (f64 (1 # 2)) with (Fin (1 # 2)).
  unfold fmul. apply funit_f64; lra.
Qed.
End Score.

#[export] Hint Resolve ema_unit fhalf_unit : rcptto.

Lemma observe_unit good alpha h : funit alpha -> funit (score h) -> funit (score (observe good alpha h)).
Proof. intros Ha Hh. apply ema_unit; [done|done|]. destruct good; auto. Qed.

Lemma newHealth_unit : funit (score newHealth).
Proof. apply funit_f64; discriminate. Qed.

#[export] Hint Resolve observe_unit newHealth_unit : rcptto.

(** A bad outcome never raises the score. *)
Lemma observe_bad_le alpha h :
  funit alpha -> funit (score h) -> fle (score (observe false alpha h)) (score h) = true.
Proof.
  intros (a & -> & Ha & Ha0 & Ha1) (q & Hq & Hrq & Hq0 & Hq1). unfold observe. cbn [score]. rewrite Hq.
  rewrite fsub_unit by done. destruct (rnd_unit (1 - a)%Q) as [Hc0 Hc1]; [lra|lra|].
  rewrite fmul_unit by done. change (f64 0) with (Fin 0).
  rewrite (fmul_unit 0 a) by (done || discriminate).
  set (c := rnd (1 - a)) in *. assert (Hqc : (0 <= q * c /\ q * c <= q)%Q) by nra.
  assert (Hr : (rnd (q * c) <= q)%Q) by (rewrite <- Hrq; apply rnd_mono; rewrite Hrq; lra).
  destruct (rnd_unit (q * c)%Q) as [Hr0 _]; [lra|lra|].
  assert (He : (rnd (q * c) + rnd (0 * a) == rnd (q * c))%Q) by (rewrite (rnd_zero (0 * a)) by ring; ring).
  unfold fadd. rewrite f64_unit by (rewrite He; lra). cbn [fle]. apply Qle_bool_iff.
  rewrite (rnd_proper _ _ He), rnd_idemp. done.
Qed.

(** ** Lemmas: the breaker *)

Lemma onFailure_opens t th cd c :
  th <= failures c + 1 ->
  onFailure t th cd c = {| cb_state := cbOpen; failures := failures c + 1; openUntil := Add t cd |}.
Proof.
  intros H. unfold onFailure. rewrite Z.geb_leb, (proj2 (Z.leb_le _ _)) by lia.
  by rewrite orb_true_r.
Qed.
