(* ===== verification/Egress.v ===== *)
(** [internal/egress/identity.go], [internal/egress/manager.go] and the
    persisted form of [internal/store/egress.go]: the reputation manager.

    The manager's mutex makes each method atomic, so a method is a function
    from the manager's state to its result and the state after it; [now] is the
    instant the method reads from the clock.  A method whose Go code could
    panic (a nil record, an index out of range) returns [None] for the panic;
    the invariant of [EgressInv.v] excludes it. *)

From Stdlib Require Import QArith.
From S2P Require Import Prelude GoStrings Float64 GoTime Engine Health.
Local Open Scope Z_scope.

(** ** Identities *)

Inductive State : Type :=
| StateWarming
| StateActive
| StateQuarantined
| StateDisabled
| State_other (s : string).

#[global] Instance State_eq_decision : EqDecision State.
Proof. solve_decision. Defined.

(** [string(state)] and [State(s)], the conversions of a Go string type *)
Definition State_String (s : State) : string :=
  match s with
  | StateWarming => "warming"
  | StateActive => "active"
  | StateQuarantined => "quarantined"
  | StateDisabled => "disabled"
  | State_other s => s
  end.

Definition State_of (s : string) : State :=
  if String.eqb s "warming" then StateWarming
  else if String.eqb s "active" then StateActive
  else if String.eqb s "quarantined" then StateQuarantined
  else if String.eqb s "disabled" then StateDisabled
  else State_other s.

Inductive Kind := KindLocalIP | KindSOCKS5 | KindResidential.

(** [Spec]; the transport is an opaque handle that only dialling uses. *)
Record Spec := {
  Spec_ID : string;
  Spec_Kind : Kind;
  Spec_IP : string;
  Spec_HELO : string;
  Spec_MailFrom : string;
  Spec_ASN : string;
  Spec_Region : string;
  Spec_WarmUp : bool;
}.

(** ** State of the manager *)

Definition defaultHealthAlpha : float64 := f64 (3 # 10).
Definition defaultCircuitThreshold : Z := 3.
Definition defaultCircuitCooldown : Duration := 15 * Minute.
Definition defaultQuarantineThreshold : Z := 5.
Definition defaultQuarantineCooldown : Duration := Hour.
Definition dailyResetInterval : Duration := 24 * Hour.
Definition defaultWarmupStages : list Z := [50; 200; 1000; 5000].

Record Config := {
  cfg_Identities : list Spec;
  cfg_HealthAlpha : float64;
  cfg_CircuitThreshold : Z;
  cfg_CircuitCooldown : Duration;
  cfg_QuarantineThreshold : Z;
  cfg_QuarantineCooldown : Duration;
  cfg_WarmupStages : list Z;
  cfg_ActiveDailyCap : Z;
}.

(** The counters are Go [int]s; they are unbounded here, and [EgressCount] bounds
    them in every run by what was restored and the calls since. *)
Record record := {
  spec : Spec;
  state : State;
  warmupStage : Z;
  usedToday : Z;
  lastReset : Time;
  online : bool;
  blockStreak : Z;
  quarantinedUntil : Time;
  quarantineReason : string;
  rhealth : gmap string health;
  circuits : gmap string circuit;
}.

Record Manager := {
  alpha : float64;
  circuitThreshold : Z;
  circuitCooldown : Duration;
  quarantineThreshold : Z;
  quarantineCooldown : Duration;
  warmupStages : list Z;
  activeDailyCap : Z;
  records : gmap string record;
  order : list string;
  dirty : bool;
}.

(** Field assignments of the Go code. *)
Definition set_records (f : gmap string record) (m : Manager) : Manager :=
  {| alpha := alpha m; circuitThreshold := circuitThreshold m;
     circuitCooldown := circuitCooldown m; quarantineThreshold := quarantineThreshold m;
     quarantineCooldown := quarantineCooldown m; warmupStages := warmupStages m;
     activeDailyCap := activeDailyCap m; records := f; order := order m; dirty := dirty m |}.

Definition set_dirty (d : bool) (m : Manager) : Manager :=
  {| alpha := alpha m; circuitThreshold := circuitThreshold m;
     circuitCooldown := circuitCooldown m; quarantineThreshold := quarantineThreshold m;
     quarantineCooldown := quarantineCooldown m; warmupStages := warmupStages m;
     activeDailyCap := activeDailyCap m; records := records m; order := order m; dirty := d |}.

Definition set_order (o : list string) (m : Manager) : Manager :=
  {| alpha := alpha m; circuitThreshold := circuitThreshold m;
     circuitCooldown := circuitCooldown m; quarantineThreshold := quarantineThreshold m;
     quarantineCooldown := quarantineCooldown m; warmupStages := warmupStages m;
     activeDailyCap := activeDailyCap m; records := records m; order := o; dirty := dirty m |}.

(** The lifecycle fields of a record: state, stage, streak, deadline, reason. *)
Definition set_life (st : State) (stage streak : Z) (until : Time) (reason : string)
    (r : record) : record :=
  {| spec := spec r; state := st; warmupStage := stage; usedToday := usedToday r;
     lastReset := lastReset r; online := online r; blockStreak := streak;
     quarantinedUntil := until; quarantineReason := reason;
     rhealth := rhealth r; circuits := circuits r |}.

Definition set_usage (used : Z) (reset : Time) (r : record) : record :=
  {| spec := spec r; state := state r; warmupStage := warmupStage r; usedToday := used;
     lastReset := reset; online := online r; blockStreak := blockStreak r;
     quarantinedUntil := quarantinedUntil r; quarantineReason := quarantineReason r;
     rhealth := rhealth r; circuits := circuits r |}.

Definition set_feedback (h : gmap string health) (c : gmap string circuit) (r : record) : record :=
  {| spec := spec r; state := state r; warmupStage := warmupStage r; usedToday := usedToday r;
     lastReset := lastReset r; online := online r; blockStreak := blockStreak r;
     quarantinedUntil := quarantinedUntil r; quarantineReason := quarantineReason r;
     rhealth := h; circuits := c |}.

Definition set_online (b : bool) (r : record) : record :=
  {| spec := spec r; state := state r; warmupStage := warmupStage r; usedToday := usedToday r;
     lastReset := lastReset r; online := b; blockStreak := blockStreak r;
     quarantinedUntil := quarantinedUntil r; quarantineReason := quarantineReason r;
     rhealth := rhealth r; circuits := circuits r |}.

Definition set_spec (s : Spec) (r : record) : record :=
  {| spec := s; state := state r; warmupStage := warmupStage r; usedToday := usedToday r;
     lastReset := lastReset r; online := online r; blockStreak := blockStreak r;
     quarantinedUntil := quarantinedUntil r; quarantineReason := quarantineReason r;
     rhealth := rhealth r; circuits := circuits r |}.

(** ** Construction *)

(** The record of a new identity, in [New] and [AddIdentity]. *)
Definition fresh_record (s : Spec) (start : Time) : record :=
  {| spec := s; state := if Spec_WarmUp s then StateWarming else StateActive;
     warmupStage := 0; usedToday := 0; lastReset := start; online := true;
     blockStreak := 0; quarantinedUntil := 0; quarantineReason := "";
     rhealth := ∅; circuits := ∅ |}.

Definition seed (start : Time) (m : Manager) (s : Spec) : Manager :=
  set_order (order m ++ [Spec_ID s])
    (set_records (<[Spec_ID s := fresh_record s start]> (records m)) m).

Definition New (cfg : Config) (start : Time) : Manager :=
  let a := cfg_HealthAlpha cfg in
  let m := {|
    alpha := if fle a (f64 0) || flt (f64 1) a then defaultHealthAlpha else a;
    circuitThreshold := if cfg_CircuitThreshold cfg <=? 0 then defaultCircuitThreshold
                        else cfg_CircuitThreshold cfg;
    circuitCooldown := if cfg_CircuitCooldown cfg <=? 0 then defaultCircuitCooldown
                       else cfg_CircuitCooldown cfg;
    quarantineThreshold := if cfg_QuarantineThreshold cfg <=? 0 then defaultQuarantineThreshold
                           else cfg_QuarantineThreshold cfg;
    quarantineCooldown := if cfg_QuarantineCooldown cfg <=? 0 then defaultQuarantineCooldown
                          else cfg_QuarantineCooldown cfg;
    warmupStages := if len (cfg_WarmupStages cfg) =? 0 then defaultWarmupStages
                    else cfg_WarmupStages cfg;
    activeDailyCap := cfg_ActiveDailyCap cfg;
    records := ∅; order := []; dirty := false |} in
  fold_left (seed start) (cfg_Identities cfg) m.

(** ** Selection *)

(** [destOf] *)
Definition destOf (t : Task) : string :=
  if negb (String.eqb (Task_Provider t) "") && negb (String.eqb (Task_Provider t) "custom")
  then Task_Provider t else Task_Domain t.

(** [record.score] *)
Definition rec_score (r : record) (dest : string) : float64 :=
  match rhealth r !! dest with
  | Some h => score h
  | None => f64 1
  end.

(** [capFor]; [None] is the index panic. *)
Definition capFor (m : Manager) (r : record) : option Z :=
  if bool_decide (state r = StateWarming) then
    let stage := warmupStage r in
    let stage := if stage >=? len (warmupStages m) then len (warmupStages m) - 1 else stage in
    if stage <? 0 then None else warmupStages m !! Z.to_nat stage
  else Some (activeDailyCap m).

(** [eligibleLocked]: the answer, and the record after [circuit.allow] moved an
    expired breaker to half-open. *)
Definition eligibleLocked (m : Manager) (r : record) (dest : string) (now : Time)
    : option (bool * record) :=
  if bool_decide (state r = StateDisabled) || bool_decide (state r = StateQuarantined)
  then Some (false, r)
  else if negb (online r) then Some (false, r)
  else
    let '(ok, r) :=
      match circuits r !! dest with
      | Some c => let '(ok, c) := allow now c in
                  (ok, set_feedback (rhealth r) (<[dest := c]> (circuits r)) r)
      | None => (true, r)
      end in
    if negb ok then Some (false, r)
    else
      limit ← capFor m r;
      if (limit >? 0) && (usedToday r >=? limit) then Some (false, r) else Some (true, r).

(** The candidate kept by [selectLocked]: its id, its score, its usage. *)
Definition candidate : Type := string * float64 * Z.

Definition better (sc : float64) (used : Z) (best : option candidate) : bool :=
  match best with
  | None => true
  | Some (_, bs, bu) => flt bs sc || (feq sc bs && (used <? bu))
  end.

Fixpoint select_loop (m : Manager) (dest : string) (now : Time) (ids : list string)
    (recs : gmap string record) (best : option candidate)
    : option (gmap string record * option candidate) :=
  match ids with
  | [] => Some (recs, best)
  | id :: ids =>
      r ← recs !! id;
      '(ok, r) ← eligibleLocked m r dest now;
      let recs := <[id := r]> recs in
      if negb ok then select_loop m dest now ids recs best
      else
        let sc := rec_score r dest in
        select_loop m dest now ids recs
          (if better sc (usedToday r) best then Some (id, sc, usedToday r) else best)
  end.

(** [selectLocked] *)
Definition selectLocked (m : Manager) (dest : string) (now : Time)
    : option (Manager * option candidate) :=
  '(recs, best) ← select_loop m dest now (order m) (records m) None;
  Some (set_records recs m, best).

(** ** Reconciliation *)

(** Quarantine expiry of one record. *)
Definition expire_quarantine (now : Time) (r : record) : record :=
  if bool_decide (state r = StateQuarantined) && After now (quarantinedUntil r)
  then set_life StateWarming 0 0 (quarantinedUntil r) (quarantineReason r) r
  else r.

(** One pass of the daily loop: the counter is cleared, the window moves by a
    day and a warming identity climbs one stage. *)
Definition daily_reset (m : Manager) (r : record) : record :=
  let r := set_usage 0 (Add (lastReset r) dailyResetInterval) r in
  if bool_decide (state r = StateWarming) then
    let stage := warmupStage r + 1 in
    set_life (if stage >=? len (warmupStages m) then StateActive else StateWarming)
      stage (blockStreak r) (quarantinedUntil r) (quarantineReason r) r
  else r.

Fixpoint daily_loop (fuel : nat) (m : Manager) (now : Time) (r : record) : record :=
  match fuel with
  | O => r
  | S fuel => if Sub now (lastReset r) >=? dailyResetInterval
              then daily_loop fuel m now (daily_reset m r) else r
  end.

(** Days elapsed since the last reset: the fuel of the loop. *)
Definition days_due (now : Time) (r : record) : nat :=
  Z.to_nat ((now - lastReset r) / dailyResetInterval).

Definition reconcile_record (m : Manager) (now : Time) (r : record) : record :=
  let r := expire_quarantine now r in
  daily_loop (days_due now r) m now r.

Fixpoint reconcile_loop (m : Manager) (now : Time) (ids : list string) (recs : gmap string record)
    : option (gmap string record) :=
  match ids with
  | [] => Some recs
  | id :: ids =>
      r ← recs !! id;
      reconcile_loop m now ids (<[id := reconcile_record m now r]> recs)
  end.

(** [reconcileLocked] *)
Definition reconcileLocked (m : Manager) (now : Time) : option Manager :=
  recs ← reconcile_loop m now (order m) (records m);
  Some (set_records recs m).

(** ** Methods *)

Inductive egress_error := ErrNoEgress.

Definition binding_of (r : record) : EgressBinding :=
  {| binding_ID := Spec_ID (spec r); binding_HELO := Spec_HELO (spec r);
     binding_MailFrom := Spec_MailFrom (spec r) |}.

(** [Binding] *)
Definition Binding (m : Manager) (t : Task) (now : Time)
    : option (result egress_error EgressBinding * Manager) :=
  m ← reconcileLocked m now;
  '(m, best) ← selectLocked m (destOf t) now;
  match best with
  | None => Some (Err ErrNoEgress, m)
  | Some (id, _, _) =>
      r ← records m !! id;
      let r := set_usage (usedToday r + 1) (lastReset r) r in
      Some (Ok (binding_of r), set_dirty true (set_records (<[id := r]> (records m)) m))
  end.

(** [healthFor] and [circuitFor], then an update of what they return *)
Definition upd_health (dest : string) (f : health -> health) (r : record) : record :=
  set_feedback (<[dest := f (default newHealth (rhealth r !! dest))]> (rhealth r)) (circuits r) r.

Definition upd_circuit (dest : string) (f : circuit -> circuit) (r : record) : record :=
  set_feedback (rhealth r) (<[dest := f (default circuit_zero (circuits r !! dest))]> (circuits r)) r.

(** The body of [Emit]'s loop for the record of the signal's identity. *)
Definition apply_signal (m : Manager) (now : Time) (sig : Signal) (r : record) : record :=
  let dest := Signal_Destination sig in
  let half := fmul (alpha m) (f64 (1 # 2)) in
  match Signal_Kind sig with
  | SignalAccepted | SignalMailboxGone =>
      let r := upd_circuit dest onSuccess (upd_health dest (observe true (alpha m)) r) in
      set_life (state r) (warmupStage r) 0 (quarantinedUntil r) (quarantineReason r) r
  | SignalTempFail => upd_health dest (observe false half) r
  | SignalBlocked =>
      let r := upd_health dest (observe false (alpha m)) r in
      let r := upd_circuit dest (onFailure now (circuitThreshold m) (circuitCooldown m)) r in
      let streak := blockStreak r + 1 in
      if streak >=? quarantineThreshold m
      then set_life StateQuarantined (warmupStage r) streak (Add now (quarantineCooldown m))
             (quarantineReason r) r
      else set_life (state r) (warmupStage r) streak (quarantinedUntil r) (quarantineReason r) r
  | SignalConnRefused | SignalTimeout =>
      upd_circuit dest (onFailure now (circuitThreshold m) (circuitCooldown m))
        (upd_health dest (observe false half) r)
  | SignalKind_other _ => r
  end.

Definition emit_one (now : Time) (m : Manager) (sig : Signal) : Manager :=
  match records m !! Signal_EgressID sig with
  | None => m
  | Some r => set_dirty true
                (set_records (<[Signal_EgressID sig := apply_signal m now sig r]> (records m)) m)
  end.

(** [Emit] *)
Definition Emit (signals : list Signal) (now : Time) (m : Manager) : Manager :=
  fold_left (emit_one now) signals m.

Record IdentityInfo := {
  info_ID : string; info_IP : string; info_State : State; info_Reason : string; info_Online : bool;
}.

(** [Identities]; [None] is a nil record *)
Definition Identities (m : Manager) : option (list IdentityInfo) :=
  mapM (fun id => r ← records m !! id;
          Some {| info_ID := id; info_IP := Spec_IP (spec r); info_State := state r;
                  info_Reason := quarantineReason r; info_Online := online r |}) (order m).

(** An update of a known identity, ignored for an unknown one, marking the
    manager dirty: the shape of [Enable], [Disable] and [Quarantine]. *)
Definition update_record (id : string) (f : record -> record) (m : Manager) : Manager :=
  match records m !! id with
  | None => m
  | Some r => set_dirty true (set_records (<[id := f r]> (records m)) m)
  end.

(** [Enable] *)
Definition Enable (id : string) (m : Manager) : Manager :=
  update_record id (fun r => set_life StateWarming 0 0 (quarantinedUntil r) "" r) m.

(** [Disable] *)
Definition Disable (id reason : string) (m : Manager) : Manager :=
  update_record id (fun r =>
    set_life StateDisabled (warmupStage r) (blockStreak r) (quarantinedUntil r) reason r) m.

(** [Quarantine] *)
Definition Quarantine (id reason : string) (now : Time) (m : Manager) : Manager :=
  update_record id (fun r =>
    set_life StateQuarantined (warmupStage r) (blockStreak r) (Add now (quarantineCooldown m)) reason r) m.

(** [AuditDNSBL]: the snapshot taken under the lock, then one [Quarantine] per
    listed address.  [check] is [dnsbl.Check], the zones that list an address
    (its error is always nil).  Here the audit is one call at one instant; in Go
    the lock is free between the items and each [Quarantine] reads its own clock,
    which [Process] models with one step per item. *)
Definition audit_items (m : Manager) : option (list (string * string * bool)) :=
  mapM (fun id => r ← records m !! id;
          Some (id, Spec_IP (spec r), bool_decide (state r = StateDisabled))) (order m).

Definition audit_one (check : string -> list string) (now : Time) (m : Manager)
    (it : string * string * bool) : Manager :=
  let '(id, ip, disabled) := it in
  if String.eqb ip "" || disabled then m
  else
    let listed := check ip in
    if len listed =? 0 then m else Quarantine id ("dnsbl:" +:+ Join listed ",") now m.

Definition AuditDNSBL (check : string -> list string) (now : Time) (m : Manager) : option Manager :=
  items ← audit_items m;
  Some (fold_left (audit_one check now) items m).

(** ** Persistence *)

(** [store.EgressState] *)
Record EgressState := {
  es_ID : string;
  es_State : string;
  es_WarmupStage : Z;
  es_UsedToday : Z;
  es_LastReset : Time;
  es_BlockStreak : Z;
  es_QuarantinedUntil : Time;
  es_QuarantineReason : string;
  es_Health : gmap string float64;
}.

Definition snapshot_record (id : string) (r : record) : EgressState := {|
  es_ID := id; es_State := State_String (state r); es_WarmupStage := warmupStage r;
  es_UsedToday := usedToday r; es_LastReset := lastReset r; es_BlockStreak := blockStreak r;
  es_QuarantinedUntil := quarantinedUntil r; es_QuarantineReason := quarantineReason r;
  es_Health := score <$> rhealth r |}.

(** [Snapshot] *)
Definition Snapshot (m : Manager) : option (list EgressState) :=
  mapM (fun id => snapshot_record id <$> records m !! id) (order m).

(** The assignments of [Restore] to one record.  The persisted health entries
    replace the record's own, destination by destination. *)
Definition restore_record (st : EgressState) (r : record) : record :=
  {| spec := spec r; state := State_of (es_State st); warmupStage := es_WarmupStage st;
     usedToday := es_UsedToday st;
     lastReset := if IsZero (es_LastReset st) then lastReset r else es_LastReset st;
     online := online r; blockStreak := es_BlockStreak st;
     quarantinedUntil := es_QuarantinedUntil st; quarantineReason := es_QuarantineReason st;
     rhealth := ((fun s => {| score := s; samples := 0 |}) <$> es_Health st) ∪ rhealth r;
     circuits := circuits r |}.

Definition restore_one (m : Manager) (st : EgressState) : Manager :=
  match records m !! es_ID st with
  | None => m
  | Some r => set_records (<[es_ID st := restore_record st r]> (records m)) m
  end.

(** [Restore] *)
Definition Restore (states : list EgressState) (m : Manager) : Manager :=
  set_dirty true (fold_left restore_one states m).

(** What the manager needs of [store.EgressStore]. *)
Class EgressStore (St Er : Type) := {
  LoadEgress : St -> result Er (list EgressState);
  SaveEgress : list EgressState -> St -> result Er St;
}.

(** [Persist]: the store is [None] when none is configured.  The outer [None]
    is a nil record in [Snapshot]. *)
Definition Persist `{EgressStore St Er} (m : Manager) (st : option St)
    : option (option Er * Manager * option St) :=
  match st with
  | None => Some (None, m, None)
  | Some s =>
      states ← Snapshot m;
      match SaveEgress states s with
      | Err e => Some (Some e, m, Some s)
      | Ok s => Some (None, set_dirty false m, Some s)
      end
  end.

(** One wake-up of [PersistLoop]: a tick writes when the state is dirty, the
    cancellation writes unconditionally and ends the loop. *)
Inductive persist_event := Tick | Done.

Definition persist_wake `{EgressStore St Er} (ev : persist_event) (m : Manager) (st : option St)
    : option (option Er * Manager * option St) :=
  match ev with
  | Tick => if dirty m then Persist m st else Some (None, m, st)
  | Done => Persist m st
  end.

(** ** Runtime changes *)

(** [SetOnline] *)
Definition SetOnline (id : string) (b : bool) (m : Manager) : Manager :=
  match records m !! id with
  | None => m
  | Some r => if Bool.eqb (online r) b then m
              else set_records (<[id := set_online b r]> (records m)) m
  end.

(** [AddIdentity] *)
Definition AddIdentity (s : Spec) (now : Time) (m : Manager) : Manager :=
  match records m !! Spec_ID s with
  | Some r => set_records (<[Spec_ID s := set_spec s r]> (records m)) m
  | None => set_dirty true (seed now m s)
  end.

(** [SetThresholds] *)
Definition SetThresholds (quarantine circuit : Z) (m : Manager) : Manager :=
  {| alpha := alpha m;
     circuitThreshold := if circuit >? 0 then circuit else circuitThreshold m;
     circuitCooldown := circuitCooldown m;
     quarantineThreshold := if quarantine >? 0 then quarantine else quarantineThreshold m;
     quarantineCooldown := quarantineCooldown m; warmupStages := warmupStages m;
     activeDailyCap := activeDailyCap m; records := records m; order := order m; dirty := dirty m |}.
