(* ===== verification/EgressInv.v ===== *)
(** The invariant of the reputation manager and the lemmas about each method:
    no method panics and every method keeps the manager well formed. *)

From Stdlib Require Import QArith.
From S2P Require Import Prelude GoStrings Float64 GoTime Engine Health Egress.
Local Open Scope Z_scope.

(** ** Well-formedness *)

Record circuit_wf (c : circuit) : Prop := {
  cwf_failures : 0 <= failures c;
  cwf_open : cb_state c <> cbClosed -> 0 < failures c;
}.

(** A record, relative to the length of the warm-up ramp. *)
Record rec_wf (stages : Z) (r : record) : Prop := {
  rwf_used : 0 <= usedToday r;
  rwf_stage : 0 <= warmupStage r;
  rwf_warming : state r = StateWarming -> warmupStage r < stages;
  rwf_streak : 0 <= blockStreak r;
  rwf_health : map_Forall (fun _ h => funit (score h)) (rhealth r);
  rwf_circuits : map_Forall (fun _ c => circuit_wf c) (circuits r);
}.

Record mgr_wf (m : Manager) : Prop := {
  mwf_alpha : funit (alpha m);
  mwf_cthreshold : 0 < circuitThreshold m;
  mwf_ccooldown : 0 < circuitCooldown m;
  mwf_qthreshold : 0 < quarantineThreshold m;
  mwf_qcooldown : 0 < quarantineCooldown m;
  mwf_stages : warmupStages m <> [];
  mwf_order : forall id, id ∈ order m <-> is_Some (records m !! id);
  mwf_ids : map_Forall (fun id r => Spec_ID (spec r) = id) (records m);
  mwf_records : map_Forall (fun _ r => rec_wf (len (warmupStages m)) r) (records m);
}.

#[export] Hint Constructors circuit_wf rec_wf : rcptto.
#[export] Hint Resolve mwf_alpha mwf_cthreshold mwf_ccooldown mwf_qthreshold mwf_qcooldown : rcptto.

(** ** Updating one record *)

Lemma mgr_wf_insert m id r r' d :
  mgr_wf m -> records m !! id = Some r -> Spec_ID (spec r') = id ->
  rec_wf (len (warmupStages m)) r' ->
  mgr_wf (set_dirty d (set_records (<[id := r']> (records m)) m)).
Proof.
  intros W Hr Hid Hr'. destruct W. constructor; simpl; try done.
  - intros id'. rewrite lookup_insert. case_decide; subst; [|done].
    rewrite mwf_order0, Hr. split; by eauto.
  - by apply map_Forall_insert_2.
  - by apply map_Forall_insert_2.
Qed.

Lemma set_dirty_same m : set_dirty (dirty m) m = m.
Proof. by destruct m. Qed.

Lemma mgr_wf_set_dirty m d : mgr_wf m -> mgr_wf (set_dirty d m).
Proof. intros []. by constructor. Qed.

Lemma mgr_wf_insert' m id r r' :
  mgr_wf m -> records m !! id = Some r -> Spec_ID (spec r') = id ->
  rec_wf (len (warmupStages m)) r' ->
  mgr_wf (set_records (<[id := r']> (records m)) m).
Proof.
  intros W Hr Hid Hr'. pose proof (mgr_wf_insert m id r r' (dirty m) W Hr Hid Hr') as H.
  by destruct m.
Qed.

Lemma mgr_wf_lookup m id r :
  mgr_wf m -> records m !! id = Some r -> rec_wf (len (warmupStages m)) r /\ Spec_ID (spec r) = id.
Proof.
  intros W Hr. split; [exact (mwf_records m W id r Hr)|exact (mwf_ids m W id r Hr)].
Qed.

Lemma mgr_wf_order m id : mgr_wf m -> id ∈ order m -> exists r, records m !! id = Some r.
Proof. intros W Hin. by apply (mwf_order m W id) in Hin. Qed.

Lemma stages_pos m : mgr_wf m -> 0 < len (warmupStages m).
Proof.
  intros W. pose proof (mwf_stages m W) as Hs. unfold len.
  destruct (warmupStages m); simpl; [done|lia].
Qed.

#[export] Hint Resolve stages_pos : rcptto.

(** ** Breakers *)

Lemma circuit_wf_zero : circuit_wf circuit_zero.
Proof. constructor; simpl; [lia|done]. Qed.

Lemma circuit_wf_allow now c : circuit_wf c -> circuit_wf (allow now c).2.
Proof.
  destruct c as [st f o]. intros [H1 H2]. simpl in *. unfold allow.
  destruct st; simpl; [by constructor| |by constructor].
  assert (0 < f) by (by apply H2). case_match; by constructor.
Qed.

Lemma circuit_wf_success c : circuit_wf c -> circuit_wf (onSuccess c).
Proof. intros [H1 H2]. constructor; simpl; [lia|done]. Qed.

Lemma circuit_wf_failure now th cd c : circuit_wf c -> circuit_wf (onFailure now th cd c).
Proof. intros [H1 H2]. unfold onFailure. case_match; constructor; simpl; intros; lia. Qed.

#[export] Hint Resolve circuit_wf_zero circuit_wf_allow circuit_wf_success circuit_wf_failure : rcptto.

(** ** Records *)

Lemma rec_wf_upd_health n dest f r :
  rec_wf n r -> (forall h, funit (score h) -> funit (score (f h))) -> rec_wf n (upd_health dest f r).
Proof.
  intros [] Hf. constructor; simpl; try done.
  apply map_Forall_insert_2; [|done]. apply Hf.
  destruct (rhealth r !! dest) as [h|] eqn:E; simpl; [by apply (rwf_health0 dest)|auto with rcptto].
Qed.

Lemma rec_wf_upd_circuit n dest f r :
  rec_wf n r -> (forall c, circuit_wf c -> circuit_wf (f c)) -> rec_wf n (upd_circuit dest f r).
Proof.
  intros [] Hf. constructor; simpl; try done.
  apply map_Forall_insert_2; [|done]. apply Hf.
  destruct (circuits r !! dest) as [c|] eqn:E; simpl; [by apply (rwf_circuits0 dest)|auto with rcptto].
Qed.

Lemma rec_wf_set_life n st stage streak until reason r :
  rec_wf n r -> 0 <= stage -> 0 <= streak -> (st = StateWarming -> stage < n) ->
  rec_wf n (set_life st stage streak until reason r).
Proof. intros [] **. by constructor. Qed.

Lemma rec_wf_set_usage n used reset r : rec_wf n r -> 0 <= used -> rec_wf n (set_usage used reset r).
Proof. intros [] ?. by constructor. Qed.

Lemma rec_wf_fresh n s t : 0 < n -> rec_wf n (fresh_record s t).
Proof.
  intros Hn. constructor; simpl; try done; try apply map_Forall_empty.
Qed.

#[export] Hint Resolve rec_wf_set_usage rec_wf_fresh rec_wf_upd_health rec_wf_upd_circuit : rcptto.

Lemma apply_signal_wf m now sig r :
  mgr_wf m -> rec_wf (len (warmupStages m)) r -> rec_wf (len (warmupStages m)) (apply_signal m now sig r).
Proof.
  intros W R. pose proof (mwf_alpha m W) as Ha.
  assert (Hstage : 0 <= warmupStage r) by apply R.
  assert (Hstreak : 0 <= blockStreak r) by apply R.
  assert (Hwarm : state r = StateWarming -> warmupStage r < len (warmupStages m)) by apply R.
  unfold apply_signal. destruct (Signal_Kind sig); try done;
    try (apply rec_wf_set_life; simpl; try lia; try done);
    eauto 6 with rcptto.
  case_match; apply rec_wf_set_life; simpl; try lia; try done; eauto 6 with rcptto.
Qed.

Lemma apply_signal_spec m now sig r : spec (apply_signal m now sig r) = spec r.
Proof. unfold apply_signal. destruct (Signal_Kind sig); try done. by case_match. Qed.

Lemma emit_one_wf now m sig : mgr_wf m -> mgr_wf (emit_one now m sig).
Proof.
  intros W. unfold emit_one. destruct (records m !! Signal_EgressID sig) as [r|] eqn:E; [|done].
  destruct (mgr_wf_lookup m _ r W E) as [R Hid].
  eapply mgr_wf_insert; eauto; [by rewrite apply_signal_spec|by apply apply_signal_wf].
Qed.

Lemma fold_left_inv {A B} (P : A -> Prop) (f : A -> B -> A) l a :
  (forall a b, P a -> P (f a b)) -> P a -> P (fold_left f l a).
Proof. intros Hf. revert a. induction l as [|b l IH]; simpl; auto. Qed.

Lemma Emit_wf sigs now m : mgr_wf m -> mgr_wf (Emit sigs now m).
Proof. apply fold_left_inv. intros. by apply emit_one_wf. Qed.

(** ** Administrative updates *)

Lemma update_record_wf id f m :
  mgr_wf m ->
  (forall r, rec_wf (len (warmupStages m)) r -> rec_wf (len (warmupStages m)) (f r)) ->
  (forall r, spec (f r) = spec r) ->
  mgr_wf (update_record id f m).
Proof.
  intros W Hf Hs. unfold update_record. destruct (records m !! id) as [r|] eqn:E; [|done].
  destruct (mgr_wf_lookup m id r W E) as [R Hid].
  eapply mgr_wf_insert; eauto. by rewrite Hs.
Qed.

Lemma Enable_wf id m : mgr_wf m -> mgr_wf (Enable id m).
Proof.
  intros W. apply update_record_wf; [done| |done]. intros r R.
  apply rec_wf_set_life; try lia; [done|]. intros _. by apply stages_pos.
Qed.

Lemma Disable_wf id reason m : mgr_wf m -> mgr_wf (Disable id reason m).
Proof.
  intros W. apply update_record_wf; [done| |done]. intros r R.
  destruct (R). by apply rec_wf_set_life.
Qed.

Lemma Quarantine_wf id reason now m : mgr_wf m -> mgr_wf (Quarantine id reason now m).
Proof.
  intros W. apply update_record_wf; [done| |done]. intros r R.
  destruct (R). by apply rec_wf_set_life.
Qed.

Lemma SetOnline_wf id b m : mgr_wf m -> mgr_wf (SetOnline id b m).
Proof.
  intros W. unfold SetOnline. destruct (records m !! id) as [r|] eqn:E; [|done].
  case_match; [done|]. destruct (mgr_wf_lookup m id r W E) as [[] Hid].
  eapply mgr_wf_insert'; eauto. by constructor.
Qed.

Lemma SetThresholds_wf q c m : mgr_wf m -> mgr_wf (SetThresholds q c m).
Proof.
  intros []. constructor; simpl; try done; case_match; rewrite ?Z.gtb_ltb in *; bool_to_prop; lia.
Qed.

Lemma seed_wf now m s : mgr_wf m -> mgr_wf (seed now m s).
Proof.
  intros W. pose proof (stages_pos m W) as Hn. destruct W. constructor; simpl; try done.
  - intros id. rewrite elem_of_app, list_elem_of_singleton, lookup_insert.
    case_decide; subst; [split; by eauto|]. rewrite mwf_order0. naive_solver.
  - by apply map_Forall_insert_2.
  - apply map_Forall_insert_2; auto with rcptto.
Qed.

Lemma AddIdentity_wf s now m : mgr_wf m -> mgr_wf (AddIdentity s now m).
Proof.
  intros W. unfold AddIdentity. destruct (records m !! Spec_ID s) as [r|] eqn:E.
  - destruct (mgr_wf_lookup m _ r W E) as [[] Hid]. eapply mgr_wf_insert'; eauto. by constructor.
  - by apply mgr_wf_set_dirty, seed_wf.
Qed.

(** ** Construction *)

(** A configured smoothing weight that is a float64 and not NaN. *)
Definition alpha_ok (a : float64) : Prop := match a with Fin q => rnd q = q | Inf _ => True | NaN => False end.

Lemma New_alpha_unit a :
  alpha_ok a -> funit (if fle a (f64 0) || flt (f64 1) a then defaultHealthAlpha else a).
Proof.
  intros Ha. change (f64 0) with (Fin 0). change (f64 1) with (Fin 1).
  destruct (fle a (Fin 0) || flt (Fin 1) a) eqn:E; [apply funit_f64; discriminate|].
  apply orb_false_iff in E as [E1 E2]. destruct a as [|[]|q]; simpl in Ha; try done.
  cbn [fle flt] in *. exists q. repeat split; [done| |].
  - destruct (Qlt_le_dec q 0) as [Hlt|?]; [|done].
    exfalso. apply Qlt_le_weak, Qle_bool_iff in Hlt. congruence.
  - unfold Qltb in E2. apply negb_false_iff in E2. by apply Qle_bool_iff.
Qed.

Lemma New_wf cfg start : alpha_ok (cfg_HealthAlpha cfg) -> mgr_wf (New cfg start).
Proof.
  intros Ha. unfold New. apply fold_left_inv; [intros; by apply seed_wf|].
  constructor; simpl.
  - by apply New_alpha_unit.
  - case_match; bool_to_prop; [reflexivity|lia].
  - case_match; bool_to_prop; [reflexivity|lia].
  - case_match; bool_to_prop; [reflexivity|lia].
  - case_match; bool_to_prop; [reflexivity|lia].
  - case_match; bool_to_prop; [discriminate|]. intros Hn. by rewrite Hn in *.
  - intros id. rewrite lookup_empty. split; [by intros ?%elem_of_nil|by intros []].
  - apply map_Forall_empty.
  - apply map_Forall_empty.
Qed.

(** ** The daily loop *)

Lemma daily_reset_lastReset m r : lastReset (daily_reset m r) = lastReset r + dailyResetInterval.
Proof. unfold daily_reset. simpl. by case_match. Qed.

Lemma daily_reset_spec m r : spec (daily_reset m r) = spec r.
Proof. unfold daily_reset. simpl. by case_match. Qed.

Lemma daily_reset_used m r : usedToday (daily_reset m r) = 0.
Proof. unfold daily_reset. simpl. by case_match. Qed.

Lemma daily_reset_wf m r :
  rec_wf (len (warmupStages m)) r -> rec_wf (len (warmupStages m)) (daily_reset m r).
Proof.
  intros R. destruct (R). unfold daily_reset. simpl.
  case_match; bool_to_prop; [|by apply rec_wf_set_usage].
  apply rec_wf_set_life; simpl; try lia; [by apply rec_wf_set_usage|].
  case_match; [done|]. rewrite Z.geb_leb in *. bool_to_prop. lia.
Qed.

Lemma daily_pos : 0 < dailyResetInterval.
Proof. done. Qed.

Lemma days_due_0 now r : now - lastReset r < dailyResetInterval -> days_due now r = 0%nat.
Proof.
  intros H. unfold days_due. destruct (Z.lt_ge_cases (now - lastReset r) 0).
  - apply Z2Nat.nonpos. apply Z.div_le_upper_bound; [done|lia].
  - by rewrite Z.div_small.
Qed.

(** The loop runs exactly once per elapsed day, whatever fuel is left. *)
Lemma daily_loop_iter m now fuel r :
  (days_due now r <= fuel)%nat ->
  daily_loop fuel m now r = Nat.iter (days_due now r) (daily_reset m) r.
Proof.
  revert r. induction fuel as [|fuel IH]; intros r Hle; simpl.
  - by replace (days_due now r) with 0%nat by lia.
  - rewrite Sub_ge by done. rewrite Z.geb_leb.
    destruct (Z.leb_spec dailyResetInterval (now - lastReset r)) as [Hd|Hd].
    + assert (Hs : days_due now r = S (days_due now (daily_reset m r))).
      { unfold days_due. rewrite daily_reset_lastReset.
        replace (now - lastReset r) with (now - (lastReset r + dailyResetInterval) + 1 * dailyResetInterval) at 1 by lia.
        rewrite Z.div_add by done. rewrite Z2Nat.inj_add, Nat.add_comm; [done| |lia].
        apply Z.div_pos; [lia|done]. }
      rewrite IH by lia. rewrite Hs. symmetry. apply Nat.iter_succ_r.
    + by rewrite days_due_0.
Qed.

Lemma iter_reset_lastReset m n r :
  lastReset (Nat.iter n (daily_reset m) r) = lastReset r + Z.of_nat n * dailyResetInterval.
Proof.
  induction n as [|n IH]; [simpl; lia|].
  rewrite Nat.iter_succ, daily_reset_lastReset, IH. lia.
Qed.

(** At the end less than a day has passed since the last reset. *)
Lemma reconcile_record_window m now r :
  now - lastReset (reconcile_record m now r) < dailyResetInterval.
Proof.
  unfold reconcile_record. rewrite daily_loop_iter by done.
  rewrite iter_reset_lastReset. unfold days_due. set (x := now - lastReset (expire_quarantine now r)).
  pose proof (Z.mod_pos_bound x dailyResetInterval eq_refl).
  pose proof (Z.div_mod x dailyResetInterval ltac:(done)).
  destruct (Z.lt_ge_cases x 0).
  - rewrite Z2Nat.nonpos by (apply Z.div_le_upper_bound; [done|lia]). unfold x in *. simpl. lia.
  - rewrite Z2Nat.id by (by apply Z.div_pos). unfold x in *. lia.
Qed.

Lemma iter_inv {A} (P : A -> Prop) (f : A -> A) n a :
  (forall a, P a -> P (f a)) -> P a -> P (Nat.iter n f a).
Proof. intros Hf Ha. induction n; simpl; auto. Qed.

Lemma expire_wf n now r : 0 < n -> rec_wf n r -> rec_wf n (expire_quarantine now r).
Proof.
  intros Hn R. unfold expire_quarantine. case_match; [|done].
  apply rec_wf_set_life; try lia; done.
Qed.

Lemma reconcile_record_wf m now r :
  mgr_wf m -> rec_wf (len (warmupStages m)) r -> rec_wf (len (warmupStages m)) (reconcile_record m now r).
Proof.
  intros W R. unfold reconcile_record. rewrite daily_loop_iter by done.
  apply iter_inv; [intros; by apply daily_reset_wf|]. apply expire_wf; [by apply stages_pos|done].
Qed.

Lemma reconcile_record_spec m now r : spec (reconcile_record m now r) = spec r.
Proof.
  unfold reconcile_record. rewrite daily_loop_iter by done.
  apply (iter_inv (fun r' => spec r' = spec r)).
  - intros r' <-. apply daily_reset_spec.
  - unfold expire_quarantine. by case_match.
Qed.

(** Quarantine survives the daily resets. *)
Lemma iter_reset_state m n r :
  state r <> StateWarming -> state (Nat.iter n (daily_reset m) r) = state r.
Proof.
  intros Hw. apply (iter_inv (fun r' => state r' = state r)); [|done].
  intros r' Hr'. unfold daily_reset. simpl. rewrite bool_decide_eq_false_2 by congruence. done.
Qed.

Lemma expire_idemp_after now r r' :
  state r' = StateQuarantined -> quarantinedUntil r' = quarantinedUntil r ->
  state r' = state (expire_quarantine now r) -> expire_quarantine now r' = r'.
Proof.
  intros Hs Hu He. unfold expire_quarantine in *.
  rewrite Hs, bool_decide_eq_true_2 by done. rewrite Hu. simpl.
  destruct (After now (quarantinedUntil r)) eqn:E; [|done].
  exfalso. rewrite Hs in He. symmetry in He.
  case_match; simpl in He; [done|]. rewrite He, bool_decide_eq_true_2 in H; done.
Qed.

Lemma daily_reset_until m r : quarantinedUntil (daily_reset m r) = quarantinedUntil r.
Proof. unfold daily_reset. simpl. by case_match. Qed.

Lemma reconcile_record_until m now r :
  quarantinedUntil (reconcile_record m now r) = quarantinedUntil r.
Proof.
  unfold reconcile_record. rewrite daily_loop_iter by done.
  apply (iter_inv (fun r' => quarantinedUntil r' = quarantinedUntil r)).
  - intros r' <-. apply daily_reset_until.
  - unfold expire_quarantine. by case_match.
Qed.

Lemma iter_reset_quarantined m n r :
  state (Nat.iter n (daily_reset m) r) = StateQuarantined -> state r = StateQuarantined.
Proof.
  induction n as [|n IH]; [done|]. rewrite Nat.iter_succ. intros H. apply IH.
  revert H. set (r' := Nat.iter n (daily_reset m) r). unfold daily_reset. simpl.
  case_match; [|done]. simpl. by case_match.
Qed.

(** A second reconciliation at the same instant changes nothing. *)
Lemma reconcile_record_idemp m now r :
  reconcile_record m now (reconcile_record m now r) = reconcile_record m now r.
Proof.
  pose proof (reconcile_record_window m now r) as Hw.
  pose proof (reconcile_record_until m now r) as Hu.
  set (r' := reconcile_record m now r) in *.
  assert (He : expire_quarantine now r' = r').
  { destruct (decide (state r' = StateQuarantined)) as [Hs|Hs].
    - apply expire_idemp_after with r; [done|done|]. rewrite Hs. symmetry.
      unfold r', reconcile_record in Hs. rewrite daily_loop_iter in Hs by done.
      by eapply iter_reset_quarantined.
    - unfold expire_quarantine. by rewrite bool_decide_eq_false_2. }
  unfold reconcile_record. rewrite He, daily_loop_iter by done.
  by rewrite days_due_0.
Qed.

(** ** Reconciliation of the pool *)

Lemma reconcile_loop_spec m now ids recs :
  (forall id, id ∈ ids -> is_Some (recs !! id)) ->
  exists recs', reconcile_loop m now ids recs = Some recs' /\
    forall id, recs' !! id = (if decide (id ∈ ids) then reconcile_record m now <$> recs !! id else recs !! id).
Proof.
  revert recs. induction ids as [|i ids IH]; intros recs Hin; simpl.
  - exists recs. split; [done|]. done.
  - destruct (Hin i) as [r Hr]; [by left|]. rewrite Hr. simpl.
    destruct (IH (<[i := reconcile_record m now r]> recs)) as (recs' & -> & Hrecs').
    { intros id Hid. rewrite lookup_insert. case_decide; [by eauto|]. apply Hin. by right. }
    exists recs'. split; [done|]. intros id. rewrite Hrecs', lookup_insert.
    destruct (decide (i = id)) as [<-|Hne].
    + destruct (decide (i ∈ i :: ids)) as [_|Hn]; [|by destruct Hn; left].
      rewrite Hr. simpl. case_decide; [by rewrite reconcile_record_idemp|done].
    + destruct (decide (id ∈ ids)) as [Hi|Hi]; destruct (decide (id ∈ i :: ids)) as [Hj|Hj]; try done.
      * by destruct Hj; right.
      * apply elem_of_cons in Hj as [->|?]; done.
Qed.

Lemma reconcileLocked_spec m now :
  mgr_wf m ->
  exists m', reconcileLocked m now = Some m' /\ mgr_wf m' /\
    m' = set_records (reconcile_record m now <$> records m) m.
Proof.
  intros W. unfold reconcileLocked.
  destruct (reconcile_loop_spec m now (order m) (records m)) as (recs' & -> & Hr).
  { intros id Hid. by apply (mwf_order m W). }
  simpl. assert (He : recs' = reconcile_record m now <$> records m).
  { apply map_eq. intros id. rewrite Hr, lookup_fmap. case_decide as Hid; [done|].
    rewrite (mwf_order m W) in Hid. destruct (records m !! id) as [r|] eqn:E; [|done].
    exfalso. by apply Hid. }
  subst recs'. eexists. split; [done|]. split; [|done].
  pose proof (fun id r => mgr_wf_lookup m id r W) as Hl. destruct W. constructor; simpl; try done.
  - intros id. rewrite lookup_fmap, fmap_is_Some. apply mwf_order0.
  - intros id r'. rewrite lookup_fmap. intros (r & Hid & ->)%fmap_Some.
    rewrite reconcile_record_spec. by apply Hl.
  - intros id r'. rewrite lookup_fmap. intros (r & Hid & ->)%fmap_Some.
    apply reconcile_record_wf; [by constructor|by apply (Hl id)].
Qed.
