(* ===== verification/EgressSel.v ===== *)
(** Selection of an identity: what [eligibleLocked], [selectLocked] and
    [Binding] compute, and that they never panic on a well-formed manager. *)

From Stdlib Require Import QArith.
From S2P Require Import Prelude GoStrings Float64 GoTime Engine Health Egress EgressInv.
Local Open Scope Z_scope.

(** ** Specification of eligibility *)

Definition under_cap (m : Manager) (r : record) : bool :=
  match capFor m r with
  | Some limit => negb ((limit >? 0) && (usedToday r >=? limit))
  | None => false
  end.

Definition circuit_admits (now : Time) (dest : string) (r : record) : bool :=
  match circuits r !! dest with Some c => (allow now c).1 | None => true end.

(** An identity may probe [dest] at [now]. *)
Definition eligible (m : Manager) (r : record) (dest : string) (now : Time) : bool :=
  negb (bool_decide (state r = StateDisabled)) && negb (bool_decide (state r = StateQuarantined))
  && online r && circuit_admits now dest r && under_cap m r.

(** [rank] orders candidates the way the loop compares them: first the score,
    then the smaller usage. *)
Definition rank_lt (s1 : Q) (u1 : Z) (s2 : Q) (u2 : Z) : Prop :=
  (s1 < s2)%Q \/ (s1 == s2)%Q /\ u2 < u1.

(** A record as [eligibleLocked] leaves it: at most the breaker of the
    destination has moved to half-open. *)
Definition touched (now : Time) (dest : string) (r r' : record) : Prop :=
  r' = r \/
  exists c, circuits r !! dest = Some c /\
    r' = set_feedback (rhealth r) (<[dest := (allow now c).2]> (circuits r)) r.

Lemma allow_idemp now c : allow now (allow now c).2 = ((allow now c).1, (allow now c).2).
Proof.
  unfold allow. destruct c as [st f o]; simpl. destruct st; simpl; try done.
  destruct (After now o) eqn:E; simpl; [done|]. by rewrite E.
Qed.

Lemma touched_trans now dest r1 r2 r3 :
  touched now dest r1 r2 -> touched now dest r2 r3 -> touched now dest r1 r3.
Proof.
  intros [->|(c & Hc & ->)] [->|(c' & Hc' & ->)]; try (left; done); try (right; by eauto).
  right. exists c. split; [done|]. simpl in Hc'. rewrite lookup_insert_eq in Hc'. inv Hc'.
  unfold set_feedback. simpl. by rewrite allow_idemp, insert_insert_eq.
Qed.

Lemma touched_fields now dest r r' :
  touched now dest r r' ->
  spec r' = spec r /\ state r' = state r /\ warmupStage r' = warmupStage r /\
  usedToday r' = usedToday r /\ lastReset r' = lastReset r /\ online r' = online r /\
  blockStreak r' = blockStreak r /\ quarantinedUntil r' = quarantinedUntil r /\
  quarantineReason r' = quarantineReason r /\ rhealth r' = rhealth r.
Proof. by intros [->|(c & _ & ->)]. Qed.

Lemma touched_wf n now dest r r' : rec_wf n r -> touched now dest r r' -> rec_wf n r'.
Proof.
  intros R [->|(c & Hc & ->)]; [done|]. pose proof (rwf_circuits n r R) as Hcs.
  destruct R. constructor; simpl; try done.
  apply map_Forall_insert_2; [|done]. apply circuit_wf_allow. by apply (Hcs dest).
Qed.

Lemma touched_eligible m now dest r r' :
  touched now dest r r' -> eligible m r' dest now = eligible m r dest now.
Proof.
  intros [->|(c & Hc & ->)]; [done|].
  unfold eligible, circuit_admits, under_cap, capFor. simpl.
  by rewrite lookup_insert_eq, allow_idemp, Hc.
Qed.

Lemma touched_score now dest r r' d : touched now dest r r' -> rec_score r' d = rec_score r d.
Proof. by intros [->|(c & _ & ->)]. Qed.

(** ** Eligibility *)

Lemma capFor_total m r :
  mgr_wf m -> rec_wf (len (warmupStages m)) r -> exists limit, capFor m r = Some limit.
Proof.
  intros W R. pose proof (stages_pos m W) as Hn. destruct R. unfold capFor.
  case_match eqn:Es; [|by eauto]. set (n := len (warmupStages m)) in *.
  set (st := if warmupStage r >=? n then n - 1 else warmupStage r).
  assert (Hst : 0 <= st < n) by (unfold st; rewrite Z.geb_leb; case_match; bool_to_prop; lia).
  rewrite (proj2 (Z.ltb_ge _ _)) by lia.
  apply lookup_lt_is_Some_2. unfold n, len in Hst. lia.
Qed.

Lemma eligibleLocked_spec m r dest now :
  mgr_wf m -> rec_wf (len (warmupStages m)) r ->
  exists r', eligibleLocked m r dest now = Some (eligible m r dest now, r') /\ touched now dest r r'.
Proof.
  intros W R. destruct (capFor_total m r W R) as [limit Hl].
  unfold eligibleLocked, eligible, circuit_admits, under_cap.
  destruct (bool_decide (state r = StateDisabled)); simpl; [by exists r; split; [|left]|].
  destruct (bool_decide (state r = StateQuarantined)); simpl; [by exists r; split; [|left]|].
  destruct (online r); simpl; [|by exists r; split; [|left]].
  destruct (circuits r !! dest) as [c|] eqn:Hc; simpl.
  - set (r' := set_feedback (rhealth r) (<[dest := (allow now c).2]> (circuits r)) r).
    assert (Ht : touched now dest r r') by (right; by eauto).
    assert (Hl' : capFor m r' = Some limit) by done.
    exists r'. split; [|done]. destruct (allow now c) as [ok c'] eqn:Ha; simpl in *. fold r'.
    destruct ok; simpl; [|done]. rewrite Hl', Hl. simpl. by case_match.
  - exists r. split; [|by left]. rewrite Hl. simpl. by case_match.
Qed.

(** ** The loop keeps a best candidate *)

Lemma rec_score_unit n r dest : rec_wf n r -> funit (rec_score r dest).
Proof.
  intros R. unfold rec_score. destruct (rhealth r !! dest) as [h|] eqn:E.
  - by apply (rwf_health n r R dest).
  - apply funit_f64; discriminate.
Qed.

Lemma better_spec s u id s' u' :
  better (Fin s) u (@Some candidate (id, Fin s', u')) = true <-> rank_lt s' u' s u.
Proof.
  unfold better, rank_lt, feq, flt, fle, Qltb.
  rewrite orb_true_iff, !andb_true_iff, negb_true_iff, Z.ltb_lt, !Qle_bool_iff. split.
  - intros [H|[[H1 H2] H3]].
    + left. apply Qnot_le_lt. intros Hc. apply Qle_bool_iff in Hc. congruence.
    + right. split; [by apply Qle_antisym|done].
  - intros [H|[H1 H2]].
    + left. destruct (Qle_bool s s') eqn:E; [|done]. apply Qle_bool_iff in E.
      exfalso. eapply Qlt_not_le; eauto.
    + right. rewrite H1. repeat split; auto using Qle_refl.
Qed.

Lemma rank_trans_not a ua b ub c uc :
  rank_lt b ub c uc -> ~ rank_lt b ub a ua -> ~ rank_lt c uc a ua.
Proof.
  unfold rank_lt. intros Hbc Hba Hca. apply Hba.
  destruct Hbc as [H1|[H1 H1']]; destruct Hca as [H2|[H2 H2']].
  - left. eapply Qlt_trans; eauto.
  - left. by rewrite <- H2.
  - left. by rewrite H1.
  - right. split; [by rewrite H1|lia].
Qed.

(** [best] is a candidate of [recs] and no member of [ids] outranks it. *)
Definition is_best (m : Manager) (dest : string) (now : Time) (recs : gmap string record)
    (ids : list string) (best : option candidate) : Prop :=
  match best with
  | None => forall id r, id ∈ ids -> recs !! id = Some r -> eligible m r dest now = false
  | Some (i, sc, u) =>
      i ∈ ids /\
      (exists r s, recs !! i = Some r /\ eligible m r dest now = true /\
                   rec_score r dest = sc /\ sc = Fin s /\ usedToday r = u /\
         forall id r' s', id ∈ ids -> recs !! id = Some r' -> eligible m r' dest now = true ->
           rec_score r' dest = Fin s' -> ~ rank_lt s u s' (usedToday r'))
  end.

Lemma is_best_step m dest now recs done_ids id r best :
  rec_wf (len (warmupStages m)) r -> recs !! id = Some r ->
  is_best m dest now recs done_ids best ->
  is_best m dest now recs (done_ids ++ [id])
    (if negb (eligible m r dest now) then best
     else if better (rec_score r dest) (usedToday r) best
          then Some (id, rec_score r dest, usedToday r) else best).
Proof.
  intros R Hr Hb. destruct (rec_score_unit _ r dest R) as (s & Hs & _).
  assert (Hin : forall i, i ∈ done_ids ++ [id] <-> i ∈ done_ids \/ i = id).
  { intros i. by rewrite elem_of_app, list_elem_of_singleton. }
  destruct (eligible m r dest now) eqn:He; cbn [negb].
  - destruct best as [[[i sc] u]|].
    + destruct Hb as (Hi & r0 & s0 & Hr0 & He0 & Hsc & -> & Hu & Hmax).
      rewrite Hs. case_match eqn:Hbt.
      * apply better_spec in Hbt. cbn [is_best]. split; [by apply Hin; right|].
        exists r, s. repeat split; try done. intros i' r' s' Hi' Hr' He' Hs'.
        apply Hin in Hi' as [Hi'| ->]; [by eapply rank_trans_not; eauto|].
        rewrite Hr in Hr'. inv Hr'. rewrite Hs in Hs'. inv Hs'.
        intros [H|[_ H]]; [by apply (Qlt_irrefl s')|lia].
      * cbn [is_best]. split; [by apply Hin; left|]. exists r0, s0. repeat split; try done.
        intros i' r' s' Hi' Hr' He' Hs'. apply Hin in Hi' as [Hi'| ->]; [by eapply Hmax|].
        rewrite Hr in Hr'. inv Hr'. rewrite Hs in Hs'. inv Hs'.
        intros H. apply (better_spec s' _ i) in H. congruence.
    + cbn [better is_best]. split; [by apply Hin; right|]. exists r, s. repeat split; try done.
      intros i' r' s' Hi' Hr' He' Hs'. apply Hin in Hi' as [Hi'| ->].
      * rewrite (Hb i' r' Hi' Hr') in He'. done.
      * rewrite Hr in Hr'. inv Hr'. rewrite Hs in Hs'. inv Hs'.
        intros [H|[_ H]]; [by apply (Qlt_irrefl s')|lia].
  - destruct best as [[[i sc] u]|]; simpl in *.
    + destruct Hb as (Hi & r0 & s0 & Hr0 & He0 & Hsc & Hs0 & Hu & Hmax).
      split; [by apply Hin; left|]. exists r0, s0. repeat split; try done.
      intros i' r' s' Hi' Hr' He' Hs'. apply Hin in Hi' as [Hi'| ->]; [by eapply Hmax|].
      rewrite Hr in Hr'. inv Hr'. congruence.
    + intros i r' Hi Hr'. apply Hin in Hi as [Hi| ->]; [by eapply Hb|].
      rewrite Hr in Hr'. by inv Hr'.
Qed.

(** Two pools that differ by breakers moved to half-open have the same best. *)
Definition pool_touched (now : Time) (dest : string) (recs recs' : gmap string record) : Prop :=
  forall id, option_Forall2 (touched now dest) (recs !! id) (recs' !! id).

Lemma pool_touched_refl now dest recs : pool_touched now dest recs recs.
Proof. intros id. destruct (recs !! id); constructor. by left. Qed.

Lemma pool_touched_insert now dest recs recs' id r r' :
  pool_touched now dest recs recs' -> recs' !! id = Some r -> touched now dest r r' ->
  pool_touched now dest recs (<[id := r']> recs').
Proof.
  intros Hp Hr Ht i. rewrite lookup_insert. case_decide as Hi; [subst i|apply Hp].
  specialize (Hp id). rewrite Hr in Hp. inv Hp. constructor. by eapply touched_trans.
Qed.

Lemma select_loop_spec m dest now ids done_ids recs0 recs best :
  mgr_wf m ->
  map_Forall (fun _ r => rec_wf (len (warmupStages m)) r) recs0 ->
  (forall id, id ∈ ids -> is_Some (recs0 !! id)) ->
  pool_touched now dest recs0 recs ->
  is_best m dest now recs0 done_ids best ->
  exists recs' best', select_loop m dest now ids recs best = Some (recs', best') /\
    pool_touched now dest recs0 recs' /\ is_best m dest now recs0 (done_ids ++ ids) best'.
Proof.
  intros W Hwf. revert done_ids recs best.
  induction ids as [|id ids IH]; intros done_ids recs best Hin Hp Hb; simpl.
  - exists recs, best. by rewrite app_nil_r.
  - destruct (Hin id) as [r0 Hr0]; [by left|].
    pose proof (Hp id) as Hpi. rewrite Hr0 in Hpi.
    destruct (recs !! id) as [r|] eqn:Hr; [|inv Hpi].
    assert (Ht : touched now dest r0 r) by (by inv Hpi). pose proof (Hwf id r0 Hr0) as R0.
    assert (R : rec_wf (len (warmupStages m)) r) by (eapply touched_wf; eauto).
    destruct (eligibleLocked_spec m r dest now W R) as (r' & He & Ht').
    simpl. rewrite He. simpl.
    pose proof (is_best_step m dest now recs0 done_ids id r0 best R0 Hr0 Hb) as Hb'.
    rewrite (touched_eligible m now dest r0 r Ht).
    assert (Hp' : pool_touched now dest recs0 (<[id := r']> recs))
      by (eapply pool_touched_insert; eauto).
    rewrite (touched_score now dest r r' dest Ht'), (touched_score now dest r0 r dest Ht).
    assert (Hu : usedToday r' = usedToday r0).
    { destruct (touched_fields _ _ _ _ Ht) as (_ & _ & _ & <- & _).
      by destruct (touched_fields _ _ _ _ Ht') as (_ & _ & _ & <- & _). }
    rewrite Hu.
    assert (Hin' : forall i, i ∈ ids -> is_Some (recs0 !! i)) by (intros; apply Hin; by right).
    destruct (negb (eligible m r0 dest now)) eqn:En;
      destruct (IH (done_ids ++ [id])%list (<[id := r']> recs) _ Hin' Hp' Hb') as (recs' & best' & Hs & Hp'' & Hb'');
      exists recs', best'; rewrite <- app_assoc in Hb''; by split.
Qed.

Lemma pool_touched_wf m dest now recs' :
  mgr_wf m -> pool_touched now dest (records m) recs' -> mgr_wf (set_records recs' m).
Proof.
  intros W Hp.
  assert (Hl : forall id r', recs' !! id = Some r' -> exists r, records m !! id = Some r /\ touched now dest r r').
  { intros id r' Hr'. specialize (Hp id). rewrite Hr' in Hp. inv Hp. by eauto. }
  pose proof (mwf_order m W) as Ho. pose proof (mwf_ids m W) as Hi.
  pose proof (mwf_records m W) as Hrs. destruct W. constructor; simpl; try done.
  - intros id. rewrite Ho. specialize (Hp id). inv Hp; split; by intros []; eauto.
  - intros id r' Hr'. destruct (Hl id r' Hr') as (r & Hr & Ht).
    destruct (touched_fields _ _ _ _ Ht) as (-> & _). by apply (Hi id).
  - intros id r' Hr'. destruct (Hl id r' Hr') as (r & Hr & Ht).
    eapply touched_wf; [by apply (Hrs id)|done].
Qed.

Lemma selectLocked_spec m dest now :
  mgr_wf m ->
  exists recs' best, selectLocked m dest now = Some (set_records recs' m, best) /\
    pool_touched now dest (records m) recs' /\ is_best m dest now (records m) (order m) best.
Proof.
  intros W. unfold selectLocked.
  destruct (select_loop_spec m dest now (order m) [] (records m) (records m) None)
    as (recs' & best & -> & Hp & Hb); try done.
  - apply W.
  - intros id. apply (mwf_order m W).
  - apply pool_touched_refl.
  - by intros id r ?%elem_of_nil.
  - simpl. by exists recs', best.
Qed.

(** ** [Binding] *)

(** The pool [Binding] selects from: every record reconciled at [now]. *)
Definition reconciled (m : Manager) (now : Time) : gmap string record :=
  reconcile_record m now <$> records m.

(** The two outcomes of [Binding] on a well-formed manager. *)
Lemma Binding_spec m t now :
  mgr_wf m ->
  exists res m', Binding m t now = Some (res, m') /\ mgr_wf m' /\
  exists recs best,
    pool_touched now (destOf t) (reconciled m now) recs /\
    is_best m (destOf t) now (reconciled m now) (order m) best /\
    match best with
    | None => res = Err ErrNoEgress /\ m' = set_records recs m
    | Some (id, _, _) =>
        exists r, recs !! id = Some r /\ Spec_ID (spec r) = id /\ res = Ok (binding_of r) /\
          m' = set_dirty true
                 (set_records (<[id := set_usage (usedToday r + 1) (lastReset r) r]> recs) m)
    end.
Proof.
  intros W. unfold Binding.
  destruct (reconcileLocked_spec m now W) as (m1 & -> & W1 & Hm1). simpl.
  destruct (selectLocked_spec m1 (destOf t) now W1) as (recs & best & -> & Hp & Hb). simpl.
  assert (Wp : mgr_wf (set_records recs m1)) by (by eapply pool_touched_wf).
  assert (Hrec : records m1 = reconciled m now) by (by subst m1).
  rewrite Hrec in Hp, Hb.
  assert (Hb' : is_best m (destOf t) now (reconciled m now) (order m) best) by (by subst m1).
  destruct best as [[[id sc] u]|]; simpl.
  - destruct Hb as (Hid & r0 & s & Hr0 & _). pose proof (Hp id) as Hpi. rewrite Hr0 in Hpi.
    destruct (recs !! id) as [r|] eqn:Hr; [|inv Hpi]. simpl.
    destruct (mgr_wf_lookup _ id r Wp Hr) as [R HID].
    eexists _, _. split; [done|]. split.
    + eapply (mgr_wf_insert (set_records recs m1) id r); try done.
      apply rec_wf_set_usage; [done|]. destruct R. lia.
    + exists recs, (Some (id, sc, u)). split; [done|]. split; [done|].
      exists r. repeat split; try done. by subst m1.
  - eexists _, _. split; [done|]. split; [done|].
    exists recs, None. split; [done|]. split; [done|]. split; [done|]. by subst m1.
Qed.
