(* ===== verification/EgressOps.v ===== *)
(** Sequences of manager operations: the methods as one step type, runs of
    them, and the lemmas on what a run keeps. *)

From Stdlib Require Import QArith.
From S2P Require Import Prelude GoStrings Float64 GoTime Engine Health Egress EgressInv EgressSel.
Local Open Scope Z_scope.

(** A call of one of the manager's methods.  [OpSaved] is the end of a
    successful [Persist], which clears the dirty flag. *)
Inductive op : Type :=
| OpBinding (t : Task)
| OpEmit (sigs : list Signal)
| OpEnable (id : string)
| OpDisable (id reason : string)
| OpQuarantine (id reason : string)
| OpAudit (check : string -> list string)
| OpRestore (states : list EgressState)
| OpSetOnline (id : string) (b : bool)
| OpAddIdentity (s : Spec)
| OpSetThresholds (q c : Z)
| OpSaved.

Definition apply_op (now : Time) (o : op) (m : Manager) : option Manager :=
  match o with
  | OpBinding t => snd <$> Binding m t now
  | OpEmit sigs => Some (Emit sigs now m)
  | OpEnable id => Some (Enable id m)
  | OpDisable id reason => Some (Disable id reason m)
  | OpQuarantine id reason => Some (Quarantine id reason now m)
  | OpAudit check => AuditDNSBL check now m
  | OpRestore states => Some (Restore states m)
  | OpSetOnline id b => Some (SetOnline id b m)
  | OpAddIdentity s => Some (AddIdentity s now m)
  | OpSetThresholds q c => Some (SetThresholds q c m)
  | OpSaved => Some (set_dirty false m)
  end.

(** A run: the calls in the order the lock admits them. *)
Fixpoint run_ops (tr : list (Time * op)) (m : Manager) : option Manager :=
  match tr with
  | [] => Some m
  | (now, o) :: tr => m ← apply_op now o m; run_ops tr m
  end.

(** Persisted states that a manager with a ramp of [n] stages may have written. *)
Definition saved_wf (n : Z) (st : EgressState) : Prop :=
  0 <= es_WarmupStage st /\ 0 <= es_UsedToday st /\ 0 <= es_BlockStreak st /\
  (State_of (es_State st) = StateWarming -> es_WarmupStage st < n) /\
  map_Forall (fun _ s => funit s) (es_Health st).

Definition op_wf (n : Z) (o : op) : Prop :=
  match o with OpRestore states => Forall (saved_wf n) states | _ => True end.

(** ** Totality of the snapshots *)

Lemma mapM_order {A} (f : string -> record -> A) m :
  mgr_wf m ->
  exists l, mapM (fun id => f id <$> records m !! id) (order m) = Some l /\
    Forall2 (fun id x => exists r, records m !! id = Some r /\ x = f id r) (order m) l.
Proof.
  intros W. assert (Ho : forall id, id ∈ order m -> is_Some (records m !! id))
    by (intros id; apply (mwf_order m W)).
  induction (order m) as [|id ids IH]; simpl.
  - exists []. by split.
  - destruct (Ho id) as [r Hr]; [by left|].
    destruct IH as (l & Hl & HF); [intros; apply Ho; by right|].
    rewrite Hr. simpl. rewrite Hl. simpl. eexists. split; [done|].
    constructor; [by eauto|done].
Qed.

Lemma Snapshot_total m :
  mgr_wf m ->
  exists l, Snapshot m = Some l /\
    Forall2 (fun id x => exists r, records m !! id = Some r /\ x = snapshot_record id r) (order m) l.
Proof. intros W. by apply mapM_order. Qed.

(** ** Every operation is total and keeps the invariant *)

Lemma restore_record_wf n st r : saved_wf n st -> rec_wf n r -> rec_wf n (restore_record st r).
Proof.
  intros (H1 & H2 & H3 & H4 & H5) R. pose proof (rwf_health n r R) as Hh. destruct R.
  constructor; simpl; try done.
  apply map_Forall_union_2; [|done]. intros d h Hd.
  rewrite lookup_fmap in Hd. apply fmap_Some in Hd as (s & Hs & ->). by apply (H5 d).
Qed.

Lemma restore_one_wf m st :
  saved_wf (len (warmupStages m)) st -> mgr_wf m -> mgr_wf (restore_one m st).
Proof.
  intros Hst W. unfold restore_one. destruct (records m !! es_ID st) as [r|] eqn:E; [|done].
  destruct (mgr_wf_lookup m _ r W E) as [R HID]. eapply mgr_wf_insert'; eauto.
  by apply restore_record_wf.
Qed.

Lemma restore_one_stages m st : warmupStages (restore_one m st) = warmupStages m.
Proof. unfold restore_one. by case_match. Qed.

Lemma Restore_wf states m :
  Forall (saved_wf (len (warmupStages m))) states -> mgr_wf m -> mgr_wf (Restore states m).
Proof.
  intros Hs W. apply mgr_wf_set_dirty. revert m Hs W.
  induction states as [|st states IH]; intros m Hs W; simpl; [done|]. inv Hs.
  apply IH; [by rewrite restore_one_stages|by apply restore_one_wf].
Qed.

Lemma AuditDNSBL_total check now m :
  mgr_wf m -> exists items, audit_items m = Some items /\
    AuditDNSBL check now m = Some (fold_left (audit_one check now) items m).
Proof.
  intros W. unfold AuditDNSBL, audit_items.
  destruct (mapM_order (fun id r => (id, Spec_IP (spec r), bool_decide (state r = StateDisabled))) m W)
    as (l & Hl & _).
  exists l. assert (He : mapM (fun id => r ← records m !! id;
     Some (id, Spec_IP (spec r), bool_decide (state r = StateDisabled))) (order m) = Some l).
  { rewrite <- Hl. apply mapM_ext. intros id. by destruct (records m !! id). }
  by rewrite He.
Qed.

Lemma audit_one_wf check now m it : mgr_wf m -> mgr_wf (audit_one check now m it).
Proof.
  intros W. destruct it as [[id ip] d]. unfold audit_one.
  case_match; [done|]. case_match; [done|]. by apply Quarantine_wf.
Qed.

Lemma update_record_stages id f m : warmupStages (update_record id f m) = warmupStages m.
Proof. unfold update_record. by case_match. Qed.

Lemma emit_one_stages now m s : warmupStages (emit_one now m s) = warmupStages m.
Proof. unfold emit_one. by case_match. Qed.

Lemma apply_op_wf now o m :
  mgr_wf m -> op_wf (len (warmupStages m)) o ->
  exists m', apply_op now o m = Some m' /\ mgr_wf m' /\ warmupStages m' = warmupStages m.
Proof.
  intros W Ho. destruct o; simpl in *.
  - destruct (Binding_spec m t now W) as (res & m' & -> & W' & recs & best & _ & _ & Hm).
    exists m'. split; [done|]. split; [done|].
    destruct best as [[[id sc] u]|]; [destruct Hm as (r & _ & _ & _ & ->)|destruct Hm as [_ ->]]; done.
  - eexists. split; [done|]. split; [by apply Emit_wf|].
    apply (fold_left_inv (fun m' => warmupStages m' = warmupStages m)); [|done].
    intros m' s <-. apply emit_one_stages.
  - eexists. split; [done|]. split; [by apply Enable_wf|apply update_record_stages].
  - eexists. split; [done|]. split; [by apply Disable_wf|apply update_record_stages].
  - eexists. split; [done|]. split; [by apply Quarantine_wf|apply update_record_stages].
  - destruct (AuditDNSBL_total check now m W) as (items & _ & ->). eexists. split; [done|].
    apply (fold_left_inv (fun m' => mgr_wf m' /\ warmupStages m' = warmupStages m)); [|done].
    intros m' it [W' <-]. split; [by apply audit_one_wf|].
    destruct it as [[id ip] d]. unfold audit_one.
    case_match; [done|]. case_match; [done|apply update_record_stages].
  - eexists. split; [done|]. split; [by apply Restore_wf|].
    simpl. apply (fold_left_inv (fun m' => warmupStages m' = warmupStages m)); [|done].
    intros m' s <-. apply restore_one_stages.
  - eexists. split; [done|]. split; [by apply SetOnline_wf|].
    unfold SetOnline. by repeat case_match.
  - eexists. split; [done|]. split; [by apply AddIdentity_wf|].
    unfold AddIdentity. by case_match.
  - eexists. split; [done|]. split; [by apply SetThresholds_wf|done].
  - eexists. split; [done|]. split; [by apply mgr_wf_set_dirty|done].
Qed.

Lemma run_ops_wf tr m :
  mgr_wf m -> Forall (fun to => op_wf (len (warmupStages m)) to.2) tr ->
  exists m', run_ops tr m = Some m' /\ mgr_wf m'.
Proof.
  revert m. induction tr as [|[now o] tr IH]; intros m W Hops; simpl; [by eauto|].
  inv Hops. destruct (apply_op_wf now o m) as (m' & -> & W' & Hs); [done|done|].
  simpl. apply IH; [done|]. by rewrite Hs.
Qed.

(** ** Withdrawn identities stay withdrawn *)

(** Withdrawn until [d]: disabled, or quarantined with a deadline not before [d]. *)
Definition held (d : Time) (r : record) : Prop :=
  state r = StateDisabled \/ (state r = StateQuarantined /\ d <= quarantinedUntil r).

(** The calls that may end a withdrawal of [id] before its deadline. *)
Definition releases (id : string) (o : op) : bool :=
  match o with
  | OpEnable i => String.eqb i id
  | OpRestore _ => true
  | _ => false
  end.

Lemma held_not_eligible m d r dest now : held d r -> eligible m r dest now = false.
Proof.
  intros [H|[H _]]; unfold eligible; rewrite H.
  - by rewrite (bool_decide_eq_true_2 (StateDisabled = StateDisabled)).
  - rewrite (bool_decide_eq_true_2 (StateQuarantined = StateQuarantined)) by done.
    by rewrite andb_false_r.
Qed.

Lemma reconcile_held m d now r : held d r -> now <= d -> held d (reconcile_record m now r).
Proof.
  intros Hh Hd.
  assert (He : expire_quarantine now r = r).
  { unfold expire_quarantine. destruct Hh as [H|[H Hu]]; rewrite H; [done|].
    rewrite bool_decide_eq_true_2 by done. unfold After.
    by rewrite (proj2 (Z.ltb_ge _ _)) by lia. }
  assert (Hs : state (reconcile_record m now r) = state r).
  { unfold reconcile_record. rewrite He, daily_loop_iter by done. apply iter_reset_state.
    destruct Hh as [H|[H _]]; by rewrite H. }
  unfold held. rewrite Hs, reconcile_record_until. done.
Qed.

Lemma touched_held d now dest r r' : held d r -> touched now dest r r' -> held d r'.
Proof.
  intros Hh Ht. destruct (touched_fields _ _ _ _ Ht) as (_ & Hs & _ & _ & _ & _ & _ & Hu & _).
  unfold held. by rewrite Hs, Hu.
Qed.

Lemma apply_signal_held m d now sig r :
  held d r -> d <= now + quarantineCooldown m -> held d (apply_signal m now sig r).
Proof.
  intros Hh Hd. unfold apply_signal. destruct (Signal_Kind sig); try done.
  case_match; [|done]. right. split; [done|]. simpl. unfold Add. lia.
Qed.

(** The record of [id] after an update of the record of [id']. *)
Lemma update_record_lookup id id' f m :
  records (update_record id' f m) !! id
  = (if decide (id' = id) then f <$> records m !! id else records m !! id).
Proof.
  unfold update_record. destruct (records m !! id') as [r|] eqn:E; simpl.
  - rewrite lookup_insert. case_decide; subst; [by rewrite E|done].
  - case_decide; subst; [by rewrite E|done].
Qed.

Lemma emit_one_lookup id now m sig :
  records (emit_one now m sig) !! id
  = (if decide (Signal_EgressID sig = id) then apply_signal m now sig <$> records m !! id
     else records m !! id).
Proof.
  unfold emit_one. destruct (records m !! Signal_EgressID sig) as [r|] eqn:E; simpl.
  - rewrite lookup_insert. case_decide as H; [rewrite <- H, E|]; done.
  - case_decide as H; [rewrite <- H, E|]; done.
Qed.

(** [P] holds of the record of [id], under the cooldown [cd]. *)
Definition rec_at (P : record -> Prop) (id : string) (cd : Duration) (m : Manager) : Prop :=
  quarantineCooldown m = cd /\ exists r, records m !! id = Some r /\ P r.

Lemma update_record_at P id cd id' f m :
  rec_at P id cd m -> (id' = id -> forall r, P r -> P (f r)) -> rec_at P id cd (update_record id' f m).
Proof.
  intros [Hc (r & Hr & HP)] Hf. split; [unfold update_record; by case_match|].
  rewrite update_record_lookup, Hr. case_decide; simpl; eauto.
Qed.

Lemma emit_at P id cd now sigs m :
  (forall m' sig r, quarantineCooldown m' = cd -> P r -> P (apply_signal m' now sig r)) ->
  rec_at P id cd m -> rec_at P id cd (Emit sigs now m).
Proof.
  intros Hs. apply fold_left_inv. clear m. intros m sig [Hc (r & Hr & HP)].
  split; [unfold emit_one; by case_match|].
  rewrite emit_one_lookup, Hr. case_decide; simpl; eauto.
Qed.

Lemma Binding_at P id cd m t now m' res :
  mgr_wf m -> Binding m t now = Some (res, m') ->
  (forall r, P r -> P (reconcile_record m now r)) ->
  (forall r r', P r -> touched now (destOf t) r r' -> P r') ->
  (forall r, P r -> eligible m r (destOf t) now = true -> P (set_usage (usedToday r + 1) (lastReset r) r)) ->
  rec_at P id cd m -> rec_at P id cd m'.
Proof.
  intros W HB Hrec Htch Hsel [Hc (r & Hr & HP)].
  destruct (Binding_spec m t now W) as (res' & m'' & HB' & _ & recs & best & Hp & Hb & Hm).
  rewrite HB in HB'. inv HB'.
  assert (Hr1 : reconciled m now !! id = Some (reconcile_record m now r))
    by (unfold reconciled; by rewrite lookup_fmap, Hr).
  pose proof (Hp id) as Hpi. rewrite Hr1 in Hpi.
  destruct (recs !! id) as [r2|] eqn:Hr2; [|inv Hpi].
  assert (Ht2 : touched now (destOf t) (reconcile_record m now r) r2) by (by inv Hpi).
  assert (HP2 : P r2) by eauto.
  destruct best as [[[i sc] u]|]; [|destruct Hm as [_ ->]; split; by eauto].
  destruct Hb as (_ & r0 & s & Hr0 & He & _). destruct Hm as (r3 & Hr3 & _ & _ & ->).
  split; [done|]. simpl. rewrite lookup_insert. case_decide as Hi; [subst i|by eauto].
  rewrite Hr1 in Hr0. simplify_eq. eexists. split; [done|].
  apply Hsel; [done|]. by rewrite (touched_eligible m now (destOf t) _ _ Ht2).
Qed.

Lemma apply_op_held id d o now m m' :
  mgr_wf m -> apply_op now o m = Some m' -> releases id o = false ->
  now <= d <= now + quarantineCooldown m ->
  rec_at (held d) id (quarantineCooldown m) m -> rec_at (held d) id (quarantineCooldown m) m'.
Proof.
  intros W Hop Hrel Hd Hat. set (cd := quarantineCooldown m) in *.
  destruct o; simpl in *; simplify_eq/=.
  - destruct (Binding m t now) as [[res m1]|] eqn:HB; simplify_eq/=.
    eapply Binding_at; eauto.
    + intros r Hr. apply reconcile_held; [done|lia].
    + intros r r' Hr Ht. by eapply touched_held.
  - apply emit_at; [|done]. intros m1 sig r Hcd Hr. apply apply_signal_held; [done|lia].
  - apply update_record_at; [done|]. intros ->. by rewrite String.eqb_refl in Hrel.
  - apply update_record_at; [done|]. intros _ r Hr. by left.
  - apply update_record_at; [done|]. intros _ r Hr. right. split; [done|]. simpl. unfold Add. fold cd. lia.
  - destruct (AuditDNSBL_total check now m W) as (items & _ & Ha). rewrite Ha in Hop.
    simplify_eq. apply fold_left_inv; [|done]. intros m1 [[i ip] dis] Hm1. unfold audit_one.
    case_match; [done|]. case_match; [done|]. apply update_record_at; [done|].
    intros _ r Hr. right. split; [done|]. simpl. unfold Add. destruct Hm1 as [-> _]. lia.
  - destruct Hat as [Hc (r & Hr & Hh)]. unfold SetOnline.
    destruct (records m !! id0) as [r0|] eqn:E; [|split; by eauto].
    case_match; [split; by eauto|]. split; [done|]. simpl. rewrite lookup_insert.
    case_decide; subst; [|by eauto]. rewrite Hr in E. inv E. by eauto.
  - destruct Hat as [Hc (r & Hr & Hh)]. unfold AddIdentity.
    destruct (records m !! Spec_ID s) as [r0|] eqn:E; split; try done; simpl;
      rewrite lookup_insert; case_decide as Hi; try rewrite Hi in *; simplify_eq; eauto.
  - destruct Hat as [Hc (r & Hr & Hh)]. split; by eauto.
  - destruct Hat as [Hc (r & Hr & Hh)]. split; by eauto.
Qed.

Lemma run_ops_held id d tr m m' :
  mgr_wf m -> run_ops tr m = Some m' ->
  Forall (fun to => op_wf (len (warmupStages m)) to.2 /\ releases id to.2 = false /\
                    to.1 <= d <= to.1 + quarantineCooldown m) tr ->
  rec_at (held d) id (quarantineCooldown m) m ->
  mgr_wf m' /\ rec_at (held d) id (quarantineCooldown m) m'.
Proof.
  revert m. induction tr as [|[now o] tr IH]; intros m W Hrun Hops Hat; simpl in *; simplify_eq; [done|].
  inv Hops. destruct (apply_op_wf now o m) as (m1 & Hop & W1 & Hs); [done|naive_solver|].
  rewrite Hop in Hrun. simpl in *.
  assert (Hat1 : rec_at (held d) id (quarantineCooldown m) m1) by (eapply apply_op_held; naive_solver).
  destruct Hat1 as [Hc1 Hr1]. rewrite <- Hc1. apply IH; [done|done| |by split].
  rewrite Hs, Hc1. done.
Qed.
