(* ===== verification/EgressCount.v ===== *)
(** How far the manager's counters can grow.  Go keeps them in [int]; the model
    has them unbounded, and the lemmas below bound every counter by what was
    restored plus the probes and signals since, so that a run whose bound fits
    an int64 never wraps one. *)

From Stdlib Require Import QArith.
From S2P Require Import Prelude GoStrings Float64 GoTime Engine Health Egress EgressInv EgressSel EgressOps.
Local Open Scope Z_scope.

(** The counters of a record are at most [b], its stage at most [s]. *)
Record rec_le (b s : Z) (r : record) : Prop := {
  rle_used : usedToday r <= b;
  rle_streak : blockStreak r <= b;
  rle_stage : warmupStage r <= s;
  rle_samples : map_Forall (fun _ h => samples h <= b) (rhealth r);
  rle_failures : map_Forall (fun _ c => failures c <= b) (circuits r);
}.

(** The stage of a warming identity climbs to the end of the ramp at most. *)
Definition stage_bound (b : Z) (m : Manager) : Z := Z.max b (len (warmupStages m)).

Definition counters_le (b : Z) (m : Manager) : Prop :=
  map_Forall (fun _ r => rec_le b (stage_bound b m) r) (records m).

(** The counters of the states a call restores are at most [n]. *)
Definition restored_le (n : Z) (o : op) : Prop :=
  match o with
  | OpRestore states => Forall (fun st => es_UsedToday st <= n /\ es_BlockStreak st <= n /\ es_WarmupStage st <= n) states
  | _ => True
  end.

(** How many times a call may add one to a counter. *)
Definition work (o : op) : Z :=
  match o with OpBinding _ => 1 | OpEmit sigs => len sigs | _ => 0 end.

Definition work_of (tr : list (Time * op)) : Z := foldr (fun to n => work to.2 + n) 0 tr.

Lemma work_nonneg o : 0 <= work o.
Proof. destruct o; simpl; try lia. apply len_nonneg. Qed.

(** ** Records *)

Lemma rec_le_mono b b' s s' r : b <= b' -> s <= s' -> rec_le b s r -> rec_le b' s' r.
Proof.
  intros Hb Hs [H1 H2 H3 H4 H5]. constructor; try lia.
  - intros d h Hd. specialize (H4 d h Hd). simpl in *. lia.
  - intros d h Hd. specialize (H5 d h Hd). simpl in *. lia.
Qed.

Lemma rec_le_life b s st stage streak until reason r :
  stage <= s -> streak <= b -> rec_le b s r -> rec_le b s (set_life st stage streak until reason r).
Proof. intros ? ? []. by constructor. Qed.

Lemma rec_le_usage b s used reset r : used <= b -> rec_le b s r -> rec_le b s (set_usage used reset r).
Proof. intros ? []. by constructor. Qed.

Lemma rec_le_health b s dest f r :
  (forall h, samples h <= b -> samples (f h) <= b + 1) -> 0 <= b -> rec_le b s r -> rec_le (b + 1) s (upd_health dest f r).
Proof.
  intros Hf Hb R. destruct (rec_le_mono b (b + 1) s s r ltac:(lia) ltac:(lia) R). constructor; try done.
  simpl. apply map_Forall_insert_2; [|done]. apply Hf. destruct (rhealth r !! dest) eqn:E; simpl; [|lia].
  by apply (rle_samples _ _ _ R dest).
Qed.

Lemma rec_le_circuit b s dest f r :
  (forall c, failures c <= b -> failures (f c) <= b + 1) -> 0 <= b -> rec_le b s r -> rec_le (b + 1) s (upd_circuit dest f r).
Proof.
  intros Hf Hb R. destruct (rec_le_mono b (b + 1) s s r ltac:(lia) ltac:(lia) R). constructor; try done.
  simpl. apply map_Forall_insert_2; [|done]. apply Hf. destruct (circuits r !! dest) eqn:E; simpl; [|lia].
  by apply (rle_failures _ _ _ R dest).
Qed.

Lemma rec_le_fresh b s sp t : 0 <= b -> 0 <= s -> rec_le b s (fresh_record sp t).
Proof. intros. constructor; simpl; try lia; intros d x Hd; by rewrite lookup_empty in Hd. Qed.

(** A signal adds at most one to each counter. *)
Lemma apply_signal_le b s m now sig r : 0 <= b -> rec_le b s r -> rec_le (b + 1) s (apply_signal m now sig r).
Proof.
  intros Hb R.
  assert (Hboth : forall dest f g, (forall h, samples (f h) = samples h + 1) -> (forall c, failures c <= b -> failures (g c) <= b + 1) ->
    rec_le (b + 1) s (upd_circuit dest g (upd_health dest f r))).
  { intros dest f g Hf Hg. destruct R as [H1 H2 H3 H4 H5]. constructor; simpl; try lia.
    - apply map_Forall_insert_2; [rewrite Hf|intros d h Hd; specialize (H4 d h Hd); simpl in *; lia].
      destruct (rhealth r !! dest) as [h|] eqn:E; simpl; [|lia]. specialize (H4 dest h E). simpl in H4. lia.
    - apply map_Forall_insert_2; [apply Hg|intros d c Hd; specialize (H5 d c Hd); simpl in *; lia].
      destruct (circuits r !! dest) as [c|] eqn:E; simpl; [|lia]. by apply (H5 dest). }
  assert (Hfail : forall c, failures c <= b -> failures (onFailure now (circuitThreshold m) (circuitCooldown m) c) <= b + 1)
    by (intros c Hc; unfold onFailure; case_match; simpl; lia).
  assert (Hok : forall c, failures c <= b -> failures (onSuccess c) <= b + 1) by (intros; simpl; lia).
  pose proof (rle_streak _ _ _ R). pose proof (rle_stage _ _ _ R).
  unfold apply_signal. destruct (Signal_Kind sig).
  - apply rec_le_life; [done|lia|]. by apply Hboth.
  - apply rec_le_life; [done|lia|]. by apply Hboth.
  - apply rec_le_health; [intros; simpl; lia|done|done].
  - case_match; (apply rec_le_life; [done|simpl; lia|]); by apply Hboth.
  - by apply Hboth.
  - by apply Hboth.
  - eapply rec_le_mono; [| |exact R]; lia.
Qed.

Lemma expire_le b s now r : 0 <= b -> 0 <= s -> rec_le b s r -> rec_le b s (expire_quarantine now r).
Proof. intros. unfold expire_quarantine. case_match; [|done]. by apply rec_le_life. Qed.

Lemma daily_reset_le b m s r :
  0 <= b -> len (warmupStages m) <= s -> rec_wf (len (warmupStages m)) r -> rec_le b s r -> rec_le b s (daily_reset m r).
Proof.
  intros Hb Hs W R. unfold daily_reset. simpl. case_bool_decide as Hw; [|by apply rec_le_usage].
  pose proof (rwf_warming _ _ W Hw). apply rec_le_life; [simpl; lia|apply R|by apply rec_le_usage].
Qed.

Lemma reconcile_le b m s now r :
  0 <= b -> len (warmupStages m) <= s -> 0 < len (warmupStages m) -> rec_wf (len (warmupStages m)) r ->
  rec_le b s r -> rec_le b s (reconcile_record m now r).
Proof.
  intros Hb Hs Hp W R. unfold reconcile_record. rewrite daily_loop_iter by done.
  apply (iter_inv (fun r' => rec_wf (len (warmupStages m)) r' /\ rec_le b s r')).
  - intros r' [W' R']. split; [by apply daily_reset_wf|by apply daily_reset_le].
  - split; [by apply expire_wf|]. apply expire_le; [done|lia|done].
Qed.

Lemma touched_le b s now dest r r' : touched now dest r r' -> rec_le b s r -> rec_le b s r'.
Proof.
  intros [->|(c & Hc & ->)] R; [done|]. pose proof (rle_failures _ _ _ R dest c Hc) as Hf. destruct R.
  constructor; try done. simpl. apply map_Forall_insert_2; [|done]. unfold allow.
  destruct (cb_state c); try done. by destruct (After now (openUntil c)).
Qed.

(** ** The manager *)

Lemma counters_le_mono b b' m : b <= b' -> counters_le b m -> counters_le b' m.
Proof.
  intros Hb H id r Hr. eapply rec_le_mono; [exact Hb| |by eapply H]. unfold stage_bound. lia.
Qed.

Lemma update_record_le b id f m :
  (forall r, rec_le b (stage_bound b m) r -> rec_le b (stage_bound b m) (f r)) ->
  counters_le b m -> counters_le b (update_record id f m).
Proof.
  intros Hf H. unfold update_record. destruct (records m !! id) as [r|] eqn:E; [|done].
  unfold counters_le. cbn. apply map_Forall_insert_2; [|done]. apply Hf. by eapply H.
Qed.

Lemma Emit_le b now sigs m : 0 <= b -> counters_le b m -> counters_le (b + len sigs) (Emit sigs now m).
Proof.
  unfold Emit. revert b m. induction sigs as [|s sigs IH]; intros b m Hb H; cbn [fold_left].
  - unfold len. simpl. by rewrite Z.add_0_r.
  - replace (b + len (s :: sigs)) with ((b + 1) + len sigs) by (unfold len; simpl; lia). apply IH; [lia|].
    unfold emit_one. destruct (records m !! Signal_EgressID s) as [r|] eqn:E.
    + unfold counters_le. cbn. apply map_Forall_insert_2.
      * apply apply_signal_le; [done|]. eapply rec_le_mono; [| |by eapply H]; [lia|unfold stage_bound; simpl; lia].
      * exact (counters_le_mono b (b + 1) m ltac:(lia) H).
    + apply (counters_le_mono b); [lia|done].
Qed.

Lemma Binding_le b m t now res m' :
  mgr_wf m -> 0 <= b -> Binding m t now = Some (res, m') -> counters_le b m -> counters_le (b + 1) m'.
Proof.
  intros W Hb HB H. destruct (Binding_spec m t now W) as (res' & m1 & HB' & _ & recs & best & Hp & _ & Hm).
  rewrite HB in HB'. inv HB'.
  assert (Hrecs : map_Forall (fun _ r => rec_le b (stage_bound b m) r) recs).
  { intros id r Hr. pose proof (Hp id) as Hpi. rewrite Hr in Hpi. unfold reconciled in Hpi. rewrite lookup_fmap in Hpi.
    destruct (records m !! id) as [r0|] eqn:E; [|inv Hpi]. cbn [fmap option_fmap option_map] in Hpi. inv Hpi.
    eapply touched_le; [done|]. apply reconcile_le; try done; [unfold stage_bound; lia|by apply stages_pos| |by eapply H].
    by apply (mgr_wf_lookup m id r0). }
  assert (Hup : map_Forall (fun _ r => rec_le (b + 1) (stage_bound (b + 1) m) r) recs).
  { intros id r Hr. eapply rec_le_mono; [| |by eapply Hrecs]; [lia|unfold stage_bound; lia]. }
  destruct best as [[[i sc] u]|]; [|destruct Hm as [_ ->]; exact Hup].
  destruct Hm as (r & Hr & _ & _ & ->). unfold counters_le. cbn. apply map_Forall_insert_2; [|exact Hup].
  apply rec_le_usage; [|by eapply Hup]. pose proof (rle_used _ _ _ (Hrecs i r Hr)). lia.
Qed.

Lemma restore_one_le n b m st :
  es_UsedToday st <= n -> es_BlockStreak st <= n -> es_WarmupStage st <= n -> n <= b -> 0 <= b ->
  counters_le b m -> counters_le b (restore_one m st).
Proof.
  intros H1 H2 H3 Hn Hb H. unfold restore_one. destruct (records m !! es_ID st) as [r|] eqn:E; [|done].
  unfold counters_le. cbn. apply map_Forall_insert_2; [|done]. destruct (H _ r E) as [_ _ _ R4 R5].
  constructor; simpl; try lia; try done; [unfold stage_bound; simpl; lia|].
  apply map_Forall_union_2; [|done]. intros d h Hd. rewrite lookup_fmap in Hd.
  apply fmap_Some in Hd as (x & _ & ->). simpl. lia.
Qed.

Lemma audit_one_le b check now m it : counters_le b m -> counters_le b (audit_one check now m it).
Proof.
  intros H. destruct it as [[i ip] d]. unfold audit_one. do 2 (case_match; [done|]).
  apply update_record_le; [|done]. intros r R. apply rec_le_life; [apply R|apply R|done].
Qed.

Lemma set_record_le b m m' id r :
  warmupStages m' = warmupStages m -> records m' = <[id := r]> (records m) -> rec_le b (stage_bound b m) r ->
  counters_le b m -> counters_le b m'.
Proof.
  intros Hs Hm R H. unfold counters_le, stage_bound. rewrite Hm, Hs. by apply map_Forall_insert_2.
Qed.

(** A call adds at most its [work] to the counters. *)
Lemma apply_op_le n b now o m m' :
  mgr_wf m -> 0 <= n <= b -> restored_le n o -> apply_op now o m = Some m' ->
  counters_le b m -> counters_le (b + work o) m'.
Proof.
  intros W Hn Hr Hop H. destruct o; cbn [apply_op work restored_le] in *; rewrite ?Z.add_0_r; try (apply (inj Some) in Hop; subst m').
  - destruct (Binding m t now) as [[res m1]|] eqn:HB; simplify_eq/=. eapply (Binding_le b m t now res); [done|lia|done|done].
  - apply Emit_le; [lia|done].
  - apply update_record_le; [|done]. intros r R. apply rec_le_life; [unfold stage_bound; lia|lia|done].
  - apply update_record_le; [|done]. intros r R. apply rec_le_life; [apply R|apply R|done].
  - apply update_record_le; [|done]. intros r R. apply rec_le_life; [apply R|apply R|done].
  - destruct (AuditDNSBL_total check now m W) as (items & _ & He). rewrite He in Hop. apply (inj Some) in Hop. subst m'.
    apply fold_left_inv; [|done]. intros m1 it. apply audit_one_le.
  - change (counters_le b (fold_left restore_one states m)). clear W. revert m H.
    induction Hr as [|st states (H1 & H2 & H3) _ IH]; intros m H; [done|]. apply IH. apply (restore_one_le n); done || lia.
  - unfold SetOnline. destruct (records m !! id) as [r|] eqn:E; [|done]. case_match; [done|].
    eapply (set_record_le b m); [done|done| |done]. destruct (H id r E). by constructor.
  - unfold AddIdentity. destruct (records m !! Spec_ID s) as [r|] eqn:E; (eapply (set_record_le b m); [done|done| |done]).
    + destruct (H _ r E). by constructor.
    + apply rec_le_fresh; [lia|unfold stage_bound; lia].
  - exact H.
  - exact H.
Qed.

Lemma run_ops_le n tr : forall b m m',
  mgr_wf m -> 0 <= n <= b -> Forall (fun to => op_wf (len (warmupStages m)) to.2) tr ->
  Forall (fun to => restored_le n to.2) tr -> run_ops tr m = Some m' -> counters_le b m -> counters_le (b + work_of tr) m'.
Proof.
  induction tr as [|[now o] tr IH]; intros b m m' W Hn Hops Hr Hrun H; cbn [run_ops work_of foldr snd] in *.
  - simplify_eq. by rewrite Z.add_0_r.
  - inv Hops. inv Hr. destruct (apply_op_wf now o m) as (m1 & Hop & W1 & Hs); [done|done|]. rewrite Hop in Hrun.
    cbn [mbind option_bind snd] in *. rewrite Z.add_assoc. pose proof (work_nonneg o).
    eapply (IH _ m1); eauto; [lia|by rewrite Hs|]. by apply (apply_op_le n b now o m m1).
Qed.

Lemma New_le cfg start : counters_le 0 (New cfg start).
Proof.
  unfold New. apply (fold_left_inv (counters_le 0)).
  - intros m s H. eapply (set_record_le 0 m _ (Spec_ID s)); [done|done| |done].
    apply rec_le_fresh; [lia|unfold stage_bound; lia].
  - intros id r Hr. cbn in Hr. by rewrite lookup_empty in Hr.
Qed.
