(* ===== verification/EgressProps.v ===== *)
(** What the reputation manager guarantees, and the behaviours that differ from
    what its comments say. *)

From Stdlib Require Import QArith.
From S2P Require Import Prelude GoStrings Float64 GoTime Engine Health Egress EgressInv EgressSel.
From S2P Require Import EgressOps EgressCount.
Local Open Scope Z_scope.

(** ** A concrete pool, for the witnesses *)

Definition ex_spec (id : string) (warm : bool) : Spec :=
  {| Spec_ID := id; Spec_Kind := KindLocalIP; Spec_IP := "192.0.2.1"; Spec_HELO := "mx.example.org";
     Spec_MailFrom := "probe@example.org"; Spec_ASN := ""; Spec_Region := ""; Spec_WarmUp := warm |}.

Definition ex_cfg : Config :=
  {| cfg_Identities := [ex_spec "a" false; ex_spec "b" true];
     cfg_HealthAlpha := f64 0; cfg_CircuitThreshold := 0; cfg_CircuitCooldown := 0;
     cfg_QuarantineThreshold := 0; cfg_QuarantineCooldown := 0; cfg_WarmupStages := [];
     cfg_ActiveDailyCap := 0 |}.

Definition ex_task : Task :=
  {| Task_ID := ""; Task_JobID := ""; Task_Email := "u@example.com"; Task_Normalized := "u@example.com";
     Task_Domain := "example.com"; Task_Provider := "custom"; Task_MX := ["mx.example.com"] |}.

Definition ex_signal (k : SignalKind) (id dest : string) : Signal :=
  {| Signal_Kind := k; Signal_EgressID := id; Signal_Destination := dest; Signal_Code := 550;
     Signal_Detail := "" |}.

Definition ex_start : Time := 1000 * dailyResetInterval.
Definition ex_mgr : Manager := New ex_cfg ex_start.

Lemma ex_alpha_ok : alpha_ok (cfg_HealthAlpha ex_cfg).
Proof. vm_compute. reflexivity. Qed.

Lemma ex_mgr_wf : mgr_wf ex_mgr.
Proof. apply New_wf, ex_alpha_ok. Qed.

(** ** Lemmas *)

(** A granted probe for [id]. *)
Definition granted (id : string) (res : result egress_error EgressBinding) : bool :=
  match res with Ok b => String.eqb (binding_ID b) id | Err _ => false end.

(** The record a successful [Binding] chose, as it was after reconciliation. *)
Lemma Binding_Ok m t now b m' :
  mgr_wf m -> Binding m t now = Some (Ok b, m') ->
  exists r r2 s, reconciled m now !! binding_ID b = Some r /\ eligible m r (destOf t) now = true /\
    rec_score r (destOf t) = Fin s /\ touched now (destOf t) r r2 /\ b = binding_of r2 /\
    records m' !! binding_ID b = Some (set_usage (usedToday r2 + 1) (lastReset r2) r2) /\
    forall id' r' s', reconciled m now !! id' = Some r' -> eligible m r' (destOf t) now = true ->
      rec_score r' (destOf t) = Fin s' -> ~ rank_lt s (usedToday r) s' (usedToday r').
Proof.
  intros W HB. destruct (Binding_spec m t now W) as (res & m1 & HB' & _ & recs & best & Hp & Hb & Hm).
  rewrite HB in HB'. inv HB'.
  destruct best as [[[id sc] u]|]; [|by destruct Hm].
  destruct Hm as (r2 & Hr2 & Hid & Hb2 & ->). inv Hb2.
  destruct Hb as (_ & r & s & Hr & He & Hsc & -> & <- & Hmax).
  pose proof (Hp (Spec_ID (spec r2))) as Hpi. rewrite Hr, Hr2 in Hpi.
  assert (Ht : touched now (destOf t) r r2) by (by inv Hpi).
  exists r, r2, s. simpl. repeat split; try done; [by rewrite lookup_insert_eq|].
  intros id' r' s' Hr'. apply (Hmax id'); [|done].
  unfold reconciled in Hr'. rewrite lookup_fmap in Hr'. apply fmap_Some in Hr' as (r0 & Hr0 & _).
  apply (mwf_order m W). eauto.
Qed.

Lemma reconcile_circuits m now r : circuits (reconcile_record m now r) = circuits r.
Proof.
  unfold reconcile_record. rewrite daily_loop_iter by done.
  apply (iter_inv (fun r' => circuits r' = circuits r)).
  - intros r' <-. unfold daily_reset. simpl. by case_match.
  - unfold expire_quarantine. by case_match.
Qed.

Lemma reconcile_health m now r : rhealth (reconcile_record m now r) = rhealth r.
Proof.
  unfold reconcile_record. rewrite daily_loop_iter by done.
  apply (iter_inv (fun r' => rhealth r' = rhealth r)).
  - intros r' <-. unfold daily_reset. simpl. by case_match.
  - unfold expire_quarantine. by case_match.
Qed.

(** Within the day and out of quarantine there is nothing to reconcile. *)
Lemma reconcile_same m now r :
  state r <> StateQuarantined -> now - lastReset r < dailyResetInterval -> reconcile_record m now r = r.
Proof.
  intros Hs Hd. unfold reconcile_record, expire_quarantine.
  rewrite (bool_decide_eq_false_2 (state r = StateQuarantined)) by done. simpl.
  by rewrite daily_loop_iter, days_due_0.
Qed.

Lemma eligible_under_cap m r dest now limit :
  eligible m r dest now = true -> capFor m r = Some limit -> 0 < limit -> usedToday r < limit.
Proof.
  unfold eligible, under_cap. intros He Hc Hl. bool_to_prop. rewrite Hc in *.
  destruct ((limit >? 0) && (usedToday r >=? limit)) eqn:E; [done|].
  apply andb_false_iff in E as [E|E]; rewrite ?Z.gtb_ltb, ?Z.geb_leb in E; bool_to_prop; lia.
Qed.

(** One [Binding] within the day moves the usage of [id] by one when it is
    granted, and then the cap was not reached. *)
Lemma Binding_usage m id r t now res m' limit :
  mgr_wf m -> records m !! id = Some r -> state r <> StateQuarantined ->
  now - lastReset r < dailyResetInterval -> capFor m r = Some limit -> 0 < limit ->
  Binding m t now = Some (res, m') ->
  exists r', records m' !! id = Some r' /\ state r' = state r /\ lastReset r' = lastReset r /\
    capFor m' r' = Some limit /\
    (if granted id res then usedToday r' = usedToday r + 1 /\ usedToday r < limit
     else usedToday r' = usedToday r).
Proof.
  intros W Hr Hq Hd Hc Hl HB.
  destruct (Binding_spec m t now W) as (res' & m1 & HB' & W' & recs & best & Hp & Hb & Hm).
  rewrite HB in HB'. inv HB'.
  assert (Hr1 : reconciled m now !! id = Some r)
    by (unfold reconciled; by rewrite lookup_fmap, Hr; simpl; rewrite reconcile_same).
  pose proof (Hp id) as Hpi. rewrite Hr1 in Hpi.
  destruct (recs !! id) as [r2|] eqn:Hr2; [|inv Hpi].
  assert (Ht : touched now (destOf t) r r2) by (by inv Hpi).
  destruct (touched_fields _ _ _ _ Ht) as (Hsp & Hs & Hw & Hu & Hlr & _).
  assert (Hcap : forall m2, warmupStages m2 = warmupStages m -> activeDailyCap m2 = activeDailyCap m ->
            forall r3, state r3 = state r2 -> warmupStage r3 = warmupStage r2 -> capFor m2 r3 = Some limit).
  { intros m2 H1 H2 r3 H3 H4. unfold capFor in *. by rewrite H1, H2, H3, H4, Hs, Hw. }
  destruct best as [[[i sc] u]|].
  - destruct Hm as (r3 & Hr3 & HID & -> & ->). simpl. rewrite lookup_insert.
    destruct (decide (i = id)) as [->|Hne].
    + assert (r3 = r2) as -> by congruence. rewrite HID, String.eqb_refl. eexists. split; [done|].
      destruct Hb as (_ & r0 & s & Hr0 & He & _). assert (r0 = r) as -> by congruence.
      simpl. repeat split; try done; [by apply Hcap| |]; [lia|].
      by eapply eligible_under_cap.
    + rewrite HID, (proj2 (String.eqb_neq i id)) by done. exists r2. repeat split; try done. by apply Hcap.
  - destruct Hm as [-> ->]. simpl. exists r2. repeat split; try done. by apply Hcap.
Qed.

(** A sequence of [Binding] calls. *)
Fixpoint bind_all (l : list (Time * Task)) (m : Manager)
    : option (list (result egress_error EgressBinding) * Manager) :=
  match l with
  | [] => Some ([], m)
  | (now, t) :: l =>
      '(res, m) ← Binding m t now;
      '(ress, m) ← bind_all l m;
      Some (res :: ress, m)
  end.

Lemma bind_all_cap l m id r limit ress m' :
  mgr_wf m -> records m !! id = Some r -> state r <> StateQuarantined ->
  Forall (fun nt => nt.1 - lastReset r < dailyResetInterval) l ->
  capFor m r = Some limit -> 0 < limit -> bind_all l m = Some (ress, m') ->
  len (List.filter (granted id) ress) <= Z.max 0 (limit - usedToday r).
Proof.
  revert m r ress. induction l as [|[now t] l IH]; intros m r ress W Hr Hq Hd Hc Hl Hrun; simpl in Hrun.
  - simplify_eq. unfold len. simpl. lia.
  - inv Hd. destruct (Binding m t now) as [[res m1]|] eqn:HB; [|done]. simpl in Hrun.
    destruct (bind_all l m1) as [[ress1 m2]|] eqn:Hrest; [|done]. simpl in Hrun. simplify_eq.
    destruct (Binding_usage m id r t now res m1 limit) as (r1 & Hr1 & Hs1 & Hl1 & Hc1 & Hu); try done.
    destruct (Binding_spec m t now W) as (res' & m1' & HB' & W1 & _). rewrite HB in HB'. inv HB'.
    assert (Hle : len (List.filter (granted id) ress1) <= Z.max 0 (limit - usedToday r1)).
    { eapply IH; eauto; [by rewrite Hs1|by rewrite Hl1]. }
    simpl. destruct (granted id res').
    + destruct Hu as [Hu Hlt]. unfold len in *. simpl. lia.
    + by rewrite Hu in Hle.
Qed.

(** ** Guarantees *)

(** C1: From a new manager whose health weight is a number, any sequence of its
    methods in which [Restore] gets states that a manager with the same ramp can
    have saved (a warming one at a stage of the ramp, no negative counter, scores
    in [0, 1]) runs without a panic (no nil record, no index out of the ramp) and
    leaves it well formed: every id of the order has its record, counters are
    non-negative, a warming identity has a stage of the ramp, every health score
    is in [0, 1].  And no counter has grown past the largest restored one by more
    than the probes granted and the signals received, nor a stage past the ramp:
    while that sum fits an int64, Go's counters do not wrap. *)
Theorem manager_total cfg start tr :
  alpha_ok (cfg_HealthAlpha cfg) ->
  Forall (fun to => op_wf (len (warmupStages (New cfg start))) to.2) tr ->
  exists m, run_ops tr (New cfg start) = Some m /\ mgr_wf m /\
    forall n, 0 <= n -> Forall (fun to => restored_le n to.2) tr -> counters_le (n + work_of tr) m.
Proof.
  intros Ha Hops. pose proof (New_wf cfg start Ha) as W. destruct (run_ops_wf tr _ W Hops) as (m & Hrun & Wm).
  exists m. split; [done|]. split; [done|]. intros n Hn Hr. apply (run_ops_le n tr n (New cfg start)); try done.
  apply (counters_le_mono 0); [done|apply New_le].
Qed.

(** With the states of an earlier run restored over the new records. *)
Definition ex_saved : EgressState :=
  {| es_ID := "b"; es_State := "warming"; es_WarmupStage := 3; es_UsedToday := 41; es_LastReset := ex_start;
     es_BlockStreak := 4; es_QuarantinedUntil := 0; es_QuarantineReason := ""; es_Health := {[ "gmail" := f64 (1 # 2) ]} |}.

Lemma manager_total_witness :
  exists m, run_ops [(ex_start + 5, OpBinding ex_task);
                     (ex_start + 6, OpRestore [ex_saved]);
                     (ex_start + 6, OpEmit [ex_signal SignalBlocked "b" "custom"]);
                     (ex_start + 7, OpQuarantine "a" "manual");
                     (ex_start + 9 * dailyResetInterval, OpBinding ex_task)] ex_mgr = Some m /\ mgr_wf m /\
    counters_le 44 m.
Proof.
  destruct (manager_total ex_cfg ex_start [(ex_start + 5, OpBinding ex_task);
                     (ex_start + 6, OpRestore [ex_saved]);
                     (ex_start + 6, OpEmit [ex_signal SignalBlocked "b" "custom"]);
                     (ex_start + 7, OpQuarantine "a" "manual");
                     (ex_start + 9 * dailyResetInterval, OpBinding ex_task)] ex_alpha_ok) as (m & Hrun & W & Hle).
  - repeat constructor; try done.
    intros d s Hd. cbn in Hd. apply lookup_singleton_Some in Hd as [_ <-]. apply funit_f64; discriminate.
  - exists m. split; [exact Hrun|]. split; [exact W|]. apply (Hle 41); [lia|]. repeat constructor; simpl; lia.
Defined.

(** C6: A successful [Binding] hands out an identity that is eligible for the
    task's destination (not disabled or quarantined, online, breaker admitting,
    below its cap) and that no eligible identity outranks by score and then by
    lower usage; its daily usage grows by one. *)
Theorem Binding_chooses_best m t now b m' :
  mgr_wf m -> Binding m t now = Some (Ok b, m') ->
  exists r s, reconciled m now !! binding_ID b = Some r /\
    eligible m r (destOf t) now = true /\ rec_score r (destOf t) = Fin s /\
    (forall id' r' s', reconciled m now !! id' = Some r' -> eligible m r' (destOf t) now = true ->
       rec_score r' (destOf t) = Fin s' -> ~ rank_lt s (usedToday r) s' (usedToday r')) /\
    exists r', records m' !! binding_ID b = Some r' /\ usedToday r' = usedToday r + 1.
Proof.
  intros W HB. destruct (Binding_Ok m t now b m' W HB) as (r & r2 & s & Hr & He & Hs & Ht & _ & Hm' & Hmax).
  exists r, s. repeat split; try done. eexists. split; [exact Hm'|].
  destruct (touched_fields _ _ _ _ Ht) as (_ & _ & _ & Hu & _). simpl. lia.
Qed.

Lemma Binding_chooses_best_witness :
  exists b m', Binding ex_mgr ex_task (ex_start + 1) = Some (Ok b, m') /\
  exists r s, reconciled ex_mgr (ex_start + 1) !! binding_ID b = Some r /\
    eligible ex_mgr r (destOf ex_task) (ex_start + 1) = true /\ rec_score r (destOf ex_task) = Fin s.
Proof.
  destruct (Binding ex_mgr ex_task (ex_start + 1)) as [[[b|] m']|] eqn:E;
    [|vm_compute in E; discriminate|vm_compute in E; discriminate].
  exists b, m'. split; [reflexivity|].
  destruct (Binding_chooses_best ex_mgr ex_task (ex_start + 1) b m' ex_mgr_wf E)
    as (r & s & Hr & He & Hs & _).
  exists r, s. auto.
Defined.

(** [Binding] fails with [ErrNoEgress] exactly when, after reconciliation, no
    identity of the pool is eligible for the destination. *)
Theorem Binding_no_egress_iff m t now :
  mgr_wf m ->
  (exists m', Binding m t now = Some (Err ErrNoEgress, m')) <->
  (forall id r, reconciled m now !! id = Some r -> eligible m r (destOf t) now = false).
Proof.
  intros W. destruct (Binding_spec m t now W) as (res & m1 & HB & _ & recs & best & Hp & Hb & Hm).
  rewrite HB. destruct best as [[[id sc] u]|].
  - destruct Hm as (r & _ & _ & -> & ->). destruct Hb as (_ & r0 & s & Hr0 & He & _). split.
    + intros [m' H]. discriminate.
    + intros H. rewrite (H id r0 Hr0) in He. discriminate.
  - destruct Hm as [-> ->]. split; [|by eauto]. intros _ id r Hr. apply (Hb id r); [|done].
    unfold reconciled in Hr. rewrite lookup_fmap in Hr. apply fmap_Some in Hr as (r0 & Hr0 & _).
    apply (mwf_order m W). eauto.
Qed.

Lemma Binding_no_egress_iff_witness :
  (exists m', Binding (Disable "a" "x" (Disable "b" "x" ex_mgr)) ex_task ex_start
              = Some (Err ErrNoEgress, m')) <->
  (forall id r, reconciled (Disable "a" "x" (Disable "b" "x" ex_mgr)) ex_start !! id = Some r ->
     eligible (Disable "a" "x" (Disable "b" "x" ex_mgr)) r (destOf ex_task) ex_start = false).
Proof.
  apply (Binding_no_egress_iff (Disable "a" "x" (Disable "b" "x" ex_mgr)) ex_task ex_start).
  apply Disable_wf, Disable_wf, ex_mgr_wf.
Defined.

(** C2: A quarantine holds for its whole cool-down: after [Quarantine] at [t0],
    whatever methods run up to the deadline (an [Enable] of that identity and a
    [Restore] excepted), no [Binding] before the deadline hands it out. *)
Theorem quarantine_holds m id reason t0 tr m1 t now b m2 :
  mgr_wf m -> is_Some (records m !! id) ->
  Forall (fun to => op_wf (len (warmupStages m)) to.2 /\ releases id to.2 = false /\
                    t0 <= to.1 <= t0 + quarantineCooldown m) tr ->
  run_ops tr (Quarantine id reason t0 m) = Some m1 ->
  t0 <= now <= t0 + quarantineCooldown m ->
  Binding m1 t now = Some (Ok b, m2) -> binding_ID b <> id.
Proof.
  intros W [r Hr] Htr Hrun Hnow HB Hid.
  set (d := t0 + quarantineCooldown m) in *.
  assert (Hcd : quarantineCooldown (Quarantine id reason t0 m) = quarantineCooldown m)
    by (unfold Quarantine, update_record; by case_match).
  assert (Hat : rec_at (held d) id (quarantineCooldown m) (Quarantine id reason t0 m)).
  { split; [done|]. unfold Quarantine. rewrite update_record_lookup, decide_True, Hr by done.
    eexists. split; [done|]. right. by split. }
  destruct (run_ops_held id d tr (Quarantine id reason t0 m) m1) as [W1 [_ (r1 & Hr1 & Hh1)]].
  - by apply Quarantine_wf.
  - done.
  - rewrite Hcd. unfold Quarantine. rewrite update_record_stages.
    eapply Forall_impl; [|exact Htr]. simpl. intros [x o] (H1 & H2 & H3). repeat split; try done; simpl in *; lia.
  - by rewrite Hcd.
  - destruct (Binding_Ok m1 t now b m2 W1 HB) as (r2 & _ & _ & Hr2 & He & _).
    rewrite Hid in Hr2. unfold reconciled in Hr2. rewrite lookup_fmap, Hr1 in Hr2. simpl in Hr2.
    simplify_eq. rewrite (held_not_eligible m1 d) in He; [done|]. apply reconcile_held; [done|]. lia.
Qed.

Lemma quarantine_holds_witness :
  exists b m2, Binding (Emit [ex_signal SignalAccepted "a" "custom"] (ex_start + 5)
                          (Quarantine "a" "manual" ex_start ex_mgr)) ex_task (ex_start + Minute)
               = Some (Ok b, m2) /\ binding_ID b <> "a".
Proof.
  set (m1 := Emit [ex_signal SignalAccepted "a" "custom"] (ex_start + 5)
               (Quarantine "a" "manual" ex_start ex_mgr)).
  destruct (Binding m1 ex_task (ex_start + Minute)) as [[[b|] m2]|] eqn:E;
    [|vm_compute in E; discriminate|vm_compute in E; discriminate].
  exists b, m2. split; [reflexivity|].
  apply (quarantine_holds ex_mgr "a" "manual" ex_start
           [(ex_start + 5, OpEmit [ex_signal SignalAccepted "a" "custom"])] m1 ex_task
           (ex_start + Minute) b m2).
  - exact ex_mgr_wf.
  - vm_compute. eauto.
  - constructor; [|constructor]. split; [done|]. split; [done|]. vm_compute. split; discriminate.
  - reflexivity.
  - vm_compute. split; discriminate.
  - exact E.
Defined.

(** C12: The daily cap is never exceeded: in any sequence of [Binding] calls within
    one daily window, an identity with a positive cap is handed out at most as
    many times as its cap leaves after what it had already used. *)
Theorem daily_cap_respected m id r l limit ress m' :
  mgr_wf m -> records m !! id = Some r -> state r <> StateQuarantined ->
  Forall (fun nt => nt.1 - lastReset r < dailyResetInterval) l ->
  capFor m r = Some limit -> 0 < limit -> bind_all l m = Some (ress, m') ->
  len (List.filter (granted id) ress) <= Z.max 0 (limit - usedToday r).
Proof. apply bind_all_cap. Qed.

Definition ex_cap_mgr : Manager :=
  New {| cfg_Identities := [ex_spec "a" true]; cfg_HealthAlpha := f64 0; cfg_CircuitThreshold := 0;
         cfg_CircuitCooldown := 0; cfg_QuarantineThreshold := 0; cfg_QuarantineCooldown := 0;
         cfg_WarmupStages := [2; 4]; cfg_ActiveDailyCap := 0 |} ex_start.

Lemma daily_cap_respected_witness :
  exists ress m', bind_all (repeat (ex_start + 3, ex_task) 5) ex_cap_mgr = Some (ress, m') /\
    len (List.filter (granted "a") ress) <= 2.
Proof.
  destruct (bind_all (repeat (ex_start + 3, ex_task) 5) ex_cap_mgr) as [[ress m']|] eqn:E;
    [|vm_compute in E; discriminate].
  exists ress, m'. split; [reflexivity|].
  apply (daily_cap_respected ex_cap_mgr "a" (fresh_record (ex_spec "a" true) ex_start)
           (repeat (ex_start + 3, ex_task) 5) 2 ress m').
  - apply New_wf. vm_compute. reflexivity.
  - vm_compute. reflexivity.
  - discriminate.
  - repeat constructor.
  - vm_compute. reflexivity.
  - reflexivity.
  - exact E.
Defined.
