(* ===== verification/EgressBreaker.v ===== *)
(** The circuit breaker of an (identity, destination) pair through whole runs of
    the manager's methods: how each method acts on the breaker, and that a
    breaker that has collected its threshold of failures keeps the identity away
    from the destination for the cool-down. *)

From S2P Require Import Prelude GoStrings Float64 GoTime Engine Health Egress EgressInv EgressSel.
From S2P Require Import EgressOps EgressProps.
Local Open Scope Z_scope.

(** ** Signals and failures of a pair *)



Section Pair.
Variables (id dest : string).








(** ** What each method does to the breaker *)














(** ** Counting failures *)









(** ** Runs *)




End Pair.


