(* ===== verification/EgressLife.v ===== *)
(** The lifecycle of an identity: the health and breaker automata over any
    history, the warm-up ramp in closed form, the locality of signals, the
    online switch, the persisted snapshot, and the behaviours of the lifecycle
    that differ from its comments. *)

From Stdlib Require Import QArith.
From S2P Require Import Prelude GoStrings Float64 GoTime Engine Health Egress EgressInv EgressSel.
From S2P Require Import EgressOps EgressProps.
Local Open Scope Z_scope.

(** ** Health and breaker over a history *)

Fixpoint observe_all (obs : list (bool * float64)) (h : health) : health :=
  match obs with
  | [] => h
  | (good, a) :: obs => observe_all obs (observe good a h)
  end.

(** The health score is a probability in float64 arithmetic: from a new
    score, after any history of good and bad outcomes with weights in [0, 1],
    it is a finite float64 between 0 and 1, in spite of the rounding of the
    three operations of the average. *)
Theorem health_score_unit obs :
  Forall (fun o => funit o.2) obs -> funit (score (observe_all obs newHealth)).
Proof.
  intros HF. assert (Hh : funit (score newHealth)) by auto with rcptto. revert Hh HF.
  generalize newHealth. induction obs as [|[g a] obs IH]; intros h Hh HF; simpl; [done|].
  inv HF. apply IH; auto with rcptto.
Qed.

Lemma health_score_unit_witness :
  funit (score (observe_all [(true, f64 (3 # 10)); (false, f64 (3 # 20)); (true, f64 1)] newHealth)).
Proof.
  apply (health_score_unit [(true, f64 (3 # 10)); (false, f64 (3 # 20)); (true, f64 1)]).
  repeat constructor; apply funit_f64; discriminate.
Defined.

(** What happens to a breaker: a probe asks to go, succeeds, or fails. *)
Inductive cb_event := CBAllow (t : Time) | CBSuccess | CBFailure (t : Time).

Definition cb_step (th : Z) (cd : Duration) (c : circuit) (e : cb_event) : circuit :=
  match e with
  | CBAllow t => (allow t c).2
  | CBSuccess => onSuccess c
  | CBFailure t => onFailure t th cd c
  end.

Definition cb_run (th : Z) (cd : Duration) (es : list cb_event) : circuit :=
  fold_left (cb_step th cd) es circuit_zero.

Definition is_success (e : cb_event) : bool := match e with CBSuccess => true | _ => false end.

(** Failures since the last success of a history. *)
Definition streak (es : list cb_event) : Z :=
  fold_left (fun n e => match e with CBFailure _ => n + 1 | CBSuccess => 0 | CBAllow _ => n end) es 0.

Lemma cb_run_snoc th cd es e : cb_run th cd (es ++ [e]) = cb_step th cd (cb_run th cd es) e.
Proof. unfold cb_run. by rewrite fold_left_app. Qed.

Lemma streak_snoc es e :
  streak (es ++ [e]) = match e with CBFailure _ => streak es + 1 | CBSuccess => 0 | CBAllow _ => streak es end.
Proof. unfold streak. by rewrite fold_left_app. Qed.

Lemma cb_run_failures th cd es : failures (cb_run th cd es) = streak es.
Proof.
  induction es as [|e es IH] using rev_ind; [done|].
  rewrite cb_run_snoc, streak_snoc. destruct e as [t| |t]; simpl.
  - rewrite <- IH. unfold allow. by repeat case_match.
  - done.
  - rewrite <- IH. unfold onFailure. by case_match.
Qed.

(** An open or half-open breaker was opened by a failure, after which there was
    no success, when the streak had reached the threshold or the breaker was
    half-open; an open one refuses for the cool-down of its last failure. *)
Lemma cb_run_not_closed th cd es :
  cb_state (cb_run th cd es) <> cbClosed ->
  th <= streak es /\
  exists es1 t es2, es = es1 ++ CBFailure t :: es2 /\
    Forall (fun e => is_success e = false) es2 /\
    (cb_state (cb_run th cd es) = cbOpen -> openUntil (cb_run th cd es) = t + cd).
Proof.
  induction es as [|e es IH] using rev_ind; [done|].
  rewrite cb_run_snoc, streak_snoc. intros Hc. destruct e as [t| |t]; simpl in *; [|done|].
  - destruct IH as (Hs & es1 & u & es2 & -> & HF & Ho).
    { intros E. apply Hc. unfold allow. by rewrite E. }
    split; [done|]. exists es1, u, (es2 ++ [CBAllow t]). rewrite <- app_assoc. split; [done|].
    split; [apply Forall_app; split; [done|by repeat constructor]|].
    revert Ho. clear. generalize (cb_run th cd (es1 ++ CBFailure u :: es2)). intros c Ho. unfold allow.
    destruct c as [[] f o]; simpl in *; try done. by destruct (After t o).
  - revert Hc. unfold onFailure. case_match eqn:E; simpl; intros Hc.
    + split.
      * apply orb_true_iff in E as [E|E].
        -- apply bool_decide_eq_true_1 in E. destruct IH as [Hs _]; [by rewrite E|]. lia.
        -- rewrite cb_run_failures in E. bool_to_prop. lia.
      * exists es, t, []. repeat split; constructor.
    + apply orb_false_iff in E as [E1 E2]. rewrite cb_run_failures in E2. bool_to_prop.
      destruct IH as [Hs _]; [done|]. lia.
Qed.

(** The breaker refuses a probe only for cause: over any history from a new
    breaker, when [allow] refuses at [now] the failures since the last success
    reach the threshold, and the last of them that matters happened no longer
    than the cool-down ago with no success since. *)
Theorem breaker_refusal_justified th cd es now :
  (allow now (cb_run th cd es)).1 = false ->
  th <= streak es /\
  exists es1 t es2, es = es1 ++ CBFailure t :: es2 /\
    Forall (fun e => is_success e = false) es2 /\ now <= t + cd.
Proof.
  intros Ha. destruct (cb_run_not_closed th cd es) as (Hs & es1 & t & es2 & He & HF & Ho).
  { intros E. unfold allow in Ha. by rewrite E in Ha. }
  split; [done|]. exists es1, t, es2. split; [done|]. split; [done|].
  unfold allow in Ha. destruct (cb_state _) eqn:E; try done.
  rewrite Ho in Ha by done. unfold After in Ha. case_match; [done|]. bool_to_prop. lia.
Qed.

Lemma breaker_refusal_justified_witness :
  let es := [CBFailure 1; CBSuccess; CBFailure 2; CBAllow 2; CBFailure 3] in
  (allow 4 (cb_run 2 10 es)).1 = false /\ 2 <= streak es.
Proof.
  intros es. split; [reflexivity|].
  exact (proj1 (breaker_refusal_justified 2 10 es 4 eq_refl)).
Defined.

(** The answers to probes that ask one after another, with no outcome between. *)
Fixpoint allow_all (ts : list Time) (c : circuit) : list bool :=
  match ts with
  | [] => []
  | t :: ts => let '(ok, c) := allow t c in ok :: allow_all ts c
  end.

(** The half-open breaker is not limited to one trial probe: once the
    cool-down is over, any number of probes asked for before the first outcome
    is known are all admitted. *)
Theorem half_open_admits_all c ts :
  cb_state c = cbOpen -> Forall (fun t => openUntil c < t) ts ->
  allow_all ts c = replicate (length ts) true.
Proof.
  intros Hc HF. destruct ts as [|t0 ts]; [done|]. inv HF. simpl.
  unfold allow, After. rewrite Hc. rewrite (proj2 (Z.ltb_lt _ _)) by done. f_equal.
  clear. induction ts as [|t ts IH]; simpl; [done|]. by f_equal.
Qed.

Lemma half_open_admits_all_witness :
  allow_all [11; 11; 12] (cb_run 1 9 [CBFailure 1]) = [true; true; true].
Proof. apply (half_open_admits_all (cb_run 1 9 [CBFailure 1]) [11; 11; 12]); [done|by repeat constructor]. Defined.

(** ** Warm-up *)

(** [n] daily resets of a warming record: the ramp is climbed one stage a day
    and left after its last stage. *)
Lemma iter_reset_warming m n r :
  state r = StateWarming -> warmupStage r < len (warmupStages m) ->
  let r' := Nat.iter n (daily_reset m) r in
  state r' = (if warmupStage r + Z.of_nat n <? len (warmupStages m) then StateWarming else StateActive) /\
  warmupStage r' = Z.min (warmupStage r + Z.of_nat n) (len (warmupStages m)) /\
  usedToday r' = (if Nat.eqb n 0 then usedToday r else 0).
Proof.
  intros Hs Hw. induction n as [|n IH]; cbn zeta.
  - simpl. rewrite Z.add_0_r, (proj2 (Z.ltb_lt _ _)) by done. repeat split; (done || lia).
  - rewrite Nat.iter_succ. cbn zeta in IH. destruct IH as (IHs & IHw & _).
    set (r' := Nat.iter n (daily_reset m) r) in *. unfold daily_reset. simpl.
    destruct (Z.ltb_spec (warmupStage r + Z.of_nat n) (len (warmupStages m))) as [Hlt|Hge].
    + rewrite IHs, bool_decide_eq_true_2 by done. simpl. rewrite IHw, Z.geb_leb.
      destruct (Z.ltb_spec (warmupStage r + Z.of_nat (S n)) (len (warmupStages m))).
      * rewrite (proj2 (Z.leb_gt _ _)) by lia. repeat split; (done || lia).
      * rewrite (proj2 (Z.leb_le _ _)) by lia. repeat split; (done || lia).
    + rewrite IHs, bool_decide_eq_false_2 by done. simpl.
      rewrite (proj2 (Z.ltb_ge _ _)) by lia. repeat split; (done || lia).
Qed.

(** The warm-up ramp in closed form: [n] whole days after its last reset a
    warming identity stands [n] stages further, or is active when the ramp is
    over; its counter restarts and its window moves by exactly [n] days, however
    long the manager had been idle. *)
Theorem warmup_closed_form m r now :
  mgr_wf m -> rec_wf (len (warmupStages m)) r -> state r = StateWarming ->
  lastReset r <= now ->
  let n := (now - lastReset r) / dailyResetInterval in
  let r' := reconcile_record m now r in
  state r' = (if warmupStage r + n <? len (warmupStages m) then StateWarming else StateActive) /\
  (state r' = StateWarming -> capFor m r' = warmupStages m !! Z.to_nat (warmupStage r + n)) /\
  usedToday r' = (if n =? 0 then usedToday r else 0) /\
  lastReset r' = lastReset r + n * dailyResetInterval.
Proof.
  intros W R Hs Hnow n r'. pose proof (rwf_warming _ r R Hs) as Hw. pose proof (rwf_stage _ r R) as H0.
  assert (Hr' : r' = Nat.iter (Z.to_nat n) (daily_reset m) r).
  { unfold r', reconcile_record, expire_quarantine.
    rewrite Hs. simpl. by rewrite daily_loop_iter. }
  assert (Hn : 0 <= n) by (apply Z.div_pos; [lia|done]).
  destruct (iter_reset_warming m (Z.to_nat n) r Hs Hw) as (H1 & H2 & H3).
  pose proof (iter_reset_lastReset m (Z.to_nat n) r) as H4.
  rewrite <- Hr' in *. rewrite Z2Nat.id in * by done. clear Hr'.
  split; [done|]. split; [|split; [|done]].
  - intros Hs'. rewrite Hs' in H1. unfold capFor. rewrite Hs', bool_decide_eq_true_2 by done.
    destruct (Z.ltb_spec (warmupStage r + n) (len (warmupStages m))); [|done].
    rewrite H2, Z.min_l by lia. rewrite Z.geb_leb, (proj2 (Z.leb_gt _ _)) by lia.
    by rewrite (proj2 (Z.ltb_ge _ _)) by lia.
  - rewrite H3. destruct (Nat.eqb_spec (Z.to_nat n) 0); destruct (Z.eqb_spec n 0); (done || lia).
Qed.

Lemma warmup_closed_form_witness :
  let r' := reconcile_record ex_mgr (ex_start + 2 * dailyResetInterval + 5)
              (fresh_record (ex_spec "b" true) ex_start) in
  state r' = StateWarming /\ capFor ex_mgr r' = Some 1000 /\ usedToday r' = 0.
Proof.
  destruct (warmup_closed_form ex_mgr (fresh_record (ex_spec "b" true) ex_start)
              (ex_start + 2 * dailyResetInterval + 5) ex_mgr_wf) as (H1 & H2 & H3 & _).
  - apply (mgr_wf_lookup ex_mgr "b" _ ex_mgr_wf). vm_compute. reflexivity.
  - reflexivity.
  - vm_compute. discriminate.
  - split; [exact H1|]. split; [exact (H2 H1)|exact H3].
Defined.

(** ** Locality of the feedback *)

Definition blocked_for (id : string) (s : Signal) : bool :=
  String.eqb (Signal_EgressID s) id && match Signal_Kind s with SignalBlocked => true | _ => false end.

(** A record as seen by a destination. *)
Definition same_for (dest : string) (r r' : record) : Prop :=
  circuits r' !! dest = circuits r !! dest /\ rhealth r' !! dest = rhealth r !! dest /\
  state r' = state r /\ online r' = online r /\ usedToday r' = usedToday r /\
  warmupStage r' = warmupStage r.

Lemma apply_signal_elsewhere m now sig r dest :
  Signal_Destination sig <> dest -> 0 <= blockStreak r ->
  (match Signal_Kind sig with SignalBlocked => blockStreak r + 1 < quarantineThreshold m | _ => True end) ->
  same_for dest r (apply_signal m now sig r) /\
  blockStreak (apply_signal m now sig r)
    <= blockStreak r + match Signal_Kind sig with SignalBlocked => 1 | _ => 0 end.
Proof.
  intros Hd H0 Hb. unfold apply_signal. destruct (Signal_Kind sig); simpl;
    try (rewrite Z.geb_leb, (proj2 (Z.leb_gt _ _)) by lia; simpl);
    unfold same_for; simpl; rewrite ?lookup_insert_ne by done; repeat split; try done; lia.
Qed.

Lemma Emit_elsewhere now sigs m id r dest :
  mgr_wf m -> records m !! id = Some r ->
  Forall (fun s => Signal_EgressID s = id -> Signal_Destination s <> dest) sigs ->
  blockStreak r + len (List.filter (blocked_for id) sigs) < quarantineThreshold m ->
  exists r', records (Emit sigs now m) !! id = Some r' /\ same_for dest r r'.
Proof.
  revert m r. induction sigs as [|s sigs IH]; intros m r W Hr HF Hb; [by exists r|]. inv HF.
  simpl in *. assert (Hq : quarantineThreshold (emit_one now m s) = quarantineThreshold m)
    by (unfold emit_one; by destruct (records m !! Signal_EgressID s)).
  pose proof (emit_one_lookup id now m s) as Hl. rewrite Hr in Hl. simpl in Hl.
  pose proof (emit_one_wf now m s W) as W1. unfold blocked_for at 1 in Hb.
  pose proof (rwf_streak _ r (proj1 (mgr_wf_lookup m id r W Hr))) as H0.
  pose proof (len_nonneg (List.filter (blocked_for id) sigs)) as Hlen.
  destruct (decide (Signal_EgressID s = id)) as [He|He].
  - rewrite He, String.eqb_refl in Hb. simpl in Hb.
    destruct (apply_signal_elsewhere m now s r dest) as [Hs Hst]; [by auto|done| |].
    { destruct (Signal_Kind s); try done. unfold len in *. simpl in Hb. lia. }
    destruct (IH _ _ W1 Hl) as (r' & Hr' & Hs'); [done| |].
    { rewrite Hq. destruct (Signal_Kind s); unfold len in *; simpl in Hb; lia. }
    exists r'. split; [done|]. unfold same_for in *. naive_solver congruence.
  - rewrite (proj2 (String.eqb_neq _ _)) in Hb by done. simpl in Hb.
    apply IH; [done|done|done|by rewrite Hq].
Qed.

Lemma Emit_eligible_elsewhere m sigs t0 id r dest now :
  mgr_wf m -> records m !! id = Some r ->
  Forall (fun s => Signal_EgressID s = id -> Signal_Destination s <> dest) sigs ->
  blockStreak r + len (List.filter (blocked_for id) sigs) < quarantineThreshold m ->
  exists r', records (Emit sigs t0 m) !! id = Some r' /\
    eligible (Emit sigs t0 m) r' dest now = eligible m r dest now /\
    rec_score r' dest = rec_score r dest.
Proof.
  intros W Hr HF Hb. destruct (Emit_elsewhere t0 sigs m id r dest W Hr HF Hb) as (r' & Hr' & Hs).
  exists r'. split; [done|]. destruct Hs as (H1 & H2 & H3 & H4 & H5 & H6).
  assert (Hm : warmupStages (Emit sigs t0 m) = warmupStages m /\
               activeDailyCap (Emit sigs t0 m) = activeDailyCap m).
  { apply (fold_left_inv (fun m' => warmupStages m' = warmupStages m /\ activeDailyCap m' = activeDailyCap m));
      [|done]. intros m' s [<- <-]. unfold emit_one. by case_match. }
  destruct Hm as [Hm1 Hm2]. unfold eligible, circuit_admits, under_cap, capFor, rec_score.
  by rewrite H1, H2, H3, H4, H5, H6, Hm1, Hm2.
Qed.

(** Damage stays local: signals about other identities or other
    destinations, as long as blocks on this identity stay below the quarantine
    threshold, change neither whether an identity may probe a destination nor
    the score it competes with there. *)
Theorem Emit_locality m sigs t0 id r dest now :
  mgr_wf m -> records m !! id = Some r ->
  Forall (fun s => Signal_EgressID s = id -> Signal_Destination s <> dest) sigs ->
  blockStreak r + len (List.filter (blocked_for id) sigs) < quarantineThreshold m ->
  exists r', records (Emit sigs t0 m) !! id = Some r' /\
    eligible (Emit sigs t0 m) r' dest now = eligible m r dest now /\
    rec_score r' dest = rec_score r dest.
Proof. apply Emit_eligible_elsewhere. Qed.

Lemma Emit_locality_witness :
  exists r', records (Emit (repeat (ex_signal SignalBlocked "a" "gmail") 4) ex_start ex_mgr) !! "a" = Some r' /\
    eligible (Emit (repeat (ex_signal SignalBlocked "a" "gmail") 4) ex_start ex_mgr) r' "example.com" ex_start
    = true.
Proof.
  destruct (Emit_locality ex_mgr (repeat (ex_signal SignalBlocked "a" "gmail") 4) ex_start "a"
              (fresh_record (ex_spec "a" false) ex_start) "example.com" ex_start ex_mgr_wf)
    as (r' & Hr' & He & _).
  - vm_compute. reflexivity.
  - repeat constructor; discriminate.
  - vm_compute. reflexivity.
  - exists r'. split; [exact Hr'|]. rewrite He. vm_compute. reflexivity.
Defined.

(** ** The link of a remote identity *)

Lemma SetOnline_lookup id b m r :
  records m !! id = Some r -> records (SetOnline id b m) !! id = Some (set_online b r).
Proof.
  intros Hr. unfold SetOnline. rewrite Hr. destruct (Bool.eqb (online r) b) eqn:E.
  - apply Bool.eqb_prop in E. rewrite Hr, <- E. by destruct r.
  - apply lookup_insert_eq.
Qed.

(** An identity whose link is down is never handed out, and nothing else
    about it is lost: when the link comes back the manager is exactly what it
    was. *)
Theorem SetOnline_link m id r t now b m' :
  mgr_wf m -> records m !! id = Some r -> online r = true ->
  Binding (SetOnline id false m) t now = Some (Ok b, m') ->
  binding_ID b <> id /\ SetOnline id true (SetOnline id false m) = m.
Proof.
  intros W Hr Ho HB. split.
  - intros Hid. destruct (Binding_Ok _ t now b m' (SetOnline_wf id false m W) HB)
      as (r1 & _ & _ & Hr1 & He & _).
    rewrite Hid in Hr1. unfold reconciled in Hr1.
    rewrite lookup_fmap, (SetOnline_lookup id false m r Hr) in Hr1. simpl in Hr1. injection Hr1 as <-.
    assert (Hoff : online (reconcile_record (SetOnline id false m) now (set_online false r)) = false).
    { unfold reconcile_record. rewrite daily_loop_iter by done.
      apply (iter_inv (fun r' => online r' = false)).
      - intros r' <-. unfold daily_reset. simpl. by case_match.
      - unfold expire_quarantine. by case_match. }
    unfold eligible in He. rewrite Hoff in He. bool_to_prop. done.
  - pose proof (SetOnline_lookup id false m r Hr) as Hl. unfold SetOnline at 1. rewrite Hl. simpl.
    unfold SetOnline. rewrite Hr, Ho. simpl. unfold set_records. simpl.
    rewrite insert_insert_eq. assert (Hrr : set_online true (set_online false r) = r)
      by (destruct r; simpl in *; by subst).
    rewrite Hrr, insert_id by done. by destruct m.
Qed.

Lemma SetOnline_link_witness :
  exists b m', Binding (SetOnline "a" false ex_mgr) ex_task ex_start = Some (Ok b, m') /\
    binding_ID b <> "a" /\ SetOnline "a" true (SetOnline "a" false ex_mgr) = ex_mgr.
Proof.
  destruct (Binding (SetOnline "a" false ex_mgr) ex_task ex_start) as [[[b|] m']|] eqn:E;
    [|vm_compute in E; discriminate|vm_compute in E; discriminate].
  exists b, m'. split; [reflexivity|].
  apply (SetOnline_link ex_mgr "a" (fresh_record (ex_spec "a" false) ex_start) ex_task ex_start b m').
  - exact ex_mgr_wf.
  - vm_compute. reflexivity.
  - reflexivity.
  - exact E.
Defined.

(** ** The persisted snapshot *)

Lemma State_String_of s : State_String (State_of s) = s.
Proof.
  unfold State_of.
  repeat match goal with |- context [String.eqb s ?x] =>
    destruct (String.eqb_spec s x); [by subst|] end. done.
Qed.

(** What a record holds of the persisted health before its entry is restored:
    nothing, or the entry already. *)
Definition health_pending (st : EgressState) (r : record) : Prop :=
  rhealth r = ∅ \/ rhealth r = (fun s => {| score := s; samples := 0 |}) <$> es_Health st.

Lemma restore_snapshot id r1 r :
  lastReset r1 <> 0 -> health_pending (snapshot_record id r1) r ->
  snapshot_record id (restore_record (snapshot_record id r1) r) = snapshot_record id r1 /\
  health_pending (snapshot_record id r1) (restore_record (snapshot_record id r1) r).
Proof.
  intros Hl Hp. unfold snapshot_record at 1. simpl. unfold IsZero.
  rewrite (proj2 (Z.eqb_neq (lastReset r1) 0)) by done. rewrite State_String_of.
  assert (Hh : rhealth (restore_record (snapshot_record id r1) r)
               = (fun s => {| score := s; samples := 0 |}) <$> (score <$> rhealth r1)).
  { simpl. destruct Hp as [->| ->]; [by rewrite (right_id_L ∅ (∪))|by rewrite (idemp_L (∪))]. }
  simpl in Hh. rewrite Hh. split; [|by right].
  unfold snapshot_record. f_equal.
  rewrite <- !map_fmap_compose. by apply map_fmap_ext.
Qed.

Lemma restore_one_order m st : order (restore_one m st) = order m.
Proof. unfold restore_one. by case_match. Qed.

(** Restoring the snapshot of [m] entry by entry: the entries met so far read
    back as they were written. *)
Lemma restore_fold m (ids done_ids : list string) cur :
  (forall id, id ∈ done_ids ++ ids -> exists r1, records m !! id = Some r1 /\ lastReset r1 <> 0) ->
  (forall id r1, records m !! id = Some r1 -> exists r, records cur !! id = Some r /\
     health_pending (snapshot_record id r1) r /\
     (id ∈ done_ids -> snapshot_record id r = snapshot_record id r1)) ->
  forall l, Forall2 (fun id x => exists r, records m !! id = Some r /\ x = snapshot_record id r) ids l ->
  order (fold_left restore_one l cur) = order cur /\
  forall id r1, records m !! id = Some r1 -> exists r, records (fold_left restore_one l cur) !! id = Some r /\
    (id ∈ done_ids ++ ids -> snapshot_record id r = snapshot_record id r1).
Proof.
  revert done_ids cur. induction ids as [|i ids IH]; intros done_ids cur Hreset Hcur l HF.
  - inv HF. simpl. split; [done|]. intros id r1 Hr1. destruct (Hcur id r1 Hr1) as (r & Hr & _ & Hd).
    exists r. split; [done|]. by rewrite app_nil_r.
  - inversion HF as [|? x ? l' (r0 & Hr0 & ->) HF']; subst. simpl.
    destruct (Hreset i) as (r1 & Hr1 & Hlr); [set_solver|]. assert (r0 = r1) as -> by congruence.
    destruct (Hcur i r1 Hr1) as (rc & Hrc & Hpc & _).
    destruct (restore_snapshot i r1 rc Hlr Hpc) as [Hsn Hpn].
    assert (Hone : restore_one cur (snapshot_record i r1)
                   = set_records (<[i := restore_record (snapshot_record i r1) rc]> (records cur)) cur).
    { unfold restore_one. simpl. by rewrite Hrc. }
    destruct (IH (done_ids ++ [i]) (restore_one cur (snapshot_record i r1))) with (l := l')
      as [Ho Hl]; [by rewrite <- app_assoc| |done|].
    + intros id r2 Hr2. rewrite Hone. simpl. rewrite lookup_insert. case_decide as Hi.
      * subst id. assert (r2 = r1) as -> by congruence. eauto.
      * destruct (Hcur id r2 Hr2) as (r & Hr & Hp & Hd). exists r. repeat split; [done|done|].
        intros Hin. apply Hd. set_solver.
    + rewrite Ho, restore_one_order. split; [done|]. by rewrite <- app_assoc in Hl.
Qed.

Lemma seed_fresh start specs m :
  map_Forall (fun _ r => rhealth r = ∅) (records m) ->
  map_Forall (fun _ r => rhealth r = ∅) (records (fold_left (seed start) specs m)).
Proof.
  apply (fold_left_inv (fun m => map_Forall (fun _ r => rhealth r = ∅) (records m))).
  intros m' s H. by apply map_Forall_insert_2.
Qed.

(** Reputation survives a restart: a manager built over the same identities
    that restores a snapshot has that very snapshot, so no state, counter,
    deadline, reason or score is lost or invented. *)
Theorem Snapshot_Restore_roundtrip m cfg start l :
  mgr_wf m -> alpha_ok (cfg_HealthAlpha cfg) ->
  order (New cfg start) = order m ->
  map_Forall (fun _ r => lastReset r <> 0) (records m) ->
  Snapshot m = Some l ->
  Snapshot (Restore l (New cfg start)) = Some l.
Proof.
  intros W Ha Ho Hlr Hl. destruct (Snapshot_total m W) as (l' & Hl' & HF). rewrite Hl in Hl'. inv Hl'.
  pose proof (New_wf cfg start Ha) as W0.
  assert (Hf : map_Forall (fun _ r => rhealth r = ∅) (records (New cfg start)))
    by (apply seed_fresh; apply map_Forall_empty).
  destruct (restore_fold m (order m) [] (New cfg start)) with (l := l') as [Hord Hrec].
  - intros id Hid. apply (mwf_order m W) in Hid as [r1 Hr1]. exists r1. split; [done|]. by apply (Hlr id).
  - intros id r1 Hr1. assert (Hin : id ∈ order (New cfg start)) by (rewrite Ho; apply (mwf_order m W); eauto).
    apply (mwf_order _ W0) in Hin as [r Hr]. exists r. split; [done|]. split; [left; by apply (Hf id)|].
    by intros ?%not_elem_of_nil.
  - done.
  - unfold Restore, Snapshot. simpl. rewrite Hord, Ho. apply mapM_Some.
    eapply Forall2_impl; [|exact HF]. simpl. intros id x (r1 & Hr1 & ->).
    destruct (Hrec id r1 Hr1) as (r & Hr & Hsn). rewrite Hr. simpl. rewrite Hsn; [done|].
    apply (mwf_order m W). eauto.
Qed.

Lemma Snapshot_Restore_roundtrip_witness :
  exists l, Snapshot (Quarantine "b" "manual" ex_start
              (Emit (repeat (ex_signal SignalBlocked "a" "gmail") 2) ex_start ex_mgr)) = Some l /\
    Snapshot (Restore l (New ex_cfg (ex_start + Hour))) = Some l.
Proof.
  set (m := Quarantine "b" "manual" ex_start
              (Emit (repeat (ex_signal SignalBlocked "a" "gmail") 2) ex_start ex_mgr)).
  assert (W : mgr_wf m) by (apply Quarantine_wf, Emit_wf, ex_mgr_wf).
  destruct (Snapshot m) as [l|] eqn:E; [|exfalso; vm_compute in E; discriminate].
  exists l. split; [reflexivity|].
  apply (Snapshot_Restore_roundtrip m ex_cfg (ex_start + Hour) l W ex_alpha_ok); [| |exact E].
  - reflexivity.
  - apply map_Forall_to_list. vm_compute. repeat constructor; discriminate.
Defined.

(** ** Lifecycle behaviours that differ from the comments *)

(** A disabled identity does not need an operator to come back: a block
    that completes its streak turns "disabled" into "quarantined", and the next
    reconciliation after the cool-down returns it to service. *)
Theorem blocked_disabled_returns m id r sig t0 now :
  mgr_wf m -> records m !! id = Some r -> state r = StateDisabled ->
  Signal_EgressID sig = id -> Signal_Kind sig = SignalBlocked ->
  quarantineThreshold m <= blockStreak r + 1 -> t0 + quarantineCooldown m < now ->
  exists r', records (Emit [sig] t0 m) !! id = Some r' /\ state r' = StateQuarantined /\
    (state (reconcile_record m now r') = StateWarming \/ state (reconcile_record m now r') = StateActive).
Proof.
  intros W Hr Hs Hid Hk Hth Hnow. simpl.
  pose proof (emit_one_lookup id t0 m sig) as Hl. rewrite decide_True, Hr in Hl by done. simpl in Hl.
  eexists. split; [exact Hl|]. unfold apply_signal. rewrite Hk. simpl.
  rewrite Z.geb_leb, (proj2 (Z.leb_le _ _)) by lia. split; [done|].
  unfold reconcile_record, expire_quarantine. simpl. unfold After, Add.
  rewrite (proj2 (Z.ltb_lt _ _)) by lia. simpl. rewrite daily_loop_iter by done.
  apply (iter_inv (fun r' => state r' = StateWarming \/ state r' = StateActive)); [|by left].
  intros r' Hr'. unfold daily_reset. simpl. case_match; [|done]. simpl. case_match; auto.
Qed.

Lemma blocked_disabled_returns_witness :
  exists r', records (Emit [ex_signal SignalBlocked "a" "gmail"] (ex_start + 1)
      (Disable "a" "operator" (Emit (repeat (ex_signal SignalBlocked "a" "gmail") 4) ex_start ex_mgr))) !! "a"
    = Some r' /\ state r' = StateQuarantined.
Proof.
  set (m := Disable "a" "operator" (Emit (repeat (ex_signal SignalBlocked "a" "gmail") 4) ex_start ex_mgr)).
  assert (W : mgr_wf m) by (apply Disable_wf, Emit_wf, ex_mgr_wf).
  destruct (records m !! "a") as [r|] eqn:E; [|exfalso; vm_compute in E; discriminate].
  assert (Hr : state r = StateDisabled /\ blockStreak r = 4).
  { vm_compute in E. injection E as <-. split; reflexivity. }
  destruct (blocked_disabled_returns m "a" r (ex_signal SignalBlocked "a" "gmail") (ex_start + 1)
              (ex_start + 2 * Hour) W E (proj1 Hr)) as (r' & H1 & H2 & _);
    [reflexivity|reflexivity|rewrite (proj2 Hr); vm_compute; discriminate|vm_compute; reflexivity|].
  exists r'. split; [exact H1|exact H2].
Defined.

(** A quarantine can end in the active state: when as many days as the ramp
    has stages have passed since the last reset (an idle manager), the
    reconciliation that ends the quarantine also climbs the whole ramp. *)
Theorem quarantine_skips_warmup m r now :
  mgr_wf m -> state r = StateQuarantined -> quarantinedUntil r < now ->
  lastReset r + len (warmupStages m) * dailyResetInterval <= now ->
  state (reconcile_record m now r) = StateActive.
Proof.
  intros W Hs Hq Hl. pose proof (stages_pos m W) as Hn.
  unfold reconcile_record. set (r1 := expire_quarantine now r).
  assert (Hr1 : state r1 = StateWarming /\ warmupStage r1 = 0 /\ lastReset r1 = lastReset r).
  { unfold r1, expire_quarantine. rewrite Hs. simpl. unfold After. by rewrite (proj2 (Z.ltb_lt _ _)). }
  destruct Hr1 as (H1 & H2 & H3). rewrite daily_loop_iter by done.
  destruct (iter_reset_warming m (days_due now r1) r1 H1) as [-> _]; [lia|].
  assert (Hd : len (warmupStages m) <= Z.of_nat (days_due now r1)).
  { unfold days_due. rewrite H3. assert (len (warmupStages m) <= (now - lastReset r) / dailyResetInterval)
      by (apply Z.div_le_lower_bound; [done|lia]). lia. }
  rewrite (proj2 (Z.ltb_ge _ _)) by lia. done.
Qed.

Lemma quarantine_skips_warmup_witness :
  exists r, records (Quarantine "b" "manual" ex_start ex_mgr) !! "b" = Some r /\
    state (reconcile_record ex_mgr (ex_start + 4 * dailyResetInterval) r) = StateActive.
Proof.
  destruct (records (Quarantine "b" "manual" ex_start ex_mgr) !! "b") as [r|] eqn:E;
    [|exfalso; vm_compute in E; discriminate].
  exists r. split; [reflexivity|]. vm_compute in E. injection E as <-.
  apply (quarantine_skips_warmup ex_mgr _ (ex_start + 4 * dailyResetInterval) ex_mgr_wf);
    [reflexivity|vm_compute; reflexivity|vm_compute; discriminate].
Defined.
