(* ===== verification/Regex.v ===== *)
(** Go's [regexp] on the anchored patterns the program uses.

    The patterns are built from ASCII character classes, concatenation,
    alternation, repetition and counted repetition, between [^] and [$] (the
    whole text).  A rune outside ASCII is in none of the classes, so matching
    the bytes is matching the runes.  [re_match] decides a pattern by
    derivatives; [lang] is its meaning; [re_match_lang] says they agree. *)

From S2P Require Import Prelude GoStrings.
Local Open Scope list_scope.

Inductive re : Type :=
| RNone
| REmpty
| RClass (p : ascii -> bool)
| RSeq (r1 r2 : re)
| RAlt (r1 r2 : re)
| RStar (r : re).

Definition RPlus (r : re) : re := RSeq r (RStar r).
Definition ROpt (r : re) : re := RAlt r REmpty.
(** [r{0,n}] *)
Fixpoint RUpTo (n : nat) (r : re) : re :=
  match n with O => REmpty | S n => ROpt (RSeq r (RUpTo n r)) end.

(** ** Meaning *)

Inductive lang : re -> list ascii -> Prop :=
| lang_empty : lang REmpty []
| lang_class p a : p a = true -> lang (RClass p) [a]
| lang_seq r1 r2 s1 s2 : lang r1 s1 -> lang r2 s2 -> lang (RSeq r1 r2) (s1 ++ s2)
| lang_alt_l r1 r2 s : lang r1 s -> lang (RAlt r1 r2) s
| lang_alt_r r1 r2 s : lang r2 s -> lang (RAlt r1 r2) s
| lang_star_nil r : lang (RStar r) []
| lang_star_cons r s1 s2 : lang r s1 -> lang (RStar r) s2 -> lang (RStar r) (s1 ++ s2).

#[export] Hint Constructors lang : rcptto.

(** ** Decision *)

(** Concatenation and alternation that drop the parts that cannot match. *)
Definition mk_seq (r1 r2 : re) : re :=
  match r1 with RNone => RNone | REmpty => r2 | _ => RSeq r1 r2 end.
Definition mk_alt (r1 r2 : re) : re :=
  match r1, r2 with RNone, r => r | r, RNone => r | _, _ => RAlt r1 r2 end.

Fixpoint nullable (r : re) : bool :=
  match r with
  | RNone | RClass _ => false
  | REmpty | RStar _ => true
  | RSeq r1 r2 => nullable r1 && nullable r2
  | RAlt r1 r2 => nullable r1 || nullable r2
  end.

Fixpoint residual (a : ascii) (r : re) : re :=
  match r with
  | RNone | REmpty => RNone
  | RClass p => if p a then REmpty else RNone
  | RSeq r1 r2 =>
      if nullable r1 then mk_alt (mk_seq (residual a r1) r2) (residual a r2)
      else mk_seq (residual a r1) r2
  | RAlt r1 r2 => mk_alt (residual a r1) (residual a r2)
  | RStar r => mk_seq (residual a r) (RStar r)
  end.

Fixpoint re_match (r : re) (s : list ascii) : bool :=
  match s with
  | [] => nullable r
  | a :: s => re_match (residual a r) s
  end.

(** ** Agreement *)

Lemma lang_none s : ~ lang RNone s.
Proof. inversion 1. Qed.

Lemma lang_seq_inv r1 r2 s :
  lang (RSeq r1 r2) s <-> exists s1 s2, s = s1 ++ s2 /\ lang r1 s1 /\ lang r2 s2.
Proof.
  split.
  - inversion 1; subst. eauto.
  - intros (s1 & s2 & -> & H1 & H2). auto with rcptto.
Qed.

Lemma lang_alt_inv r1 r2 s : lang (RAlt r1 r2) s <-> lang r1 s \/ lang r2 s.
Proof. split; [inversion 1; auto|]. intros []; auto with rcptto. Qed.

Lemma lang_empty_inv s : lang REmpty s <-> s = [].
Proof. split; [by inversion 1|]. intros ->. constructor. Qed.

Lemma lang_class_inv p s : lang (RClass p) s <-> exists a, s = [a] /\ p a = true.
Proof. split; [inversion 1; eauto|]. intros (a & -> & H). by constructor. Qed.

Lemma mk_seq_lang r1 r2 s : lang (mk_seq r1 r2) s <-> lang (RSeq r1 r2) s.
Proof.
  destruct r1; simpl; try done; rewrite lang_seq_inv.
  - split; [by intros ?%lang_none|]. by intros (? & ? & _ & ?%lang_none & _).
  - split; [exists [], s; auto with rcptto|].
    intros (s1 & s2 & -> & ->%lang_empty_inv & H). done.
Qed.

Lemma mk_alt_lang r1 r2 s : lang (mk_alt r1 r2) s <-> lang r1 s \/ lang r2 s.
Proof.
  pose proof (lang_none s).
  destruct r1; simpl; [naive_solver|..]; destruct r2; rewrite ?lang_alt_inv; naive_solver.
Qed.

Lemma nullable_lang r : nullable r = true <-> lang r [].
Proof.
  induction r as [| |p|r1 IH1 r2 IH2|r1 IH1 r2 IH2|r IH]; simpl.
  - split; [done|]. by intros ?%lang_none.
  - split; auto with rcptto.
  - rewrite lang_class_inv. naive_solver.
  - rewrite andb_true_iff, IH1, IH2, lang_seq_inv. split; [by exists [], []|].
    intros (s1 & s2 & H & H1 & H2). symmetry in H. apply app_nil in H as [-> ->]. done.
  - rewrite orb_true_iff, IH1, IH2, lang_alt_inv. done.
  - split; auto with rcptto.
Qed.

(** The first non-empty round of a repetition. *)
Lemma lang_star_first r a s :
  lang (RStar r) (a :: s) -> exists s1 s2, s = s1 ++ s2 /\ lang r (a :: s1) /\ lang (RStar r) s2.
Proof.
  intros H. remember (RStar r) as r0 eqn:Hr0. remember (a :: s) as t eqn:Ht.
  revert a s Ht. induction H as [| | | | | |r' s1 s2 H1 _ H2 IH2]; intros a0 s0 Ht; simplify_eq.
  destruct s1 as [|b s1]; simpl in Ht; [by apply IH2|]. simplify_eq. eauto.
Qed.

Lemma residual_lang a r s : lang (residual a r) s <-> lang r (a :: s).
Proof.
  revert s. induction r as [| |p|r1 IH1 r2 IH2|r1 IH1 r2 IH2|r IH]; intros s; simpl.
  - split; by intros ?%lang_none.
  - rewrite lang_empty_inv. split; [by intros ?%lang_none|done].
  - rewrite lang_class_inv. destruct (p a) eqn:E.
    + rewrite lang_empty_inv. split; [intros ->; eauto|naive_solver].
    + split; [by intros ?%lang_none|]. intros (b & Hb & Hp). injection Hb as <- ->. congruence.
  - assert (Hseq : lang (RSeq r1 r2) (a :: s) <->
      (exists s1 s2, s = s1 ++ s2 /\ lang (residual a r1) s1 /\ lang r2 s2) \/
      (nullable r1 = true /\ lang r2 (a :: s))).
    { rewrite lang_seq_inv, nullable_lang. split.
      - intros ([|b s1] & s2 & Hs & H1 & H2); simpl in Hs.
        + right. by subst.
        + left. simplify_eq. exists s1, s2. by rewrite IH1.
      - intros [(s1 & s2 & -> & H1 & H2)|[H1 H2]].
        + exists (a :: s1), s2. by rewrite <- IH1.
        + by exists [], (a :: s). }
    rewrite Hseq. destruct (nullable r1).
    + rewrite mk_alt_lang, mk_seq_lang, lang_seq_inv, IH2. naive_solver.
    + rewrite mk_seq_lang, lang_seq_inv. naive_solver.
  - rewrite mk_alt_lang, IH1, IH2, lang_alt_inv. done.
  - rewrite mk_seq_lang, lang_seq_inv. split.
    + intros (s1 & s2 & -> & H1 & H2). apply IH in H1.
      change (a :: s1 ++ s2) with ((a :: s1) ++ s2). by constructor.
    + intros (s1 & s2 & -> & H1 & H2)%lang_star_first. exists s1, s2. by rewrite IH.
Qed.

Lemma re_match_lang r s : re_match r s = true <-> lang r s.
Proof.
  revert r. induction s as [|a s IH]; intros r; simpl; [apply nullable_lang|].
  by rewrite IH, residual_lang.
Qed.

(** ** Common shapes *)

Lemma lang_star_class p s : lang (RStar (RClass p)) s <-> Forall (fun a => p a = true) s.
Proof.
  split.
  - induction s as [|a s IH]; [constructor|]. intros (s1 & s2 & -> & H1 & H2)%lang_star_first.
    apply lang_class_inv in H1 as (b & [= -> ->] & Hb). constructor; [done|]. by apply IH.
  - induction 1 as [|a s Ha _ IH]; [constructor|].
    change (a :: s) with ([a] ++ s). auto with rcptto.
Qed.

Lemma lang_plus_class p s :
  lang (RPlus (RClass p)) s <-> s <> [] /\ Forall (fun a => p a = true) s.
Proof.
  unfold RPlus. rewrite lang_seq_inv. split.
  - intros (s1 & s2 & -> & (a & -> & Ha)%lang_class_inv & H2%lang_star_class). by repeat constructor.
  - intros [Hne HF]. destruct HF as [|a s Ha HF]; [done|]. exists [a], s.
    split; [done|]. split; [by constructor|]. by apply lang_star_class.
Qed.

Lemma lang_upto_class n p s :
  lang (RUpTo n (RClass p)) s <-> (length s <= n)%nat /\ Forall (fun a => p a = true) s.
Proof.
  revert s. induction n as [|n IH]; intros s; simpl.
  - rewrite lang_empty_inv. split; [by intros ->|]. intros [H _]. by destruct s; simpl in *; [|lia].
  - unfold ROpt. rewrite lang_alt_inv, lang_empty_inv, lang_seq_inv. split.
    + intros [(s1 & s2 & -> & (a & -> & Ha)%lang_class_inv & [H1 H2]%IH)| ->].
      * simpl. split; [lia|by constructor].
      * simpl. split; [lia|constructor].
    + intros [Hl HF]. destruct HF as [|a s Ha HF]; [by right|]. left. exists [a], s.
      split; [done|]. split; [by constructor|]. apply IH. split; [simpl in Hl; lia|done].
Qed.
