(* ===== verification/Syntax.v ===== *)
(** [internal/pipeline/syntax.go]: the address grammar.

    The two regular expressions are translated as they are written; the
    theorem shows that together with the splitting and the length checks they
    accept exactly the addresses of a declarative grammar. *)

From S2P Require Import Prelude GoStrings Regex.
Local Open Scope list_scope.
Local Open Scope Z_scope.

Definition maxEmailLen : Z := 254.
Definition maxLocalLen : Z := 64.
Definition maxDomainLen : Z := 255.

Definition at_byte : ascii := "@"%char.
Definition dot_byte : ascii := "."%char.
Definition hyphen_byte : ascii := "-"%char.

Definition is_alpha (a : ascii) : bool := is_upper a || is_lower a.
Definition is_alnum (a : ascii) : bool := is_alpha a || is_digit a.
Definition byte_of (set : string) (a : ascii) : bool := existsb (Ascii.eqb a) (bytes set).
(** The class [[A-Za-z0-9!#$%&'*+/=?^_`{|}~-]] *)
Definition is_atext (a : ascii) : bool := is_alnum a || byte_of "!#$%&'*+/=?^_`{|}~-" a.

Definition localPartRe : re :=
  RSeq (RPlus (RClass is_atext))
       (RStar (RSeq (RClass (Ascii.eqb dot_byte)) (RPlus (RClass is_atext)))).

Definition domainLabelRe : re :=
  RSeq (RClass is_alnum)
       (ROpt (RSeq (RUpTo 61 (RClass (fun a => is_alnum a || Ascii.eqb a hyphen_byte)))
                   (RClass is_alnum))).

(** [isAllAlpha]: a byte of a rune outside ASCII is in neither range. *)
Definition isAllAlpha (s : list ascii) : bool := forallb is_alpha s.

(** [validDomain] *)
Definition validDomain (domain : string) : bool :=
  if HasPrefix domain "." || HasSuffix domain "." then false
  else
    let labels := split_on dot_byte (bytes domain) in
    if len labels <? 2 then false
    else if negb (forallb (re_match domainLabelRe) labels) then false
    else
      let tld := List.last labels [] in
      if (len tld <? 2) || negb (isAllAlpha tld) then false else true.

(** [splitAndValidate]; [None] is [ok = false]. *)
Definition splitAndValidate (addr : string) : option (string * string) :=
  let l := slen addr in
  if (l =? 0) || (l >? maxEmailLen) then None
  else
    let at_ := LastIndexByte addr at_byte in
    if (at_ <=? 0) || (at_ =? slen addr - 1) then None
    else
      let local := slice_to addr at_ in
      let domain := slice_from addr (at_ + 1) in
      if (slen local >? maxLocalLen) || (slen domain >? maxDomainLen) then None
      else if negb (re_match localPartRe (bytes local)) then None
      else if negb (validDomain domain) then None
      else Some (local, domain).

(** ** The grammar *)

(** A non-empty run of permitted characters. *)
Definition atom (s : list ascii) : Prop := s <> [] /\ Forall (fun a => is_atext a = true) s.
(** Atoms separated by single dots. *)
Definition dot_atom (s : list ascii) : Prop := Forall atom (split_on dot_byte s).

(** A DNS label: 1 to 63 letters, digits and hyphens, no hyphen at either end. *)
Definition label_ok (s : list ascii) : Prop :=
  (1 <= length s <= 63)%nat /\
  Forall (fun a => (is_alnum a || Ascii.eqb a hyphen_byte) = true) s /\
  (forall a, hd_error s = Some a -> is_alnum a = true) /\
  (forall a, list.last s = Some a -> is_alnum a = true).

Definition domain_ok (s : list ascii) : Prop :=
  let labels := split_on dot_byte s in
  (2 <= length labels)%nat /\ Forall label_ok labels /\
  (2 <= length (List.last labels []))%nat /\
  Forall (fun a => is_alpha a = true) (List.last labels []).

(** ** Lemmas *)

Lemma atext_not_dot a : is_atext a = true -> a <> dot_byte.
Proof. by intros H ->. Qed.
Lemma atext_not_at a : is_atext a = true -> a <> at_byte.
Proof. by intros H ->. Qed.
Lemma label_not_at a : (is_alnum a || Ascii.eqb a hyphen_byte) = true -> a <> at_byte.
Proof. by intros H ->. Qed.

Lemma atom_no_dot s : atom s -> Forall (fun a => a <> dot_byte) s.
Proof. intros [_ H]. eapply Forall_impl; [|exact H]. intros a. apply atext_not_dot. Qed.

Lemma dot_atom_single s : atom s -> dot_atom s.
Proof. intros H. unfold dot_atom. rewrite split_on_no_sep by (by apply atom_no_dot). by constructor. Qed.

Lemma dot_atom_cons s t : atom s -> dot_atom t -> dot_atom (s ++ dot_byte :: t).
Proof.
  intros H Ht. unfold dot_atom. rewrite split_on_app by (by apply atom_no_dot). by constructor.
Qed.

(** A dot-atom is an atom, or an atom, a dot and a shorter dot-atom. *)
Lemma dot_atom_inv s :
  dot_atom s -> atom s \/ exists p q, s = p ++ dot_byte :: q /\ atom p /\ dot_atom q.
Proof.
  unfold dot_atom. intros H. destruct (index_byte dot_byte s) as [i|] eqn:E.
  - right. apply index_byte_Some in E as (p & q & -> & _ & Hp).
    rewrite split_on_app in H by done. inv H. eauto.
  - left. apply index_byte_None in E. rewrite split_on_no_sep in H by done. by inv H.
Qed.

Definition dot_atoms_re : re := RSeq (RClass (Ascii.eqb dot_byte)) (RPlus (RClass is_atext)).

Lemma dot_atoms_re_inv s : lang dot_atoms_re s <-> exists t, s = dot_byte :: t /\ atom t.
Proof.
  unfold dot_atoms_re. rewrite lang_seq_inv. split.
  - intros (s1 & s2 & -> & (a & -> & Ha)%lang_class_inv & H2%lang_plus_class).
    apply Ascii.eqb_eq in Ha. subst a. eauto.
  - intros (t & -> & Ht). exists [dot_byte], t. split; [done|]. split; [by constructor|].
    by apply lang_plus_class.
Qed.

Lemma star_dot_atoms s :
  lang (RStar dot_atoms_re) s <-> s = [] \/ exists t, s = dot_byte :: t /\ dot_atom t.
Proof.
  split.
  - intros H. remember (RStar dot_atoms_re) as r eqn:Hr.
    induction H as [| | | | |r'|r' s1 s2 H1 _ H2 IH2]; simplify_eq; [by left|].
    right. apply dot_atoms_re_inv in H1 as (t & -> & Ht). exists (t ++ s2). split; [done|].
    destruct (IH2 eq_refl) as [->|(u & -> & Hu)].
    + rewrite app_nil_r. by apply dot_atom_single.
    + by apply dot_atom_cons.
  - intros [->|(t & -> & Ht)]; [constructor|].
    remember (length t) as n eqn:Hn. revert t Ht Hn.
    induction n as [n IH] using lt_wf_ind; intros t Ht ->.
    destruct (dot_atom_inv t Ht) as [Ha|(p & q & -> & Hp & Hq)].
    + rewrite <- (app_nil_r (dot_byte :: t)). constructor; [|constructor].
      apply dot_atoms_re_inv. eauto.
    + change (dot_byte :: p ++ dot_byte :: q) with ((dot_byte :: p) ++ dot_byte :: q).
      constructor; [apply dot_atoms_re_inv; eauto|].
      apply (IH (length q)); [|done|done]. rewrite length_app. simpl. lia.
Qed.

(** The local-part expression accepts exactly the dot-atoms. *)
Lemma localPartRe_spec s : re_match localPartRe s = true <-> dot_atom s.
Proof.
  rewrite re_match_lang. unfold localPartRe. rewrite lang_seq_inv. split.
  - intros (s1 & s2 & -> & H1%lang_plus_class & [->|(t & -> & Ht)]%star_dot_atoms).
    + rewrite app_nil_r. by apply dot_atom_single.
    + by apply dot_atom_cons.
  - intros [Ha|(p & q & -> & Hp & Hq)]%dot_atom_inv.
    + exists s, []. rewrite app_nil_r. split; [done|]. split; [by apply lang_plus_class|].
      apply star_dot_atoms. by left.
    + exists p, (dot_byte :: q). split; [done|]. split; [by apply lang_plus_class|].
      apply star_dot_atoms. eauto.
Qed.

(** The label expression accepts exactly the DNS labels. *)
Lemma domainLabelRe_spec s : re_match domainLabelRe s = true <-> label_ok s.
Proof.
  rewrite re_match_lang. unfold domainLabelRe, ROpt.
  rewrite lang_seq_inv. unfold label_ok. split.
  - intros (s1 & s2 & -> & (a & -> & Ha)%lang_class_inv & H2). apply lang_alt_inv in H2 as [H2|H2].
    + apply lang_seq_inv in H2 as (m & e & -> & [Hl Hm]%lang_upto_class & (b & -> & Hb)%lang_class_inv).
      rewrite !length_app. simpl. split; [lia|]. split; [|split].
      * constructor; [by rewrite Ha|]. apply Forall_app. split; [done|].
        constructor; [by rewrite Hb|constructor].
      * by intros ? [= <-].
      * intros c Hc. rewrite app_comm_cons, last_snoc in Hc. by injection Hc as <-.
    + apply lang_empty_inv in H2 as ->. simpl. split; [lia|]. split; [|split].
      * constructor; [by rewrite Ha|constructor].
      * by intros ? [= <-].
      * by intros ? [= <-].
  - intros (Hl & HF & Hh & Ht). destruct s as [|a s]; [simpl in Hl; lia|]. exists [a], s.
    split; [done|]. split; [constructor; by apply Hh|]. apply lang_alt_inv.
    destruct s as [|b s] using rev_ind; [right; constructor|left]. clear IHs.
    apply lang_seq_inv. exists s, [b]. split; [done|]. inv HF. apply Forall_app in H2 as [H2 _].
    rewrite length_cons, length_app in Hl. simpl in Hl. split.
    + apply lang_upto_class. split; [lia|done].
    + constructor. apply Ht. by rewrite app_comm_cons, last_snoc.
Qed.

Lemma split_on_snoc c l : split_on c (l ++ [c]) = split_on c l ++ [[]].
Proof.
  induction l as [|a l IH]; simpl; [by rewrite Ascii.eqb_refl|].
  destruct (Ascii.eqb_spec a c); rewrite IH; [done|].
  destruct (split_on c l) eqn:E; [by apply split_on_nonempty in E|done].
Qed.

Lemma split_on_Forall (P : ascii -> Prop) c l :
  P c -> Forall (Forall P) (split_on c l) -> Forall P l.
Proof.
  intros Hc. induction l as [|a l IH]; simpl; intros H; [constructor|].
  destruct (Ascii.eqb_spec a c) as [->|Hne].
  - inv H. constructor; [done|by apply IH].
  - destruct (split_on c l) as [|p ps] eqn:E; [by apply split_on_nonempty in E|].
    inv H. inv H2. constructor; [done|]. apply IH. by constructor.
Qed.

Lemma domain_ok_edges s : domain_ok s -> hd_error s <> Some dot_byte /\ list.last s <> Some dot_byte.
Proof.
  intros (_ & HF & Hl & _). split.
  - destruct s as [|a s]; [done|]. intros [= ->]. simpl in HF. inv HF. destruct H1 as [Hlen _]. simpl in Hlen. lia.
  - destruct s as [|a s _] using rev_ind; [done|]. rewrite last_snoc. intros [= ->].
    rewrite split_on_snoc, List.last_last in Hl. simpl in Hl. lia.
Qed.

Lemma HasPrefix_dot s : HasPrefix s "." = bool_decide (hd_error (bytes s) = Some dot_byte).
Proof.
  unfold HasPrefix. change (bytes ".") with [dot_byte]. destruct (bytes s) as [|a l]; [done|].
  cbn [has_prefix hd_error]. rewrite andb_true_r. destruct (Ascii.eqb_spec dot_byte a) as [<-|Hne].
  - by rewrite bool_decide_eq_true_2.
  - rewrite bool_decide_eq_false_2; [done|]. intros [= ->]. done.
Qed.

Lemma HasSuffix_dot s : HasSuffix s "." = bool_decide (list.last (bytes s) = Some dot_byte).
Proof.
  unfold HasSuffix. change (bytes ".") with [dot_byte]. destruct (bytes s) as [|a l _] using rev_ind; [done|].
  rewrite last_snoc, reverse_app, !reverse_singleton. cbn [has_prefix app]. rewrite andb_true_r.
  destruct (Ascii.eqb_spec dot_byte a) as [<-|Hne].
  - by rewrite bool_decide_eq_true_2.
  - rewrite bool_decide_eq_false_2; [done|]. intros [= ->]. done.
Qed.

(** [validDomain] accepts exactly the domains of the grammar. *)
Lemma validDomain_spec d : validDomain d = true <-> domain_ok (bytes d).
Proof.
  unfold validDomain. rewrite HasPrefix_dot, HasSuffix_dot. split.
  - intros H. case_match; [done|]. case_match eqn:E2; [done|]. case_match eqn:E3; [done|].
    case_match eqn:E4; [done|]. bool_to_prop. unfold domain_ok.
    assert (HF : Forall label_ok (split_on dot_byte (bytes d))).
    { apply forallb_Forall in E3. eapply Forall_impl; [|exact E3]. intros x. apply domainLabelRe_spec. }
    unfold isAllAlpha in *. split; [unfold len in *; lia|]. split; [done|]. split; [unfold len in *; lia|].
    by apply forallb_Forall.
  - intros Hd. destruct (domain_ok_edges _ Hd) as [H1 H2]. destruct Hd as (Hn & HF & Hl & Ha).
    rewrite !bool_decide_eq_false_2 by done. simpl.
    rewrite (proj2 (Z.ltb_ge _ _)) by (unfold len; lia).
    rewrite (proj2 (forallb_Forall _ _)); [simpl|eapply Forall_impl; [|exact HF]; intros x; apply domainLabelRe_spec].
    rewrite (proj2 (Z.ltb_ge _ _)) by (unfold len; lia). unfold isAllAlpha.
    by rewrite (proj2 (forallb_Forall _ _) Ha).
Qed.

Lemma domain_ok_no_at s : domain_ok s -> Forall (fun a => a <> at_byte) s.
Proof.
  intros (_ & HF & _). apply split_on_Forall with dot_byte; [done|].
  eapply Forall_impl; [|exact HF]. intros l (_ & Hl & _). eapply Forall_impl; [|exact Hl].
  intros a. apply label_not_at.
Qed.

Lemma last_index_byte_app c p q :
  Forall (fun a => a <> c) q -> last_index_byte c (p ++ c :: q) = Some (length p).
Proof.
  intros Hq. apply last_index_byte_None in Hq.
  induction p as [|a p IH]; simpl; [by rewrite Hq, Ascii.eqb_refl|by rewrite IH].
Qed.

(** The address grammar accepted by the funnel. *)
Definition address_ok (addr local domain : string) : Prop :=
  addr = local +:+ "@" +:+ domain /\ slen addr <= 254 /\ slen local <= 64 /\
  dot_atom (bytes local) /\ domain_ok (bytes domain).

Lemma split_at_last addr i :
  last_index_byte at_byte (bytes addr) = Some i ->
  addr = slice_to addr (Z.of_nat i) +:+ "@" +:+ slice_from addr (Z.of_nat i + 1) /\
  (i < length (bytes addr))%nat.
Proof.
  intros (p & q & E & <- & _)%last_index_byte_Some. unfold slice_to, slice_from.
  rewrite Z2Nat.inj_add, Nat2Z.id by lia. change (Z.to_nat 1) with 1%nat. split.
  - apply bytes_inj. rewrite !bytes_app, !bytes_of_bytes, E, take_app_length.
    rewrite drop_app_ge by lia. by replace (length p + 1 - length p)%nat with 1%nat by lia.
  - rewrite E, length_app. simpl. lia.
Qed.

Lemma splitAndValidate_sound addr local domain :
  splitAndValidate addr = Some (local, domain) -> address_ok addr local domain.
Proof.
  unfold splitAndValidate, LastIndexByte. intros H.
  case_match eqn:E1; [done|]. apply orb_false_iff in E1 as [E1 E1'].
  case_match eqn:E2; [done|]. case_match eqn:E3; [done|]. case_match eqn:E4; [done|]. case_match eqn:E5; [done|].
  apply orb_false_iff in E2 as [E2 E2'], E3 as [E3 E3'].
  apply negb_false_iff, localPartRe_spec in E4. apply negb_false_iff, validDomain_spec in E5.
  destruct (last_index_byte at_byte (bytes addr)) as [i|] eqn:Hi; [|done].
  injection H as <- <-. simpl in *. destruct (split_at_last addr i Hi) as [Haddr _].
  unfold maxEmailLen, maxLocalLen in *. bool_to_prop.
  split; [done|]. split; [lia|]. split; [lia|]. by split.
Qed.

Lemma splitAndValidate_complete addr local domain :
  address_ok addr local domain -> splitAndValidate addr = Some (local, domain).
Proof.
  intros (-> & Hl & Hll & Hloc & Hdom).
  assert (Hi : last_index_byte at_byte (bytes (local +:+ "@" +:+ domain)) = Some (length (bytes local))).
  { rewrite !bytes_app. apply (last_index_byte_app at_byte). by apply domain_ok_no_at. }
  assert (Hln : bytes local <> []).
  { intros E. rewrite E in Hloc. unfold dot_atom in Hloc. simpl in Hloc. inv Hloc. by destruct H1. }
  assert (Hdn : bytes domain <> []).
  { intros E. rewrite E in Hdom. destruct Hdom as (Hn & _). simpl in Hn. lia. }
  unfold splitAndValidate, LastIndexByte. rewrite Hi. simpl index_result.
  rewrite !slen_app in *. change (slen "@") with 1 in *. unfold slen in *.
  assert (Hl0 : 0 < len (bytes local)) by (destruct (bytes local); [done|unfold len; simpl; lia]).
  assert (Hd0 : 0 < len (bytes domain)) by (destruct (bytes domain); [done|unfold len; simpl; lia]).
  assert (Hto : slice_to (local +:+ "@" +:+ domain) (Z.of_nat (length (bytes local))) = local).
  { unfold slice_to. rewrite Nat2Z.id, !bytes_app, take_app_length. apply of_bytes_bytes. }
  assert (Hfrom : slice_from (local +:+ "@" +:+ domain) (Z.of_nat (length (bytes local)) + 1) = domain).
  { unfold slice_from. rewrite Z2Nat.inj_add, Nat2Z.id by lia. rewrite !bytes_app, drop_app_ge by lia.
    replace (length (bytes local) + Z.to_nat 1 - length (bytes local))%nat with 1%nat by lia.
    apply of_bytes_bytes. }
  rewrite Hto, Hfrom. fold (len (bytes local)). unfold maxEmailLen, maxLocalLen, maxDomainLen.
  rewrite (proj2 (Z.eqb_neq _ _)) by lia. rewrite !Z.gtb_ltb.
  rewrite (proj2 (Z.ltb_ge 254 _)) by lia. rewrite (proj2 (Z.leb_gt _ 0)) by lia. simpl.
  rewrite (proj2 (Z.eqb_neq _ _)) by lia. rewrite (proj2 (Z.ltb_ge 64 _)) by lia.
  rewrite (proj2 (Z.ltb_ge 255 _)) by lia. simpl.
  by rewrite (proj2 (localPartRe_spec _) Hloc), (proj2 (validDomain_spec _) Hdom).
Qed.

(** C24: The funnel's syntax check accepts exactly one grammar: a dot-atom of at
    most 64 bytes, an "@", and a fully qualified domain of DNS labels of 1 to 63
    letters, digits and inner hyphens with an alphabetic top level of two
    letters or more, 254 bytes in all; and it splits the address at that "@". *)
Theorem splitAndValidate_grammar addr local domain :
  splitAndValidate addr = Some (local, domain) <-> address_ok addr local domain.
Proof. split; [apply splitAndValidate_sound|apply splitAndValidate_complete]. Qed.
