(* ===== verification/Pipeline.v ===== *)
(** [internal/pipeline]: the verification funnel.

    The stages run in the source's order on one mutable state; here each stage
    is a function from the state to a stop flag and the state after it, or a
    stage-internal error.  DNS is a parameter ([Resolver]): a stage asks for the
    MX records at most once and for the hosts at most once per address. *)

From Stdlib Require Import QArith.
From S2P Require Import Prelude GoStrings Float64 GoTime Verdict Engine Regex Syntax.
Local Open Scope list_scope.
Local Open Scope Z_scope.

(** ** Provider and domain data ([data.go]) *)

Definition providerGmail : string := "gmail".
Definition providerMicrosoft : string := "microsoft".
Definition providerYahoo : string := "yahoo".
Definition providerApple : string := "icloud".
Definition providerProton : string := "proton".
Definition providerGoogleWorkspace : string := "google_workspace".
Definition providerMicrosoft365 : string := "microsoft365".
Definition providerCustom : string := "custom".

Definition providerDomains : gmap string string := list_to_map [
  ("gmail.com", providerGmail); ("googlemail.com", providerGmail);
  ("outlook.com", providerMicrosoft); ("hotmail.com", providerMicrosoft);
  ("hotmail.co.uk", providerMicrosoft); ("live.com", providerMicrosoft);
  ("msn.com", providerMicrosoft);
  ("yahoo.com", providerYahoo); ("yahoo.co.uk", providerYahoo);
  ("ymail.com", providerYahoo); ("rocketmail.com", providerYahoo);
  ("icloud.com", providerApple); ("me.com", providerApple); ("mac.com", providerApple);
  ("proton.me", providerProton); ("protonmail.com", providerProton); ("pm.me", providerProton)].

(** [toSet] *)
Definition toSet (keys : list string) : gset string := list_to_set keys.

Definition freeDomains : gset string := toSet [
  "gmail.com"; "googlemail.com";
  "outlook.com"; "hotmail.com"; "hotmail.co.uk"; "live.com"; "msn.com";
  "yahoo.com"; "yahoo.co.uk"; "ymail.com"; "rocketmail.com";
  "aol.com"; "icloud.com"; "me.com"; "mac.com";
  "proton.me"; "protonmail.com"; "pm.me";
  "gmx.com"; "gmx.net"; "zoho.com"; "yandex.com"; "mail.com"; "tutanota.com"].

Definition roleLocalParts : gset string := toSet [
  "admin"; "administrator"; "info"; "support"; "sales"; "contact"; "help";
  "billing"; "marketing"; "office"; "hello"; "team"; "mail"; "noreply";
  "no-reply"; "donotreply"; "do-not-reply"; "postmaster"; "hostmaster";
  "webmaster"; "abuse"; "security"; "root"; "sysadmin"; "careers"; "jobs";
  "hr"; "press"; "media"; "newsletter"; "notifications"; "service";
  "enquiries"; "inquiries"; "feedback"; "orders"; "accounts"; "accounting";
  "finance"; "legal"; "compliance"].

Definition defaultDisposable : gset string := toSet [
  "mailinator.com"; "guerrillamail.com"; "10minutemail.com"; "temp-mail.org";
  "yopmail.com"; "throwawaymail.com"; "getnada.com"; "trashmail.com";
  "maildrop.cc"; "dispostable.com"; "fakeinbox.com"; "sharklasers.com";
  "guerrillamailblock.com"; "mailnesia.com"; "mohmal.com"; "tempmail.dev"].

(** [mapSet.Contains] *)
Definition mapSet_Contains (m : gset string) (domain : string) : bool := bool_decide (domain ∈ m).

Definition providerForDomain (domain : string) : string := default "" (providerDomains !! domain).
Definition isFreeDomain (domain : string) : bool := bool_decide (domain ∈ freeDomains).

(** ** State and interfaces ([pipeline.go], [config.go]) *)

Record State := {
  Input : string;
  st_Email : string;
  st_Normalized : string;
  LocalPart : string;
  Domain : string;
  st_Provider : string;
  MX : list string;
  st_Checks : Checks;
  terminal : option Verdict;
}.

Record Result := {
  Terminal : bool;
  res_Verdict : Verdict;
  res_Task : Task;
  res_Checks : Checks;
  res_Provider : string;
  res_MX : list string;
}.

(** A record of [net.LookupMX]. *)
Record net_MX := { Host : string; Pref : Z }.

(** DNS.  [as_DNSError] is [errors.As] to a [*net.DNSError]: its [IsNotFound]
    and [IsTemporary] flags. *)
Class Resolver (Er : Type) := {
  LookupMX : string -> result Er (list net_MX);
  LookupHost : string -> result Er (list string);
  as_DNSError : Er -> option (bool * bool);
}.

Definition zero_verdict : Verdict :=
  {| Email := ""; Normalized := ""; vStatus := Status_zero; vSubStatus := SubStatus_zero;
     Confidence := f64 0; vChecks := Checks_zero; Provider := ""; Engine := ""; EgressID := "";
     Cached := false; CheckedAt := 0 |}.

Definition zero_task : Task :=
  {| Task_ID := ""; Task_JobID := ""; Task_Email := ""; Task_Normalized := ""; Task_Domain := "";
     Task_Provider := ""; Task_MX := [] |}.

(** Field assignments of the stages. *)
Definition set_checks (c : Checks) (s : State) : State :=
  {| Input := Input s; st_Email := st_Email s; st_Normalized := st_Normalized s;
     LocalPart := LocalPart s; Domain := Domain s; st_Provider := st_Provider s; MX := MX s;
     st_Checks := c; terminal := terminal s |}.
Definition set_terminal (v : Verdict) (s : State) : State :=
  {| Input := Input s; st_Email := st_Email s; st_Normalized := st_Normalized s;
     LocalPart := LocalPart s; Domain := Domain s; st_Provider := st_Provider s; MX := MX s;
     st_Checks := st_Checks s; terminal := Some v |}.
Definition set_email (e : string) (s : State) : State :=
  {| Input := Input s; st_Email := e; st_Normalized := st_Normalized s;
     LocalPart := LocalPart s; Domain := Domain s; st_Provider := st_Provider s; MX := MX s;
     st_Checks := st_Checks s; terminal := terminal s |}.
Definition set_parts (l d : string) (s : State) : State :=
  {| Input := Input s; st_Email := st_Email s; st_Normalized := st_Normalized s;
     LocalPart := l; Domain := d; st_Provider := st_Provider s; MX := MX s;
     st_Checks := st_Checks s; terminal := terminal s |}.
Definition set_canonical (n p : string) (s : State) : State :=
  {| Input := Input s; st_Email := st_Email s; st_Normalized := n;
     LocalPart := LocalPart s; Domain := Domain s; st_Provider := p; MX := MX s;
     st_Checks := st_Checks s; terminal := terminal s |}.
Definition set_provider (p : string) (s : State) : State := set_canonical (st_Normalized s) p s.
Definition set_mx (hosts : list string) (s : State) : State :=
  {| Input := Input s; st_Email := st_Email s; st_Normalized := st_Normalized s;
     LocalPart := LocalPart s; Domain := Domain s; st_Provider := st_Provider s; MX := hosts;
     st_Checks := st_Checks s; terminal := terminal s |}.

Definition with_syntax (b : bool) (c : Checks) : Checks :=
  {| Checks_Syntax := {| Syntax_Valid := b |}; Checks_MX := Checks_MX c;
     Checks_Disposable := Checks_Disposable c; Checks_Role := Checks_Role c; Checks_Free := Checks_Free c;
     Checks_CatchAll := Checks_CatchAll c; Checks_SMTP := Checks_SMTP c |}.
Definition with_disposable (c : Checks) : Checks :=
  {| Checks_Syntax := Checks_Syntax c; Checks_MX := Checks_MX c; Checks_Disposable := true;
     Checks_Role := Checks_Role c; Checks_Free := Checks_Free c;
     Checks_CatchAll := Checks_CatchAll c; Checks_SMTP := Checks_SMTP c |}.
Definition with_role (c : Checks) : Checks :=
  {| Checks_Syntax := Checks_Syntax c; Checks_MX := Checks_MX c;
     Checks_Disposable := Checks_Disposable c; Checks_Role := true; Checks_Free := Checks_Free c;
     Checks_CatchAll := Checks_CatchAll c; Checks_SMTP := Checks_SMTP c |}.
Definition with_free (c : Checks) : Checks :=
  {| Checks_Syntax := Checks_Syntax c; Checks_MX := Checks_MX c;
     Checks_Disposable := Checks_Disposable c; Checks_Role := Checks_Role c; Checks_Free := true;
     Checks_CatchAll := Checks_CatchAll c; Checks_SMTP := Checks_SMTP c |}.
Definition with_mx (hosts : list string) (c : Checks) : Checks :=
  {| Checks_Syntax := Checks_Syntax c; Checks_MX := {| MX_Found := true; MX_Records := hosts |};
     Checks_Disposable := Checks_Disposable c; Checks_Role := Checks_Role c; Checks_Free := Checks_Free c;
     Checks_CatchAll := Checks_CatchAll c; Checks_SMTP := Checks_SMTP c |}.

(** [State.Reject] *)
Definition Reject (now : Time) (status : Status) (sub : SubStatus) (confidence : float64) (s : State) : State :=
  set_terminal {| Email := st_Email s; Normalized := st_Normalized s; vStatus := status;
                  vSubStatus := sub; Confidence := confidence; vChecks := st_Checks s;
                  Provider := st_Provider s; Engine := ""; EgressID := ""; Cached := false;
                  CheckedAt := now |} s.

Definition terminated (s : State) : bool := match terminal s with Some _ => true | None => false end.

(** ** Stages *)

Definition conf (q : Q) : float64 := f64 q.

(** [mxHosts] *)
Definition mxHosts (records : list net_MX) : list string :=
  List.filter (fun h => negb (String.eqb h "") && negb (String.eqb h "."))
    (map (fun r => TrimSuffix (Host r) ".") records).

Section Funnel.
Context `{UnicodeTables} {Er : Type} `{Resolver Er}.
Variable disposable : string -> bool.
Variable now : Time.

(** A stage: the stop flag and the state after it, or its error. *)
Definition Stage : Type := State -> result Er (bool * State).

(** [syntaxStage.Run] *)
Definition syntaxStage : Stage := fun s =>
  let addr := TrimSpace (Input s) in
  let s := set_email addr s in
  match splitAndValidate addr with
  | None =>
      let s := set_checks (with_syntax false (st_Checks s)) s in
      Ok (true, Reject now StatusUndeliverable SubInvalidSyntax (conf (99 # 100)) s)
  | Some (local, domain) =>
      let s := set_parts local domain s in
      Ok (false, set_checks (with_syntax true (st_Checks s)) s)
  end.

(** [canonicalKey] *)
Definition canonicalKey (local domain provider : string) : string :=
  let nl := ToLower local in
  if String.eqb provider providerGmail then
    let nl := ReplaceByte nl dot_byte "" in
    let i := IndexByte nl "+"%char in
    let nl := if i >=? 0 then slice_to nl i else nl in
    nl +:+ "@" +:+ "gmail.com"
  else nl +:+ "@" +:+ domain.

(** [normalizeStage.Run] *)
Definition normalizeStage : Stage := fun s =>
  let domain := ToLower (Domain s) in
  let s := set_parts (LocalPart s) domain s in
  let s := set_email (LocalPart s +:+ "@" +:+ domain) s in
  let provider := providerForDomain domain in
  let provider := if String.eqb provider "" then providerCustom else provider in
  Ok (false, set_canonical (canonicalKey (LocalPart s) domain provider) provider s).

(** [disposableStage.Run] *)
Definition disposableStage : Stage := fun s =>
  if disposable (Domain s) then
    let s := set_checks (with_disposable (st_Checks s)) s in
    Ok (true, Reject now StatusRisky SubDisposable (conf (9 # 10)) s)
  else Ok (false, s).

(** [isRoleAccount] *)
Definition isRoleAccount (local : string) : bool := bool_decide (ToLower local ∈ roleLocalParts).

(** [roleStage.Run] *)
Definition roleStage : Stage := fun s =>
  Ok (false, if isRoleAccount (LocalPart s) then set_checks (with_role (st_Checks s)) s else s).

(** [freeStage.Run] *)
Definition freeStage : Stage := fun s =>
  Ok (false, if isFreeDomain (Domain s) then set_checks (with_free (st_Checks s)) s else s).

(** [refineProviderFromMX] *)
Fixpoint refineProviderFromMX (mx : list string) : string :=
  match mx with
  | [] => ""
  | host :: mx =>
      let h := ToLower (TrimSuffix host ".") in
      if HasSuffix h "google.com" || HasSuffix h "googlemail.com" then providerGoogleWorkspace
      else if HasSuffix h "outlook.com" || HasSuffix h "protection.outlook.com" then providerMicrosoft365
      else refineProviderFromMX mx
  end.

(** [implicitMX]: the answer and the state after it. *)
Definition implicitMX (s : State) : bool * State :=
  match LookupHost (Domain s) with
  | Err _ => (false, s)
  | Ok addrs =>
      if len addrs =? 0 then (false, s)
      else (true, set_checks (with_mx [Domain s] (st_Checks s)) (set_mx [Domain s] s))
  end.

(** [mxStage.Run] *)
Definition mxStage : Stage := fun s =>
  match LookupMX (Domain s) with
  | Err err =>
      let '(ok, s) := implicitMX s in
      if ok then Ok (false, s)
      else
        match as_DNSError err with
        | Some (true, _) => Ok (true, Reject now StatusUndeliverable SubDomainNotFound (conf (98 # 100)) s)
        | Some (false, true) => Err err
        | _ => Ok (true, Reject now StatusUndeliverable SubNoMXRecord (conf (9 # 10)) s)
        end
  | Ok records =>
      if match records with [r] => String.eqb (Host r) "." | _ => false end
      then Ok (true, Reject now StatusUndeliverable SubNoMXRecord (conf (95 # 100)) s)
      else
        let hosts := mxHosts records in
        if len hosts =? 0 then
          let '(ok, s) := implicitMX s in
          if ok then Ok (false, s)
          else Ok (true, Reject now StatusUndeliverable SubNoMXRecord (conf (9 # 10)) s)
        else
          let s := set_mx hosts s in
          let s := set_checks (with_mx hosts (st_Checks s)) s in
          let refined := refineProviderFromMX hosts in
          Ok (false, if String.eqb (st_Provider s) providerCustom && negb (String.eqb refined "")
                     then set_provider refined s else s)
  end.

(** ** The funnel *)

(** The stages of [New], with the names of [Stages]. *)
Definition stages : list (string * Stage) :=
  [("syntax", syntaxStage); ("normalize", normalizeStage); ("disposable", disposableStage);
   ("role", roleStage); ("free", freeStage); ("mx", mxStage)].

(** [Stages] *)
Definition Stages : list string := fst <$> stages.

Fixpoint run_stages (sts : list (string * Stage)) (s : State) : result Er State :=
  match sts with
  | [] => Ok s
  | (_, stage) :: sts =>
      match stage s with
      | Err e => Err e
      | Ok (stop, s) => if stop || terminated s then Ok s else run_stages sts s
      end
  end.

(** The state [Run] starts from, and what it returns of the last one. *)
Definition start_state (email : string) : State :=
  {| Input := email; st_Email := email; st_Normalized := email; LocalPart := ""; Domain := "";
     st_Provider := ""; MX := []; st_Checks := Checks_zero; terminal := None |}.

Definition to_result (s : State) : Result :=
  match terminal s with
  | Some v => {| Terminal := true; res_Verdict := v; res_Task := zero_task;
                 res_Checks := st_Checks s; res_Provider := st_Provider s; res_MX := MX s |}
  | None => {| Terminal := false; res_Verdict := zero_verdict;
               res_Task := {| Task_ID := ""; Task_JobID := ""; Task_Email := st_Email s;
                              Task_Normalized := st_Normalized s; Task_Domain := Domain s;
                              Task_Provider := st_Provider s; Task_MX := MX s |};
               res_Checks := st_Checks s; res_Provider := st_Provider s; res_MX := MX s |}
  end.

(** [Pipeline.Run] *)
Definition Run (email : string) : result Er Result :=
  match run_stages stages (start_state email) with
  | Err e => Err e
  | Ok s => Ok (to_result s)
  end.
End Funnel.

(** [defaultDisposableSet] *)
Definition defaultDisposableSet : string -> bool := mapSet_Contains defaultDisposable.
