(* ===== verification/PipelineProps.v ===== *)
(** What the funnel guarantees: which addresses it settles without DNS, what a
    surviving task looks like, and that the canonical key identifies the
    spellings of one mailbox. *)

From Stdlib Require Import QArith.
From S2P Require Import Prelude GoStrings Float64 GoTime Verdict Engine Regex Syntax Pipeline.
Local Open Scope list_scope.
Local Open Scope Z_scope.

Section Props.
Context `{UnicodeTables} {Er : Type} `{Resolver Er}.
Variable disposable : string -> bool.
Variable now : Time.

Definition provider_of (domain : string) : string :=
  if String.eqb (providerForDomain domain) "" then providerCustom else providerForDomain domain.

(** The findings of the in-memory stages. *)
Definition local_checks (local domain : string) : Checks :=
  {| Checks_Syntax := {| Syntax_Valid := true |}; Checks_MX := {| MX_Found := false; MX_Records := [] |};
     Checks_Disposable := false; Checks_Role := isRoleAccount local; Checks_Free := isFreeDomain domain;
     Checks_CatchAll := false; Checks_SMTP := Checks_SMTP Checks_zero |}.

(** The state that reaches the mx stage. *)
Definition resolved_state (email local domain : string) : State :=
  {| Input := email; st_Email := local +:+ "@" +:+ domain;
     st_Normalized := canonicalKey local domain (provider_of domain);
     LocalPart := local; Domain := domain; st_Provider := provider_of domain; MX := [];
     st_Checks := local_checks local domain; terminal := None |}.

Definition rejected (email : string) (v : Verdict) (provider : string) : Result :=
  {| Terminal := true; res_Verdict := v; res_Task := zero_task; res_Checks := vChecks v;
     res_Provider := provider; res_MX := [] |}.

Definition syntax_verdict (addr email : string) : Verdict :=
  {| Email := addr; Normalized := email; vStatus := StatusUndeliverable; vSubStatus := SubInvalidSyntax;
     Confidence := f64 (99 # 100); vChecks := Checks_zero; Provider := ""; Engine := ""; EgressID := "";
     Cached := false; CheckedAt := now |}.

Definition disposable_verdict (local domain : string) : Verdict :=
  {| Email := local +:+ "@" +:+ domain; Normalized := canonicalKey local domain (provider_of domain);
     vStatus := StatusRisky; vSubStatus := SubDisposable; Confidence := f64 (9 # 10);
     vChecks := {| Checks_Syntax := {| Syntax_Valid := true |};
                   Checks_MX := {| MX_Found := false; MX_Records := [] |}; Checks_Disposable := true;
                   Checks_Role := false; Checks_Free := false; Checks_CatchAll := false;
                   Checks_SMTP := Checks_SMTP Checks_zero |};
     Provider := provider_of domain; Engine := ""; EgressID := ""; Cached := false; CheckedAt := now |}.

Lemma run_step n (st : Stage (Er := Er)) sts s s' :
  st s = Ok (false, s') -> terminated s' = false -> run_stages ((n, st) :: sts) s = run_stages sts s'.
Proof. intros H1 H2. cbn [run_stages]. by rewrite H1, H2. Qed.

(** [Run], stage by stage. *)
Lemma Run_stages email :
  Run disposable now email =
  match splitAndValidate (TrimSpace email) with
  | None => Ok (rejected email (syntax_verdict (TrimSpace email) email) "")
  | Some (local, d) =>
      let domain := ToLower d in
      if disposable domain
      then Ok (rejected email (disposable_verdict local domain) (provider_of domain))
      else match mxStage now (resolved_state email local domain) with
           | Err e => Err e
           | Ok (_, s) => Ok (to_result s)
           end
  end.
Proof.
  unfold Run, stages. destruct (splitAndValidate (TrimSpace email)) as [[local d]|] eqn:Es.
  - erewrite run_step; [|unfold syntaxStage; cbn [Input start_state]; by rewrite Es|reflexivity].
    erewrite run_step; [|reflexivity|reflexivity]. cbv zeta. destruct (disposable (ToLower d)) eqn:Ed.
    + cbn [run_stages]. unfold disposableStage. cbn. by rewrite Ed.
    + erewrite run_step; [|unfold disposableStage; cbn; by rewrite Ed|reflexivity].
      erewrite run_step; [|reflexivity|by case_match]. erewrite run_step; [|reflexivity|by repeat case_match].
      match goal with |- context [run_stages _ ?s] =>
        assert (Hs : s = resolved_state email local (ToLower d)) end.
      { unfold resolved_state, local_checks. cbn.
        destruct (isRoleAccount local); cbn; by destruct (isFreeDomain (ToLower d)). }
      rewrite Hs. cbn [run_stages].
      destruct (mxStage now (resolved_state email local (ToLower d))) as [[stop s]|e]; [|done].
      by destruct (stop || terminated s).
  - cbn [run_stages]. unfold syntaxStage. cbn [Input start_state]. by rewrite Es.
Qed.

(** Success of the two DNS paths. *)
Definition host_found (domain : string) : bool :=
  match LookupHost domain with Ok addrs => negb (len addrs =? 0) | Err _ => false end.

Lemma implicitMX_spec s :
  implicitMX s = if host_found (Domain s)
    then (true, set_checks (with_mx [Domain s] (st_Checks s)) (set_mx [Domain s] s)) else (false, s).
Proof. unfold implicitMX, host_found. destruct (LookupHost (Domain s)); [|done]. by case_match. Qed.

(** A verdict the mx stage rejects with. *)
Definition mx_reject (s : State) (sub : SubStatus) (c : float64) : State :=
  Reject now StatusUndeliverable sub c s.

(** The outcomes of the mx stage: it survives with at least one exchanger, is
    undeliverable, or hands back a transient error. *)
Lemma mxStage_cases s :
  (exists hosts p, hosts <> [] /\ mxStage now s
      = Ok (false, set_provider p (set_checks (with_mx hosts (st_Checks s)) (set_mx hosts s))) /\
      (p = st_Provider s \/ (st_Provider s = providerCustom /\ p = refineProviderFromMX hosts /\ p <> ""))) \/
  (exists sub c, mxStage now s = Ok (true, mx_reject s sub c) /\ funit c) \/
  (exists e, mxStage now s = Err e /\ LookupMX (Domain s) = Err e /\ host_found (Domain s) = false /\
      as_DNSError e = Some (false, true)).
Proof.
  assert (Hu : forall q : Q, (0 <= q)%Q -> (q <= 1)%Q -> funit (conf q)) by (intros; by apply funit_f64).
  assert (Hid : forall s', set_provider (st_Provider s') s' = s') by (intros []; done).
  unfold mxStage. rewrite !implicitMX_spec.
  destruct (LookupMX (Domain s)) as [records|err] eqn:El.
  - case_match.
    { right; left. exists SubNoMXRecord, (conf (95 # 100)). split; [done|by apply Hu]. }
    destruct (len (mxHosts records) =? 0) eqn:E0.
    + destruct (host_found (Domain s)).
      * left. exists [Domain s], (st_Provider s). split; [done|]. split; [by destruct s|by left].
      * right; left. exists SubNoMXRecord, (conf (9 # 10)). split; [done|by apply Hu].
    + left. exists (mxHosts records).
      assert (Hne : mxHosts records <> []) by (intros E; by rewrite E in E0).
      cbn [st_Provider set_checks set_mx].
      destruct (String.eqb_spec (st_Provider s) providerCustom) as [Hc|Hc]; cbn [andb].
      * destruct (String.eqb_spec (refineProviderFromMX (mxHosts records)) "") as [Hr|Hr]; cbn [negb].
        -- exists (st_Provider s). split; [done|]. split; [by destruct s|by left].
        -- exists (refineProviderFromMX (mxHosts records)). split; [done|]. split; [done|by right].
      * exists (st_Provider s). split; [done|]. split; [by destruct s|by left].
  - destruct (host_found (Domain s)) eqn:Eh.
    + left. exists [Domain s], (st_Provider s). split; [done|]. split; [by destruct s|by left].
    + destruct (as_DNSError err) as [[[] []]|] eqn:Ea; try
        (right; left; eexists _, _; split; [reflexivity|by apply Hu]).
      right; right. by exists err.
Qed.

(** Cheap rejections never touch the network: an address that is not
    syntactically valid is undeliverable, and one on a disposable domain risky,
    with the same full result whatever the DNS would answer. *)
Theorem funnel_rejects_without_dns email :
  match splitAndValidate (TrimSpace email) with
  | None => Run disposable now email = Ok (rejected email (syntax_verdict (TrimSpace email) email) "")
  | Some (local, d) =>
      disposable (ToLower d) = true ->
      Run disposable now email
      = Ok (rejected email (disposable_verdict local (ToLower d)) (provider_of (ToLower d)))
  end.
Proof.
  pose proof (Run_stages email) as Hr.
  destruct (splitAndValidate (TrimSpace email)) as [[local d]|]; [|exact Hr].
  intros Hd. rewrite Hr. cbv zeta. by rewrite Hd.
Qed.

Lemma provider_of_nonempty d : provider_of d <> "".
Proof. unfold provider_of. by destruct (String.eqb_spec (providerForDomain d) ""). Qed.

Lemma Run_task email res :
  Run disposable now email = Ok res -> Terminal res = false ->
  exists local d, splitAndValidate (TrimSpace email) = Some (local, d) /\
    let domain := ToLower d in
    let t := res_Task res in
    disposable domain = false /\ Task_Domain t = domain /\
    Task_Email t = local +:+ "@" +:+ domain /\
    Task_Normalized t = canonicalKey local domain (provider_of domain) /\
    Task_MX t <> [] /\ Task_Provider t <> "" /\
    res_Checks res = with_mx (Task_MX t) (local_checks local domain).
Proof.
  rewrite Run_stages. destruct (splitAndValidate (TrimSpace email)) as [[local d]|];
    [|intros [= <-]; done].
  cbv zeta. destruct (disposable (ToLower d)) eqn:Ed; [intros [= <-]; done|].
  intros Hr Ht. exists local, d. split; [done|]. split; [done|].
  destruct (mxStage_cases (resolved_state email local (ToLower d)))
    as [(hosts & p & Hh & Hm & Hp)|[(sub & c & Hm & _)|(e & Hm & _)]]; rewrite Hm in Hr;
    [|injection Hr as <-; done|done].
  injection Hr as <-. repeat split; [done|]. cbn. destruct Hp as [->|(_ & _ & Hp)]; [|done].
  apply provider_of_nonempty.
Qed.

(** What survives the funnel is ready to be probed: the task's address is
    the submitted local part at the lower-cased valid domain, which is not
    disposable; it has a mail exchanger, a provider class and its canonical key;
    and its checks record exactly these findings and no probe. *)
Theorem funnel_task email res :
  Run disposable now email = Ok res -> Terminal res = false ->
  exists local d, splitAndValidate (TrimSpace email) = Some (local, d) /\
    let domain := ToLower d in
    let t := res_Task res in
    disposable domain = false /\ Task_Domain t = domain /\
    Task_Email t = local +:+ "@" +:+ domain /\
    Task_Normalized t = canonicalKey local domain (provider_of domain) /\
    Task_MX t <> [] /\ Task_Provider t <> "" /\
    res_Checks res = with_mx (Task_MX t) (local_checks local domain).
Proof. apply Run_task. Qed.

Lemma Run_verdict email :
  match Run disposable now email with
  | Ok res => Terminal res = true ->
      (vStatus (res_Verdict res) = StatusUndeliverable \/ vStatus (res_Verdict res) = StatusRisky) /\
      (TrimSpace email <> "" -> Validate (res_Verdict res) = None)
  | Err e => exists local d, splitAndValidate (TrimSpace email) = Some (local, d) /\
      LookupMX (ToLower d) = Err e /\ host_found (ToLower d) = false /\ as_DNSError e = Some (false, true)
  end.
Proof.
  rewrite Run_stages. destruct (splitAndValidate (TrimSpace email)) as [[local d]|].
  - cbv zeta. assert (Hne : forall x y, x +:+ "@" +:+ y <> "") by (intros [] y; done).
    destruct (disposable (ToLower d)).
    + intros _. split; [by right|]. intros _. apply Validate_ok; [apply Hne|done|by apply funit_f64].
    + destruct (mxStage_cases (resolved_state email local (ToLower d)))
        as [(hosts & p & _ & -> & _)|[(sub & c & -> & Hc)|(e & -> & He)]].
      * done.
      * intros _. split; [by left|]. intros _. apply Validate_ok; [apply Hne|done|done].
      * by exists local, d.
  - intros _. split; [by left|]. intros Hb. by apply Validate_ok; [..|apply funit_f64].
Qed.

(** A verdict of the funnel is a usable one: never "deliverable", valid by
    [Validate] for every non-blank address; and the only error the funnel
    returns is a transient DNS failure of a domain without address records. *)
Theorem funnel_verdict email :
  match Run disposable now email with
  | Ok res => Terminal res = true ->
      (vStatus (res_Verdict res) = StatusUndeliverable \/ vStatus (res_Verdict res) = StatusRisky) /\
      (TrimSpace email <> "" -> Validate (res_Verdict res) = None)
  | Err e => exists local d, splitAndValidate (TrimSpace email) = Some (local, d) /\
      LookupMX (ToLower d) = Err e /\ host_found (ToLower d) = false /\ as_DNSError e = Some (false, true)
  end.
Proof. apply Run_verdict. Qed.
End Props.

(** ** The canonical key *)

(** The bytes before the first [c]. *)
Fixpoint take_until (c : ascii) (l : list ascii) : list ascii :=
  match l with
  | [] => []
  | a :: l => if Ascii.eqb a c then [] else a :: take_until c l
  end.

Definition plus_byte : ascii := "+"%char.
Definition not_dot (a : ascii) : bool := negb (Ascii.eqb a dot_byte).

(** The canonical Gmail local part. *)
Definition gmail_local (l : list ascii) : list ascii :=
  take_until plus_byte (List.filter not_dot (map lower_byte l)).

Lemma take_until_index c l :
  match index_byte c l with Some i => take i l = take_until c l | None => take_until c l = l end.
Proof.
  induction l as [|a l IH]; simpl; [done|]. destruct (Ascii.eqb a c); [done|].
  destruct (index_byte c l); simpl; by rewrite IH.
Qed.

Lemma take_until_app_l c l k : c ∉ l -> take_until c (l ++ k) = l ++ take_until c k.
Proof.
  induction l as [|a l IH]; simpl; intros Hc; [done|]. rewrite not_elem_of_cons in Hc.
  destruct (Ascii.eqb_spec a c); [by subst; destruct Hc|]. by rewrite IH by apply Hc.
Qed.

Lemma take_until_no c l : c ∉ take_until c l.
Proof.
  induction l as [|a l IH]; simpl; [by apply not_elem_of_nil|].
  destruct (Ascii.eqb_spec a c); [by apply not_elem_of_nil|]. rewrite not_elem_of_cons. by split.
Qed.

Lemma take_until_idemp c l : take_until c (take_until c l) = take_until c l.
Proof.
  rewrite <- (app_nil_r (take_until c l)) at 1. rewrite take_until_app_l by apply take_until_no.
  simpl. apply app_nil_r.
Qed.

Lemma take_until_app_sep c l k : take_until c (l ++ c :: k) = take_until c l.
Proof.
  induction l as [|a l IH]; simpl; [by rewrite Ascii.eqb_refl|].
  destruct (Ascii.eqb a c); [done|]. by rewrite IH.
Qed.

Lemma take_until_incl c l a : a ∈ take_until c l -> a ∈ l.
Proof.
  induction l as [|b l IH]; simpl; [done|]. destruct (Ascii.eqb b c); [by intros ?%not_elem_of_nil|].
  rewrite !elem_of_cons. naive_solver.
Qed.

Lemma remove_dots l :
  concat (map (fun a => if Ascii.eqb a dot_byte then [] else [a]) l) = List.filter not_dot l.
Proof.
  induction l as [|a l IH]; simpl; [done|]. unfold not_dot at 1.
  destruct (Ascii.eqb a dot_byte); simpl; by rewrite IH.
Qed.

Section Canonical.
Context `{UnicodeTables}.

Lemma canonicalKey_gmail local domain :
  is_ascii local = true ->
  canonicalKey local domain providerGmail = of_bytes (gmail_local (bytes local)) +:+ "@gmail.com".
Proof.
  intros Ha. unfold canonicalKey. change (String.eqb providerGmail providerGmail) with true. cbv iota.
  rewrite ToLower_ascii by done. unfold ReplaceByte, IndexByte, slice_to. autorewrite with gostr.
  change (bytes "") with (@nil ascii). rewrite remove_dots.
  set (l := List.filter not_dot (map lower_byte (bytes local))).
  pose proof (take_until_index plus_byte l) as Ht. unfold gmail_local. fold l.
  change (index_byte "+"%char l) with (index_byte plus_byte l).
  destruct (index_byte plus_byte l) as [i|]; cbn [index_result from_option].
  - rewrite Z.geb_leb, (proj2 (Z.leb_le 0 _)) by lia. by rewrite Nat2Z.id, Ht.
  - change (-1 >=? 0) with false. by rewrite Ht.
Qed.

Lemma gmail_local_idemp l : gmail_local (gmail_local l) = gmail_local l.
Proof.
  unfold gmail_local. set (f := List.filter not_dot (map lower_byte l)).
  assert (Hid : List.filter not_dot (map lower_byte (take_until plus_byte f)) = take_until plus_byte f).
  { assert (HF : Forall (fun a => lower_byte a = a /\ not_dot a = true) (take_until plus_byte f)).
    { apply Forall_forall. intros a Hin. apply list_elem_of_In, take_until_incl in Hin.
      unfold f in Hin. apply list_elem_of_In, filter_In in Hin as [Hin Hd]. split; [|done].
      apply in_map_iff in Hin as (b & <- & _). apply lower_byte_idemp. }
    induction HF as [|a k [H1 H2] _ IH]; simpl; [done|]. by rewrite H1, H2, IH. }
  by rewrite Hid, take_until_idemp.
Qed.

Lemma gmail_local_dot l k : gmail_local (l ++ dot_byte :: k) = gmail_local (l ++ k).
Proof. unfold gmail_local. by rewrite !map_app, !filter_app. Qed.

Lemma gmail_local_tag l k : gmail_local (l ++ plus_byte :: k) = gmail_local l.
Proof.
  unfold gmail_local. rewrite map_app, filter_app. cbn [map List.filter].
  change (not_dot (lower_byte plus_byte)) with true. cbv iota.
  change (lower_byte plus_byte) with plus_byte. apply take_until_app_sep.
Qed.

(** Two local parts spell the same Gmail mailbox: letter case, dots anywhere,
    and everything from the first "+" on do not count. *)
Inductive gmail_same : list ascii -> list ascii -> Prop :=
| gs_case l k : map lower_byte l = map lower_byte k -> gmail_same l k
| gs_dot l k : gmail_same (l ++ dot_byte :: k) (l ++ k)
| gs_tag l k : gmail_same (l ++ plus_byte :: k) l
| gs_sym l k : gmail_same l k -> gmail_same k l
| gs_trans l k m : gmail_same l k -> gmail_same k m -> gmail_same l m.

Lemma gmail_same_key l k : gmail_same l k -> gmail_local l = gmail_local k.
Proof.
  induction 1 as [l k Hm|l k|l k|l k _ IH|l k m _ IH1 _ IH2].
  - unfold gmail_local. by rewrite Hm.
  - apply gmail_local_dot.
  - apply gmail_local_tag.
  - done.
  - by rewrite IH1.
Qed.

Lemma gmail_same_filter l k : gmail_same (k ++ l) (k ++ List.filter not_dot l).
Proof.
  revert k. induction l as [|a l IH]; intros k; simpl; [by constructor|].
  unfold not_dot at 1. destruct (Ascii.eqb_spec a dot_byte) as [->|Hne]; simpl.
  - eapply gs_trans; [apply gs_dot|apply IH].
  - specialize (IH (k ++ [a])). by rewrite <- !app_assoc in IH.
Qed.

(** Every local part spells the same mailbox as its canonical form. *)
Lemma gmail_same_local l : gmail_same l (gmail_local l).
Proof.
  apply gs_trans with (map lower_byte l); [|eapply gs_trans; [apply (gmail_same_filter (map lower_byte l) [])|]].
  - apply gs_case. rewrite map_map. apply map_ext. intros a. by rewrite lower_byte_idemp.
  - simpl. unfold gmail_local. set (f := List.filter not_dot (map lower_byte l)).
    destruct (index_byte plus_byte f) as [i|] eqn:E.
    + apply index_byte_Some in E as (p & q & E & _ & Hp). rewrite E, take_until_app_sep.
      assert (Ht : take_until plus_byte p = p).
      { apply index_byte_None in Hp. pose proof (take_until_index plus_byte p) as Ht. by rewrite Hp in Ht. }
      rewrite Ht. apply gs_tag.
    + pose proof (take_until_index plus_byte f) as Ht. rewrite E in Ht. rewrite Ht. by apply gs_case.
Qed.

(** C25: On Gmail two addresses have the same canonical key exactly when they
    spell the same mailbox: the key forgets letter case, dots and "+" tags, and
    nothing else; and a key is its own canonical form. *)
Theorem canonicalKey_gmail_classes l k d d' :
  is_ascii l = true -> is_ascii k = true ->
  (canonicalKey l d providerGmail = canonicalKey k d' providerGmail <-> gmail_same (bytes l) (bytes k)) /\
  canonicalKey (of_bytes (gmail_local (bytes l))) d' providerGmail = canonicalKey l d providerGmail.
Proof.
  intros Hl Hk. rewrite !canonicalKey_gmail by done. split; [split|].
  - intros E. apply (f_equal bytes) in E. rewrite !bytes_app, !bytes_of_bytes in E.
    apply app_inv_tail in E. eapply gs_trans; [apply gmail_same_local|]. rewrite E.
    apply gs_sym, gmail_same_local.
  - intros Hs. by rewrite (gmail_same_key _ _ Hs).
  - rewrite canonicalKey_gmail.
    + by rewrite bytes_of_bytes, gmail_local_idemp.
    + unfold is_ascii. rewrite bytes_of_bytes. apply forallb_forall. intros a Hin.
      apply list_elem_of_In, take_until_incl, list_elem_of_In, filter_In in Hin as [Hin _].
      revert a Hin. apply forallb_forall. by apply is_ascii_lower.
Qed.

(** Elsewhere the key merges nothing but letter case: two addresses with the
    same key have the same domain and the same local part up to case. *)
Theorem canonicalKey_injective l d p k d' p' :
  p <> providerGmail -> p' <> providerGmail ->
  domain_ok (bytes d) -> domain_ok (bytes d') ->
  canonicalKey l d p = canonicalKey k d' p' <-> ToLower l = ToLower k /\ d = d'.
Proof.
  intros Hp Hp' Hd Hd'. unfold canonicalKey.
  rewrite (proj2 (String.eqb_neq p _) Hp), (proj2 (String.eqb_neq p' _) Hp').
  split; [|by intros [-> ->]]. intros E. apply (f_equal bytes) in E. rewrite !bytes_app in E.
  change (bytes "@") with [at_byte] in E.
  pose proof (last_index_byte_app at_byte (bytes (ToLower l)) (bytes d) (domain_ok_no_at _ Hd)) as H1.
  pose proof (last_index_byte_app at_byte (bytes (ToLower k)) (bytes d') (domain_ok_no_at _ Hd')) as H2.
  cbn [app] in E. rewrite E, H2 in H1. injection H1 as H1.
  apply app_inj_1 in E as [E1 E2]; [|done]. injection E2 as E2. split; by apply bytes_inj.
Qed.
End Canonical.

(** ** Witnesses *)

(** A resolver with one domain that has exchangers, one that is temporarily
    broken, and none otherwise. *)
Definition ex_resolver : Resolver (bool * bool) := {|
  LookupMX := fun d =>
    if String.eqb d "example.com" then Ok [{| Host := "mx1.example.com."; Pref := 10 |};
                                           {| Host := "mx2.example.com."; Pref := 20 |}]
    else if String.eqb d "slow.example.com" then Err (false, true)
    else Err (true, false);
  LookupHost := fun _ => Err (true, false);
  as_DNSError := fun e => Some e |}.

Lemma ex_funnel :
  exists res, Run (H := ascii_tables) (H0 := ex_resolver) defaultDisposableSet 7 " Info@Example.COM " = Ok res /\
    Terminal res = false.
Proof. eexists. split; [vm_compute; reflexivity|reflexivity]. Qed.

Lemma funnel_task_witness :
  exists res, Run (H := ascii_tables) (H0 := ex_resolver) defaultDisposableSet 7 " Info@Example.COM " = Ok res /\
  exists local d, splitAndValidate (TrimSpace " Info@Example.COM ") = Some (local, d) /\
    Task_Email (res_Task res) = local +:+ "@" +:+ ToLower (H := ascii_tables) d.
Proof.
  destruct ex_funnel as (res & E & Ht). exists res. split; [exact E|].
  destruct (funnel_task (H := ascii_tables) (H0 := ex_resolver) defaultDisposableSet 7
              " Info@Example.COM " res E Ht) as (local & d & Hs & _ & _ & He & _).
  exists local, d. split; [exact Hs|exact He].
Defined.

Lemma canonicalKey_gmail_classes_witness :
  canonicalKey (H := ascii_tables) "J.Doe+x" "googlemail.com" providerGmail
  = canonicalKey (H := ascii_tables) "jdoe" "gmail.com" providerGmail.
Proof.
  apply (proj2 (proj1 (canonicalKey_gmail_classes (H := ascii_tables) "J.Doe+x" "jdoe"
    "googlemail.com" "gmail.com" eq_refl eq_refl))).
  apply gs_trans with (bytes "J.Doe"); [apply (gs_tag (bytes "J.Doe") (bytes "x"))|].
  apply gs_trans with (bytes "JDoe"); [apply (gs_dot (bytes "J") (bytes "Doe"))|].
  apply gs_case. reflexivity.
Defined.

Lemma canonicalKey_injective_witness :
  canonicalKey (H := ascii_tables) "Ann" "example.com" "custom"
    = canonicalKey (H := ascii_tables) "ann" "example.com" "custom" <->
  ToLower (H := ascii_tables) "Ann" = ToLower (H := ascii_tables) "ann" /\ "example.com" = "example.com".
Proof.
  apply (canonicalKey_injective (H := ascii_tables) "Ann" "example.com" "custom" "ann" "example.com" "custom").
  - discriminate.
  - discriminate.
  - apply validDomain_spec. vm_compute. reflexivity.
  - apply validDomain_spec. vm_compute. reflexivity.
Defined.

(** The provider class inferred from the exchangers is decided by a bare
    suffix: a host that merely ends in the letters "google.com" or
    "outlook.com", without a dot before them, is taken for the provider's. *)
Theorem refine_suffix_unanchored :
  refineProviderFromMX (H := ascii_tables) ["mx.notgoogle.com"] = providerGoogleWorkspace /\
  refineProviderFromMX (H := ascii_tables) ["mail.my-outlook.com."] = providerMicrosoft365.
Proof. split; vm_compute; reflexivity. Qed.
