(* ===== verification/Builtin.v ===== *)
(** [pkg/engine/builtin]: the native SMTP prober.

    The network is a parameter: [dial] says which hosts accept a connection, and
    a connected [server] answers each line given the lines sent before it.  A
    probe returns its verdict and signals together with the lines it sent, so
    that what goes over the wire is part of the model. *)

From Stdlib Require Import QArith.
From S2P Require Import Prelude GoStrings Float64 GoTime Verdict Engine.
Local Open Scope list_scope.
Local Open Scope Z_scope.

(** ** Reply classification ([classify.go]) *)

Record rcptOutcome := { out_status : Status; out_subStatus : SubStatus; out_signal : SignalKind }.

Definition blockKeywords : list string := [
  "spam"; "block"; "blacklist"; "blocklist"; "denied"; "reputation";
  "not allowed"; "banned"; "policy"; "rejected due"; "rbl"; "dnsbl";
  "access denied"; "unsolicited"].

(** [isDigits] *)
Definition isDigits (s : string) : bool := forallb is_digit (bytes s).

(** [enhancedStatus] *)
Definition enhancedStatus (msg : string) : string :=
  match Fields msg with
  | [] => ""
  | tok :: _ =>
      let parts := Split tok "."%char in
      if negb (len parts =? 3) then ""
      else if existsb (fun p => String.eqb p "" || negb (isDigits p)) parts then ""
      else tok
  end.

(** [enhancedIsPolicy] *)
Definition enhancedIsPolicy (enhanced : string) : bool :=
  match Split enhanced "."%char with
  | [_; p; _] => String.eqb p "7"
  | _ => false
  end.

Section Classify.
Context `{UnicodeTables}.

(** [keywordBlock] *)
Definition keywordBlock (msg : string) : bool :=
  let m := ToLower msg in existsb (fun kw => Contains m kw) blockKeywords.

(** [classifyRCPT] *)
Definition classifyRCPT (code : Z) (msg : string) : rcptOutcome :=
  let enhanced := enhancedStatus msg in
  if (code >=? 200) && (code <? 300) then
    {| out_status := StatusDeliverable; out_subStatus := SubValidMailbox; out_signal := SignalAccepted |}
  else if code =? 552 then
    {| out_status := StatusRisky; out_subStatus := SubFullMailbox; out_signal := SignalAccepted |}
  else if (code >=? 400) && (code <? 500) then
    if keywordBlock msg
    then {| out_status := StatusUnknown; out_subStatus := SubBlocked; out_signal := SignalBlocked |}
    else {| out_status := StatusUnknown; out_subStatus := SubGreylisted; out_signal := SignalTempFail |}
  else if (code >=? 500) && (code <? 600) then
    if enhancedIsPolicy enhanced || keywordBlock msg
    then {| out_status := StatusUnknown; out_subStatus := SubBlocked; out_signal := SignalBlocked |}
    else {| out_status := StatusUndeliverable; out_subStatus := SubMailboxNotFound;
            out_signal := SignalMailboxGone |}
  else {| out_status := StatusUnknown; out_subStatus := SubTemporaryFailure; out_signal := SignalTempFail |}.
End Classify.

(** [confidenceFor] *)
Definition confidenceFor (s : Status) : float64 :=
  match s with
  | StatusDeliverable | StatusUndeliverable => f64 (9 # 10)
  | StatusRisky => f64 (5 # 10)
  | _ => f64 (1 # 10)
  end.

Definition hex_digit (n : N) : ascii := ascii_of_N (if (n <? 10)%N then 48 + n else 87 + n).

(** [hex.EncodeToString] *)
Definition hex_encode (l : list ascii) : string :=
  of_bytes (concat (map (fun a => [hex_digit (N_of_ascii a / 16); hex_digit (N_of_ascii a mod 16)]) l)).

(** [randomLocalPart]: the nine bytes [rand.Read] gave, [None] when it failed. *)
Definition randomLocalPart (b : option (list ascii)) : string :=
  match b with
  | None => "rcptto-probe-000000000000"
  | Some b => "rcptto-probe-" +:+ hex_encode b
  end.

Definition newline_byte : ascii := ascii_of_N 10.

(** [shortResponse] *)
Definition shortResponse (msg : string) : string :=
  let msg := ReplaceByte msg newline_byte " " in
  let msg := TrimSpace msg in
  if slen msg >? 200 then slice_to msg 200 else msg.

(** ** The SMTP session ([smtp.go]) *)

(** What [textproto.ReadResponse] returns: an error comes with the code read so
    far (0 when none was). *)
Record reply := { r_code : Z; r_msg : string; r_err : bool }.

(** A connected server: its answer after the given lines.  Nothing is assumed of
    it. *)
Definition server : Type := list string -> reply.

(** [session.greeting]: a code other than 220 is an error that keeps the code. *)
Definition greeting (srv : server) : reply :=
  let r := srv [] in
  {| r_code := r_code r; r_msg := r_msg r; r_err := r_err r || negb (r_code r =? 220) |}.

(** [session.command]: the line joins the transcript; a failed exchange has the
    zero code and message when the write failed. *)
Definition command (srv : server) (sent : list string) (line : string) : reply * list string :=
  let sent := sent ++ [line] in (srv sent, sent).

(** [session.quit]: its reply is ignored. *)
Definition quit (sent : list string) : list string := sent ++ ["QUIT"].

(** ** The engine ([builtin.go]) *)

Definition defaultPort : Z := 25.
Definition defaultConnectTimeout : Duration := 10 * Second.
Definition defaultCommandTimeout : Duration := 10 * Second.
Definition defaultHELO : string := "localhost".
Definition defaultMailFrom : string := "verify@localhost".

Record Config := {
  Port : Z; ConnectTimeout : Duration; CommandTimeout : Duration; cfg_DetectCatchAll : bool;
  cfg_HELO : string; cfg_MailFrom : string;
}.

(** [New] *)
Definition New (cfg : Config) : Config := {|
  Port := if Port cfg =? 0 then defaultPort else Port cfg;
  ConnectTimeout := if ConnectTimeout cfg =? 0 then defaultConnectTimeout else ConnectTimeout cfg;
  CommandTimeout := if CommandTimeout cfg =? 0 then defaultCommandTimeout else CommandTimeout cfg;
  cfg_DetectCatchAll := cfg_DetectCatchAll cfg;
  cfg_HELO := if String.eqb (cfg_HELO cfg) "" then defaultHELO else cfg_HELO cfg;
  cfg_MailFrom := if String.eqb (cfg_MailFrom cfg) "" then defaultMailFrom else cfg_MailFrom cfg |}.

Definition Name : string := "builtin".
Definition Capabilities : Caps :=
  {| SupportsCatchAll := true; SupportsProxy := true; NeedsPort25 := true |}.

(** [SetDetectCatchAll] *)
Definition SetDetectCatchAll (on : bool) (cfg : Config) : Config := {|
  Port := Port cfg; ConnectTimeout := ConnectTimeout cfg; CommandTimeout := CommandTimeout cfg;
  cfg_DetectCatchAll := on; cfg_HELO := cfg_HELO cfg; cfg_MailFrom := cfg_MailFrom cfg |}.

(** The binding's id, "" for a nil binding. *)
Definition egress_id (eg : option EgressBinding) : string :=
  match eg with Some b => binding_ID b | None => "" end.

(** [Engine.result] *)
Definition result_ (now : Time) (t : Task) (eg : option EgressBinding) (status : Status)
    (sub : SubStatus) (code : Z) (msg : string) (catchAll : bool) : Verdict := {|
  Email := Task_Email t; Normalized := firstNonEmpty [Task_Normalized t; Task_Email t];
  vStatus := status; vSubStatus := sub; Confidence := confidenceFor status;
  vChecks := {| Checks_Syntax := {| Syntax_Valid := false |};
                Checks_MX := {| MX_Found := false; MX_Records := [] |};
                Checks_Disposable := false; Checks_Role := false; Checks_Free := false;
                Checks_CatchAll := catchAll;
                Checks_SMTP := {| SMTP_Probed := negb (code =? 0); SMTP_Code := code;
                                  SMTP_Response := shortResponse msg |} |};
  Provider := Task_Provider t; Engine := Name; EgressID := egress_id eg; Cached := false;
  CheckedAt := now |}.

(** [Engine.signals] *)
Definition signals (eg : option EgressBinding) (kind : SignalKind) (t : Task) (code : Z)
    (detail : string) : list Signal :=
  let dest := firstNonEmpty [Task_Provider t; Task_Domain t] in
  [{| Signal_Kind := kind; Signal_EgressID := egress_id eg; Signal_Destination := dest;
      Signal_Code := code; Signal_Detail := shortResponse detail |}].

(** [Engine.greet] *)
Definition greet (cfg : Config) (eg : EgressBinding) (srv : server) (sent : list string)
    : bool * list string :=
  let helo := firstNonEmpty [binding_HELO eg; cfg_HELO cfg] in
  let '(r, sent) := command srv sent ("EHLO " +:+ helo) in
  if negb (r_err r) && (r_code r <? 400) then (true, sent)
  else
    let '(r, sent) := command srv sent ("HELO " +:+ helo) in
    (negb (r_err r) && (r_code r <? 400), sent).

(** [Engine.mailFrom] *)
Definition mailFrom (cfg : Config) (eg : EgressBinding) (srv : server) (sent : list string)
    : Z * string * bool * list string :=
  let from := firstNonEmpty [binding_MailFrom eg; cfg_MailFrom cfg] in
  let '(r, sent) := command srv sent ("MAIL FROM:<" +:+ from +:+ ">") in
  if r_err r then (0, "mail from io error", false, sent)
  else (r_code r, r_msg r, (r_code r >=? 200) && (r_code r <? 300), sent).

(** [Engine.detectCatchAll] *)
Definition detectCatchAll (rand : option (list ascii)) (srv : server) (domain : string)
    (sent : list string) : bool * list string :=
  let '(r, sent) := command srv sent ("RCPT TO:<" +:+ randomLocalPart rand +:+ "@" +:+ domain +:+ ">") in
  (negb (r_err r) && (r_code r >=? 200) && (r_code r <? 300), sent).

Section Engine.
Context `{UnicodeTables}.
Variable cfg : Config.
Variable now : Time.
Variable rand : option (list ascii).

(** The conversation of [probeHost] over an established connection: the verdict,
    the signals and the lines sent. *)
Definition converse (t : Task) (eg : EgressBinding) (srv : server)
    : Verdict * list Signal * list string :=
  let g := greeting srv in
  if r_err g || (r_code g >=? 500) then
    (result_ now t (Some eg) StatusUnknown SubBlocked (r_code g) "greeting rejected" false,
     signals (Some eg) SignalBlocked t (r_code g) "greeting", [])
  else
    let '(ok, sent) := greet cfg eg srv [] in
    if negb ok then
      (result_ now t (Some eg) StatusUnknown SubBlocked 0 "helo rejected" false,
       signals (Some eg) SignalBlocked t 0 "helo", sent)
    else
      let '(code, msg, ok, sent) := mailFrom cfg eg srv sent in
      if negb ok then
        let out := classifyRCPT code msg in
        (result_ now t (Some eg) (out_status out) (out_subStatus out) code msg false,
         signals (Some eg) (out_signal out) t code msg, sent)
      else
        let '(r, sent) := command srv sent ("RCPT TO:<" +:+ Task_Email t +:+ ">") in
        if r_err r then
          (result_ now t (Some eg) StatusUnknown SubTemporaryFailure 0 "rcpt io error" false,
           signals (Some eg) SignalTempFail t 0 "rcpt io", sent)
        else
          let out := classifyRCPT (r_code r) (r_msg r) in
          let '(catchAll, sent) :=
            if bool_decide (out_status out = StatusDeliverable) && cfg_DetectCatchAll cfg
            then detectCatchAll rand srv (Task_Domain t) sent else (false, sent) in
          let status := if catchAll then StatusRisky else out_status out in
          let sub := if catchAll then SubCatchAll else out_subStatus out in
          let sent := quit sent in
          (result_ now t (Some eg) status sub (r_code r) (r_msg r) catchAll,
           signals (Some eg) (out_signal out) t (r_code r) (r_msg r), sent).

(** Dialling a host: [None] when the connection failed. *)
Variable dial : string -> option server.

(** [Engine.probeHost]; [None] is [connected = false]. *)
Definition probeHost (t : Task) (eg : EgressBinding) (host : string)
    : option (Verdict * list Signal * list string) :=
  match dial host with
  | None => None
  | Some srv => Some (converse t eg srv)
  end.

(** The loop of [Verify] over the exchangers. *)
Fixpoint try_hosts (t : Task) (eg : EgressBinding) (hosts : list string)
    : option (Verdict * list Signal * list string) :=
  match hosts with
  | [] => None
  | host :: hosts =>
      match probeHost t eg host with
      | Some r => Some r
      | None => try_hosts t eg hosts
      end
  end.

(** [Engine.Verify]; its error is always nil. *)
Definition Verify (t : Task) (eg : EgressBinding) : Verdict * list Signal * list string :=
  if len (Task_MX t) =? 0 then
    (result_ now t (Some eg) StatusUnknown SubNoConnect 0 "" false,
     signals (Some eg) SignalConnRefused t 0 "no mx", [])
  else
    match try_hosts t eg (Task_MX t) with
    | Some r => r
    | None =>
        (result_ now t (Some eg) StatusUnknown SubNoConnect 0 "" false,
         signals (Some eg) SignalConnRefused t 0 "all mx unreachable", [])
    end.
End Engine.
