(* ===== verification/BuiltinProps.v ===== *)
(** What the SMTP prober guarantees: what it ever sends, which exchanger it
    uses, that its verdict and its signal tell the same story, and where its
    feedback goes. *)

From Stdlib Require Import QArith.
From S2P Require Import Prelude GoStrings Float64 GoTime Verdict Engine Builtin.
Local Open Scope list_scope.
Local Open Scope Z_scope.

(** Verdict statuses and the reputation signals that go with them. *)
Definition agrees (st : Status) (k : SignalKind) : bool :=
  match st, k with
  | StatusDeliverable, SignalAccepted | StatusRisky, SignalAccepted
  | StatusUndeliverable, SignalMailboxGone
  | StatusUnknown, SignalTempFail | StatusUnknown, SignalBlocked | StatusUnknown, SignalConnRefused => true
  | _, _ => false
  end.

Lemma confidence_unit s : funit (confidenceFor s).
Proof. destruct s; apply funit_f64; discriminate. Qed.

Section Props.
Context `{UnicodeTables}.
Variable cfg : Config.
Variable now : Time.
Variable rand : option (list ascii).

Lemma classify_agrees code msg :
  agrees (out_status (classifyRCPT code msg)) (out_signal (classifyRCPT code msg)) = true /\
  Status_Valid (out_status (classifyRCPT code msg)) = true.
Proof. unfold classifyRCPT. by repeat case_match. Qed.

(** The classification of a recipient reply: deliverable exactly on 2xx,
    risky exactly on 552, undeliverable exactly on the other 5xx that carry
    neither a policy code (x.7.x) nor a block keyword; everything else stays
    unknown, and counts against the identity as a block exactly when it is a 4xx
    with a keyword or a 5xx with a policy code or a keyword. *)
Theorem classifyRCPT_spec code msg :
  let out := classifyRCPT code msg in
  let hard := 500 <= code < 600 /\ code <> 552 in
  (out_status out = StatusDeliverable <-> 200 <= code < 300) /\
  (out_status out = StatusRisky <-> code = 552) /\
  (out_status out = StatusUndeliverable <->
     hard /\ enhancedIsPolicy (enhancedStatus msg) = false /\ keywordBlock msg = false) /\
  (out_signal out = SignalBlocked <->
     (400 <= code < 500 /\ keywordBlock msg = true) \/
     (hard /\ (enhancedIsPolicy (enhancedStatus msg) = true \/ keywordBlock msg = true))).
Proof.
  cbv zeta. unfold classifyRCPT. rewrite !Z.geb_leb.
  destruct (Z.leb_spec 200 code), (Z.ltb_spec code 300), (Z.eqb_spec code 552),
    (Z.leb_spec 400 code), (Z.ltb_spec code 500), (Z.leb_spec 500 code), (Z.ltb_spec code 600);
    try lia; simpl; destruct (enhancedIsPolicy (enhancedStatus msg)), (keywordBlock msg); simpl;
    repeat split; intros; try lia; try naive_solver lia.
Qed.

(** ** The wire *)

Definition ehlo (eg : EgressBinding) : string := "EHLO " +:+ firstNonEmpty [binding_HELO eg; cfg_HELO cfg].
Definition helo (eg : EgressBinding) : string := "HELO " +:+ firstNonEmpty [binding_HELO eg; cfg_HELO cfg].
Definition mail (eg : EgressBinding) : string :=
  "MAIL FROM:<" +:+ firstNonEmpty [binding_MailFrom eg; cfg_MailFrom cfg] +:+ ">".
Definition rcpt (addr : string) : string := "RCPT TO:<" +:+ addr +:+ ">".
Definition rcpt_random (domain : string) : string :=
  "RCPT TO:<" +:+ randomLocalPart rand +:+ "@" +:+ domain +:+ ">".

(** The scripts a probe may follow, up to where it stops. *)
Definition script (t : Task) (eg : EgressBinding) (sent : list string) : Prop :=
  sent = [] \/ sent = [ehlo eg; helo eg] \/
  exists hello, (hello = [ehlo eg] \/ hello = [ehlo eg; helo eg]) /\
    (sent = hello ++ [mail eg] \/ sent = hello ++ [mail eg; rcpt (Task_Email t)] \/
     sent = hello ++ [mail eg; rcpt (Task_Email t); "QUIT"] \/
     (cfg_DetectCatchAll cfg = true /\
      sent = hello ++ [mail eg; rcpt (Task_Email t);
                       rcpt_random (Task_Domain t); "QUIT"])).

Lemma greet_script eg srv :
  let '(ok, sent) := greet cfg eg srv [] in
  sent = [ehlo eg] /\ ok = true \/ sent = [ehlo eg; helo eg].
Proof. unfold greet, command. simpl. destruct (negb _ && _); [by left|by right]. Qed.

Lemma converse_script t eg srv : script t eg (converse cfg now rand t eg srv).2.
Proof.
  unfold converse, script. destruct (r_err (greeting srv) || (r_code (greeting srv) >=? 500)); [by left|].
  pose proof (greet_script eg srv) as Hg. destruct (greet cfg eg srv []) as [ok hello].
  assert (Hh : hello = [ehlo eg] \/ hello = [ehlo eg; helo eg]) by naive_solver.
  destruct ok; cbn [negb snd]; [|right; left; naive_solver].
  right; right. exists hello. split; [done|]. unfold mailFrom, command. fold (mail eg).
  set (r1 := srv (hello ++ [mail eg])).
  destruct (r_err r1); cbn [negb snd]; [by left|].
  destruct ((r_code r1 >=? 200) && (r_code r1 <? 300)); cbn [negb snd]; [|by left].
  fold (rcpt (Task_Email t)). rewrite <- app_assoc. cbn [app].
  set (r2 := srv (hello ++ [mail eg; rcpt (Task_Email t)])).
  destruct (r_err r2); cbn [snd]; [by right; left|].
  destruct (bool_decide _ && cfg_DetectCatchAll cfg) eqn:Ed; unfold detectCatchAll, command, quit; cbn [snd];
    rewrite <- ?app_assoc; cbn [app]; [|by right; right; left].
  right; right; right. apply andb_true_iff in Ed as [_ Ed]. done.
Qed.

(** C21: A probe never delivers mail: whatever the server answers, the lines sent
    follow EHLO (then HELO), MAIL FROM, one RCPT TO for the address, at most one
    more for a random mailbox of the same domain when catch-all detection is on,
    and QUIT; no DATA. *)
Theorem probe_never_sends_data dial t eg :
  script t eg (Verify cfg now rand dial t eg).2.
Proof.
  unfold Verify. case_match; [by left|].
  assert (Ht : forall hosts r, try_hosts cfg now rand dial t eg hosts = Some r -> script t eg r.2).
  { induction hosts as [|h hosts IH]; intros r Hr; simpl in Hr; [done|]. unfold probeHost in Hr.
    destruct (dial h) as [srv|]; [|by apply IH]. simplify_eq. apply converse_script. }
  destruct (try_hosts cfg now rand dial t eg (Task_MX t)) eqn:E; [by apply Ht in E|by left].
Qed.

(** ** The outcome *)

(** One signal, from the identity that probed, that agrees with the verdict. *)
Definition coherent (t : Task) (eg : EgressBinding) (r : Verdict * list Signal * list string) : Prop :=
  let '(v, sigs, _) := r in
  exists s, sigs = [s] /\ Signal_EgressID s = binding_ID eg /\ EgressID v = binding_ID eg /\
    agrees (vStatus v) (Signal_Kind s) = true /\
    Email v = Task_Email t /\ SMTP_Code (Checks_SMTP (vChecks v)) = Signal_Code s /\
    (Task_Email t <> "" -> Validate v = None).

Lemma coherent_result t eg st sub code m1 m2 ca k sent :
  agrees st k = true -> Status_Valid st = true ->
  coherent t eg (result_ now t (Some eg) st sub code m1 ca, signals (Some eg) k t code m2, sent).
Proof.
  intros Ha Hv. eexists. split; [reflexivity|]. repeat split; try done.
  intros He. apply Validate_ok; [done|done|apply confidence_unit].
Qed.

Lemma converse_coherent t eg srv : coherent t eg (converse cfg now rand t eg srv).
Proof.
  unfold converse. destruct (r_err (greeting srv) || _); [by apply coherent_result|].
  destruct (greet cfg eg srv []) as [ok sent]. destruct ok; [|by apply coherent_result]. cbn [negb].
  destruct (mailFrom cfg eg srv sent) as [[[code msg] ok] sent1].
  destruct ok; cbn [negb]; [|apply coherent_result; apply classify_agrees].
  unfold command. destruct (r_err _); [by apply coherent_result|].
  set (r := srv _). destruct (classify_agrees (r_code r) (r_msg r)) as [Ha Hv].
  destruct (bool_decide (out_status (classifyRCPT (r_code r) (r_msg r)) = StatusDeliverable)) eqn:Ed; cbn [andb];
    [|by apply coherent_result].
  apply bool_decide_eq_true_1 in Ed. rewrite Ed in *. destruct (cfg_DetectCatchAll cfg); [|by apply coherent_result].
  destruct (detectCatchAll rand srv (Task_Domain t) _) as [[] sent2]; [|by apply coherent_result].
  apply coherent_result; [|done]. by destruct (out_signal _).
Qed.

Lemma Verify_consistent dial t eg : coherent t eg (Verify cfg now rand dial t eg).
Proof.
  unfold Verify. case_match; [by apply coherent_result|].
  assert (Ht : forall hosts r, try_hosts cfg now rand dial t eg hosts = Some r -> coherent t eg r).
  { induction hosts as [|h hosts IH]; intros r Hr; simpl in Hr; [done|]. unfold probeHost in Hr.
    destruct (dial h) as [srv|]; [|by apply IH]. simplify_eq. apply converse_coherent. }
  destruct (try_hosts cfg now rand dial t eg (Task_MX t)) as [r|] eqn:E;
    [by eapply Ht|by apply coherent_result].
Qed.

(** C22: The verdict and the reputation feedback of a probe agree: exactly one
    signal is produced, for the identity that probed, and it is "accepted" for
    deliverable and risky, "mailbox gone" for undeliverable, and a failure kind
    for unknown; the verdict passes [Validate]. *)
Theorem Verify_coherent dial t eg : coherent t eg (Verify cfg now rand dial t eg).
Proof. apply Verify_consistent. Qed.

Lemma try_hosts_first dial t eg pre h post srv :
  Forall (fun x => dial x = None) pre -> dial h = Some srv ->
  try_hosts cfg now rand dial t eg (pre ++ h :: post) = Some (converse cfg now rand t eg srv).
Proof.
  intros HF Hd. induction HF as [|x pre Hx _ IH]; simpl; unfold probeHost.
  - by rewrite Hd.
  - by rewrite Hx.
Qed.

Lemma try_hosts_none dial t eg hosts :
  Forall (fun x => dial x = None) hosts -> try_hosts cfg now rand dial t eg hosts = None.
Proof. induction 1 as [|x hosts Hx _ IH]; simpl; [done|]. unfold probeHost. by rewrite Hx. Qed.

Lemma Verify_first_host dial t eg :
  match list_find (fun h => is_Some (dial h)) (Task_MX t) with
  | Some (_, h) => exists srv, dial h = Some srv /\
      Verify cfg now rand dial t eg = converse cfg now rand t eg srv
  | None => exists detail, Verify cfg now rand dial t eg =
      (result_ now t (Some eg) StatusUnknown SubNoConnect 0 "" false,
       signals (Some eg) SignalConnRefused t 0 detail, [])
  end.
Proof.
  unfold Verify. destruct (list_find (fun h => is_Some (dial h)) (Task_MX t)) as [[i h]|] eqn:E.
  - apply list_find_Some in E as (Hi & [srv Hs] & Hpre). exists srv. split; [done|].
    apply list_elem_of_split_length in Hi as (pre & post & Hmx & ->). rewrite Hmx.
    rewrite (proj2 (Z.eqb_neq _ _)) by (rewrite len_app; unfold len; simpl; lia).
    rewrite (try_hosts_first dial t eg pre h post srv); [done| |done].
    apply Forall_lookup. intros j x Hx. destruct (dial x) eqn:Ex; [|done]. exfalso.
    eapply (Hpre j x); [rewrite Hmx; by apply lookup_app_l_Some|by eapply lookup_lt_Some|by eauto].
  - apply list_find_None in E. case_match; [by eexists|].
    rewrite try_hosts_none; [by eexists|]. eapply Forall_impl; [|exact E].
    intros x Hx. destruct (dial x) eqn:Ex; [|done]. destruct Hx. rewrite Ex. eauto.
Qed.

(** Exchanger failover: the probe runs on the first host of the preference
    order that accepts a connection, and what that host says is final; only when
    none accepts is the result "unknown, no connect" with a refusal signal. *)
Theorem Verify_failover dial t eg :
  match list_find (fun h => is_Some (dial h)) (Task_MX t) with
  | Some (_, h) => exists srv, dial h = Some srv /\
      Verify cfg now rand dial t eg = converse cfg now rand t eg srv
  | None => exists detail, Verify cfg now rand dial t eg =
      (result_ now t (Some eg) StatusUnknown SubNoConnect 0 "" false,
       signals (Some eg) SignalConnRefused t 0 detail, [])
  end.
Proof. apply Verify_first_host. Qed.

(** ** Evidence *)

(** The greetings before MAIL FROM. *)
Definition hello_of (eg : EgressBinding) (hello : list string) : Prop := hello = [ehlo eg] \/ hello = [ehlo eg; helo eg].

(** The reply to the line of a transcript: no error, and the given code. *)
Definition replied (srv : server) (upto : list string) (code : Z) (msg : string) : Prop :=
  r_err (srv upto) = false /\ r_code (srv upto) = code /\ r_msg (srv upto) = msg.

(** A 5xx that says the mailbox is not there: not a full mailbox, not a policy,
    not a block. *)
Definition hard_no (code : Z) (msg : string) : Prop :=
  500 <= code < 600 /\ code <> 552 /\ enhancedIsPolicy (enhancedStatus msg) = false /\ keywordBlock msg = false.

(** The evidence for "deliverable", in the lines [sent] to [srv]: the address
    itself was accepted, and with catch-all detection the random address was not. *)
Definition accepted_at (t : Task) (eg : EgressBinding) (srv : server) (sent : list string) (code : Z) : Prop :=
  exists hello, hello_of eg hello /\
    (exists c msg, replied srv (hello ++ [mail eg]) c msg /\ 200 <= c < 300) /\
    let asked := hello ++ [mail eg; rcpt (Task_Email t)] in
    (exists msg, replied srv asked code msg) /\ 200 <= code < 300 /\
    if cfg_DetectCatchAll cfg then
      let again := asked ++ [rcpt_random (Task_Domain t)] in
      sent = again ++ ["QUIT"] /\ (r_err (srv again) = true \/ ~ 200 <= r_code (srv again) < 300)
    else sent = asked ++ ["QUIT"].

(** The evidence for "undeliverable": the address was refused for good, or the
    sender was before the address was ever named. *)
Definition refused_at (t : Task) (eg : EgressBinding) (srv : server) (sent : list string) (code : Z) : Prop :=
  exists hello msg, hello_of eg hello /\ hard_no code msg /\
    let asked := hello ++ [mail eg; rcpt (Task_Email t)] in
    (sent = asked ++ ["QUIT"] /\ replied srv asked code msg \/ sent = hello ++ [mail eg] /\ replied srv (hello ++ [mail eg]) code msg).

Lemma classify_deliverable code msg : out_status (classifyRCPT code msg) = StatusDeliverable -> 200 <= code < 300.
Proof. intros Hs. unfold classifyRCPT in Hs. rewrite !Z.geb_leb in Hs. repeat (case_match; try done); bool_to_prop; lia. Qed.

Lemma classify_undeliverable code msg : out_status (classifyRCPT code msg) = StatusUndeliverable -> hard_no code msg.
Proof.
  intros Hs. unfold hard_no. unfold classifyRCPT in Hs. rewrite !Z.geb_leb in Hs.
  destruct (enhancedIsPolicy _), (keywordBlock _); cbn [orb] in Hs; repeat (case_match; try done); bool_to_prop; repeat split; try done; lia.
Qed.

Lemma greet_hello eg srv sent : greet cfg eg srv [] = (true, sent) -> hello_of eg sent.
Proof. intros Hg. pose proof (greet_script eg srv) as Hs. rewrite Hg in Hs. unfold hello_of. tauto. Qed.

(** A definite verdict of a conversation has its evidence there. *)
Definition evidenced (t : Task) (eg : EgressBinding) (srv : server) (r : Verdict * list Signal * list string) : Prop :=
  let code := SMTP_Code (Checks_SMTP (vChecks r.1.1)) in
  (vStatus r.1.1 = StatusDeliverable -> accepted_at t eg srv r.2 code) /\
  (vStatus r.1.1 = StatusUndeliverable -> refused_at t eg srv r.2 code).

Lemma evidenced_other t eg srv st sub code m1 ca sigs sent :
  st <> StatusDeliverable -> st <> StatusUndeliverable -> evidenced t eg srv (result_ now t (Some eg) st sub code m1 ca, sigs, sent).
Proof. by split. Qed.

Lemma converse_evidence t eg srv : evidenced t eg srv (converse cfg now rand t eg srv).
Proof.
  unfold converse. destruct (r_err (greeting srv) || _); [by apply evidenced_other|].
  destruct (greet cfg eg srv []) as [[] hello] eqn:Eg; cbn [negb]; [|by apply evidenced_other].
  apply greet_hello in Eg. unfold mailFrom, command. fold (mail eg).
  destruct (r_err (srv (hello ++ [mail eg]))) eqn:E1; cbn [negb]; [by apply evidenced_other|].
  destruct ((r_code _ >=? 200) && (r_code _ <? 300)) eqn:E2; cbn [negb].
  2: { split; cbn; intros Hs.
    - apply classify_deliverable in Hs. rewrite Z.geb_leb in E2. apply andb_false_iff in E2 as [E2|E2]; bool_to_prop; lia.
    - apply classify_undeliverable in Hs. exists hello, (r_msg (srv (hello ++ [mail eg]))). repeat (split; [done|]). by right. }
  assert (Hmail : exists c msg, replied srv (hello ++ [mail eg]) c msg /\ 200 <= c < 300).
  { eexists _, _. split; [by repeat split|]. rewrite Z.geb_leb in E2. bool_to_prop. lia. }
  fold (rcpt (Task_Email t)). rewrite <- app_assoc. cbn [app]. set (asked := hello ++ [mail eg; rcpt (Task_Email t)]).
  destruct (r_err (srv asked)) eqn:E3; [by apply evidenced_other|].
  set (out := classifyRCPT (r_code (srv asked)) (r_msg (srv asked))).
  destruct (bool_decide (out_status out = StatusDeliverable)) eqn:Ed; cbn [andb].
  2: { apply bool_decide_eq_false in Ed. split; cbn; [done|]. intros Hs. apply classify_undeliverable in Hs.
    exists hello, (r_msg (srv asked)). repeat (split; [done|]). by left. }
  apply bool_decide_eq_true in Ed. destruct (classify_deliverable _ _ Ed) as [Hlo Hhi].
  assert (Hyes : (exists msg, replied srv asked (r_code (srv asked)) msg) /\ 200 <= r_code (srv asked) < 300) by (split; [by eexists|lia]).
  destruct (cfg_DetectCatchAll cfg) eqn:Ec; cbn [andb].
  - unfold detectCatchAll, command. fold (rcpt_random (Task_Domain t)). set (again := asked ++ [rcpt_random (Task_Domain t)]).
    destruct (negb _ && _ && _) eqn:Ea; [by apply evidenced_other|]. split; cbn; [|by rewrite Ed]. intros _. exists hello.
    rewrite Ec. split; [done|]. split; [done|]. destruct Hyes as [H1 H2]. split; [done|]. split; [done|]. split; [done|].
    apply andb_false_iff in Ea as [Ea|Ea]; [apply andb_false_iff in Ea as [Ea|Ea]|]; rewrite ?Z.geb_leb in Ea; bool_to_prop;
      [by left|right; fold asked; fold again; lia|right; fold asked; fold again; lia].
  - split; cbn; [|by rewrite Ed]. intros _. exists hello. rewrite Ec. destruct Hyes as [H1 H2]. done.
Qed.

(** C23: A definite verdict has evidence in the conversation that was held.
    "Deliverable": the first reachable exchanger answered the very RCPT TO of the
    address, sent after a sender it accepted, with a 2xx, the code recorded in
    the checks, and when catch-all detection is on it did not accept
    the random address asked for next.  "Undeliverable": it answered that
    RCPT TO, or the MAIL FROM before it, with a 5xx that is neither a full
    mailbox (552) nor a policy (x.7.x) nor a block by its words. *)
Theorem definite_verdict_evidence dial t eg :
  let '(v, _, sent) := Verify cfg now rand dial t eg in
  let code := SMTP_Code (Checks_SMTP (vChecks v)) in
  let first h srv := (exists i, list_find (fun h => is_Some (dial h)) (Task_MX t) = Some (i, h)) /\ dial h = Some srv in
  (vStatus v = StatusDeliverable -> exists h srv, first h srv /\ accepted_at t eg srv sent code) /\
  (vStatus v = StatusUndeliverable -> exists h srv, first h srv /\ refused_at t eg srv sent code).
Proof.
  pose proof (Verify_first_host dial t eg) as Hf.
  destruct (list_find (fun h => is_Some (dial h)) (Task_MX t)) as [[i h]|] eqn:E.
  - destruct Hf as (srv & Hs & ->). pose proof (converse_evidence t eg srv) as Hc. unfold evidenced in Hc.
    destruct (converse cfg now rand t eg srv) as [[v sigs] sent]. cbn [fst snd] in Hc. destruct Hc as [H1 H2].
    split; intros Hv; exists h, srv; (split; [split; [by eexists|done]|]); [by apply H1|by apply H2].
  - destruct Hf as [d ->]. done.
Qed.

(** A rejected sender is reported as a missing mailbox: when the server
    accepts the greeting and answers MAIL FROM with a hard 5xx that has no
    policy marker, the address is declared undeliverable ("mailbox not found")
    although no RCPT TO was ever sent. *)
Theorem sender_reject_undeliverable t eg srv :
  r_err (srv []) = false -> r_code (srv []) = 220 ->
  r_err (srv [ehlo eg]) = false -> r_code (srv [ehlo eg]) < 400 ->
  let r := srv [ehlo eg; mail eg] in
  r_err r = false -> 500 <= r_code r < 600 -> r_code r <> 552 ->
  enhancedIsPolicy (enhancedStatus (r_msg r)) = false -> keywordBlock (r_msg r) = false ->
  let '(v, _, sent) := converse cfg now rand t eg srv in
  vStatus v = StatusUndeliverable /\ vSubStatus v = SubMailboxNotFound /\ sent = [ehlo eg; mail eg].
Proof.
  intros G1 G2 E1 E2 r M1 M2 M3 M4 M5.
  assert (Hout : classifyRCPT (r_code r) (r_msg r) = {| out_status := StatusUndeliverable;
    out_subStatus := SubMailboxNotFound; out_signal := SignalMailboxGone |}).
  { unfold classifyRCPT. rewrite !Z.geb_leb, M4, M5.
    rewrite (proj2 (Z.ltb_ge _ 300)), andb_false_r by lia. rewrite (proj2 (Z.eqb_neq _ 552)) by done.
    rewrite (proj2 (Z.ltb_ge _ 500)), andb_false_r by lia.
    rewrite (proj2 (Z.leb_le 500 _)), (proj2 (Z.ltb_lt _ 600)) by lia. done. }
  unfold converse, greeting. cbn [r_err r_code]. rewrite G1, G2. cbn [orb negb Z.eqb Pos.eqb].
  change (220 >=? 500) with false. cbv iota. unfold greet, command. cbn [app]. fold (ehlo eg).
  rewrite E1, (proj2 (Z.ltb_lt _ _)) by done. cbn [negb andb]. unfold mailFrom, command. cbn [app].
  fold (mail eg). fold r. rewrite M1. rewrite (proj2 (Z.ltb_ge _ 300)), andb_false_r by lia. cbn [negb].
  rewrite Hout. done.
Qed.
End Props.

(** ** A concrete server, for the witness *)

Definition ex_binding : EgressBinding :=
  {| binding_ID := "a"; binding_HELO := "mx.example.org"; binding_MailFrom := "probe@example.org" |}.
Definition ex_engine : Config :=
  New {| Port := 0; ConnectTimeout := 0; CommandTimeout := 0; cfg_DetectCatchAll := true;
         cfg_HELO := ""; cfg_MailFrom := "" |}.
Definition ex_probe_task : Task :=
  {| Task_ID := ""; Task_JobID := ""; Task_Email := "u@example.com"; Task_Normalized := "u@example.com";
     Task_Domain := "example.com"; Task_Provider := "custom"; Task_MX := ["mx.example.com"] |}.
(** A server that greets and then refuses the sender. *)
Definition ex_server : server := fun sent =>
  match sent with
  | [] => {| r_code := 220; r_msg := "ready"; r_err := false |}
  | [_] => {| r_code := 250; r_msg := "hello"; r_err := false |}
  | _ => {| r_code := 550; r_msg := "5.1.8 sender address does not exist"; r_err := false |}
  end.

Lemma sender_reject_undeliverable_witness :
  let '(v, _, sent) := converse (H := ascii_tables) ex_engine 7 None ex_probe_task ex_binding ex_server in
  vStatus v = StatusUndeliverable /\ vSubStatus v = SubMailboxNotFound /\
  sent = [ehlo ex_engine ex_binding; mail ex_engine ex_binding].
Proof.
  apply (sender_reject_undeliverable (H := ascii_tables) ex_engine 7 None ex_probe_task ex_binding ex_server);
    try reflexivity.
  - vm_compute. split; [discriminate|reflexivity].
  - discriminate.
Defined.
