(* ===== verification/Textproto.v ===== *)
(** The SMTP session on the wire: [net/textproto] under [pkg/engine/builtin/smtp.go].

    [Builtin.v] models a connected server by the replies it gives.  Here the
    replies are read from the bytes of the connection as [textproto.Reader] reads
    them: lines, codes, multi-line replies.  A server of bytes becomes a server of
    replies ([text_server]), so that the prober's theorems hold of it. *)

From Stdlib Require Import QArith FunctionalExtensionality.
From S2P Require Import Prelude GoStrings GoConv Float64 GoTime Verdict Engine Builtin.
Local Open Scope list_scope.
Local Open Scope Z_scope.

Definition LF : ascii := ascii_of_N 10.
Definition CR : ascii := ascii_of_N 13.

(** ** Lines *)

(** The bytes up to and including the first line feed, and the rest. *)
Fixpoint cut_lf (l : list ascii) : list ascii * list ascii :=
  match l with
  | [] => ([], [])
  | a :: l => if Ascii.eqb a LF then ([a], l) else let '(line, rest) := cut_lf l in (a :: line, rest)
  end.

(** The end of a line without its line feed and the carriage return before it. *)
Definition drop_eol (line : list ascii) : list ascii :=
  match reverse line with
  | a :: l => if Ascii.eqb a LF then
                match l with
                | b :: l' => if Ascii.eqb b CR then reverse l' else reverse l
                | [] => []
                end
              else line
  | [] => line
  end.

(** [ReadLine] over what the connection delivers before it ends or the deadline
    passes: a last line without an end counts as a line; nothing left is an error. *)
Definition ReadLine (buf : list ascii) : option (string * list ascii) :=
  match buf with
  | [] => None
  | _ => let '(line, rest) := cut_lf buf in Some (of_bytes (drop_eol line), rest)
  end.

(** ** Replies *)

Record code_line := { cl_code : Z; cl_continued : bool; cl_message : string; cl_err : bool }.

(** The check of the expected code: its first digit, its first two, or all. *)
Definition unexpected (expectCode code : Z) : bool :=
  (1 <=? expectCode) && (expectCode <? 10) && negb (code / 100 =? expectCode) ||
  (10 <=? expectCode) && (expectCode <? 100) && negb (code / 10 =? expectCode) ||
  (100 <=? expectCode) && (expectCode <? 1000) && negb (code =? expectCode).

(** [parseCodeLine] *)
Definition parseCodeLine (line : string) (expectCode : Z) : code_line :=
  let short := {| cl_code := 0; cl_continued := false; cl_message := ""; cl_err := true |} in
  match bytes line with
  | a :: b :: c :: d :: rest =>
      if negb (Ascii.eqb d " "%char) && negb (Ascii.eqb d "-"%char) then short
      else
        let continued := Ascii.eqb d "-"%char in
        match Atoi (of_bytes [a; b; c]) with
        | None => {| cl_code := 0; cl_continued := continued; cl_message := ""; cl_err := true |}
        | Some code =>
            if code <? 100 then {| cl_code := code; cl_continued := continued; cl_message := ""; cl_err := true |}
            else {| cl_code := code; cl_continued := continued; cl_message := of_bytes rest;
                    cl_err := unexpected expectCode code |}
        end
  | _ => short
  end.

(** [strings.TrimRight(line, "\r\n")] *)
Fixpoint drop_breaks (l : list ascii) : list ascii :=
  match l with
  | a :: l' => if Ascii.eqb a CR || Ascii.eqb a LF then drop_breaks l' else l
  | [] => []
  end.
Definition trim_breaks (s : string) : string := of_bytes (reverse (drop_breaks (reverse (bytes s)))).

Definition newline : string := of_bytes [LF].

(** The loop of [ReadResponse] over the further lines of a reply.  A line of
    another form or another code belongs to the message.  Every turn reads at
    least one byte, so the length of the buffer is fuel enough. *)
Fixpoint read_more (fuel : nat) (code : Z) (err : bool) (message : string) (buf : list ascii) : reply * list ascii :=
  match fuel with
  | O => ({| r_code := 0; r_msg := ""; r_err := true |}, buf)
  | S fuel =>
      match ReadLine buf with
      | None => ({| r_code := 0; r_msg := ""; r_err := true |}, [])
      | Some (line, rest) =>
          let l := parseCodeLine line 0 in
          if cl_err l || negb (cl_code l =? code)
          then read_more fuel code err (message +:+ newline +:+ trim_breaks line) rest
          else
            let message := message +:+ newline +:+ cl_message l in
            if cl_continued l then read_more fuel code err message rest
            else ({| r_code := code; r_msg := message; r_err := err |}, rest)
      end
  end.

(** [ReadResponse] *)
Definition ReadResponse (expectCode : Z) (buf : list ascii) : reply * list ascii :=
  match ReadLine buf with
  | None => ({| r_code := 0; r_msg := ""; r_err := true |}, [])
  | Some (line, rest) =>
      let l := parseCodeLine line expectCode in
      if cl_continued l then read_more (S (length rest)) (cl_code l) (cl_err l) (cl_message l) rest
      else ({| r_code := cl_code l; r_msg := cl_message l; r_err := cl_err l |}, rest)
  end.

(** ** Sessions *)

(** A server of bytes: what it sends once it has received the given lines, the
    greeting being what it sends before any.  Nothing is assumed of it. *)
Definition byte_server : Type := list string -> list ascii.

(** [session.greeting] *)
Definition text_greeting (bs : byte_server) : reply * list ascii := ReadResponse 220 (bs []).

(** [session.command]: the line is sent, and a reply is read from what was left
    unread before and what the server sends now. *)
Definition text_command (bs : byte_server) (sent : list string) (unread : list ascii) (line : string)
    : reply * list ascii := ReadResponse 0 (unread ++ bs (sent ++ [line])).

(** The replies to the lines [todo] after the lines [sent]; the last one. *)
Fixpoint text_replies (bs : byte_server) (sent : list string) (last : reply * list ascii) (todo : list string)
    : reply * list ascii :=
  match todo with
  | [] => last
  | line :: todo => text_replies bs (sent ++ [line]) (text_command bs sent last.2 line) todo
  end.

(** The replies the session reads off a server of bytes. *)
Definition text_server (bs : byte_server) : server := fun sent => (text_replies bs [] (text_greeting bs) sent).1.

Example greeting_banner :
  ReadResponse 220 (bytes ("220-mx.example.com ready" +:+ of_bytes [CR; LF] +:+ "220 go ahead" +:+ of_bytes [CR; LF] +:+ "x"))
  = ({| r_code := 220; r_msg := "mx.example.com ready" +:+ newline +:+ "go ahead"; r_err := false |}, ["x"%char]).
Proof. reflexivity. Qed.

Example mixed_codes :
  ReadResponse 0 (bytes ("250-a" +:+ of_bytes [LF] +:+ "oops" +:+ of_bytes [LF] +:+ "250 b" +:+ of_bytes [LF]))
  = ({| r_code := 250; r_msg := "a" +:+ newline +:+ "oops" +:+ newline +:+ "b"; r_err := false |}, []).
Proof. reflexivity. Qed.

(** ** Reading what a server prints *)

Definition plain (l : list ascii) : Prop := Forall (fun a => a <> LF /\ a <> CR) l.

Lemma cut_lf_plain l rest : Forall (fun a => a <> LF) l -> cut_lf (l ++ LF :: rest) = (l ++ [LF], rest).
Proof.
  induction 1 as [|a l Ha _ IH]; [done|]. cbn [app cut_lf]. destruct (Ascii.eqb_spec a LF); [done|]. by rewrite IH.
Qed.

Lemma drop_eol_crlf l : drop_eol (l ++ [CR; LF]) = l.
Proof. unfold drop_eol. rewrite reverse_app. change (reverse [CR; LF]) with [LF; CR]. cbn [app]. rewrite !Ascii.eqb_refl. by rewrite reverse_involutive. Qed.

Lemma ReadLine_line l rest : plain l -> ReadLine (l ++ CR :: LF :: rest) = Some (of_bytes l, rest).
Proof.
  intros Hp. assert (Hc : cut_lf (l ++ CR :: LF :: rest) = (l ++ [CR; LF], rest)).
  { replace (l ++ CR :: LF :: rest) with ((l ++ [CR]) ++ LF :: rest) by (by rewrite <- app_assoc).
    rewrite cut_lf_plain; [by rewrite <- app_assoc|]. apply Forall_app. split; [|by repeat constructor].
    eapply Forall_impl; [|exact Hp]. by intros a [H _]. }
  unfold ReadLine. rewrite Hc, drop_eol_crlf. by destruct l.
Qed.

(** A three-digit code, as it is printed and read. *)
Lemma code_digits code : 100 <= code <= 999 ->
  bytes (FormatInt code) = [digit_char (code / 10 / 10); digit_char ((code / 10) mod 10); digit_char (code mod 10)].
Proof.
  intros Hc. unfold FormatInt. rewrite bytes_of_bytes. rewrite (proj2 (Z.ltb_ge code 0)) by lia.
  pose proof (Z.div_mod code 10 ltac:(done)). pose proof (Z.mod_pos_bound code 10 ltac:(done)).
  pose proof (Z.div_mod (code / 10) 10 ltac:(done)). pose proof (Z.mod_pos_bound (code / 10) 10 ltac:(done)).
  cbn [dec_loop]. rewrite (proj2 (Z.ltb_ge code 10)) by lia. rewrite (proj2 (Z.ltb_ge (code / 10) 10)) by lia.
  rewrite (proj2 (Z.ltb_lt (code / 10 / 10) 10)) by lia. by rewrite (Z.mod_small (code / 10 / 10) 10) by lia.
Qed.

Lemma digit_char_plain d : 0 <= d < 10 -> digit_char d <> LF /\ digit_char d <> CR.
Proof.
  intros Hd. pose proof (digit_char_value d Hd) as Hv. split; intros E; rewrite E in Hv; discriminate Hv.
Qed.

(** The line of a reply: the code, a separator, the text. *)
Definition print_line (code : Z) (sep : ascii) (msg : string) : list ascii :=
  bytes (FormatInt code) ++ sep :: bytes msg ++ [CR; LF].

(** A reply of the given lines. *)
Fixpoint print_reply (code : Z) (msgs : list string) : list ascii :=
  match msgs with
  | [] => []
  | [m] => print_line code " "%char m
  | m :: msgs => print_line code "-"%char m ++ print_reply code msgs
  end.

Lemma print_reply_cons code m m2 msgs :
  print_reply code (m :: m2 :: msgs) = print_line code "-"%char m ++ print_reply code (m2 :: msgs).
Proof. done. Qed.

Lemma read_print_line code sep msg rest :
  100 <= code <= 999 -> sep = " "%char \/ sep = "-"%char -> plain (bytes msg) ->
  exists line, ReadLine (print_line code sep msg ++ rest) = Some (line, rest) /\
    forall expect, parseCodeLine line expect
      = {| cl_code := code; cl_continued := Ascii.eqb sep "-"%char; cl_message := msg; cl_err := unexpected expect code |}.
Proof.
  intros Hc Hs Hp. pose proof (code_digits code Hc) as Hd.
  pose proof (Z.mod_pos_bound code 10 ltac:(done)). pose proof (Z.mod_pos_bound (code / 10) 10 ltac:(done)).
  assert (Hh : 0 <= code / 10 / 10 < 10) by (rewrite Z.div_div by done; split; [apply Z.div_pos; lia|apply Z.div_lt_upper_bound; lia]).
  exists (of_bytes (bytes (FormatInt code) ++ sep :: bytes msg)). split.
  - unfold print_line. rewrite <- app_assoc. cbn [app]. rewrite <- app_assoc. cbn [app].
    replace (bytes (FormatInt code) ++ sep :: bytes msg ++ CR :: LF :: rest)
      with ((bytes (FormatInt code) ++ sep :: bytes msg) ++ CR :: LF :: rest) by (by rewrite <- app_assoc).
    apply ReadLine_line. apply Forall_app. split.
    + rewrite Hd. repeat constructor; by apply digit_char_plain.
    + constructor; [|done]. by destruct Hs as [-> | ->].
  - intros expect. unfold parseCodeLine. rewrite bytes_of_bytes, Hd. cbn [app].
    rewrite <- Hd, of_bytes_bytes, Atoi_FormatInt by (unfold int64_ok; apply andb_true_intro; unfold min_int64, max_int64; lia).
    rewrite (proj2 (Z.ltb_ge code 100)) by lia. rewrite of_bytes_bytes. by destruct Hs as [-> | ->].
Qed.

(** ** Replies in full *)

Lemma ReadLine_length buf line rest : ReadLine buf = Some (line, rest) -> (length rest < length buf)%nat.
Proof.
  assert (Hcut : forall l, (length (cut_lf l).2 < length l)%nat \/ l = []).
  { induction l as [|a l IH]; [by right|]. left. cbn [cut_lf]. destruct (Ascii.eqb a LF); [simpl; lia|].
    destruct IH as [IH| ->]; [|simpl; lia]. destruct (cut_lf l) as [x y]. simpl in *. lia. }
  unfold ReadLine. destruct buf as [|a l]; [done|]. destruct (Hcut (a :: l)) as [Hl|]; [|done].
  destruct (cut_lf (a :: l)) as [x y]. intros H. injection H as _ <-. exact Hl.
Qed.

(** More fuel than bytes changes nothing. *)
Lemma read_more_fuel f1 : forall f2 code err msg buf, (length buf < f1)%nat -> (length buf < f2)%nat ->
  read_more f1 code err msg buf = read_more f2 code err msg buf.
Proof.
  induction f1 as [|f1 IH]; intros [|f2] code err msg buf H1 H2; try lia. cbn [read_more].
  destruct (ReadLine buf) as [[line rest]|] eqn:E; [|done]. apply ReadLine_length in E.
  rewrite (IH f2 code err (msg +:+ newline +:+ trim_breaks line) rest) by lia.
  by rewrite (IH f2 code err (msg +:+ newline +:+ cl_message (parseCodeLine line 0)) rest) by lia.
Qed.

Lemma app_assoc_str a b c : (a +:+ b) +:+ c = a +:+ (b +:+ c).
Proof. apply bytes_inj. by rewrite !bytes_app, app_assoc. Qed.

Lemma Join_cons m m2 msgs sep : Join (m :: m2 :: msgs) sep = m +:+ sep +:+ Join (m2 :: msgs) sep.
Proof. done. Qed.

Lemma read_more_print code err msgs rest : forall fuel msg,
  100 <= code <= 999 -> msgs <> [] -> Forall (fun m => plain (bytes m)) msgs ->
  (length (print_reply code msgs ++ rest) < fuel)%nat ->
  read_more fuel code err msg (print_reply code msgs ++ rest)
  = ({| r_code := code; r_msg := msg +:+ newline +:+ Join msgs newline; r_err := err |}, rest).
Proof.
  induction msgs as [|m msgs IH]; intros fuel msg Hc Hne HF Hf; [done|]. inversion HF as [|? ? Hm HF']; subst.
  destruct fuel as [|fuel]; [lia|]. cbn [read_more]. destruct msgs as [|m2 msgs].
  - cbn [print_reply] in *. destruct (read_print_line code " "%char m rest Hc ltac:(by left) Hm) as (line & -> & Hp).
    rewrite Hp. cbn [cl_err cl_code cl_continued cl_message]. rewrite Z.eqb_refl. by cbn.
  - rewrite print_reply_cons in *. rewrite <- app_assoc in *.
    destruct (read_print_line code "-"%char m (print_reply code (m2 :: msgs) ++ rest) Hc ltac:(by right) Hm) as (line & E & Hp).
    pose proof (ReadLine_length _ _ _ E) as Hl. rewrite E, Hp. cbn [cl_err cl_code cl_continued cl_message]. rewrite Z.eqb_refl.
    replace (unexpected 0 code) with false by done. cbn [orb negb]. rewrite Ascii.eqb_refl.
    rewrite (IH fuel _ Hc ltac:(done) HF') by lia. by rewrite Join_cons, !app_assoc_str.
Qed.

Lemma ReadResponse_print expect code msgs rest :
  100 <= code <= 999 -> msgs <> [] -> Forall (fun m => plain (bytes m)) msgs ->
  ReadResponse expect (print_reply code msgs ++ rest)
  = ({| r_code := code; r_msg := Join msgs newline; r_err := unexpected expect code |}, rest).
Proof.
  intros Hc Hne HF. destruct msgs as [|m msgs]; [done|]. inversion HF as [|? ? Hm HF']; subst. unfold ReadResponse.
  destruct msgs as [|m2 msgs].
  - cbn [print_reply]. destruct (read_print_line code " "%char m rest Hc ltac:(by left) Hm) as (line & -> & Hp). by rewrite Hp.
  - rewrite print_reply_cons, <- app_assoc.
    destruct (read_print_line code "-"%char m (print_reply code (m2 :: msgs) ++ rest) Hc ltac:(by right) Hm) as (line & -> & Hp).
    rewrite Hp. cbn [cl_err cl_code cl_continued cl_message]. rewrite Ascii.eqb_refl.
    rewrite read_more_print by (try done; lia). by rewrite Join_cons.
Qed.

(** C35: What a server prints is what the prober reads: a reply of a three-digit
    code and any lines of text, printed on the wire, is read back whole by the
    session's greeting and by its commands, with its code and its lines joined,
    and nothing of the bytes after it is touched; it is an error only as a
    greeting of a code other than 220. *)
Theorem reply_roundtrip (bs : byte_server) sent unread line code msgs rest :
  100 <= code <= 999 -> msgs <> [] -> Forall (fun m => plain (bytes m)) msgs ->
  let reply err := {| r_code := code; r_msg := Join msgs newline; r_err := err |} in
  (bs [] = print_reply code msgs ++ rest -> text_greeting bs = (reply (negb (code =? 220)), rest)) /\
  (unread ++ bs (sent ++ [line]) = print_reply code msgs ++ rest -> text_command bs sent unread line = (reply false, rest)).
Proof.
  intros Hc Hm Hp reply. unfold text_greeting, text_command, reply.
  split; intros ->; rewrite ReadResponse_print by done; [|done]. done.
Qed.

(** ** Conversations *)

(** A server that answers every line with one reply, and its replies as the
    session returns them: the greeting is an error unless its code is 220. *)
Definition script : Type := list string -> Z * list string.
Definition speak (sc : script) : byte_server := fun sent => print_reply (sc sent).1 (sc sent).2.
Definition replies_of (sc : script) : server := fun sent =>
  {| r_code := (sc sent).1; r_msg := Join (sc sent).2 newline;
     r_err := match sent with [] => negb ((sc sent).1 =? 220) | _ => false end |}.
Definition script_ok (sc : script) : Prop :=
  forall sent, 100 <= (sc sent).1 <= 999 /\ (sc sent).2 <> [] /\ Forall (fun m => plain (bytes m)) (sc sent).2.

Lemma read_spoken expect sc sent :
  script_ok sc ->
  ReadResponse expect (speak sc sent)
  = ({| r_code := (sc sent).1; r_msg := Join (sc sent).2 newline; r_err := unexpected expect (sc sent).1 |}, []).
Proof.
  intros Hsc. destruct (Hsc sent) as (Hc & Hne & HF). unfold speak. rewrite <- (app_nil_r (print_reply _ _)).
  by apply ReadResponse_print.
Qed.

Lemma text_replies_spoken sc : script_ok sc -> forall todo sent last,
  last = (replies_of sc sent, []) -> text_replies (speak sc) sent last todo = (replies_of sc (sent ++ todo), []).
Proof.
  intros Hsc todo. induction todo as [|line todo IH]; intros sent last Hl; cbn [text_replies]; [by rewrite app_nil_r|].
  replace (sent ++ line :: todo) with ((sent ++ [line]) ++ todo) by (by rewrite <- app_assoc). apply IH.
  unfold text_command. rewrite Hl. cbn [snd app]. rewrite read_spoken by done. unfold replies_of.
  by destruct (sent ++ [line]) eqn:E; [destruct sent|].
Qed.

(** C36: The prober's session understands SMTP: against a server that answers each
    line with one well-formed reply, of one line or many, the session reads for
    every line it sends that server's reply and nothing else, so that the whole
    conversation is the one [Builtin] computes from the replies. *)
Theorem session_refines `{UnicodeTables} sc cfg now rand t eg :
  script_ok sc ->
  (forall sent, text_server (speak sc) sent = replies_of sc sent) /\
  converse cfg now rand t eg (text_server (speak sc)) = converse cfg now rand t eg (replies_of sc).
Proof.
  intros Hsc. assert (Hs : forall sent, text_server (speak sc) sent = replies_of sc sent).
  { intros sent. unfold text_server. rewrite (text_replies_spoken sc Hsc sent []); [done|].
    unfold text_greeting. rewrite read_spoken by done. unfold replies_of. do 2 f_equal. }
  split; [done|]. f_equal. by apply functional_extensionality.
Qed.

(** *** Whatever a server sends *)

Lemma Atoi3_bounds a b c code : Atoi (of_bytes [a; b; c]) = Some code -> -99 <= code <= 999.
Proof.
  assert (Hd : forall x d, digit_value x = Some d -> 0 <= d <= 9).
  { intros x d. unfold digit_value, is_digit, byte_in. destruct (_ && _) eqn:E; [|done]. intros [= <-].
    apply andb_prop in E as [E1 E2]. lia. }
  unfold Atoi. rewrite bytes_of_bytes.
  assert (H2 : forall x y z acc, digits_value acc [x; y] = Some z -> 0 <= acc -> 100 * acc <= z <= 100 * acc + 99).
  { intros x y z acc. cbn [digits_value]. destruct (digit_value x) as [d1|] eqn:E1; [|done].
    destruct (digit_value y) as [d2|] eqn:E2; [|done]. intros [= <-] Ha.
    pose proof (Hd _ _ E1). pose proof (Hd _ _ E2). lia. }
  assert (H3 : forall z, digits_value 0 [a; b; c] = Some z -> 0 <= z <= 999).
  { intros z Hz. cbn [digits_value] in Hz. destruct (digit_value a) as [d1|] eqn:E1; [|done].
    destruct (digit_value b) as [d2|] eqn:E2; [|done]. destruct (digit_value c) as [d3|] eqn:E3; [|done].
    injection Hz as <-. pose proof (Hd _ _ E1). pose proof (Hd _ _ E2). pose proof (Hd _ _ E3). lia. }
  destruct (Ascii.eqb a "-"%char); [|destruct (Ascii.eqb a "+"%char)].
  - destruct (digits_value 0 [b; c]) as [z|] eqn:E; [|done]. destruct (int64_ok _); [|done]. intros [= <-].
    pose proof (H2 _ _ _ _ E ltac:(done)). lia.
  - destruct (digits_value 0 [b; c]) as [z|] eqn:E; [|done]. destruct (int64_ok _); [|done]. intros [= <-].
    pose proof (H2 _ _ _ _ E ltac:(done)). lia.
  - destruct (digits_value 0 [a; b; c]) as [z|] eqn:E; [|done]. destruct (int64_ok _); [|done]. intros [= <-].
    pose proof (H3 _ eq_refl). lia.
Qed.

Lemma parseCodeLine_bounds line expect :
  -99 <= cl_code (parseCodeLine line expect) <= 999 /\
  (cl_err (parseCodeLine line expect) = false -> 100 <= cl_code (parseCodeLine line expect)).
Proof.
  unfold parseCodeLine. destruct (bytes line) as [|a [|b [|c [|d rest]]]]; try (cbn; split; [lia|done]).
  destruct (_ && _); [cbn; split; [lia|done]|].
  destruct (Atoi _) as [code|] eqn:E; [|cbn; split; [lia|done]]. apply Atoi3_bounds in E.
  destruct (Z.ltb_spec code 100); cbn; split; try lia; try done.
Qed.

Definition reply_ok (r : reply) : Prop := -99 <= r_code r <= 999 /\ (r_err r = false -> 100 <= r_code r).

Lemma read_more_ok fuel : forall code err msg buf,
  -99 <= code <= 999 -> (err = false -> 100 <= code) -> reply_ok (read_more fuel code err msg buf).1.
Proof.
  induction fuel as [|fuel IH]; intros code err msg buf Hc He; cbn [read_more]; [by split|].
  destruct (ReadLine buf) as [[line rest]|]; [|by split].
  destruct (_ || _); [by apply IH|]. destruct (cl_continued _); [by apply IH|]. by split.
Qed.

Lemma ReadResponse_ok expect buf : reply_ok (ReadResponse expect buf).1.
Proof.
  unfold ReadResponse. destruct (ReadLine buf) as [[line rest]|]; [|by split].
  destruct (parseCodeLine_bounds line expect) as [H1 H2].
  destruct (cl_continued _); [by apply read_more_ok|by split].
Qed.

(** Whatever bytes a server sends, every reply the session takes for one has a
    three-digit code of at least 100, and the codes it reports with an error stay
    within three characters. *)
Theorem session_codes_bounded bs sent : reply_ok (text_server bs sent).
Proof.
  unfold text_server. assert (H : forall todo sent last, reply_ok last.1 -> reply_ok (text_replies bs sent last todo).1).
  { induction todo as [|line todo IH]; intros s0 last Hl; [done|]. cbn [text_replies]. apply IH. apply ReadResponse_ok. }
  apply H. apply ReadResponse_ok.
Qed.

(** *** Witnesses *)

Definition ex_script : script := fun sent =>
  match sent with
  | [] => (220, ["mx.example.com ESMTP"])
  | [_] => (250, ["mx.example.com"; "PIPELINING"; "8BITMIME"])
  | [_; _; _] => (550, ["5.1.1 no such user"])
  | _ => (250, ["ok"])
  end.

Lemma ex_script_ok : script_ok ex_script.
Proof.
  assert (Hp : forall s, forallb (fun a => negb (Ascii.eqb a LF) && negb (Ascii.eqb a CR)) (bytes s) = true -> plain (bytes s)).
  { intros s Hs. apply List.Forall_forall. intros a Ha. rewrite forallb_forall in Hs. specialize (Hs a Ha).
    apply andb_prop in Hs as [H1 H2]. apply negb_true_iff, Ascii.eqb_neq in H1, H2. done. }
  intros [|? [|? [|? [|? ?]]]]; (split; [cbn; lia|]); (split; [done|]); apply List.Forall_forall; intros m Hm; apply Hp;
    repeat (destruct Hm as [<-|Hm]; [reflexivity|]); destruct Hm.
Qed.

Lemma reply_roundtrip_witness :
  let bs : byte_server := fun _ => print_reply 554 ["no SMTP service here"; "go away"] ++ bytes "221" in
  text_greeting bs = ({| r_code := 554; r_msg := "no SMTP service here" +:+ newline +:+ "go away"; r_err := true |}, bytes "221").
Proof.
  intros bs. apply (reply_roundtrip bs [] [] "" 554 ["no SMTP service here"; "go away"] (bytes "221")); [lia|done| |reflexivity].
  repeat constructor; discriminate.
Defined.

Lemma session_refines_witness :
  let tables := ascii_tables in
  let t := {| Task_ID := ""; Task_JobID := ""; Task_Email := "u@example.com"; Task_Normalized := "u@example.com";
              Task_Domain := "example.com"; Task_Provider := "custom"; Task_MX := ["mx.example.com"] |} in
  let eg := {| binding_ID := "direct"; binding_HELO := "h"; binding_MailFrom := "f@h" |} in
  let cfg := New {| Port := 0; ConnectTimeout := 0; CommandTimeout := 0; cfg_DetectCatchAll := true; cfg_HELO := ""; cfg_MailFrom := "" |} in
  (forall sent, text_server (speak ex_script) sent = replies_of ex_script sent) /\
  converse cfg 7 None t eg (text_server (speak ex_script)) = converse cfg 7 None t eg (replies_of ex_script) /\
  vStatus (converse cfg 7 None t eg (text_server (speak ex_script))).1.1 = StatusUndeliverable.
Proof.
  intros tables t eg cfg.
  destruct (session_refines (H := tables) ex_script cfg 7 None t eg ex_script_ok) as [H1 H2].
  split; [exact H1|]. split; [exact H2|]. rewrite H2. reflexivity.
Defined.
