(* ===== verification/Feedback.v ===== *)
(** The loop between the prober and the reputation manager: which destination
    the signals of a probe are filed under, and which one the selection reads. *)

From Stdlib Require Import QArith.
From S2P Require Import Prelude GoStrings Float64 GoTime Verdict Engine Health Egress EgressInv.
From S2P Require Import EgressSel EgressOps EgressProps EgressLife Builtin BuiltinProps.
Local Open Scope Z_scope.

(** The destination of a probe's signals. *)
Definition signal_dest (t : Task) : string := firstNonEmpty [Task_Provider t; Task_Domain t].

Section Feedback.
Context `{UnicodeTables}.

Lemma Verify_signal cfg now rand dial t eg :
  exists s, (Verify cfg now rand dial t eg).1.2 = [s] /\ Signal_EgressID s = binding_ID eg /\
    Signal_Destination s = signal_dest t.
Proof.
  assert (Hs : forall k code m, exists s, signals (Some eg) k t code m = [s] /\
            Signal_EgressID s = binding_ID eg /\ Signal_Destination s = signal_dest t)
    by (intros; eexists; by split).
  assert (Hc : forall srv, exists s, (converse cfg now rand t eg srv).1.2 = [s] /\
            Signal_EgressID s = binding_ID eg /\ Signal_Destination s = signal_dest t).
  { intros srv. unfold converse. destruct (r_err (greeting srv) || _); [apply Hs|].
    destruct (greet cfg eg srv []) as [[] sent]; cbn [negb]; [|apply Hs].
    destruct (mailFrom cfg eg srv sent) as [[[code msg] []] s1]; cbn [negb]; [|apply Hs].
    unfold command. destruct (r_err _); [apply Hs|]. set (x := if _ && _ then detectCatchAll _ _ _ _ else _). destruct x as [ca s2]. apply Hs. }
  pose proof (Verify_first_host cfg now rand dial t eg) as Hf.
  destruct (list_find _ (Task_MX t)) as [[i h]|].
  - destruct Hf as (srv & _ & ->). apply Hc.
  - destruct Hf as (d & ->). apply Hs.
Qed.

(** For a provider class the loop is closed: the signal of a probe is filed
    under the very destination the selection of the next probe reads. *)
Theorem feedback_reaches_selection cfg now rand dial t eg :
  Task_Provider t <> "custom" ->
  exists s, (Verify cfg now rand dial t eg).1.2 = [s] /\ Signal_EgressID s = binding_ID eg /\
    Signal_Destination s = destOf t.
Proof.
  intros Hp. destruct (Verify_signal cfg now rand dial t eg) as (s & H1 & H2 & H3).
  exists s. split; [done|]. split; [done|]. rewrite H3. unfold signal_dest, destOf.
  rewrite firstNonEmpty_2. destruct (String.eqb_spec (Task_Provider t) ""); [done|].
  by rewrite (proj2 (String.eqb_neq _ "custom") Hp).
Qed.

(** For a custom domain it is not: the signals are filed under "custom"
    while the selection reads the domain, so that no outcome of a probe, short
    of completing a quarantine streak, changes which identity is eligible for
    that domain or the score it is chosen by. *)
Theorem custom_feedback_lost cfg t0 rand dial t eg m r now :
  Task_Provider t = "custom" -> Task_Domain t <> "custom" ->
  mgr_wf m -> records m !! binding_ID eg = Some r -> blockStreak r + 1 < quarantineThreshold m ->
  let sigs := (Verify cfg t0 rand dial t eg).1.2 in
  exists r', records (Emit sigs t0 m) !! binding_ID eg = Some r' /\
    eligible (Emit sigs t0 m) r' (destOf t) now = eligible m r (destOf t) now /\
    rec_score r' (destOf t) = rec_score r (destOf t).
Proof.
  intros Hp Hd W Hr Hq sigs. destruct (Verify_signal cfg t0 rand dial t eg) as (s & Hs & _ & Hdest).
  unfold sigs. rewrite Hs.
  assert (Hne : Signal_Destination s <> destOf t).
  { rewrite Hdest. unfold signal_dest, destOf. rewrite Hp. simpl. congruence. }
  apply Emit_eligible_elsewhere; [done|done|by repeat constructor|].
  simpl. destruct (blocked_for (binding_ID eg) s); unfold len; simpl; lia.
Qed.
End Feedback.

Lemma feedback_reaches_selection_witness :
  let t := {| Task_ID := ""; Task_JobID := ""; Task_Email := "u@gmx.com"; Task_Normalized := "u@gmx.com";
              Task_Domain := "gmx.com"; Task_Provider := "proton"; Task_MX := ["mx.gmx.com"] |} in
  exists s, (Verify (H := ascii_tables) ex_engine 7 None (fun _ => Some ex_server) t ex_binding).1.2 = [s] /\
    Signal_EgressID s = "a" /\ Signal_Destination s = destOf t.
Proof.
  intros t. apply (feedback_reaches_selection (H := ascii_tables) ex_engine 7 None (fun _ => Some ex_server) t ex_binding).
  discriminate.
Defined.

Lemma custom_feedback_lost_witness :
  let sigs := (Verify (H := ascii_tables) ex_engine ex_start None (fun _ => None) ex_probe_task ex_binding).1.2 in
  exists r', records (Emit sigs ex_start ex_mgr) !! "a" = Some r' /\ rec_score r' (destOf ex_probe_task) = f64 1.
Proof.
  intros sigs.
  destruct (custom_feedback_lost (H := ascii_tables) ex_engine ex_start None (fun _ => None) ex_probe_task
              ex_binding ex_mgr (fresh_record (ex_spec "a" false) ex_start) ex_start) as (r' & H1 & _ & H2).
  - reflexivity.
  - discriminate.
  - exact ex_mgr_wf.
  - vm_compute. reflexivity.
  - vm_compute. reflexivity.
  - exists r'. split; [exact H1|exact H2].
Defined.
