(* ===== verification/Store.v ===== *)
(** [internal/store]: the persistence ports.

    The data the ports exchange, and for the result cache a class of operations
    with the laws its clients rely on: what a cache shows at an instant, and how
    [Get] and [Put] change it.  The verifier is proved against the laws; the
    in-memory adapter ([Memory.v]) and the one over PostgreSQL ([CachePg.v])
    discharge them.  The calls of the job store that the runner makes are a class
    of operations. *)

From Stdlib Require Import QArith.
From S2P Require Import Prelude GoStrings Float64 GoTime Verdict.
Local Open Scope Z_scope.

(** ** Jobs *)

Inductive JobStatus : Type :=
| JobQueued
| JobRunning
| JobCompleted
| JobCanceled
| JobStatus_other (s : string).

#[global] Instance JobStatus_eq_decision : EqDecision JobStatus.
Proof. solve_decision. Defined.

Record Job := {
  job_ID : string;
  job_Status : JobStatus;
  job_Total : Z;
  job_Done : Z;
  job_CreatedAt : Time;
  job_CompletedAt : option Time;
}.

(** One verified address with its label. *)
Record Result := { res_Label : string; res_Verdict : Verdict }.

Record JobStats := {
  stats_Total : Z;
  ByStatus : gmap string Z;
  BySubStatus : gmap string Z;
  ByProvider : gmap string Z;
  stats_Probed : Z;
  stats_NotProbed : Z;
}.

Inductive job_error := ErrJobNotFound.

(** The calls of [JobStore] that the job runner makes, and a store without jobs.
    A call that fails changes nothing. *)
Class JobStoreOps (St Er : Type) := {
  js_empty : St;
  js_Create : Job -> St -> result Er St;
  js_Get : string -> St -> result Er Job;
  js_Append : Time -> string -> Result -> St -> result Er St;
  js_SetStatus : Time -> string -> JobStatus -> St -> result Er St;
}.

(** ** The result cache *)

Class ResultStore (St Er : Type) := {
  Get : Time -> string -> St -> result Er (option Verdict) * St;
  Put : Time -> string -> Verdict -> Duration -> St -> result Er unit * St;
}.

(** What an entry written at [now] with [ttl] shows at [t]. *)
Definition alive (now : Time) (ttl : Duration) (t : Time) : bool := (ttl <=? 0) || (t <=? now + ttl).

(** The laws of a cache.  [cached t k st] is what the cache shows for [k] at [t].
    A [Get] reports it, and neither a [Get] nor a failed operation changes what
    is shown from then on; a successful [Put] shows the verdict, as the store
    gives it back ([shown]), while the entry [lives], which is never beyond its
    time-to-live, and leaves the other keys alone.  [proper] are the verdicts
    whose numbers have their width. *)
Class ResultStoreLaws (St Er : Type) `{ResultStore St Er} := {
  cached : Time -> string -> St -> option Verdict;
  shown : Verdict -> Verdict;
  proper : Verdict -> Prop;
  lives : Time -> Duration -> Time -> bool;
  lives_alive now ttl t : lives now ttl t = true -> alive now ttl t = true;
  Get_spec now k st :
    (forall t k', now <= t -> cached t k' (Get now k st).2 = cached t k' st) /\
    (forall o, (Get now k st).1 = Ok o -> o = cached now k st);
  Put_spec now k v ttl st t k' :
    proper v -> 0 < now -> now <= t ->
    cached t k' (Put now k v ttl st).2 =
      match (Put now k v ttl st).1 with
      | Ok _ => if decide (k' = k) then (if lives now ttl t then Some (shown v) else None) else cached t k' st
      | Err _ => cached t k' st
      end;
}.
