(* ===== verification/Memory.v ===== *)
(** [internal/store/memory]: the in-memory adapters of the store ports.

    A method that holds its lock throughout is one function on the store's
    state; [ResultStore.Get] takes its lock twice, so its eviction is a step of
    its own that may run after other operations.  An out-of-range slice of the
    Go code is [None]. *)

From Stdlib Require Import QArith.
From S2P Require Import Prelude GoStrings Float64 GoTime Verdict Engine Egress Settings Store.
Local Open Scope Z_scope.

(** ** ResultStore *)

Record entry := { ent_verdict : Verdict; expiresAt : Time }.
Abbreviation items := (gmap string entry).

Definition NewResultStore : items := ∅.

Definition expired (now : Time) (e : entry) : bool := negb (IsZero (expiresAt e)) && After now (expiresAt e).

(** The second critical section of [Get]: the expired entry is deleted if it is
    still the one that was read. *)
Definition evict (key : string) (exp : Time) (st : items) : items :=
  match st !! key with
  | Some cur => if expiresAt cur =? exp then delete key st else st
  | None => st
  end.

(** [ResultStore.Get], with nothing between its two critical sections *)
Definition mem_Get (now : Time) (key : string) (st : items) : option Verdict * items :=
  match st !! key with
  | None => (None, st)
  | Some e => if expired now e then (None, evict key (expiresAt e) st) else (Some (ent_verdict e), st)
  end.

(** [ResultStore.Put] *)
Definition mem_Put (now : Time) (key : string) (v : Verdict) (ttl : Duration) (st : items) : items :=
  <[key := {| ent_verdict := v; expiresAt := if ttl >? 0 then Add now ttl else 0 |}]> st.

(** [ResultStore.Len] *)
Definition Len (st : items) : Z := Z.of_nat (size st).

(** ** JobStore *)

Record jobEntry := { je_job : Job; je_results : list Result }.
Abbreviation job_store := (gmap string jobEntry).

Definition NewJobStore : job_store := ∅.

(** [CreateJob] *)
Definition CreateJob (job : Job) (st : job_store) : job_store :=
  <[job_ID job := {| je_job := job; je_results := [] |}]> st.

(** [GetJob] *)
Definition GetJob (id : string) (st : job_store) : result job_error Job :=
  match st !! id with Some e => Ok (je_job e) | None => Err ErrJobNotFound end.

Definition set_progress (status : JobStatus) (done_ : Z) (at_ : option Time) (j : Job) : Job :=
  {| job_ID := job_ID j; job_Status := status; job_Total := job_Total j; job_Done := done_;
     job_CreatedAt := job_CreatedAt j; job_CompletedAt := at_ |}.

(** The update of [AppendResult]. *)
Definition append_entry (now : Time) (r : Result) (e : jobEntry) : jobEntry :=
  let j := je_job e in
  let n := job_Done j + 1 in
  let finished := negb (bool_decide (job_Status j = JobCanceled)) && (n >=? job_Total j) in
  {| je_job := if finished then set_progress JobCompleted n (Some now) j
               else set_progress (job_Status j) n (job_CompletedAt j) j;
     je_results := je_results e ++ [r] |}.

(** [AppendResult] *)
Definition AppendResult (now : Time) (jobID : string) (r : Result) (st : job_store)
    : result job_error job_store :=
  match st !! jobID with
  | None => Err ErrJobNotFound
  | Some e => Ok (<[jobID := append_entry now r e]> st)
  end.

(** The slice [l[lo:hi]]; [None] is the bounds panic. *)
Definition slice {A} (l : list A) (lo hi : Z) : option (list A) :=
  if (0 <=? lo) && (lo <=? hi) && (hi <=? len l)
  then Some (take (Z.to_nat (hi - lo)) (drop (Z.to_nat lo) l)) else None.

(** The page of [Results]: the items and the next cursor. *)
Definition page (results : list Result) (cursor limit : Z) : option (list Result * Z) :=
  let cursor := if cursor <? 0 then 0 else cursor in
  let limit := if limit <=? 0 then len results else limit in
  if cursor >=? len results then Some ([], 0)
  else
    let end_ := wrap64 (cursor + limit) in
    let end_ := if end_ >? len results then len results else end_ in
    items ← slice results cursor end_;
    Some (items, if end_ <? len results then end_ else 0).

(** [Results] *)
Definition Results (jobID : string) (cursor limit : Z) (st : job_store)
    : option (result job_error (list Result * Z)) :=
  match st !! jobID with
  | None => Some (Err ErrJobNotFound)
  | Some e => p ← page (je_results e) cursor limit; Some (Ok p)
  end.

(** The update of [SetStatus]. *)
Definition status_entry (now : Time) (status : JobStatus) (e : jobEntry) : jobEntry :=
  let j := je_job e in
  let at_ := if bool_decide (status = JobCompleted) || bool_decide (status = JobCanceled)
             then Some (default now (job_CompletedAt j)) else job_CompletedAt j in
  {| je_job := set_progress status (job_Done j) at_ j; je_results := je_results e |}.

(** [SetStatus] *)
Definition SetStatus (now : Time) (jobID : string) (status : JobStatus) (st : job_store)
    : result job_error job_store :=
  match st !! jobID with
  | None => Err ErrJobNotFound
  | Some e => Ok (<[jobID := status_entry now status e]> st)
  end.

(** The store as the runner uses it. *)
#[global] Instance memory_jobs : JobStoreOps job_store job_error := {|
  js_empty := NewJobStore;
  js_Create job st := Ok (CreateJob job st);
  js_Get := GetJob;
  js_Append := AppendResult;
  js_SetStatus := SetStatus |}.

(** Insertion by creation time, newest first; [sort.Slice] leaves the order of
    jobs created at the same instant open, this is one of its results. *)
Fixpoint insert_job (j : Job) (l : list Job) : list Job :=
  match l with
  | [] => [j]
  | x :: l' => if After (job_CreatedAt x) (job_CreatedAt j) then x :: insert_job j l' else j :: l
  end.

(** [ListJobs] *)
Definition ListJobs (limit : Z) (st : job_store) : list Job :=
  let out := foldr insert_job [] ((fun kv => je_job kv.2) <$> map_to_list st) in
  let limit := if limit <=? 0 then 200 else limit in
  if len out >? limit then take (Z.to_nat limit) out else out.

(** [m[k]++] *)
Definition incr (k : string) (m : gmap string Z) : gmap string Z := <[k := default 0 (m !! k) + 1]> m.

Definition stats_zero : JobStats := {|
  stats_Total := 0; ByStatus := ∅; BySubStatus := ∅; ByProvider := ∅; stats_Probed := 0; stats_NotProbed := 0 |}.

(** The loop body of [Stats]. *)
Definition stats_add (s : JobStats) (r : Result) : JobStats :=
  let v := res_Verdict r in
  let provider := if String.eqb (Provider v) "" then "unknown" else Provider v in
  let probed := SMTP_Probed (Checks_SMTP (vChecks v)) in
  {| stats_Total := stats_Total s + 1;
     ByStatus := incr (Status_String (vStatus v)) (ByStatus s);
     BySubStatus := incr (SubStatus_String (vSubStatus v)) (BySubStatus s);
     ByProvider := incr provider (ByProvider s);
     stats_Probed := if probed then stats_Probed s + 1 else stats_Probed s;
     stats_NotProbed := if probed then stats_NotProbed s else stats_NotProbed s + 1 |}.

(** [Stats] *)
Definition Stats (jobID : string) (st : job_store) : result job_error JobStats :=
  match st !! jobID with
  | None => Err ErrJobNotFound
  | Some e => Ok (fold_left stats_add (je_results e) stats_zero)
  end.

(** ** EgressStore and SettingsStore *)

Abbreviation egress_states := (gmap string EgressState).

(** [EgressStore.LoadEgress] and [EgressStore.SaveEgress] *)
Definition mem_LoadEgress (st : egress_states) : list EgressState := snd <$> map_to_list st.
Definition mem_SaveEgress (states : list EgressState) (st : egress_states) : egress_states :=
  fold_left (fun m s => <[es_ID s := s]> m) states st.

#[global] Instance mem_EgressStore : EgressStore egress_states Empty_set := {|
  LoadEgress := fun st => Ok (mem_LoadEgress st);
  SaveEgress := fun states st => Ok (mem_SaveEgress states st) |}.

(** The settings saved last, [None] before the first save. *)
Abbreviation settings_store := (option Settings).
Definition LoadSettings (st : settings_store) : Settings * bool :=
  match st with
  | Some s => (s, true)
  | None => ({| ProbeRate := f64 0; ProbeBurst := f64 0; JobConcurrency := 0; MaxEmailsPerJob := 0;
                DetectCatchAll := false; QuarantineThreshold := 0; CircuitThreshold := 0 |}, false)
  end.
Definition SaveSettings (s : Settings) (_ : settings_store) : settings_store := Some s.

(** ** The cache laws *)

Definition mem_cached (t : Time) (k : string) (st : items) : option Verdict :=
  e ← st !! k; if expired t e then None else Some (ent_verdict e).

#[global] Instance mem_ResultStore : ResultStore items Empty_set := {|
  Get := fun now k st => let '(o, st) := mem_Get now k st in (Ok o, st);
  Put := fun now k v ttl st => (Ok tt, mem_Put now k v ttl st) |}.

Lemma expired_mono now t e : now <= t -> expired now e = true -> expired t e = true.
Proof.
  unfold expired, After. intros Ht H. bool_to_prop. apply andb_true_iff. split.
  - by apply negb_true_iff.
  - apply Z.ltb_lt. lia.
Qed.

(** The delayed eviction of an expired entry is invisible, whatever was written
    to the key in between. *)
Lemma evict_invisible now key exp st t k :
  exp <> 0 -> exp < now -> now <= t -> mem_cached t k (evict key exp st) = mem_cached t k st.
Proof.
  intros H0 Hexp Ht. unfold evict. destruct (st !! key) as [cur|] eqn:E; [|done].
  destruct (Z.eqb_spec (expiresAt cur) exp) as [He|]; [|done].
  unfold mem_cached. destruct (decide (key = k)) as [->|Hne].
  - rewrite lookup_delete_eq, E. simpl.
    assert (Hx : expired t cur = true).
    { unfold expired, IsZero, After. rewrite He. apply andb_true_iff. split.
      - apply negb_true_iff. by apply Z.eqb_neq.
      - apply Z.ltb_lt. lia. }
    by rewrite Hx.
  - by rewrite lookup_delete_ne.
Qed.

Lemma mem_Get_spec now k st :
  (forall t k', now <= t -> mem_cached t k' (mem_Get now k st).2 = mem_cached t k' st) /\
  (mem_Get now k st).1 = mem_cached now k st.
Proof.
  unfold mem_Get, mem_cached at 3. destruct (st !! k) as [e|] eqn:E; simpl; [|done].
  destruct (expired now e) eqn:Ex; simpl; [|done]. split; [|done].
  intros t k' Ht. unfold expired, IsZero, After in Ex. bool_to_prop. by apply evict_invisible with now.
Qed.

Lemma mem_Put_spec now k v ttl st t k' :
  now <= t -> 0 < now ->
  mem_cached t k' (mem_Put now k v ttl st)
  = if decide (k' = k) then (if alive now ttl t then Some v else None) else mem_cached t k' st.
Proof.
  intros Ht Hn. unfold mem_cached, mem_Put. rewrite lookup_insert.
  destruct (decide (k' = k)) as [->|Hne]; [|by rewrite decide_False].
  rewrite decide_True by done. simpl. unfold expired, alive, IsZero, After, Add. simpl.
  rewrite Z.gtb_ltb. destruct (Z.ltb_spec 0 ttl), (Z.leb_spec ttl 0); try lia; simpl; [|done].
  rewrite (proj2 (Z.eqb_neq _ 0)) by lia. simpl.
  by destruct (Z.ltb_spec (now + ttl) t), (Z.leb_spec t (now + ttl)); try lia.
Qed.

#[global] Instance mem_laws : ResultStoreLaws items Empty_set.
Proof.
  refine {| cached := mem_cached; shown := fun v => v; proper := fun _ => True; lives := alive |}.
  - done.
  - intros now k st. pose proof (mem_Get_spec now k st) as [H1 H2].
    cbn [Get mem_ResultStore]. destruct (mem_Get now k st) as [o st']. simpl in *.
    split; [done|]. intros o' [= <-]. done.
  - intros now k v ttl st t k' _ Hn Ht. by apply mem_Put_spec.
Defined.

(** ** The cache under interleaved operations *)

(** Operations of concurrent callers, in the order the lock admits them; an
    eviction belongs to a [Get] that read an expired entry at [now]. *)
Inductive cache_op :=
| CRead (now : Time) (k : string)
| CWrite (now : Time) (k : string) (v : Verdict) (ttl : Duration)
| CEvict (now : Time) (k : string) (exp : Time).

Definition cache_step (st : items) (o : cache_op) : items :=
  match o with
  | CRead _ _ => st
  | CWrite now k v ttl => mem_Put now k v ttl st
  | CEvict _ k exp => evict k exp st
  end.

Definition op_time (o : cache_op) : Time :=
  match o with CRead now _ | CWrite now _ _ _ | CEvict now _ _ => now end.

(** An eviction is only issued for an entry seen expired; writes to [k] excluded. *)
Definition op_allowed (k : string) (t : Time) (o : cache_op) : Prop :=
  0 < op_time o <= t /\
  match o with
  | CRead _ _ => True
  | CWrite _ k' _ _ => k' <> k
  | CEvict now _ exp => exp <> 0 /\ exp < now
  end.

Lemma cache_steps_visible k t ops st :
  Forall (op_allowed k t) ops -> mem_cached t k (fold_left cache_step ops st) = mem_cached t k st.
Proof.
  intros HF. revert st. induction HF as [|o ops Ho _ IH]; intros st; simpl; [done|]. rewrite IH.
  destruct o as [now k'|now k' v ttl|now k' exp]; unfold op_allowed in Ho; simpl in *.
  - done.
  - destruct Ho as [Ht Hne]. rewrite mem_Put_spec by lia. by rewrite decide_False.
  - destruct Ho as [Ht [H0 H1]]. apply evict_invisible with now; (done || lia).
Defined.

(** The in-memory cache keeps what was put until its time-to-live is over,
    whatever other keys are written and however late the evictions of
    concurrent [Get]s arrive; after that it reports a miss. *)
Theorem cache_put_get k v now ttl ops st t :
  0 < now -> now <= t -> Forall (op_allowed k t) ops ->
  (mem_Get t k (fold_left cache_step ops (mem_Put now k v ttl st))).1
  = if alive now ttl t then Some v else None.
Proof.
  intros Hn Ht HF. rewrite (proj2 (mem_Get_spec t k _)), cache_steps_visible by done.
  rewrite mem_Put_spec by done. by rewrite decide_True.
Qed.

(** ** Jobs *)

(** A history of a job: results recorded and statuses set. *)
Inductive job_op := JAppend (now : Time) (r : Result) | JStatus (now : Time) (s : JobStatus).

Definition job_step (id : string) (st : result job_error job_store) (o : job_op) : result job_error job_store :=
  let? st := st in
  match o with
  | JAppend now r => AppendResult now id r st
  | JStatus now s => SetStatus now id s st
  end.

Definition appended (o : job_op) : list Result := match o with JAppend _ r => [r] | JStatus _ _ => [] end.

(** A stored job is consistent: it counts its results, and a finished job has
    its completion time. *)
Definition entry_ok (rs : list Result) (e : jobEntry) : Prop :=
  je_results e = rs /\ job_Done (je_job e) = len rs /\
  (job_Status (je_job e) = JobCompleted \/ job_Status (je_job e) = JobCanceled ->
     is_Some (job_CompletedAt (je_job e))).

Lemma job_step_ok id rs st o e :
  st !! id = Some e -> entry_ok rs e ->
  exists st' e', job_step id (Ok st) o = Ok st' /\ st' !! id = Some e' /\
    entry_ok (rs ++ appended o) e' /\ job_ID (je_job e') = job_ID (je_job e) /\
    job_Total (je_job e') = job_Total (je_job e).
Proof.
  intros He (H1 & H2 & H3). destruct o as [now r|now s]; simpl; unfold AppendResult, SetStatus; rewrite He;
    eexists _, _; (split; [reflexivity|]); (split; [apply lookup_insert_eq|]).
  - unfold append_entry, entry_ok. simpl. split; [split; [by rewrite H1|]|].
    + rewrite len_app. change (len [r]) with 1. destruct (_ && _); simpl; split; try lia; [eauto|done].
    + by destruct (_ && _).
  - unfold status_entry, entry_ok. simpl. rewrite app_nil_r. split; [|done].
    split; [done|]. split; [done|]. intros [->| ->]; simpl; eauto.
Qed.

Lemma job_steps_ok id ops : forall rs st e, st !! id = Some e -> entry_ok rs e ->
  exists st' e', fold_left (job_step id) ops (Ok st) = Ok st' /\ st' !! id = Some e' /\
    entry_ok (rs ++ concat (map appended ops)) e' /\
    job_Total (je_job e') = job_Total (je_job e).
Proof.
  induction ops as [|o ops IH]; intros rs st e He Hok; cbn [fold_left].
  - exists st, e. simpl. by rewrite app_nil_r.
  - destruct (job_step_ok id rs st o e He Hok) as (st1 & e1 & Hst1 & He1 & Hok1 & _ & Ht1).
    rewrite Hst1. destruct (IH _ _ _ He1 Hok1) as (st2 & e2 & H1 & H2 & H3 & H4).
    exists st2, e2. split; [done|]. split; [done|]. simpl. rewrite app_assoc. split; [done|congruence].
Qed.

(** A job loses no result: after any history of appends and status changes
    the job is still there, its results are exactly the appended ones in order,
    [Done] is their number, and a completed or canceled job has its completion
    time. *)
Theorem job_history job ops st :
  job_Done job = 0 -> job_Status job = JobRunning ->
  exists st' e, fold_left (job_step (job_ID job)) ops (Ok (CreateJob job st)) = Ok st' /\
    st' !! job_ID job = Some e /\ entry_ok (concat (map appended ops)) e /\
    job_Total (je_job e) = job_Total job.
Proof.
  intros Hd Hs.
  destruct (job_steps_ok (job_ID job) ops [] (CreateJob job st) {| je_job := job; je_results := [] |})
    as (st' & e & H1 & H2 & H3 & H4).
  - apply lookup_insert_eq.
  - split; [done|]. simpl. split; [done|]. rewrite Hs. by intros [].
  - exists st', e. auto.
Qed.

(** A job that is not canceled is completed exactly by the result that makes
    [Done] reach [Total], and a canceled one stays canceled. *)
Theorem job_completion now r e :
  entry_ok (je_results e) e ->
  let e' := append_entry now r e in
  (job_Status (je_job e) = JobCanceled -> job_Status (je_job e') = JobCanceled) /\
  (job_Status (je_job e) = JobRunning ->
     job_Status (je_job e') = if len (je_results e') >=? job_Total (je_job e) then JobCompleted else JobRunning).
Proof.
  intros (_ & Hd & _) e'. unfold e', append_entry. simpl. rewrite len_app, <- Hd. change (len [r]) with 1.
  split; intros Hs; rewrite Hs; simpl; [done|]. by destruct (job_Done (je_job e) + 1 >=? job_Total (je_job e)).
Qed.

(** ** Paging *)

(** Following the cursors from [cursor]; [fuel] bounds the number of pages. *)
Fixpoint collect (fuel : nat) (results : list Result) (cursor limit : Z) : option (list Result) :=
  match fuel with
  | O => None
  | S fuel =>
      '(items, next) ← page results cursor limit;
      if next =? 0 then Some items
      else rest ← collect fuel results next limit; Some (items ++ rest)
  end.

Lemma slice_in {A} (l : list A) lo hi :
  0 <= lo <= hi -> hi <= len l -> slice l lo hi = Some (take (Z.to_nat (hi - lo)) (drop (Z.to_nat lo) l)).
Proof. intros H1 H2. unfold slice. by rewrite !(proj2 (Z.leb_le _ _)) by lia. Qed.

(** A page that lies within the results. *)
Lemma page_at results cursor limit :
  0 < limit -> len results + limit <= max_int64 -> 0 <= cursor < len results ->
  page results cursor limit =
    Some (take (Z.to_nat limit) (drop (Z.to_nat cursor) results),
          if cursor + limit <? len results then cursor + limit else 0).
Proof.
  intros Hl Hmax Hc. unfold page. rewrite (proj2 (Z.ltb_ge _ _)), (proj2 (Z.leb_gt _ _)) by lia.
  rewrite Z.geb_leb, (proj2 (Z.leb_gt _ _)) by lia. cbv zeta.
  rewrite wrap64_id by (unfold int64_ok, min_int64, max_int64 in *; rewrite !(proj2 (Z.leb_le _ _)) by lia; done).
  rewrite Z.gtb_ltb. destruct (Z.ltb_spec (len results) (cursor + limit)) as [Hend|Hend].
  - rewrite slice_in by lia. cbn [mbind option_bind]. rewrite Z.ltb_irrefl, (proj2 (Z.ltb_ge _ _)) by lia.
    do 2 f_equal. rewrite !take_ge; [done|..]; rewrite length_drop; unfold len in *; lia.
  - rewrite slice_in by lia. cbn [mbind option_bind]. by replace (cursor + limit - cursor) with limit by lia.
Qed.

Lemma collect_drop fuel results cursor limit :
  0 < limit -> len results + limit <= max_int64 -> 0 <= cursor < len results ->
  (Z.to_nat (len results - cursor) <= fuel)%nat ->
  collect fuel results cursor limit = Some (drop (Z.to_nat cursor) results).
Proof.
  intros Hl Hmax. revert cursor. induction fuel as [|fuel IH]; intros cursor Hc Hf; [lia|]. cbn [collect].
  unfold page. rewrite (proj2 (Z.ltb_ge _ _)), (proj2 (Z.leb_gt _ _)) by lia.
  rewrite Z.geb_leb, (proj2 (Z.leb_gt _ _)) by lia. cbv zeta.
  rewrite wrap64_id by (unfold int64_ok, min_int64, max_int64 in *; rewrite !(proj2 (Z.leb_le _ _)) by lia; done).
  rewrite Z.gtb_ltb. destruct (Z.ltb_spec (len results) (cursor + limit)) as [Hend|Hend].
  - rewrite slice_in by lia. cbn [mbind option_bind]. rewrite Z.ltb_irrefl. cbn. f_equal. apply take_ge.
    rewrite length_drop. unfold len in *. lia.
  - rewrite slice_in by lia. cbn [mbind option_bind].
    destruct (Z.ltb_spec (cursor + limit) (len results)) as [Hlt|Hge].
    + rewrite (proj2 (Z.eqb_neq _ 0)) by lia. rewrite IH by lia. cbn [mbind option_bind]. f_equal.
      replace (Z.to_nat (cursor + limit - cursor)) with (Z.to_nat limit) by lia.
      replace (Z.to_nat (cursor + limit)) with (Z.to_nat cursor + Z.to_nat limit)%nat by lia.
      rewrite <- drop_drop. apply take_drop.
    + cbn. f_equal. apply take_ge. rewrite length_drop. unfold len in *. lia.
Qed.

(** Following the next cursors from 0 with any positive page size ends and yields
    every result exactly once, in order. *)
Lemma collect_all results limit :
  0 < limit -> len results + limit <= max_int64 -> collect (S (length results)) results 0 limit = Some results.
Proof.
  intros Hl Hmax. destruct results as [|r rs]; [cbn [collect]; unfold page; simpl; by destruct (limit <=? 0)|].
  rewrite collect_drop; [done|done|done| |]; unfold len; simpl; lia.
Qed.

(** A page has no more items than its limit. *)
Lemma page_bound results cursor limit items next :
  0 < limit -> len results + limit <= max_int64 -> page results cursor limit = Some (items, next) -> len items <= limit.
Proof.
  intros Hl Hmax. set (c := if cursor <? 0 then 0 else cursor).
  assert (Hp : page results cursor limit = page results c limit).
  { unfold page, c. destruct (cursor <? 0) eqn:Ec; [done|]. by rewrite Ec. }
  rewrite Hp. destruct (Z.le_gt_cases (len results) c) as [Hge|Hlt].
  - unfold page. rewrite Z.geb_leb, (proj2 (Z.leb_le _ _)); [|by destruct (Z.ltb_spec c 0); unfold c in *; destruct (Z.ltb_spec cursor 0); lia].
    intros [= <- <-]. unfold len. simpl. lia.
  - rewrite page_at by (unfold c in *; destruct (Z.ltb_spec cursor 0); lia). intros [= <- _].
    unfold len. rewrite length_take. lia.
Qed.

(** ** Statistics *)

Definition count {A} (p : A -> bool) (l : list A) : Z := len (List.filter p l).

Lemma incr_lookup k k' m : default 0 (incr k m !! k') = default 0 (m !! k') + (if String.eqb k k' then 1 else 0).
Proof.
  unfold incr. rewrite lookup_insert. destruct (String.eqb_spec k k') as [->|Hne].
  - rewrite decide_True by done. simpl. lia.
  - rewrite decide_False by done. lia.
Qed.

Definition has_status (s : string) (r : Result) : bool := String.eqb (Status_String (vStatus (res_Verdict r))) s.
Definition has_reason (s : string) (r : Result) : bool := String.eqb (SubStatus_String (vSubStatus (res_Verdict r))) s.
Definition was_probed (r : Result) : bool := SMTP_Probed (Checks_SMTP (vChecks (res_Verdict r))).

Lemma stats_fold rs s0 :
  let s := fold_left stats_add rs s0 in
  stats_Total s = stats_Total s0 + len rs /\
  stats_Probed s = stats_Probed s0 + count was_probed rs /\
  stats_Probed s + stats_NotProbed s = stats_Probed s0 + stats_NotProbed s0 + len rs /\
  (forall k, default 0 (ByStatus s !! k) = default 0 (ByStatus s0 !! k) + count (has_status k) rs) /\
  (forall k, default 0 (BySubStatus s !! k) = default 0 (BySubStatus s0 !! k) + count (has_reason k) rs).
Proof.
  revert s0. induction rs as [|r rs IH]; intros s0; cbn [fold_left].
  - unfold count, len. simpl. repeat split; intros; lia.
  - destruct (IH (stats_add s0 r)) as (H1 & H2 & H3 & H4 & H5).
    assert (Hl : len (r :: rs) = len rs + 1) by (unfold len; simpl; lia).
    assert (Hc : forall p, count p (r :: rs) = count p rs + (if p r then 1 else 0)).
    { intros p. unfold count. simpl. destruct (p r); unfold len; simpl; lia. }
    cbv zeta. rewrite H1, H3, H2, Hl, Hc. simpl.
    change (SMTP_Probed (Checks_SMTP (vChecks (res_Verdict r)))) with (was_probed r).
    split; [lia|]. split; [destruct (was_probed r); lia|]. split; [destruct (was_probed r); lia|].
    split; intros k; [rewrite H4, Hc|rewrite H5, Hc]; simpl; rewrite incr_lookup;
      [fold (has_status k r)|fold (has_reason k r)]; lia.
Qed.

(** Job statistics add up: the total is the number of results, each status
    and each reason count is the number of results with it, and every result is
    counted as probed or as not probed. *)
Theorem stats_exact jobID st e :
  st !! jobID = Some e ->
  exists s, Stats jobID st = Ok s /\ stats_Total s = len (je_results e) /\
    stats_Probed s = count was_probed (je_results e) /\
    stats_Probed s + stats_NotProbed s = stats_Total s /\
    (forall k, default 0 (ByStatus s !! k) = count (has_status k) (je_results e)) /\
    (forall k, default 0 (BySubStatus s !! k) = count (has_reason k) (je_results e)).
Proof.
  intros He. unfold Stats. rewrite He. eexists. split; [done|].
  destruct (stats_fold (je_results e) stats_zero) as (H1 & H2 & H3 & H4 & H5). cbv zeta in *. simpl in *.
  repeat split; try lia; intros k; by rewrite ?H4, ?H5, lookup_empty.
Qed.

(** ** Witnesses *)

Definition ex_verdict (s : Status) : Verdict :=
  {| Email := "u@example.com"; Normalized := "u@example.com"; vStatus := s; vSubStatus := SubValidMailbox;
     Confidence := f64 (9 # 10); vChecks := Checks_zero; Provider := "custom"; Verdict.Engine := "builtin";
     EgressID := "a"; Cached := false; CheckedAt := 7 |}.
Definition ex_result (s : Status) : Result := {| res_Label := "Ann"; res_Verdict := ex_verdict s |}.
Definition ex_job : Job :=
  {| job_ID := "job_1"; job_Status := JobRunning; job_Total := 2; job_Done := 0; job_CreatedAt := 5;
     job_CompletedAt := None |}.

Lemma cache_put_get_witness :
  (mem_Get 40 "k" (fold_left cache_step [CWrite 20 "j" (ex_verdict StatusRisky) 5; CEvict 30 "k" 6]
     (mem_Put 10 "k" (ex_verdict StatusDeliverable) 50 ∅))).1 = Some (ex_verdict StatusDeliverable).
Proof.
  apply (cache_put_get "k" (ex_verdict StatusDeliverable) 10 50
           [CWrite 20 "j" (ex_verdict StatusRisky) 5; CEvict 30 "k" 6] ∅ 40); try lia.
  repeat constructor; simpl; lia || discriminate.
Defined.

Lemma job_history_witness :
  exists st' e, fold_left (job_step "job_1")
      [JStatus 6 JobRunning; JAppend 7 (ex_result StatusRisky); JStatus 8 JobCanceled; JAppend 9 (ex_result StatusRisky)]
      (Ok (CreateJob ex_job ∅)) = Ok st' /\ st' !! "job_1" = Some e /\
    entry_ok [ex_result StatusRisky; ex_result StatusRisky] e /\ job_Total (je_job e) = 2.
Proof.
  exact (job_history ex_job
    [JStatus 6 JobRunning; JAppend 7 (ex_result StatusRisky); JStatus 8 JobCanceled; JAppend 9 (ex_result StatusRisky)]
    ∅ eq_refl eq_refl).
Defined.

Lemma job_completion_witness :
  let e := {| je_job := set_progress JobRunning 1 None ex_job; je_results := [ex_result StatusRisky] |} in
  job_Status (je_job (append_entry 9 (ex_result StatusUnknown) e)) = JobCompleted.
Proof.
  intros e. apply (proj2 (job_completion 9 (ex_result StatusUnknown) e
    ltac:(split; [reflexivity|split; [reflexivity|intros [H|H]; discriminate]])) eq_refl).
Defined.

Lemma stats_exact_witness :
  exists s, Stats "job_1" {["job_1" := {| je_job := ex_job; je_results := [ex_result StatusRisky; ex_result StatusUnknown] |}]}
    = Ok s /\ stats_Total s = 2.
Proof.
  destruct (stats_exact "job_1"
    {["job_1" := {| je_job := ex_job; je_results := [ex_result StatusRisky; ex_result StatusUnknown] |}]}
    {| je_job := ex_job; je_results := [ex_result StatusRisky; ex_result StatusUnknown] |})
    as (s & H1 & H2 & _); [reflexivity|].
  exists s. split; [exact H1|exact H2].
Defined.
