(* ===== verification/Restart.v ===== *)
(** Reputation across a restart: the manager's [Persist], the store, and the
    [Restore] of the next process, in the order the server calls them. *)

From Stdlib Require Import QArith.
From S2P Require Import Prelude GoStrings Float64 GoTime Verdict Engine Health Egress EgressInv.
From S2P Require Import EgressSel EgressOps EgressProps EgressLife Store Memory.
Local Open Scope Z_scope.

(** ** What a store holds after a save *)

Lemma save_lookup states st id :
  mem_SaveEgress states st !! id =
    match list.last (filter (fun s => es_ID s = id) states) with Some s => Some s | None => st !! id end.
Proof.
  unfold mem_SaveEgress. revert st. induction states as [|s states IH] using rev_ind; intros st; [done|].
  rewrite fold_left_app. simpl. rewrite list.filter_app, filter_cons, filter_nil, lookup_insert.
  destruct (decide (es_ID s = id)) as [Hs|Hs]; [by rewrite last_snoc|]. by rewrite app_nil_r, IH.
Qed.

Lemma save_keys states st :
  map_Forall (fun k s => es_ID s = k) st -> map_Forall (fun k s => es_ID s = k) (mem_SaveEgress states st).
Proof. apply fold_left_inv. intros m s Hm. by apply map_Forall_insert_2. Qed.

(** After saving a snapshot the store holds exactly the snapshot of every identity. *)
Lemma save_snapshot m l st id r :
  mgr_wf m -> Snapshot m = Some l -> records m !! id = Some r ->
  mem_SaveEgress l st !! id = Some (snapshot_record id r).
Proof.
  intros W Hl Hr. destruct (Snapshot_total m W) as (l' & Hl' & HF). rewrite Hl in Hl'. inv Hl'.
  rewrite save_lookup.
  assert (Hall : Forall (fun s => forall r', es_ID s = id -> records m !! id = Some r' -> s = snapshot_record id r') l').
  { clear -HF. induction HF as [|i x ids xs (r0 & Hr0 & ->) _ IH]; constructor; [|done].
    simpl. intros r' -> Hr'. congruence. }
  assert (Hin : exists s, s ∈ l' /\ es_ID s = id).
  { assert (Hid : id ∈ order m) by (apply (mwf_order m W); eauto). clear -HF Hid.
    induction HF as [|i x ids xs (r0 & Hr0 & ->) _ IH]; [by apply not_elem_of_nil in Hid|].
    apply elem_of_cons in Hid as [->|Hid].
    - eexists. split; [by left|done].
    - destruct (IH Hid) as (s & Hs & Hse). exists s. split; [by right|done]. }
  destruct (list.last (filter (fun s => es_ID s = id) l')) as [s|] eqn:El.
  - f_equal. apply last_Some in El as [k Hk].
    assert (Hs : s ∈ filter (fun s => es_ID s = id) l') by (rewrite Hk; apply elem_of_app; right; by left).
    apply list_elem_of_filter in Hs as [Hs1 Hs2]. rewrite Forall_forall in Hall.
    by apply (Hall s); [apply list_elem_of_In|..].
  - exfalso. apply last_None in El. destruct Hin as (s & Hs & Hse).
    assert (Hs' : s ∈ filter (fun s => es_ID s = id) l') by (by apply list_elem_of_filter).
    rewrite El in Hs'. by apply not_elem_of_nil in Hs'.
Qed.

(** ** Restoring in any order, stale entries included *)

Definition entry_of (m : Manager) (x : EgressState) : Prop :=
  forall r, records m !! es_ID x = Some r -> x = snapshot_record (es_ID x) r /\ lastReset r <> 0.

Lemma restore_any m l cur :
  Forall (entry_of m) l ->
  (forall id, is_Some (records cur !! id) <-> is_Some (records m !! id)) ->
  map_Forall (fun _ r => rhealth r = ∅) (records cur) ->
  let f := fold_left restore_one l cur in
  order f = order cur /\
  (forall id, is_Some (records f !! id) <-> is_Some (records m !! id)) /\
  (forall id r1 r, records m !! id = Some r1 -> records f !! id = Some r -> health_pending (snapshot_record id r1) r) /\
  (forall id r1, records m !! id = Some r1 -> (exists x, x ∈ l /\ es_ID x = id) ->
     exists r, records f !! id = Some r /\ snapshot_record id r = snapshot_record id r1).
Proof.
  intros HF Hdom Hh. cbv zeta. induction l as [|x l IH] using rev_ind.
  - simpl. split; [done|]. split; [done|]. split.
    + intros id r1 r _ Hr. left. by apply (Hh id).
    + intros id r1 _ (x & Hx & _). by apply not_elem_of_nil in Hx.
  - apply Forall_app in HF as [HF Hx]. apply Forall_cons_iff in Hx as [Hx _].
    destruct (IH HF) as (I1 & I2 & I3 & I4). rewrite fold_left_app. cbn [fold_left].
    set (f := fold_left restore_one l cur) in *. rewrite restore_one_order.
    unfold restore_one. destruct (records f !! es_ID x) as [rc|] eqn:Ex.
    + destruct (proj1 (I2 (es_ID x)) ltac:(eauto)) as [r1 Hr1]. destruct (Hx r1 Hr1) as [Hxe Hlr].
      destruct (restore_snapshot (es_ID x) r1 rc Hlr (I3 _ _ _ Hr1 Ex)) as [Hsn Hpn].
      rewrite <- Hxe in Hsn, Hpn. split; [done|]. cbn [records set_records]. split; [|split].
      * intros id. rewrite lookup_insert. case_decide as Hi; [|done]. subst id. split; eauto.
      * intros id r2 r Hr2. rewrite lookup_insert. case_decide as Hi; [|by apply I3]. subst id.
        intros [= <-]. assert (r2 = r1) as -> by congruence. by rewrite <- Hxe.
      * intros id r2 Hr2 Hin. rewrite lookup_insert. case_decide as Hi.
        -- subst id. assert (r2 = r1) as -> by congruence. eexists. split; [done|]. by rewrite Hsn, <- Hxe.
        -- apply (I4 id r2 Hr2). destruct Hin as (y & Hy & Hye). apply elem_of_app in Hy as [Hy|Hy]; [by eauto|].
           apply list_elem_of_singleton in Hy. by subst.
    + split; [done|]. split; [done|]. split; [done|]. intros id r2 Hr2 (y & Hy & Hye).
      apply elem_of_app in Hy as [Hy|Hy]; [apply (I4 id r2 Hr2); by eauto|].
      apply list_elem_of_singleton in Hy. subst. exfalso.
      destruct (proj2 (I2 (es_ID x)) ltac:(eauto)) as [? ?]. congruence.
Qed.

Lemma New_fresh cfg start : map_Forall (fun _ r => rhealth r = ∅) (records (New cfg start)).
Proof. apply seed_fresh, map_Forall_empty. Qed.

Definition keyed (d : egress_states) : Prop := map_Forall (fun k s => es_ID s = k) d.

(** [Restore] of what a store loads, identity by identity: the order of the
    entries and those of unknown identities do not matter. *)
Lemma restore_list (l : list (string * EgressState)) m id :
  NoDup l.*1 -> Forall (fun kx => es_ID kx.2 = kx.1) l ->
  records (fold_left restore_one l.*2 m) !! id
  = match (list_to_map l : egress_states) !! id with
    | Some x => restore_record x <$> records m !! id
    | None => records m !! id
    end.
Proof.
  revert m. induction l as [|[k x] l IH]; intros m ND HF; [done|].
  apply list.NoDup_cons in ND as [Hk ND]. inversion HF as [|? ? Hx HF']; subst. simpl in Hx, Hk. subst k.
  simpl. rewrite IH by done. unfold restore_one.
  destruct (decide (es_ID x = id)) as [<-|Hi].
  - rewrite lookup_insert_eq. rewrite (not_elem_of_list_to_map_1 l (es_ID x)) by done.
    destruct (records m !! es_ID x) as [r|] eqn:E; [|done]. simpl. by rewrite lookup_insert_eq.
  - rewrite lookup_insert_ne by done.
    assert (Hm : records (match records m !! es_ID x with
                          | Some r => set_records (<[es_ID x:=restore_record x r]> (records m)) m
                          | None => m end) !! id = records m !! id).
    { destruct (records m !! es_ID x); [|done]. simpl. by rewrite lookup_insert_ne. }
    by rewrite Hm.
Qed.

Lemma restore_perm d loaded m id :
  keyed d -> loaded ≡ₚ mem_LoadEgress d ->
  records (Restore loaded m) !! id
  = match d !! id with Some x => restore_record x <$> records m !! id | None => records m !! id end.
Proof.
  intros Hk Hp. set (pair x := (es_ID x, x)).
  assert (Hd : pair <$> mem_LoadEgress d = map_to_list d).
  { unfold mem_LoadEgress. rewrite <- list_fmap_compose. rewrite <- (list_fmap_id (map_to_list d)) at 2.
    apply list_fmap_ext. intros i [k x] Hi. apply list_elem_of_lookup_2, elem_of_map_to_list in Hi.
    unfold pair. simpl. by rewrite (Hk k x Hi). }
  assert (Hl : pair <$> loaded ≡ₚ map_to_list d) by (by rewrite <- Hd, Hp).
  assert (Hnd : NoDup (pair <$> loaded).*1) by (rewrite Hl; apply NoDup_fst_map_to_list).
  pose proof (restore_list (pair <$> loaded) m id Hnd) as Hr.
  rewrite (list_to_map_proper _ _ Hnd Hl), list_to_map_to_list in Hr.
  rewrite <- list_fmap_compose in Hr. rewrite (list_fmap_ext (snd ∘ pair) (fun x => x) loaded), list_fmap_id in Hr by done.
  unfold Restore. cbn [records set_dirty]. apply Hr. apply list.Forall_fmap, list.Forall_true. done.
Qed.

Lemma restore_entry d m id :
  keyed d ->
  records (Restore (mem_LoadEgress d) m) !! id
  = match d !! id with Some x => restore_record x <$> records m !! id | None => records m !! id end.
Proof. intros Hk. by apply restore_perm. Qed.

(** What the store of [d] holds of an identity after [m]'s snapshot was saved in
    it: the snapshot, or what an earlier process saved. *)
Lemma save_entry m l d id :
  mgr_wf m -> Snapshot m = Some l ->
  mem_SaveEgress l d !! id
  = match records m !! id with Some r => Some (snapshot_record id r) | None => d !! id end.
Proof.
  intros W Hl. destruct (records m !! id) as [r|] eqn:Hr; [by apply save_snapshot with m|]. rewrite save_lookup.
  destruct (Snapshot_total m W) as (l' & Hl' & HF). rewrite Hl in Hl'. injection Hl' as <-.
  assert (He : filter (fun s => es_ID s = id) l = []); [|by rewrite He]. apply elem_of_nil_inv. intros x Hx.
  apply list_elem_of_filter in Hx as [Hid Hx]. apply list_elem_of_lookup in Hx as [i Hi].
  destruct (Forall2_lookup_r _ _ _ _ _ HF Hi) as (k & _ & r & Hk & ->). simpl in Hid. congruence.
Qed.

Lemma restore_order loaded m : order (Restore loaded m) = order m.
Proof.
  unfold Restore. cbn [order set_dirty]. apply (fold_left_inv (fun m' => order m' = order m)); [|done].
  intros m' st <-. apply restore_one_order.
Qed.

(** Restoring what a store loads, in whatever order and with stale entries, into a
    new manager over the same identities gives the saved snapshot. *)
Lemma restore_loaded m cfg start states :
  mgr_wf m -> alpha_ok (cfg_HealthAlpha cfg) -> order (New cfg start) = order m ->
  Forall (entry_of m) states ->
  (forall id r, records m !! id = Some r -> exists x, x ∈ states /\ es_ID x = id) ->
  Snapshot (Restore states (New cfg start)) = Snapshot m.
Proof.
  intros W Ha Ho HE Hall. destruct (Snapshot_total m W) as (l & Hl & HF). rewrite Hl.
  pose proof (New_wf cfg start Ha) as W0.
  assert (Hdom : forall id, is_Some (records (New cfg start) !! id) <-> is_Some (records m !! id)).
  { intros id. rewrite <- (mwf_order _ W0), <- (mwf_order _ W), Ho. done. }
  destruct (restore_any m states (New cfg start) HE Hdom) as (R1 & _ & _ & R4).
  - apply seed_fresh, map_Forall_empty.
  - unfold Restore, Snapshot. cbn [records order set_dirty]. rewrite R1, Ho. apply mapM_Some.
    eapply Forall2_impl; [|exact HF]. cbn. intros id x (r & Hr & ->).
    destruct (R4 id r Hr (Hall id r Hr)) as (r' & Hr' & Hsn). by rewrite Hr', <- Hsn.
Qed.

(** The entries a store loads after a snapshot was saved. *)
Lemma loaded_entries m l st :
  mgr_wf m -> Snapshot m = Some l -> map_Forall (fun _ r => lastReset r <> 0) (records m) ->
  map_Forall (fun k s => es_ID s = k) st ->
  Forall (entry_of m) (mem_LoadEgress (mem_SaveEgress l st)) /\
  (forall id r, records m !! id = Some r -> exists x, x ∈ mem_LoadEgress (mem_SaveEgress l st) /\ es_ID x = id).
Proof.
  intros W Hl Hlr Hkeys. pose proof (save_keys l st Hkeys) as Hkeys1. split.
  - apply Forall_forall. intros x Hx. apply list_elem_of_In, list_elem_of_fmap in Hx as ([k y] & -> & Hy).
    apply elem_of_map_to_list in Hy. cbn [snd]. intros r Hr. pose proof (Hkeys1 k y Hy) as Hk. cbn in Hk. subst k.
    rewrite (save_snapshot m l st (es_ID y) r W Hl Hr) in Hy. split; [congruence|by apply (Hlr (es_ID y))].
  - intros id r Hr. exists (snapshot_record id r). split; [|done]. unfold mem_LoadEgress. apply list_elem_of_fmap.
    exists (id, snapshot_record id r). split; [done|]. apply elem_of_map_to_list. by apply save_snapshot with m.
Qed.

(** A restart keeps the reputation: when the manager persists its state and
    the next process, with the same identities, restores what the store loads
    (in whatever order, with entries of identities it no longer has), its
    snapshot is the one that was persisted. *)
Theorem restart_keeps_reputation m cfg start st m1 st1 :
  mgr_wf m -> alpha_ok (cfg_HealthAlpha cfg) -> order (New cfg start) = order m ->
  map_Forall (fun _ r => lastReset r <> 0) (records m) ->
  map_Forall (fun k s => es_ID s = k) st ->
  Persist m (Some st) = Some (None, m1, Some st1) ->
  Snapshot (Restore (mem_LoadEgress st1) (New cfg start)) = Snapshot m /\ dirty m1 = false.
Proof.
  intros W Ha Ho Hlr Hkeys HP. unfold Persist in HP.
  destruct (Snapshot_total m W) as (l & Hl & HF). rewrite Hl in HP. cbn in HP. injection HP as <- <-.
  split; [|done]. destruct (loaded_entries m l st W Hl Hlr Hkeys) as [HE Hall]. by apply restore_loaded.
Qed.

Lemma restart_keeps_reputation_witness :
  exists m1 st1, Persist (Quarantine "b" "manual" ex_start ex_mgr) (Some (∅ : gmap string EgressState))
      = Some (None, m1, Some st1) /\
    Snapshot (Restore (mem_LoadEgress st1) (New ex_cfg (ex_start + Hour)))
    = Snapshot (Quarantine "b" "manual" ex_start ex_mgr).
Proof.
  set (m := Quarantine "b" "manual" ex_start ex_mgr).
  assert (W : mgr_wf m) by (apply Quarantine_wf, ex_mgr_wf).
  destruct (Persist m (Some (∅ : gmap string EgressState))) as [[[[[]|] m1] [st1|]]|] eqn:E;
    try (exfalso; vm_compute in E; discriminate).
  exists m1, st1. split; [reflexivity|].
  apply (restart_keeps_reputation m ex_cfg (ex_start + Hour) ∅ m1 st1 W ex_alpha_ok).
  - reflexivity.
  - apply map_Forall_to_list. vm_compute. repeat constructor; discriminate.
  - apply map_Forall_empty.
  - exact E.
Defined.

Lemma restore_absent l m id : records m !! id = None -> records (Restore l m) !! id = None.
Proof.
  intros Hn. unfold Restore. cbn [records set_dirty].
  apply (fold_left_inv (fun m => records m !! id = None)); [|done]. intros m' st Hm.
  unfold restore_one. destruct (records m' !! es_ID st) as [r|] eqn:E; [|done]. cbn.
  rewrite lookup_insert_ne; [done|]. intros He. congruence.
Qed.

Lemma late_fresh l m s now :
  records m !! Spec_ID s = None ->
  records (AddIdentity s now (Restore l m)) !! Spec_ID s = Some (fresh_record s now).
Proof. intros Hn. unfold AddIdentity. rewrite restore_absent by done. cbn. apply lookup_insert_eq. Qed.

(** The identity of a remote agent is not part of the pool when the server
    restores its state: [Restore] runs on the configured identities and the agents
    are added after it, so that a quarantined remote identity comes back as new. *)
Theorem late_identity_starts_fresh m l s now :
  records m !! Spec_ID s = None ->
  records (AddIdentity s now (Restore l m)) !! Spec_ID s = Some (fresh_record s now).
Proof. apply late_fresh. Qed.

Lemma late_identity_starts_fresh_witness :
  let saved := {| es_ID := "remote"; es_State := "quarantined"; es_WarmupStage := 0; es_UsedToday := 0;
                  es_LastReset := ex_start; es_BlockStreak := 5; es_QuarantinedUntil := ex_start + Hour;
                  es_QuarantineReason := "dnsbl:zen"; es_Health := ∅ |} in
  records (AddIdentity (ex_spec "remote" false) ex_start (Restore [saved] ex_mgr)) !! "remote"
  = Some (fresh_record (ex_spec "remote" false) ex_start).
Proof. intros saved. apply (late_identity_starts_fresh ex_mgr [saved] (ex_spec "remote" false) ex_start). reflexivity. Defined.
