(* ===== verification/Process.v ===== *)
(** The lifetime of [cmd/rcptto-server]: the goroutines that share the egress
    manager, the persister among them, and the shutdown of [main.go].

    The manager's methods take its lock, so the process is a sequence of steps,
    each of one goroutine: a request or a job calls a method, the health loop
    runs a callback, the audit loop looks at one identity, the persister takes a
    snapshot, writes it, or clears the dirty flag, and [run] moves towards the
    exit.  Between the steps of [Persist], and of [AuditDNSBL], any other
    goroutine may run, as in the code. *)

From Stdlib Require Import QArith.
From S2P Require Import Prelude GoStrings Float64 GoTime Verdict Engine Health Egress EgressInv.
From S2P Require Import EgressSel EgressOps EgressProps EgressLife Store Memory Restart.
Local Open Scope list_scope.
Local Open Scope Z_scope.

(** ** State *)

(** Where [PersistLoop] is: in its [select]; inside [Persist] before the
    snapshot, before the write of the states it took, or before [dirty] is
    cleared; or returned.  [final] marks the write of the shutdown. *)
Inductive persister :=
| PIdle
| PSnapshot (final : bool)
| PSave (final : bool) (states : list EgressState)
| PClear (final : bool)
| PExited.

(** Where [runDNSBLAudits] is: not started, in its [select], or in an audit with
    the items it has not looked at yet; or returned. *)
Inductive auditor := AFirst | AWait | ARun (items : list (string * string * bool)) | AExited.

(** Where the health loop is: in its [select], in a round, or returned. *)
Inductive health_loop := HWait | HRun | HExited.

(** Where [run] is: waiting for the signal, in [srv.Shutdown], waiting for the
    persister, or returned, with an error or not. *)
Inductive main_pc := MServing | MDraining | MFlushing | MExited (err : bool).

Record proc := {
  mgr : Manager;
  disk : egress_states;    (** what the store holds *)
  per : persister;
  aud : auditor;
  hl : health_loop;
  requests : nat;          (** requests in flight *)
  jobs : nat;              (** bulk jobs in flight *)
  cancelled : bool;        (** [ctx] is done: the signal arrived *)
  main : main_pc;
}.

Definition set_mgr (m : Manager) (p : proc) : proc :=
  {| mgr := m; disk := disk p; per := per p; aud := aud p; hl := hl p; requests := requests p; jobs := jobs p;
     cancelled := cancelled p; main := main p |}.
Definition set_disk (d : egress_states) (p : proc) : proc :=
  {| mgr := mgr p; disk := d; per := per p; aud := aud p; hl := hl p; requests := requests p; jobs := jobs p;
     cancelled := cancelled p; main := main p |}.
Definition set_per (q : persister) (p : proc) : proc :=
  {| mgr := mgr p; disk := disk p; per := q; aud := aud p; hl := hl p; requests := requests p; jobs := jobs p;
     cancelled := cancelled p; main := main p |}.
Definition set_aud (a : auditor) (p : proc) : proc :=
  {| mgr := mgr p; disk := disk p; per := per p; aud := a; hl := hl p; requests := requests p; jobs := jobs p;
     cancelled := cancelled p; main := main p |}.
Definition set_hl (h : health_loop) (p : proc) : proc :=
  {| mgr := mgr p; disk := disk p; per := per p; aud := aud p; hl := h; requests := requests p; jobs := jobs p;
     cancelled := cancelled p; main := main p |}.
Definition set_load (rs js : nat) (p : proc) : proc :=
  {| mgr := mgr p; disk := disk p; per := per p; aud := aud p; hl := hl p; requests := rs; jobs := js;
     cancelled := cancelled p; main := main p |}.
Definition set_cancelled (p : proc) : proc :=
  {| mgr := mgr p; disk := disk p; per := per p; aud := aud p; hl := hl p; requests := requests p; jobs := jobs p;
     cancelled := true; main := main p |}.
Definition set_main (q : main_pc) (p : proc) : proc :=
  {| mgr := mgr p; disk := disk p; per := per p; aud := aud p; hl := hl p; requests := requests p; jobs := jobs p;
     cancelled := cancelled p; main := q |}.

(** ** Steps *)

(** Manager calls of a request (probes, the admin API, the dashboard, the
    settings) and of a bulk job (probes). *)
Definition request_op (o : op) : bool :=
  match o with
  | OpBinding _ | OpEmit _ | OpEnable _ | OpDisable _ _ | OpQuarantine _ _ | OpSetThresholds _ _ => true
  | _ => false
  end.
Definition job_op (o : op) : bool := match o with OpBinding _ | OpEmit _ => true | _ => false end.
Definition health_op (o : op) : bool := match o with OpSetOnline _ _ | OpAddIdentity _ => true | _ => false end.

Inductive event :=
| EvAccept | EvReply | EvSubmit | EvJobDone          (** requests and jobs begin and end *)
| EvRequest (now : Time) (o : op) | EvJob (now : Time) (o : op)
| EvHealthRound | EvHealth (now : Time) (o : op) | EvHealthDone | EvHealthExit
| EvAuditRound | EvAudit (now : Time) (listed : list string) | EvAuditDone | EvAuditExit
| EvTick | EvDone | EvSnapshot | EvSave (ok applied : bool) | EvClear
| EvSignal | EvServerErr | EvDrain | EvDrained | EvDrainTimeout | EvFlushed | EvFlushTimeout.

(** [PersistLoop] and [Persist].  A write that reports an error may have been
    applied (a lost commit reply) or not; it leaves no partial state. *)
Definition after_persist (final : bool) : persister := if final then PExited else PIdle.

Definition persist_step (ev : event) (p : proc) : option proc :=
  match ev, per p with
  | EvTick, PIdle => Some (set_per (if dirty (mgr p) then PSnapshot false else PIdle) p)
  | EvDone, PIdle => if cancelled p then Some (set_per (PSnapshot true) p) else None
  | EvSnapshot, PSnapshot final => states ← Snapshot (mgr p); Some (set_per (PSave final states) p)
  | EvSave ok applied, PSave final states =>
      let p' := if ok || applied then set_disk (mem_SaveEgress states (disk p)) p else p in
      Some (set_per (if ok then PClear final else after_persist final) p')
  | EvClear, PClear final => Some (set_per (after_persist final) (set_mgr (set_dirty false (mgr p)) p))
  | _, _ => None
  end.

(** [runDNSBLAudits] and [AuditDNSBL]; [listed] is what the blocklists say of the
    item's address. *)
Definition audit_step (ev : event) (p : proc) : option proc :=
  match ev, aud p with
  | EvAuditRound, (AFirst | AWait) => items ← audit_items (mgr p); Some (set_aud (ARun items) p)
  | EvAudit now listed, ARun (it :: items) =>
      Some (set_aud (ARun items) (set_mgr (audit_one (fun _ => listed) now (mgr p) it) p))
  | EvAuditDone, ARun [] => Some (set_aud AWait p)
  | EvAuditExit, AWait => if cancelled p then Some (set_aud AExited p) else None
  | _, _ => None
  end.

(** A method of the manager, called by a goroutine that may call it. *)
Definition call (allowed : bool) (now : Time) (o : op) (p : proc) : option proc :=
  if allowed then m ← apply_op now o (mgr p); Some (set_mgr m p) else None.

(** The health loop, with the callback of [run]. *)
Definition health_step (ev : event) (p : proc) : option proc :=
  match ev, hl p with
  | EvHealthRound, HWait => Some (set_hl HRun p)
  | EvHealth now o, HRun => call (health_op o) now o p
  | EvHealthDone, HRun => Some (set_hl HWait p)
  | EvHealthExit, HWait => if cancelled p then Some (set_hl HExited p) else None
  | _, _ => None
  end.

(** [run] from [ListenAndServe] to its return.  The listener is closed by
    [Shutdown], which returns when no request is in flight or its context times
    out.  Jobs are not waited for. *)
Definition main_step (ev : event) (p : proc) : option proc :=
  match ev, main p with
  | EvSignal, _ => Some (set_cancelled p)
  | EvServerErr, MServing => Some (set_main (MExited true) p)
  | EvDrain, MServing => if cancelled p then Some (set_main MDraining p) else None
  | EvDrained, MDraining => if Nat.eqb (requests p) 0 then Some (set_main MFlushing p) else None
  | EvDrainTimeout, MDraining => Some (set_main (MExited true) p)
  | EvFlushed, MFlushing => match per p with PExited => Some (set_main (MExited false) p) | _ => None end
  | EvFlushTimeout, MFlushing => Some (set_main (MExited false) p)
  | _, _ => None
  end.

(** Requests and the jobs they submit. *)
Definition serve_step (ev : event) (p : proc) : option proc :=
  match ev with
  | EvAccept => match main p with MServing => Some (set_load (S (requests p)) (jobs p) p) | _ => None end
  | EvReply => match requests p with S n => Some (set_load n (jobs p) p) | O => None end
  | EvSubmit => match requests p with S _ => Some (set_load (requests p) (S (jobs p)) p) | O => None end
  | EvJobDone => match jobs p with S n => Some (set_load (requests p) n p) | O => None end
  | EvRequest now o => call (negb (Nat.eqb (requests p) 0) && request_op o) now o p
  | EvJob now o => call (negb (Nat.eqb (jobs p) 0) && job_op o) now o p
  | _ => None
  end.

(** One step of the process; none once [run] has returned. *)
Definition step (ev : event) (p : proc) : option proc :=
  match main p with
  | MExited _ => None
  | _ =>
      match ev with
      | EvTick | EvDone | EvSnapshot | EvSave _ _ | EvClear => persist_step ev p
      | EvAuditRound | EvAudit _ _ | EvAuditDone | EvAuditExit => audit_step ev p
      | EvHealthRound | EvHealth _ _ | EvHealthDone | EvHealthExit => health_step ev p
      | EvSignal | EvServerErr | EvDrain | EvDrained | EvDrainTimeout | EvFlushed | EvFlushTimeout => main_step ev p
      | _ => serve_step ev p
      end
  end.

Fixpoint exec (tr : list event) (p : proc) : option proc :=
  match tr with
  | [] => Some p
  | ev :: tr => p ← step ev p; exec tr p
  end.

(** The process when [run] reaches [ListenAndServe]: [zones] and [agents] tell
    whether the audits and the health loop are started. *)
Definition started (zones agents : bool) (m : Manager) (d : egress_states) : proc :=
  {| mgr := m; disk := d; per := PIdle; aud := if zones then AFirst else AExited;
     hl := if agents then HRun else HExited; requests := 0; jobs := 0; cancelled := false; main := MServing |}.

(** ** What a step does to the manager *)

Lemma exec_app tr1 tr2 p : exec (tr1 ++ tr2) p = p1 ← exec tr1 p; exec tr2 p1.
Proof. revert p. induction tr1 as [|ev tr1 IH]; intros p; simpl; [done|]. destruct (step ev p); simpl; auto. Qed.

Lemma exec_snoc tr ev p p' : exec (tr ++ [ev]) p = Some p' <-> exists p1, exec tr p = Some p1 /\ step ev p1 = Some p'.
Proof.
  rewrite exec_app, bind_Some. split; intros (p1 & H1 & H2); exists p1; split; try done.
  - simpl in H2. by destruct (step ev p1).
  - simpl. by rewrite H2.
Qed.

(** The calls a running server makes: [Restore] is called only at startup. *)
Definition live_op (o : op) : bool := match o with OpRestore _ => false | _ => true end.

Definition ev_time (ev : event) : Time :=
  match ev with EvRequest now _ | EvJob now _ | EvHealth now _ | EvAudit now _ => now | _ => 1 end.

(** Events that may change an identity: the calls of requests, jobs and loops. *)
Definition touches (ev : event) : bool :=
  match ev with EvRequest _ _ | EvJob _ _ | EvHealth _ _ | EvAudit _ _ => true | _ => false end.

Lemma call_Some b now o p p' :
  call b now o p = Some p' -> b = true /\ exists m, apply_op now o (mgr p) = Some m /\ p' = set_mgr m p.
Proof. unfold call. destruct b; [|done]. destruct (apply_op now o (mgr p)); simpl; naive_solver. Qed.

Lemma live_ops o : request_op o || job_op o || health_op o = true -> live_op o = true.
Proof. by destruct o. Qed.

Lemma audit_one_op check now m it :
  audit_one check now m it = m \/ exists id reason, audit_one check now m it = Quarantine id reason now m.
Proof. destruct it as [[id ip] dis]. unfold audit_one. case_match; [by left|]. case_match; [by left|]. right. by eexists _, _. Qed.

(** A step's effect on the manager is one of its methods, or nothing. *)
Definition one_op (ev : event) (m m' : Manager) : Prop :=
  m' = m \/ exists o, live_op o = true /\ apply_op (ev_time ev) o m = Some m' /\
    (touches ev = true \/ ev = EvClear /\ o = OpSaved).

Lemma one_call ev b now o p p' :
  (b = true -> live_op o = true) -> ev_time ev = now -> touches ev = true ->
  call b now o p = Some p' -> one_op ev (mgr p) (mgr p').
Proof. intros Hb <- Ht Hc. apply call_Some in Hc as (H1 & m & Hm & ->). right. exists o. simpl. auto. Qed.

Ltac step_cases :=
  repeat match goal with
  | H : Some _ = Some _ |- _ => injection H as <-
  | H : None = Some _ |- _ => discriminate H
  | H : context [match ?x with _ => _ end] |- _ => destruct x eqn:?
  | H : context [_ ≫= _] |- _ => apply bind_Some in H as (? & ? & H)
  end.

Lemma persist_step_mgr ev p p' : persist_step ev p = Some p' -> one_op ev (mgr p) (mgr p').
Proof.
  intros H. unfold persist_step in H. destruct ev; step_cases; simplify_eq; try (left; reflexivity).
  { left. simpl. by destruct (ok || applied). }
  right. exists OpSaved. simpl. auto.
Qed.

Lemma audit_step_mgr ev p p' : audit_step ev p = Some p' -> one_op ev (mgr p) (mgr p').
Proof.
  intros H. unfold audit_step in H. destruct ev; step_cases; simplify_eq; try (left; reflexivity).
  destruct (audit_one_op (fun _ => listed) now (mgr p) p0) as [E|(id & reason & E)]; simpl; rewrite E; [by left|].
  right. exists (OpQuarantine id reason). simpl. auto.
Qed.

Lemma step_mgr ev p p' : step ev p = Some p' -> one_op ev (mgr p) (mgr p').
Proof.
  intros H. unfold step in H. destruct (main p) eqn:Em; [| | |done].
  all: destruct ev; try (by apply persist_step_mgr); try (by apply audit_step_mgr).
  all: try (unfold main_step in H; step_cases; simplify_eq; left; reflexivity).
  all: try (simpl in H; step_cases; simplify_eq; left; reflexivity).
  all: simpl in H; try (destruct (hl p); try discriminate H).
  all: try (eapply one_call; [| | |exact H]; try done; intros Hb; apply live_ops).
  all: try (apply andb_prop in Hb as [_ Hb]); try (rewrite Hb; by rewrite ?orb_true_r).
  all: simplify_eq; try (left; reflexivity).
  all: destruct (cancelled p); simplify_eq; left; reflexivity.
Qed.

(** ** Every identity keeps a dated record *)

(** The records carry the time of their last reset: [Restore] takes a zero time
    for a missing one. *)
Definition dated (recs : gmap string record) : Prop := map_Forall (fun _ r => 0 < lastReset r) recs.

Lemma dated_insert id r recs : dated recs -> 0 < lastReset r -> dated (<[id := r]> recs).
Proof. intros. by apply map_Forall_insert_2. Qed.

Lemma update_record_dated id f m :
  (forall r, lastReset (f r) = lastReset r) -> dated (records m) -> dated (records (update_record id f m)).
Proof.
  intros Hf D. unfold update_record. destruct (records m !! id) as [r|] eqn:E; [|done].
  apply dated_insert; [done|]. rewrite Hf. by apply (D id).
Qed.

Lemma apply_signal_lastReset m now sig r : lastReset (apply_signal m now sig r) = lastReset r.
Proof. unfold apply_signal. destruct (Signal_Kind sig); try done. by case_match. Qed.

Lemma reconcile_dated m now r : 0 < lastReset r -> 0 < lastReset (reconcile_record m now r).
Proof.
  intros Hr. unfold reconcile_record. rewrite daily_loop_iter by done. rewrite iter_reset_lastReset.
  assert (lastReset (expire_quarantine now r) = lastReset r) as -> by (unfold expire_quarantine; by case_match).
  pose proof daily_pos. nia.
Qed.

Lemma Binding_dated m t now res m' :
  mgr_wf m -> Binding m t now = Some (res, m') -> dated (records m) -> dated (records m').
Proof.
  intros W HB D. destruct (Binding_spec m t now W) as (res' & m'' & HB' & _ & recs & best & Hp & _ & Hm).
  rewrite HB in HB'. injection HB' as <- <-.
  assert (Drecs : dated recs).
  { intros id r Hr. pose proof (Hp id) as Hpi. rewrite Hr in Hpi. unfold reconciled in Hpi. rewrite lookup_fmap in Hpi.
    destruct (records m !! id) as [r0|] eqn:E0; simpl in Hpi; inversion Hpi as [? ? Ht|]; subst.
    destruct (touched_fields _ _ _ _ Ht) as (_ & _ & _ & _ & Hl & _). rewrite Hl. apply reconcile_dated. by apply (D id). }
  destruct best as [[[id sc] u]|]; [|by destruct Hm as [_ ->]]. destruct Hm as (r & Hr & _ & _ & ->).
  apply dated_insert; [done|]. exact (Drecs id r Hr).
Qed.

Lemma apply_op_dated now o m m' :
  mgr_wf m -> live_op o = true -> 0 < now -> apply_op now o m = Some m' -> dated (records m) -> dated (records m').
Proof.
  intros W Hl Hnow Hop D. destruct o; simpl in *; simplify_eq; try done.
  - destruct (Binding m t now) as [[res m1]|] eqn:HB; simplify_eq/=. by eapply Binding_dated.
  - apply (fold_left_inv (fun m => dated (records m))); [|done]. intros m1 s D1. unfold emit_one.
    destruct (records m1 !! Signal_EgressID s) as [r|] eqn:E; [|done]. apply dated_insert; [done|].
    rewrite apply_signal_lastReset. by apply (D1 (Signal_EgressID s)).
  - by apply update_record_dated.
  - by apply update_record_dated.
  - by apply update_record_dated.
  - destruct (AuditDNSBL_total check now m W) as (items & _ & Ha). rewrite Ha in Hop. simplify_eq.
    apply (fold_left_inv (fun m => dated (records m))); [|done]. intros m1 it D1.
    destruct (audit_one_op check now m1 it) as [->|(id & reason & ->)]; [done|]. by apply update_record_dated.
  - unfold SetOnline. destruct (records m !! id) as [r|] eqn:E; [|done]. case_match; [done|].
    apply dated_insert; [done|]. exact (D id r E).
  - unfold AddIdentity. destruct (records m !! Spec_ID s) as [r|] eqn:E; apply dated_insert; try done.
    exact (D (Spec_ID s) r E).
Qed.

(** ** The store and the manager *)

(** The store holds the reputation of every identity of [m]. *)
Definition saved (m : Manager) (d : egress_states) : Prop :=
  forall id r, records m !! id = Some r -> d !! id = Some (snapshot_record id r).

Lemma saved_save m l d : mgr_wf m -> Snapshot m = Some l -> saved m (mem_SaveEgress l d).
Proof. intros W Hl id r Hr. by apply save_snapshot with m. Qed.

(** What a restart finds: the reputation of the manager [m], identity by
    identity, for those the next process is configured with.  An identity that
    is added later (a remote agent's) finds none of it:
    [Restart.late_identity_starts_fresh]. *)
Definition restored (m : Manager) (d : egress_states) : Prop :=
  forall cfg start id r r0, records m !! id = Some r -> records (New cfg start) !! id = Some r0 ->
  exists r', records (Restore (mem_LoadEgress d) (New cfg start)) !! id = Some r' /\
    snapshot_record id r' = snapshot_record id r.

Lemma saved_restored m d : keyed d -> dated (records m) -> saved m d -> restored m d.
Proof.
  intros Hk D Hs cfg start id r r0 Hr Hr0. rewrite restore_entry, (Hs id r Hr), Hr0 by done. simpl.
  eexists. split; [done|]. apply restore_snapshot; [pose proof (D id r Hr); simpl in *; lia|]. left.
  exact (New_fresh cfg start id r0 Hr0).
Qed.

(** ** The invariant of the lifetime *)

(** The state of the process after a prefix of the run [tr] from [p0]. *)
Definition past (p0 : proc) (tr : list event) (p1 : proc) : Prop :=
  exists tr1 tr2, tr = tr1 ++ tr2 /\ exec tr1 p0 = Some p1.

Lemma past_now p0 tr p : exec tr p0 = Some p -> past p0 tr p.
Proof. intros H. exists tr, []. by rewrite app_nil_r. Qed.

Lemma past_snoc p0 tr ev p1 : past p0 tr p1 -> past p0 (tr ++ [ev]) p1.
Proof. intros (tr1 & tr2 & -> & H). exists tr1, (tr2 ++ [ev]). by rewrite app_assoc. Qed.

Definition sound_mgr (m : Manager) : Prop := mgr_wf m /\ dated (records m).

(** A process that starts with a sound manager over a store of its own. *)
Definition fresh_proc (p0 : proc) : Prop :=
  sound_mgr (mgr p0) /\ keyed (disk p0) /\ per p0 = PIdle /\ cancelled p0 = false /\ main p0 = MServing.

Definition timed (ev : event) : Prop := 0 < ev_time ev.

Lemma one_op_sound ev m m' : 0 < ev_time ev -> one_op ev m m' -> sound_mgr m -> sound_mgr m'.
Proof.
  intros Ht [->|(o & Hl & Hop & _)] [W D]; [by split|].
  assert (Ho : op_wf (len (warmupStages m)) o) by (by destruct o).
  destruct (apply_op_wf (ev_time ev) o m W Ho) as (m1 & Hm1 & W1 & _). rewrite Hop in Hm1. injection Hm1 as <-.
  split; [done|]. exact (apply_op_dated (ev_time ev) o m m' W Hl Ht Hop D).
Qed.

Lemma exec_sound p0 tr p : sound_mgr (mgr p0) -> Forall timed tr -> exec tr p0 = Some p -> sound_mgr (mgr p).
Proof.
  intros S0. revert p. induction tr as [|ev tr IH] using rev_ind; intros p HF H; [simpl in H; by simplify_eq|].
  apply Forall_app in HF as [HF Hev]. inversion Hev as [|? ? Ht]; subst.
  apply exec_snoc in H as (p1 & H1 & H2). eapply one_op_sound; [exact Ht|by apply step_mgr|]. by apply IH.
Qed.

Lemma past_sound p0 tr p1 : sound_mgr (mgr p0) -> Forall timed tr -> past p0 tr p1 -> sound_mgr (mgr p1).
Proof. intros S0 HF (tr1 & tr2 & -> & H). apply Forall_app in HF as [HF _]. by eapply exec_sound. Qed.

Lemma persist_step_frame ev p p' :
  persist_step ev p = Some p' -> cancelled p' = cancelled p /\ main p' = main p.
Proof.
  intros H. unfold persist_step in H. destruct ev; step_cases; simplify_eq; try done.
  simpl. by destruct (ok || applied).
Qed.

(** A step leaves the store and the persister alone unless it is a step of the
    persister, and the signal stays. *)
Lemma step_frame ev p p' :
  step ev p = Some p' ->
  (persist_step ev p = Some p' \/ disk p' = disk p /\ per p' = per p) /\ (cancelled p = true -> cancelled p' = true).
Proof.
  intros H. unfold step in H. destruct (main p) eqn:Em; [| | |done].
  all: destruct ev;
    try (split; [by left|apply persist_step_frame in H as [-> _]; done]).
  all: simpl in H; unfold call in H; rewrite ?Em in H; step_cases; simplify_eq; split; try (by right; split); done.
Qed.

(** The wait for the persister did not time out; the write succeeded. *)
Definition in_time (ev : event) : bool := match ev with EvFlushTimeout => false | _ => true end.
Definition save_ok (ev : event) : bool := match ev with EvSave ok _ => ok | _ => true end.

Record life_inv (p0 : proc) (tr : list event) (p : proc) : Prop := {
  li_keyed : keyed (disk p);
  li_disk : disk p = disk p0 \/ exists p1, past p0 tr p1 /\ saved (mgr p1) (disk p);
  li_snap : match per p with
            | PSnapshot final => final = true -> cancelled p = true
            | PSave final states =>
                exists p1, past p0 tr p1 /\ Snapshot (mgr p1) = Some states /\ (final = true -> cancelled p1 = true)
            | _ => True
            end;
  li_final : Forall (fun ev => save_ok ev = true) tr ->
             per p = PClear true \/ per p = PExited ->
             exists p1, past p0 tr p1 /\ cancelled p1 = true /\ saved (mgr p1) (disk p);
}.

(** Steps of the other goroutines. *)
Lemma life_inv_frame p0 tr ev p p' :
  life_inv p0 tr p -> disk p' = disk p -> per p' = per p -> (cancelled p = true -> cancelled p' = true) ->
  life_inv p0 (tr ++ [ev]) p'.
Proof.
  intros [K D S F] Hd Hp Hc. constructor; rewrite ?Hd, ?Hp.
  - done.
  - destruct D as [D|(p1 & H1 & H2)]; [by left|]. right. exists p1. split; [by apply past_snoc|done].
  - destruct (per p); try done; [by auto|]. destruct S as (p1 & H1 & H2). exists p1. split; [by apply past_snoc|done].
  - intros HF HP. apply Forall_app in HF as [HF _]. destruct (F HF HP) as (p1 & H1 & H2).
    exists p1. split; [by apply past_snoc|done].
Qed.

(** The write of a snapshot. *)
Lemma life_inv_save p0 tr p ok applied final states :
  sound_mgr (mgr p0) -> Forall timed tr -> life_inv p0 tr p -> per p = PSave final states ->
  life_inv p0 (tr ++ [EvSave ok applied])
    (set_per (if ok then PClear final else after_persist final)
       (if ok || applied then set_disk (mem_SaveEgress states (disk p)) p else p)).
Proof.
  intros S0 HT [K D S F] Hper. rewrite Hper in S. destruct S as (p1 & H1 & H2 & H3).
  destruct (past_sound p0 tr p1 S0 HT H1) as [W1 _]. pose proof (saved_save (mgr p1) states (disk p) W1 H2) as Hs.
  apply (past_snoc p0 tr (EvSave ok applied)) in H1. constructor; cbn [disk per set_per].
  - destruct (ok || applied); [by apply save_keys|done].
  - destruct (ok || applied); [right; by exists p1|]. destruct D as [D|(p2 & D1 & D2)]; [by left|].
    right. exists p2. split; [by apply past_snoc|done].
  - destruct ok; [done|]. by destruct final.
  - intros HF HP. apply Forall_app in HF as [_ HF]. inversion HF as [|? ? Hok _]; subst. simpl in Hok. subst ok.
    exists p1. simpl. split; [done|]. split; [|done]. destruct HP as [HP|HP]; [|done]. injection HP as ->. auto.
Qed.

(** The other steps of the persister. *)
Lemma life_inv_persist p0 tr ev p p' :
  sound_mgr (mgr p0) -> Forall timed tr -> exec tr p0 = Some p -> life_inv p0 tr p -> persist_step ev p = Some p' ->
  life_inv p0 (tr ++ [ev]) p'.
Proof.
  intros S0 HT Hex I H. pose proof I as [K D S F]. unfold persist_step in H.
  assert (Hend : forall q, (forall final states, q <> PSave final states) -> q <> PClear true -> q <> PExited ->
    (forall final, q = PSnapshot final -> final = true -> cancelled p = true) -> forall m, life_inv p0 (tr ++ [ev]) (set_per q (set_mgr m p))).
  { intros q Q1 Q2 Q3 Q4 m. constructor; cbn [disk per cancelled set_per set_mgr].
    - done.
    - destruct D as [D|(p1 & H1 & H2)]; [by left|]. right. exists p1. split; [by apply past_snoc|done].
    - destruct q; try done; [by apply Q4|by destruct (Q1 final states)].
    - by intros _ [|]. }
  destruct ev; try discriminate H; destruct (per p) eqn:Hper; try discriminate H.
  - injection H as <-. apply (Hend _) with (m := mgr p); destruct (dirty (mgr p)); naive_solver.
  - destruct (cancelled p) eqn:Hc; [|done]. injection H as <-. apply (Hend _) with (m := mgr p); naive_solver.
  - apply bind_Some in H as (states & Hs & H). injection H as <-. constructor; cbn [disk per set_per]; try done.
    + destruct D as [D|(p1 & H1 & H2)]; [by left|]. right. exists p1. split; [by apply past_snoc|done].
    + exists p. split; [by apply past_snoc, past_now|done].
    + by intros _ [|].
  - injection H as <-. by apply life_inv_save.
  - injection H as <-. destruct final; [|by apply Hend]. constructor; cbn [disk per set_per set_mgr]; try done.
    + destruct D as [D|(p1 & H1 & H2)]; [by left|]. right. exists p1. split; [by apply past_snoc|done].
    + intros HF _. apply Forall_app in HF as [HF _]. destruct (F HF ltac:(by left)) as (p1 & H1 & H2).
      exists p1. split; [by apply past_snoc|done].
Qed.

Lemma exec_life p0 tr p : fresh_proc p0 -> Forall timed tr -> exec tr p0 = Some p -> life_inv p0 tr p.
Proof.
  intros (S0 & K0 & P0 & C0 & M0). revert p. induction tr as [|ev tr IH] using rev_ind; intros p HF H.
  - simpl in H. simplify_eq. constructor; rewrite ?P0; try done; [by left|by intros _ [|]].
  - apply Forall_app in HF as [HF _]. apply exec_snoc in H as (p1 & H1 & H2).
    destruct (step_frame ev p1 p H2) as [[Hp|[Hd Hp]] Hc].
    + eapply life_inv_persist; eauto.
    + eapply life_inv_frame; eauto.
Qed.

(** [run] returns without an error only when the persister is done, unless the
    wait for it timed out. *)
Lemma exit_flushed p0 tr p :
  fresh_proc p0 -> exec tr p0 = Some p -> main p = MExited false -> Forall (fun ev => in_time ev = true) tr -> per p = PExited.
Proof.
  intros (_ & _ & _ & _ & M0) H Hm Ht. destruct tr as [|ev tr _] using rev_ind; [simpl in H; injection H as ->; congruence|].
  apply exec_snoc in H as (p1 & _ & H). unfold step in H. destruct (main p1) eqn:Em; [| | |done].
  all: assert (Hne : main p = main p1 -> False) by (rewrite Hm, Em; discriminate).
  all: destruct ev; try (apply persist_step_frame in H as [_ H]; by destruct Hne).
  all: simpl in H; unfold call in H; rewrite ?Em in H; step_cases; simplify_eq; try (by destruct Hne); try done.
  all: try (apply Forall_app in Ht as [_ Ht]; by inversion Ht).
Qed.

(** From the drain on no request is in flight. *)
Definition drained (p : proc) : Prop :=
  match main p with MFlushing | MExited false => requests p = 0%nat | _ => True end.

Lemma step_drained ev p p' : drained p -> step ev p = Some p' -> drained p'.
Proof.
  intros D H. unfold step in H. unfold drained in *. destruct (main p) eqn:Em; [| | |done].
  all: destruct ev; try (unfold persist_step in H; step_cases; simplify_eq; cbn in *; repeat case_match; simplify_eq; cbn in *; congruence).
  all: try (unfold audit_step in H; step_cases; simplify_eq; cbn in *; rewrite ?Em; done).
  all: try (unfold health_step, call in H; step_cases; simplify_eq; cbn in *; rewrite ?Em; done).
  all: try (unfold main_step in H; step_cases; simplify_eq; cbn in *; rewrite ?Em; try done; by apply Nat.eqb_eq).
  all: unfold serve_step, call in H; step_cases; simplify_eq; cbn in *; rewrite ?Em; try done; lia.
Qed.

Lemma exec_drained p0 tr p : fresh_proc p0 -> exec tr p0 = Some p -> drained p.
Proof.
  intros (_ & _ & _ & _ & M0). revert p. induction tr as [|ev tr IH] using rev_ind; intros p H.
  - simpl in H. simplify_eq. unfold drained. by rewrite M0.
  - apply exec_snoc in H as (p1 & H1 & H2). eapply step_drained; [by apply IH|done].
Qed.
