(* ===== verification/ProcessProps.v ===== *)
(** What the server's lifetime guarantees: the reputation a restart finds after
    a crash or a shutdown, that the shutdown completes, and what its interleavings
    allow. *)

From Stdlib Require Import QArith.
From S2P Require Import Prelude GoStrings Float64 GoTime Verdict Engine Health Egress EgressInv.
From S2P Require Import EgressSel EgressOps EgressProps EgressLife Store Memory Restart Process.
Local Open Scope list_scope.
Local Open Scope Z_scope.

(** ** Reputation through crashes and shutdowns *)

(** C11: Whenever the process dies, a restart finds no invented reputation: at
    every point of every run the store is as the process found it, or holds the
    reputation all identities had together at one earlier point of the run, and
    the next process restores just that for the identities it is configured
    with.  Of an identity it adds after the restore, as the server does for its
    remote agents, it finds nothing: that one starts as new, whatever the store
    holds of it.  The clock is past the zero time. *)
Theorem crash_restores_past p0 tr p :
  fresh_proc p0 -> Forall timed tr -> exec tr p0 = Some p ->
  (disk p = disk p0 \/ exists p1, past p0 tr p1 /\ saved (mgr p1) (disk p) /\ restored (mgr p1) (disk p)) /\
  (forall cfg start s now, records (New cfg start) !! Spec_ID s = None ->
     records (AddIdentity s now (Restore (mem_LoadEgress (disk p)) (New cfg start))) !! Spec_ID s = Some (fresh_record s now)).
Proof.
  intros F HT H. split; [|intros cfg start s now; apply late_fresh].
  destruct (exec_life p0 tr p F HT H) as [K [D|(p1 & H1 & H2)] _ _]; [by left|]. right.
  exists p1. split; [done|]. split; [done|]. apply saved_restored; [done| |done].
  by destruct (past_sound p0 tr p1 (proj1 F) HT H1).
Qed.

(** C33: A graceful shutdown keeps the reputation up to the signal: when [run]
    returns without an error or a timeout and every write of the run succeeded, the
    store holds the reputation of a point of the run after the signal arrived, and the
    next process restores it. *)
Theorem graceful_exit_saved p0 tr p :
  fresh_proc p0 -> Forall timed tr -> exec tr p0 = Some p -> main p = MExited false ->
  Forall (fun ev => in_time ev = true) tr -> Forall (fun ev => save_ok ev = true) tr ->
  exists p1, past p0 tr p1 /\ cancelled p1 = true /\ saved (mgr p1) (disk p) /\ restored (mgr p1) (disk p).
Proof.
  intros F HT H Hm Hto Hok. destruct (exec_life p0 tr p F HT H) as [K _ _ Hf].
  destruct (Hf Hok (or_intror (exit_flushed p0 tr p F H Hm Hto))) as (p1 & H1 & H2 & H3).
  exists p1. repeat split; try done. apply saved_restored; [done| |done].
  by destruct (past_sound p0 tr p1 (proj1 F) HT H1).
Qed.

(** ** Shutting down *)

(** What the shutdown itself does: replies, and steps of the persister and of [run]. *)
Definition winds_down (ev : event) : bool :=
  match ev with EvReply | EvDone | EvSnapshot | EvSave true _ | EvClear | EvDrain | EvDrained | EvFlushed => true | _ => false end.

Definition running (p : proc) : Prop := match main p with MExited _ => False | _ => True end.

(** The persister is past the snapshot of its final write. *)
Definition flushing (q : persister) : bool :=
  match q with PSave true _ | PClear true | PExited => true | _ => false end.

(** [p'] is a state that [p] reaches by winding down alone, with the records of
    the manager and the load unchanged. *)
Definition winds (p p' : proc) : Prop :=
  exists tr, Forall (fun ev => winds_down ev = true) tr /\ exec tr p = Some p' /\
    records (mgr p') = records (mgr p) /\ mgr_wf (mgr p').

Lemma winds_trans p1 p2 p3 : winds p1 p2 -> winds p2 p3 -> winds p1 p3.
Proof.
  intros (t1 & F1 & E1 & R1 & _) (t2 & F2 & E2 & R2 & W). exists (t1 ++ t2). rewrite exec_app, E1.
  split; [by apply Forall_app|]. split; [done|]. split; [by rewrite R2|done].
Qed.

Lemma winds_step ev p p' :
  winds_down ev = true -> step ev p = Some p' -> records (mgr p') = records (mgr p) -> mgr_wf (mgr p') -> winds p p'.
Proof. intros Hw Hs Hr W. exists [ev]. split; [by constructor|]. split; [simpl; by rewrite Hs|done]. Qed.

Lemma winds_refl p : mgr_wf (mgr p) -> winds p p.
Proof. intros W. by exists []. Qed.

(** The state of the persister after a successful write of a snapshot. *)
Definition written (final : bool) (states : list EgressState) (p : proc) : proc :=
  set_per (after_persist final) (set_mgr (set_dirty false (mgr p)) (set_disk (mem_SaveEgress states (disk p)) p)).

Lemma step_persist ev p :
  running p -> match ev with EvTick | EvDone | EvSnapshot | EvSave _ _ | EvClear => true | _ => false end = true ->
  step ev p = persist_step ev p.
Proof. unfold running, step. intros R He. destruct (main p); [..|done]; by destruct ev. Qed.

Lemma winds_clear p final :
  mgr_wf (mgr p) -> running p -> per p = PClear final ->
  winds p (set_per (after_persist final) (set_mgr (set_dirty false (mgr p)) p)).
Proof.
  intros W R Hp. apply (winds_step EvClear); [done| |done|by apply mgr_wf_set_dirty].
  rewrite step_persist by done. unfold persist_step. by rewrite Hp.
Qed.

Lemma winds_save p final states :
  mgr_wf (mgr p) -> running p -> per p = PSave final states -> winds p (written final states p).
Proof.
  intros W R Hp. set (p1 := set_per (PClear final) (set_disk (mem_SaveEgress states (disk p)) p)).
  apply winds_trans with p1.
  - apply (winds_step (EvSave true true)); [done| |done|done].
    rewrite step_persist by done. unfold persist_step. by rewrite Hp.
  - by apply (winds_clear p1 final).
Qed.

Lemma winds_snapshot p final states :
  mgr_wf (mgr p) -> running p -> per p = PSnapshot final -> Snapshot (mgr p) = Some states ->
  winds p (written final states p).
Proof.
  intros W R Hp Hs. set (p1 := set_per (PSave final states) p). apply winds_trans with p1.
  - apply (winds_step EvSnapshot); [done| |done|done].
    rewrite step_persist by done. unfold persist_step. rewrite Hp, Hs. done.
  - by apply (winds_save p1 final states).
Qed.

Lemma winds_idle p :
  mgr_wf (mgr p) -> running p -> cancelled p = true -> per p = PIdle ->
  exists p', winds p p' /\ per p' = PExited /\ main p' = main p /\ requests p' = requests p /\ saved (mgr p') (disk p').
Proof.
  intros W R C Hp. destruct (Snapshot_total (mgr p) W) as (states & Hs & _).
  set (p1 := set_per (PSnapshot true) p). exists (written true states p1). split; [|repeat split].
  - apply winds_trans with p1; [|by apply winds_snapshot]. apply (winds_step EvDone); [done| |done|done].
    rewrite step_persist by done. unfold persist_step. by rewrite Hp, C.
  - cbn [mgr disk written set_per set_mgr set_disk p1]. intros id r Hr. by apply (saved_save (mgr p) states (disk p) W Hs).
Qed.

(** Once the signal is in, the persister finishes; the store is up to date with
    the manager unless the final snapshot was already taken. *)
Lemma winds_persister p :
  mgr_wf (mgr p) -> running p -> cancelled p = true ->
  exists p', winds p p' /\ per p' = PExited /\ main p' = main p /\ requests p' = requests p /\
    (flushing (per p) = false -> saved (mgr p') (disk p')).
Proof.
  intros W R C.
  assert (Hpre : forall p1, winds p p1 -> running p1 -> cancelled p1 = true -> per p1 = PIdle -> main p1 = main p ->
    requests p1 = requests p ->
    exists p', winds p p' /\ per p' = PExited /\ main p' = main p /\ requests p' = requests p /\
      (flushing (per p) = false -> saved (mgr p') (disk p'))).
  { intros p1 Hw R1 C1 P1 M1 Q1. destruct (winds_idle p1) as (p' & H1 & H2 & H3 & H4 & H5); try done.
    { by destruct Hw as (? & _ & _ & _ & ?). }
    exists p'. split; [by apply winds_trans with p1|]. split; [done|]. split; [congruence|]. split; [congruence|done]. }
  destruct (per p) as [|final|final states|final|] eqn:Hp.
  - apply (Hpre p); try done. by apply winds_refl.
  - destruct (Snapshot_total (mgr p) W) as (states & Hs & _).
    pose proof (winds_snapshot p final states W R Hp Hs) as Hw. destruct final; [|by apply (Hpre (written false states p))].
    exists (written true states p). split; [done|]. do 3 (split; [done|]). intros _ id r Hr. by apply (saved_save (mgr p) states (disk p) W Hs).
  - pose proof (winds_save p final states W R Hp) as Hw. destruct final; [|by apply (Hpre (written false states p))].
    by exists (written true states p).
  - pose proof (winds_clear p final W R Hp) as Hw. destruct final; [|by apply (Hpre _ Hw)]. by eexists.
  - exists p. split; [by apply winds_refl|done].
Qed.

Lemma winds_replies n p :
  mgr_wf (mgr p) -> running p -> requests p = n -> winds p (set_load 0 (jobs p) p).
Proof.
  revert p. induction n as [|n IH]; intros p W R Hn.
  - assert (set_load 0 (jobs p) p = p) as -> by (destruct p; simpl in *; by subst). by apply winds_refl.
  - apply winds_trans with (set_load n (jobs p) p); [|by apply (IH (set_load n (jobs p) p))].
    apply (winds_step EvReply); [done| |done|done]. unfold step, running in *. simpl. rewrite Hn. by destruct (main p).
Qed.

(** C34: The server can always stop: from any state in which the signal has
    arrived, replies to the requests in flight and successful writes lead [run]
    to its return without an error or a timeout; and when the final snapshot had
    not been taken yet, the store then holds the manager's reputation. *)
Theorem shutdown_completes p :
  mgr_wf (mgr p) -> running p -> cancelled p = true ->
  exists p', winds p p' /\ main p' = MExited false /\ (flushing (per p) = false -> saved (mgr p') (disk p')).
Proof.
  intros W R C. destruct (winds_persister p W R C) as (p1 & H1 & P1 & M1 & _ & S1).
  assert (W1 : mgr_wf (mgr p1)) by (by destruct H1 as (? & _ & _ & _ & ?)).
  assert (R1 : running p1) by (unfold running; by rewrite M1).
  set (p2 := set_load 0 (jobs p1) p1). pose proof (winds_replies _ p1 W1 R1 eq_refl) as H2. fold p2 in H2.
  assert (C1 : cancelled p1 = true).
  { destruct H1 as (tr & _ & E & _). clear -C E. revert p C E. induction tr as [|ev tr IH]; intros p C E; simpl in E; [by simplify_eq|].
    apply bind_Some in E as (q & Eq & E). apply (IH q); [by apply (step_frame ev p q Eq)|done]. }
  assert (H3 : winds p2 (set_main MFlushing p2) \/ main p2 = MServing).
  { destruct (main p2) eqn:Em; [by right|left..|].
    - apply (winds_step EvDrained); [done| |done|done]. unfold step, main_step. by rewrite Em.
    - assert (set_main MFlushing p2 = p2) as -> by (rewrite <- Em; by destruct p2). by apply winds_refl.
    - exfalso. unfold running in R1. change (main p2) with (main p1) in Em. by rewrite Em in R1. }
  assert (H4 : winds p2 (set_main MFlushing p2)).
  { destruct H3 as [H3|Em]; [done|]. apply winds_trans with (set_main MDraining p2).
    - apply (winds_step EvDrain); [done| |done|done]. unfold step, main_step. rewrite Em.
      change (cancelled p2) with (cancelled p1). by rewrite C1.
    - by apply (winds_step EvDrained). }
  exists (set_main (MExited false) p2). split; [|split; [done|exact S1]].
  apply winds_trans with p1; [done|]. apply winds_trans with p2; [done|]. apply winds_trans with (set_main MFlushing p2); [done|].
  apply (winds_step EvFlushed); [done| |done|done]. unfold step. simpl. change (per p2) with (per p1). by rewrite P1.
Qed.

(** ** What the interleavings allow *)

(** A tick of a clean manager writes nothing, however often it comes. *)
Lemma ticks_clean n p : running p -> per p = PIdle -> dirty (mgr p) = false -> exec (replicate n EvTick) p = Some p.
Proof.
  intros R Hp Hd. assert (Hs : step EvTick p = Some p).
  { rewrite step_persist by done. unfold persist_step. rewrite Hp, Hd. destruct p; simpl in *; by subst. }
  induction n as [|n IH]; [done|]. simpl. by rewrite Hs.
Qed.

(** The audit takes its list of identities before it looks at them: an identity
    the operator disables in between is quarantined, which ends by itself. *)
Theorem audit_overrides_disable p id ip items r now zone listed :
  running p -> aud p = ARun ((id, ip, false) :: items) -> ip <> "" ->
  records (mgr p) !! id = Some r -> state r = StateDisabled ->
  exists p' r', step (EvAudit now (zone :: listed)) p = Some p' /\ records (mgr p') !! id = Some r' /\
    state r' = StateQuarantined /\ quarantinedUntil r' = now + quarantineCooldown (mgr p).
Proof.
  intros R Ha Hip Hr Hs. eexists _, _. split; [|split; [|split]].
  - unfold step, running in *. destruct (main p); [..|done]; unfold audit_step; by rewrite Ha.
  - cbn [mgr set_aud set_mgr audit_one]. rewrite (proj2 (String.eqb_neq ip "") Hip). cbn [orb].
    rewrite (proj2 (Z.eqb_neq (len (zone :: listed)) 0)).
    + unfold Quarantine. rewrite update_record_lookup, decide_True by done. by rewrite Hr.
    + unfold len. simpl. lia.
  - done.
  - done.
Qed.

(** *** Concrete runs *)

Definition ex_proc : proc := started true false ex_mgr ∅.

Lemma ex_proc_fresh : fresh_proc ex_proc.
Proof.
  split; [split; [apply ex_mgr_wf|]|split; [apply map_Forall_empty|done]].
  apply map_Forall_to_list. vm_compute. repeat constructor.
Qed.

(** The operator disables [a] and stops the server. *)
Definition ex_stop : list event :=
  [EvAccept; EvRequest (ex_start + 1) (OpDisable "a" "abuse report"); EvReply; EvSignal; EvDrain; EvDone; EvSnapshot;
   EvSave true true; EvClear; EvDrained; EvFlushed].

(** What the store says of an identity's state. *)
Definition stored_state (p : proc) (id : string) : option string := es_State <$> disk p !! id.
Definition live_state (p : proc) (id : string) : option State := state <$> records (mgr p) !! id.

Lemma ex_stop_timed tr : Forall (fun ev => Z.leb (ev_time ev) 0 = false) tr -> Forall timed tr.
Proof. apply Forall_impl. intros ev He. apply Z.leb_gt in He. exact He. Qed.

Lemma crash_restores_past_witness :
  exists p, exec ex_stop ex_proc = Some p /\ disk p <> disk ex_proc /\
    (exists p1, past ex_proc ex_stop p1 /\ saved (mgr p1) (disk p) /\ restored (mgr p1) (disk p)) /\
    records (AddIdentity (ex_spec "remote" false) 9 (Restore (mem_LoadEgress (disk p)) (New ex_cfg 8))) !! "remote"
    = Some (fresh_record (ex_spec "remote" false) 9).
Proof.
  destruct (exec ex_stop ex_proc) as [p|] eqn:E; [|exfalso; vm_compute in E; discriminate].
  assert (Hd : disk p <> disk ex_proc).
  { intros H. assert (stored_state p "a" = None) as Hn by (unfold stored_state; by rewrite H).
    vm_compute in E. injection E as <-. vm_compute in Hn. discriminate. }
  exists p. split; [done|]. split; [done|].
  destruct (crash_restores_past ex_proc ex_stop p ex_proc_fresh) as [[H|H] Hl]; [|exact E|by destruct Hd|].
  - apply ex_stop_timed. repeat constructor.
  - split; [exact H|]. apply (Hl ex_cfg 8 (ex_spec "remote" false) 9). reflexivity.
Defined.

Lemma graceful_exit_saved_witness :
  exists p, exec ex_stop ex_proc = Some p /\ stored_state p "a" = Some "disabled" /\
    exists p1, past ex_proc ex_stop p1 /\ cancelled p1 = true /\ saved (mgr p1) (disk p) /\ restored (mgr p1) (disk p).
Proof.
  destruct (exec ex_stop ex_proc) as [p|] eqn:E; [|exfalso; vm_compute in E; discriminate].
  exists p. split; [done|].
  assert (H : stored_state p "a" = Some "disabled" /\ main p = MExited false)
    by (vm_compute in E; injection E as <-; by vm_compute).
  destruct H as [Hs Hm]. split; [done|]. apply (graceful_exit_saved ex_proc ex_stop p ex_proc_fresh); try done.
  - apply ex_stop_timed. repeat constructor.
  - repeat constructor.
  - repeat constructor.
Defined.

Lemma shutdown_completes_witness :
  let p := set_load 2 1 (set_cancelled ex_proc) in
  exists p', winds p p' /\ main p' = MExited false /\ (flushing (per p) = false -> saved (mgr p') (disk p')).
Proof. intros p. apply (shutdown_completes p); [apply ex_mgr_wf|exact I|reflexivity]. Defined.

Lemma audit_overrides_disable_witness :
  exists p r p' r', exec [EvAuditRound; EvAccept; EvRequest (ex_start + 1) (OpDisable "a" "abuse report")] ex_proc = Some p /\
    records (mgr p) !! "a" = Some r /\ state r = StateDisabled /\
    step (EvAudit (ex_start + 2) ["zen.example"]) p = Some p' /\ records (mgr p') !! "a" = Some r' /\
    state r' = StateQuarantined.
Proof.
  destruct (exec _ ex_proc) as [p|] eqn:E; [|exfalso; vm_compute in E; discriminate].
  destruct (records (mgr p) !! "a") as [r|] eqn:Er; [|exfalso; vm_compute in E; injection E as <-; vm_compute in Er; discriminate].
  assert (H : running p /\ aud p = ARun [("a", "192.0.2.1", false); ("b", "192.0.2.1", false)]).
  { vm_compute in E. injection E as <-. by split. }
  assert (Hs : state r = StateDisabled) by (vm_compute in E; injection E as <-; vm_compute in Er; by injection Er as <-).
  destruct H as [R Ha].
  destruct (audit_overrides_disable p "a" "192.0.2.1" [("b", "192.0.2.1", false)] r (ex_start + 2) "zen.example" [])
    as (p' & r' & H1 & H2 & H3 & _); try done.
  by exists p, r, p', r'.
Defined.

(** A graceful shutdown answers every request it accepted, and does not wait for
    the bulk jobs: [run] calls no [Runner.Wait], so a job can be in flight when
    the process ends. *)
Theorem exit_answers_requests_not_jobs :
  (forall p0 tr p, fresh_proc p0 -> exec tr p0 = Some p -> main p = MExited false -> requests p = 0%nat) /\
  (exists tr p, exec tr ex_proc = Some p /\ main p = MExited false /\ Forall (fun ev => in_time ev = true) tr /\ jobs p = 1%nat).
Proof.
  split.
  - intros p0 tr p F H Hm. pose proof (exec_drained p0 tr p F H) as D. unfold drained in D. by rewrite Hm in D.
  - exists [EvAccept; EvSubmit; EvReply; EvSignal; EvDrain; EvDone; EvSnapshot; EvSave true true; EvClear; EvDrained; EvFlushed].
    destruct (exec _ ex_proc) as [p|] eqn:E; [|exfalso; vm_compute in E; discriminate].
    exists p. split; [done|]. vm_compute in E. injection E as <-. split; [done|]. split; [repeat constructor|done].
Qed.

(** A change made after the final snapshot is answered and lost: a request in
    flight during the shutdown disables [b], [run] returns without an error or a
    timeout, every write succeeds, and the store has [b] as it was before. *)
Theorem late_change_lost :
  exists tr p, exec tr ex_proc = Some p /\ main p = MExited false /\ Forall (fun ev => in_time ev = true) tr /\
    Forall (fun ev => save_ok ev = true) tr /\
    live_state p "b" = Some StateDisabled /\ stored_state p "b" = Some "warming".
Proof.
  exists [EvAccept; EvSignal; EvDrain; EvDone; EvSnapshot; EvSave true true; EvClear;
          EvRequest (ex_start + 1) (OpDisable "b" "abuse report"); EvReply; EvDrained; EvFlushed].
  destruct (exec _ ex_proc) as [p|] eqn:E; [|exfalso; vm_compute in E; discriminate].
  exists p. split; [done|]. vm_compute in E. injection E as <-. split; [done|].
  split; [repeat constructor|]. split; [repeat constructor|by vm_compute].
Qed.

(** A change made while a write is under way is marked clean by the end of the
    write although the write does not hold it: no later tick writes it. *)
Theorem change_during_write_marked_clean :
  exists tr p, exec tr ex_proc = Some p /\ Forall (fun ev => save_ok ev = true) tr /\
    live_state p "b" = Some StateDisabled /\ stored_state p "b" = Some "warming" /\
    forall n, exec (replicate n EvTick) p = Some p.
Proof.
  exists [EvAccept; EvRequest (ex_start + 1) (OpDisable "a" "abuse report"); EvTick; EvSnapshot;
          EvRequest (ex_start + 2) (OpDisable "b" "abuse report"); EvSave true true; EvClear; EvReply].
  destruct (exec _ ex_proc) as [p|] eqn:E; [|exfalso; vm_compute in E; discriminate].
  exists p. split; [done|]. split; [repeat constructor|]. vm_compute in E. injection E as <-.
  split; [by vm_compute|]. split; [by vm_compute|]. intros n. by apply ticks_clean.
Qed.
