(* ===== verification/Verifier.v ===== *)
(** [internal/verifier]: the verification of one address, end to end.

    The service composes the funnel, the cache, the policy, the limiter, the
    egress pool and an engine.  The cache, the egress pool with its signal sink
    and the engines are interfaces here as they are in the source: classes of
    operations and functions the service is given. *)

From Stdlib Require Import QArith.
From S2P Require Import Prelude GoStrings Float64 GoTime Verdict Engine Policy RateLimit Regex.
From S2P Require Import Syntax Pipeline Store.
Local Open Scope Z_scope.

Definition defaultCacheTTL : Duration := 24 * Hour.

(** [EgressProvider] and [SignalSink]: in the server both are the reputation
    manager, so they share a state. *)
Class EgressProvider (St Er : Type) := {
  provide : Time -> Task -> St -> result Er EgressBinding * St;
  emit : Time -> list Signal -> St -> St;
}.

(** [DirectProvider]: one identity, no state, and the no-op sink. *)
Record DirectProvider := { direct_ID : string; direct_HELO : string; direct_MailFrom : string }.

#[global] Instance direct_provider : EgressProvider DirectProvider Empty_set := {|
  provide := fun _ _ p =>
    (Ok {| binding_ID := firstNonEmpty [direct_ID p; "direct"];
           binding_HELO := firstNonEmpty [direct_HELO p; "localhost"];
           binding_MailFrom := firstNonEmpty [direct_MailFrom p; "verify@localhost"] |}, p);
  emit := fun _ _ p => p |}.

(** An engine as the service calls it. *)
Definition Engine_ (Er : Type) : Type := Task -> EgressBinding -> result Er (Verdict * list Signal).

(** What changes during a verification. *)
Record World (C P : Type) := { w_cache : option C; w_limiter : option Limiter; w_egress : P }.
Arguments w_cache {C P} _.
Arguments w_limiter {C P} _.
Arguments w_egress {C P} _.

Definition set_cache {C P} (c : option C) (w : World C P) : World C P :=
  {| w_cache := c; w_limiter := w_limiter w; w_egress := w_egress w |}.
Definition set_limiter {C P} (l : option Limiter) (w : World C P) : World C P :=
  {| w_cache := w_cache w; w_limiter := l; w_egress := w_egress w |}.
Definition set_egress {C P} (p : P) (w : World C P) : World C P :=
  {| w_cache := w_cache w; w_limiter := w_limiter w; w_egress := p |}.

(** The instants one call reads from its clocks. *)
Record Clocks := { c_run : Time; c_get : Time; c_wait : Time; c_bind : Time; c_emit : Time;
                   c_final : Time; c_put : Time }.

(** The errors [Verify] can return. *)
Inductive verify_error (DnsEr CtxEr EngEr : Type) :=
| FunnelError (e : DnsEr)
| ContextError (e : CtxEr)
| EngineError (e : EngEr).
Arguments FunnelError {DnsEr CtxEr EngEr} e.
Arguments ContextError {DnsEr CtxEr EngEr} e.
Arguments EngineError {DnsEr CtxEr EngEr} e.

(** [policyKey] *)
Definition policyKey (res : Pipeline.Result) : string :=
  if negb (String.eqb (res_Provider res) "") && negb (String.eqb (res_Provider res) "custom")
  then res_Provider res else Task_Domain (res_Task res).

(** [skipVerdict] *)
Definition skipVerdict (now : Time) (res : Pipeline.Result) : Verdict :=
  {| Email := Task_Email (res_Task res); Normalized := Task_Normalized (res_Task res);
     vStatus := StatusRisky; vSubStatus := SubProviderSkipped; Confidence := f64 (3 # 10);
     vChecks := res_Checks res; Provider := res_Provider res; Verdict.Engine := ""; EgressID := "";
     Cached := false; CheckedAt := now |}.

(** [deferredVerdict] *)
Definition deferredVerdict (now : Time) (res : Pipeline.Result) : Verdict :=
  {| Email := Task_Email (res_Task res); Normalized := Task_Normalized (res_Task res);
     vStatus := StatusUnknown; vSubStatus := SubTemporaryFailure; Confidence := f64 (1 # 10);
     vChecks := res_Checks res; Provider := res_Provider res; Verdict.Engine := ""; EgressID := "";
     Cached := false; CheckedAt := now |}.

(** [merge] *)
Definition merge (res : Pipeline.Result) (ev : Verdict) : Verdict :=
  let fc := res_Checks res in
  let checks := {| Checks_Syntax := Checks_Syntax fc; Checks_MX := Checks_MX fc;
                   Checks_Disposable := Checks_Disposable fc; Checks_Role := Checks_Role fc;
                   Checks_Free := Checks_Free fc; Checks_CatchAll := Checks_CatchAll (vChecks ev);
                   Checks_SMTP := Checks_SMTP (vChecks ev) |} in
  let role := bool_decide (vStatus ev = StatusDeliverable) && Checks_Role fc in
  {| Email := Email ev;
     Normalized := if String.eqb (Normalized ev) "" then Task_Normalized (res_Task res) else Normalized ev;
     vStatus := if role then StatusRisky else vStatus ev;
     vSubStatus := if role then SubRoleAccount else vSubStatus ev;
     Confidence := if role then f64 (5 # 10) else Confidence ev;
     vChecks := checks;
     Provider := if String.eqb (Provider ev) "" then res_Provider res else Provider ev;
     Verdict.Engine := Verdict.Engine ev; EgressID := EgressID ev; Cached := Cached ev;
     CheckedAt := CheckedAt ev |}.

Section Service.
Context `{UnicodeTables} `{FloatConv} {DnsEr : Type} `{Resolver DnsEr}.
Context {C CacheEr : Type} `{ResultStore C CacheEr}.
Context {P PoolEr : Type} `{EgressProvider P PoolEr}.
Context {CtxEr EngEr : Type}.

(** The configuration of a [Service] that a call does not change. *)
Variable disposable : string -> bool.
Variable policy : Policy.Set_.
Variable cacheTTL : Duration.
Variable engine : Engine_ EngEr.
Variable engines : option (string -> option (Engine_ EngEr)).

(** The context of a call: what a sleep on it returns, and [ctx.Err()]. *)
Variable sleep : Duration -> option CtxEr.
Variable ctx_Err : option CtxEr.

(** [destinationKey] *)
Definition destinationKey (res : Pipeline.Result) : string :=
  match res_MX res with
  | h :: _ => if String.eqb h "" then ToLower (Task_Domain (res_Task res)) else ToLower h
  | [] => ToLower (Task_Domain (res_Task res))
  end.

(** [engineFor] *)
Definition engineFor (binding : EgressBinding) : Engine_ EngEr * bool :=
  match engines with
  | None => (engine, false)
  | Some f => match f (binding_ID binding) with
              | Some remote => (remote, true)
              | None => (engine, false)
              end
  end.

(** [cacheGet]; an error of the store is a miss. *)
Definition cacheGet (now : Time) (key : string) (w : World C P) : option Verdict * World C P :=
  match w_cache w with
  | None => (None, w)
  | Some c =>
      if String.eqb key "" then (None, w)
      else
        let '(r, c) := Get now key c in
        (match r with Ok o => o | Err _ => None end, set_cache (Some c) w)
  end.

(** [cachePut]; an error of the store is ignored. *)
Definition cachePut (now : Time) (key : string) (v : Verdict) (w : World C P) : World C P :=
  match w_cache w with
  | None => w
  | Some c => if String.eqb key "" then w
              else set_cache (Some (Put now key v cacheTTL c).2) w
  end.

(** The pacing at the start of [probe]: whether it may go on, and the limiter. *)
Definition pace (now : Time) (res : Pipeline.Result) (w : World C P) : bool * World C P :=
  match w_limiter w with
  | None => (true, w)
  | Some l =>
      let '(err, l) := Wait sleep (destinationKey res) now l in
      (match err with None => true | Some _ => false end, set_limiter (Some l) w)
  end.

(** [probe] *)
Definition probe (clk : Clocks) (res : Pipeline.Result) (w : World C P)
    : result (verify_error DnsEr CtxEr EngEr) Verdict * World C P :=
  let '(go, w) := pace (c_wait clk) res w in
  if negb go then
    match ctx_Err with
    | Some e => (Err (ContextError e), w)
    | None => (Ok (deferredVerdict (c_final clk) res), w)
    end
  else
    let '(b, p) := provide (c_bind clk) (res_Task res) (w_egress w) in
    let w := set_egress p w in
    match b with
    | Err _ => (Ok (deferredVerdict (c_final clk) res), w)
    | Ok binding =>
        let '(eng, remote) := engineFor binding in
        match eng (res_Task res) binding with
        | Err e => if remote then (Ok (deferredVerdict (c_final clk) res), w)
                   else (Err (EngineError e), w)
        | Ok (ev, sigs) => (Ok (merge res ev), set_egress (emit (c_emit clk) sigs (w_egress w)) w)
        end
    end.

(** [Service.Verify] *)
Definition Verify (clk : Clocks) (email : string) (w : World C P)
    : result (verify_error DnsEr CtxEr EngEr) Verdict * World C P :=
  match Run disposable (c_run clk) email with
  | Err e => (Err (FunnelError e), w)
  | Ok res =>
      let key := if Terminal res then Normalized (Pipeline.res_Verdict res) else Task_Normalized (res_Task res) in
      let '(hit, w) := cacheGet (c_get clk) key w in
      match hit with
      | Some v => (Ok (set_Cached true v), w)
      | None =>
          let '(final, w) :=
            if Terminal res then (Ok (Pipeline.res_Verdict res), w)
            else
              let rule := Policy.Lookup policy (policyKey res) in
              if bool_decide (rule_Strategy rule = StrategySkip)
              then (Ok (skipVerdict (c_final clk) res), w)
              else probe clk res w in
          match final with
          | Err e => (Err e, w)
          | Ok v => (Ok v, if bool_decide (vStatus v = StatusUnknown) then w
                           else cachePut (c_put clk) key v w)
          end
      end
  end.
End Service.
