(* ===== verification/VerifierProps.v ===== *)
(** What the verification service guarantees, proved against the interfaces of
    the cache, the egress pool and the engines. *)

From Stdlib Require Import QArith.
From S2P Require Import Prelude GoStrings Float64 GoTime Verdict Engine Policy RateLimit Regex.
From S2P Require Import Syntax Pipeline PipelineProps Store Memory Verifier.
Local Open Scope Z_scope.

Section Props.
Context `{HU : UnicodeTables} `{HF : FloatConv} {DnsEr : Type} `{HR : Resolver DnsEr}.
Context {C CacheEr : Type} `{HC : ResultStore C CacheEr} `{HL : !ResultStoreLaws C CacheEr}.
Context {P PoolEr : Type} `{HP : EgressProvider P PoolEr}.
Context {CtxEr EngEr : Type}.
Variable disposable : string -> bool.
Variable policy : Policy.Set_.
Variable cacheTTL : Duration.
Variable engine : Engine_ EngEr.
Variable engines : option (string -> option (Engine_ EngEr)).
Variable sleep : Duration -> option CtxEr.
Variable ctx_Err : option CtxEr.

Abbreviation run clk email w :=
  (Verify disposable policy cacheTTL engine engines sleep ctx_Err clk email w).
Abbreviation probe_ clk res w := (probe (DnsEr := DnsEr) engine engines sleep ctx_Err clk res w).

(** What the cache of a world shows; nothing without a cache or for the empty key. *)
Definition shows (t : Time) (k : string) (w : World C P) : option Verdict :=
  if String.eqb k "" then None else c ← w_cache w; cached t k c.

(** The cache key of a funnel result. *)
Definition key_of (res : Pipeline.Result) : string :=
  if Terminal res then Normalized (Pipeline.res_Verdict res) else Task_Normalized (res_Task res).

Definition skipped (res : Pipeline.Result) : bool :=
  bool_decide (rule_Strategy (Policy.Lookup policy (policyKey res)) = StrategySkip).

(** ** Lemmas *)

Lemma cacheGet_spec now k w :
  (forall t k', now <= t -> shows t k' (cacheGet now k w).2 = shows t k' w) /\
  (forall v, (cacheGet now k w).1 = Some v -> shows now k w = Some v) /\
  w_limiter (cacheGet now k w).2 = w_limiter w /\ w_egress (cacheGet now k w).2 = w_egress w.
Proof.
  unfold cacheGet, shows. destruct (w_cache w) as [c|] eqn:Ec; [|simpl; rewrite Ec; done].
  destruct (String.eqb_spec k "") as [->|Hk]; [simpl; rewrite Ec; done|].
  destruct (Get_spec now k c) as [H1 H2]. destruct (Get now k c) as [r c'] eqn:Eg. simpl in *.
  split; [|split; [|done]].
  - intros t k' Ht. destruct (String.eqb k' ""); [done|]. simpl. by apply H1.
  - intros v Hv. destruct r as [o|]; [|done]. by rewrite <- (H2 o eq_refl).
Qed.

Lemma cachePut_spec now k v w t k' :
  proper v -> 0 < now -> now <= t ->
  shows t k' (cachePut cacheTTL now k v w) = shows t k' w \/
  (k' = k /\ shows t k' (cachePut cacheTTL now k v w) = if lives now cacheTTL t then Some (shown v) else None).
Proof.
  intros Hpr Hn Ht. unfold cachePut, shows. destruct (w_cache w) as [c|] eqn:Ec; [|rewrite Ec; by left].
  destruct (String.eqb_spec k "") as [->|Hk]; [rewrite Ec; by left|].
  destruct (String.eqb_spec k' "") as [->|Hk']; [by left|]. simpl.
  rewrite (Put_spec now k v cacheTTL c t k' Hpr Hn Ht).
  destruct (Put now k v cacheTTL c).1; [|by left]. case_decide; [by right|by left].
Qed.

Lemma pace_cache now res (w : World C P) : w_cache (pace sleep now res w).2 = w_cache w.
Proof.
  unfold pace. destruct (w_limiter w); [|done].
  by destruct (Wait sleep (destinationKey res) now l) as [[] ?].
Qed.

Lemma probe_cache clk res (w : World C P) : w_cache (probe_ clk res w).2 = w_cache w.
Proof.
  unfold probe. pose proof (pace_cache (c_wait clk) res w) as Hp.
  destruct (pace sleep (c_wait clk) res w) as [go w1]. simpl in Hp.
  destruct go; simpl; [|by destruct ctx_Err].
  destruct (provide (c_bind clk) (res_Task res) (w_egress w1)) as [[b|e] p]; [|done].
  destruct (engineFor engine engines b) as [eng remote].
  destruct (eng (res_Task res) b) as [[ev sigs]|e]; [done|by destruct remote].
Qed.

(** The verdict of an address that is not in the cache, before it is stored. *)
Definition decide_verdict (clk : Clocks) (res : Pipeline.Result) (w : World C P) :=
  if Terminal res then (Ok (Pipeline.res_Verdict res), w)
  else if skipped res then (Ok (skipVerdict (c_final clk) res), w)
  else probe_ clk res w.

Lemma run_cases clk email w :
  run clk email w =
  match Run disposable (c_run clk) email with
  | Err e => (Err (FunnelError e), w)
  | Ok res =>
      let '(hit, w1) := cacheGet (c_get clk) (key_of res) w in
      match hit with
      | Some v => (Ok (set_Cached true v), w1)
      | None =>
          let '(final, w2) := decide_verdict clk res w1 in
          match final with
          | Err e => (Err e, w2)
          | Ok v => (Ok v, if bool_decide (vStatus v = StatusUnknown) then w2
                           else cachePut cacheTTL (c_put clk) (key_of res) v w2)
          end
      end
  end.
Proof. reflexivity. Qed.

Lemma decide_verdict_cache clk res w : w_cache (decide_verdict clk res w).2 = w_cache w.
Proof. unfold decide_verdict. destruct (Terminal res); [done|]. destruct (skipped res); [done|apply probe_cache]. Qed.

(** ** Guarantees *)

(** A cached answer costs nothing: when the cache has a live verdict for the
    address's key, that verdict is returned, marked as cached, and neither the
    limiter nor the egress pool changes; no engine is called. *)
Theorem verify_cache_hit clk email w res v :
  Run disposable (c_run clk) email = Ok res ->
  (cacheGet (c_get clk) (key_of res) w).1 = Some v ->
  (run clk email w).1 = Ok (set_Cached true v) /\
  shows (c_get clk) (key_of res) w = Some v /\
  w_limiter (run clk email w).2 = w_limiter w /\ w_egress (run clk email w).2 = w_egress w.
Proof.
  intros Hr Hv. rewrite run_cases, Hr. destruct (cacheGet_spec (c_get clk) (key_of res) w) as (_ & H2 & H3 & H4).
  destruct (cacheGet (c_get clk) (key_of res) w) as [hit w1]. simpl in *. subst hit. auto.
Qed.

(** A skipped provider is never probed: when the policy says skip, the answer
    is the risky "provider skipped" verdict with the funnel's findings, and
    neither the limiter nor the egress pool is touched. *)
Theorem verify_skip_no_probe clk email w res :
  Run disposable (c_run clk) email = Ok res -> Terminal res = false -> skipped res = true ->
  (cacheGet (c_get clk) (key_of res) w).1 = None ->
  (run clk email w).1 = Ok (skipVerdict (c_final clk) res) /\
  w_limiter (run clk email w).2 = w_limiter w /\ w_egress (run clk email w).2 = w_egress w.
Proof.
  intros Hr Ht Hs Hc. rewrite run_cases, Hr.
  destruct (cacheGet_spec (c_get clk) (key_of res) w) as (_ & _ & H3 & H4).
  destruct (cacheGet (c_get clk) (key_of res) w) as [hit w1]. simpl in *. subst hit.
  unfold decide_verdict. rewrite Ht, Hs. cbn. unfold cachePut.
  destruct (w_cache w1); [|done]. by destruct (String.eqb (key_of res) "").
Qed.

(** C16: Deferred and unknown results are never stored: when the call fails or
    its verdict is "unknown", what the cache shows from then on, for every key,
    is what it showed before. *)
Theorem verify_unknown_not_cached clk email w t k :
  c_get clk <= t ->
  match (run clk email w).1 with Ok v => vStatus v = StatusUnknown | Err _ => True end ->
  shows t k (run clk email w).2 = shows t k w.
Proof.
  intros Ht. rewrite run_cases.
  destruct (Run disposable (c_run clk) email) as [res|e]; [|done].
  destruct (cacheGet_spec (c_get clk) (key_of res) w) as (H1 & _).
  destruct (cacheGet (c_get clk) (key_of res) w) as [hit w1]. simpl in H1.
  destruct hit as [v|]; [intros _; by apply H1|].
  pose proof (decide_verdict_cache clk res w1) as Hd.
  destruct (decide_verdict clk res w1) as [[v|e] w2]; simpl in Hd |- *.
  - intros Hs. rewrite bool_decide_eq_true_2 by done.
    rewrite <- (H1 t k Ht). unfold shows. by rewrite Hd.
  - intros _. rewrite <- (H1 t k Ht). unfold shows. by rewrite Hd.
Qed.

(** The cache of a world answers this [Put], or this [Get], without an error. *)
Definition put_succeeds (clk : Clocks) (k : string) (v : Verdict) (w : World C P) : Prop :=
  forall c, w_cache w = Some c -> exists u, (Put (c_put clk) k v cacheTTL c).1 = Ok u.
Definition get_succeeds (clk : Clocks) (k : string) (w : World C P) : Prop :=
  forall c, w_cache w = Some c -> exists o, (Get (c_get clk) k c).1 = Ok o.

Lemma cacheGet_complete clk k w v :
  get_succeeds clk k w -> shows (c_get clk) k w = Some v -> (cacheGet (c_get clk) k w).1 = Some v.
Proof.
  intros Hg. unfold shows, cacheGet. destruct (String.eqb k ""); [done|].
  destruct (w_cache w) as [c|] eqn:Ec; [|done]. simpl. intros Hs.
  destruct (Get_spec (c_get clk) k c) as [_ H2]. destruct (Hg c Ec) as [o Ho].
  specialize (H2 o Ho). destruct (Get (c_get clk) k c) as [r c']. simpl in *. subst r. simpl. congruence.
Qed.

(** What a call that settles an address leaves in the cache. *)
Lemma run_stores clk email w v res t :
  Run disposable (c_run clk) email = Ok res -> (cacheGet (c_get clk) (key_of res) w).1 = None ->
  (run clk email w).1 = Ok v -> vStatus v <> StatusUnknown ->
  w_cache w <> None -> key_of res <> "" -> proper v ->
  put_succeeds clk (key_of res) v (cacheGet (c_get clk) (key_of res) w).2 ->
  0 < c_put clk -> c_put clk <= t ->
  shows t (key_of res) (run clk email w).2 = if lives (c_put clk) cacheTTL t then Some (shown v) else None.
Proof.
  intros Hr Hmiss Hv Hs Hc Hk Hpr Hput Hp Ht. rewrite run_cases, Hr in *.
  assert (Hc1 : w_cache (cacheGet (c_get clk) (key_of res) w).2 <> None).
  { unfold cacheGet. destruct (w_cache w) as [c|] eqn:E; [|done].
    destruct (String.eqb (key_of res) ""); [simpl; by rewrite E|]. by destruct (Get (c_get clk) (key_of res) c). }
  destruct (cacheGet (c_get clk) (key_of res) w) as [hit w1]. simpl in Hmiss, Hc1, Hput. subst hit.
  pose proof (decide_verdict_cache clk res w1) as Hd.
  destruct (decide_verdict clk res w1) as [[v'|e] w2]; [|done]. simpl in Hd, Hv. injection Hv as ->.
  simpl. rewrite bool_decide_eq_false_2 by done. unfold cachePut, shows. rewrite Hd.
  destruct (w_cache w1) as [c|] eqn:Ec; [|done]. rewrite (proj2 (String.eqb_neq _ _) Hk). simpl.
  rewrite (Put_spec (c_put clk) (key_of res) v cacheTTL c t (key_of res) Hpr Hp Ht).
  destruct (Hput c Ec) as [u ->]. by rewrite decide_True.
Qed.

(** A live entry is answered from the cache. *)
Lemma run_hit clk email w res v :
  Run disposable (c_run clk) email = Ok res -> get_succeeds clk (key_of res) w ->
  shows (c_get clk) (key_of res) w = Some v -> (run clk email w).1 = Ok (set_Cached true v).
Proof.
  intros Hr Hget Hsh. pose proof (cacheGet_complete clk (key_of res) w v Hget Hsh) as Hhit. rewrite run_cases, Hr.
  destruct (cacheGet (c_get clk) (key_of res) w) as [hit w1]. simpl in Hhit. by subst hit.
Qed.

Lemma probe_cases clk res (w : World C P) :
  let deferred := Ok (deferredVerdict (c_final clk) res) in
  let '(go, w1) := pace sleep (c_wait clk) res w in
  let '(b, p) := provide (c_bind clk) (res_Task res) (w_egress w1) in
  if negb go then (probe_ clk res w).1 = match ctx_Err with Some e => Err (ContextError e) | None => deferred end
  else match b with
  | Err _ => (probe_ clk res w).1 = deferred
  | Ok binding =>
      let '(eng, remote) := engineFor engine engines binding in
      match eng (res_Task res) binding with
      | Err e => (probe_ clk res w).1 = if remote then deferred else Err (EngineError e)
      | Ok (ev, sigs) => (probe_ clk res w).1 = Ok (merge res ev) /\
          w_egress (probe_ clk res w).2 = emit (c_emit clk) sigs p
      end
  end.
Proof.
  cbv zeta. unfold probe. destruct (pace sleep (c_wait clk) res w) as [go w1].
  destruct (provide (c_bind clk) (res_Task res) (w_egress w1)) as [b p].
  destruct go; simpl; [|by destruct ctx_Err].
  destruct b as [binding|e]; [|done]. destruct (engineFor engine engines binding) as [eng remote].
  destruct (eng (res_Task res) binding) as [[ev sigs]|e]; [done|by destruct remote].
Qed.

(** *** Deferrals *)

(** An honest deferral: unknown for a temporary reason, fresh, by no engine and no
    identity, with the task's address and the funnel's findings. *)
Definition deferral (now : Time) (res : Pipeline.Result) (v : Verdict) : Prop :=
  vStatus v = StatusUnknown /\ vSubStatus v = SubTemporaryFailure /\ Confidence v = f64 (1 # 10) /\
  Email v = Task_Email (res_Task res) /\ Normalized v = Task_Normalized (res_Task res) /\ vChecks v = res_Checks res /\
  Provider v = res_Provider res /\ Verdict.Engine v = "" /\ EgressID v = "" /\ Cached v = false /\ CheckedAt v = now.

(** The limiter does not let the probe go. *)
Definition throttled (clk : Clocks) (res : Pipeline.Result) (w : World C P) : Prop :=
  exists l, w_limiter w = Some l /\ (Wait sleep (destinationKey res) (c_wait clk) l).1 <> None.

(** The pool hands out this identity for the task. *)
Definition handed_out (clk : Clocks) (res : Pipeline.Result) (w : World C P) (b : EgressBinding) : Prop :=
  (provide (c_bind clk) (res_Task res) (w_egress w)).1 = Ok b.

(** An agent probes for the identity, or nobody but the local engine. *)
Definition remote_for (b : EgressBinding) (eng : Engine_ EngEr) : Prop :=
  exists f, engines = Some f /\ f (binding_ID b) = Some eng.
Definition local_for (b : EgressBinding) : Prop := forall f, engines = Some f -> f (binding_ID b) = None.

Lemma pace_throttled clk res (w : World C P) :
  (throttled clk res w <-> (pace sleep (c_wait clk) res w).1 = false) /\ w_egress (pace sleep (c_wait clk) res w).2 = w_egress w.
Proof.
  unfold throttled, pace. destruct (w_limiter w) as [l|]; [|split; [|done]; split; [by intros (? & ? & _)|done]].
  destruct (Wait sleep (destinationKey res) (c_wait clk) l) as [err l'] eqn:Ew. cbn [fst snd]. split; [|done]. split.
  - intros (l0 & [= <-] & Hne). rewrite Ew in Hne. by destruct err.
  - intros He. exists l. split; [done|]. rewrite Ew. by destruct err.
Qed.

Lemma engineFor_remote b eng : remote_for b eng -> engineFor engine engines b = (eng, true).
Proof. intros (f & -> & Hf). cbn. by rewrite Hf. Qed.

Lemma engineFor_local b : local_for b -> engineFor engine engines b = (engine, false).
Proof. unfold local_for, engineFor. destruct engines as [f|]; [|done]. intros Hl. by rewrite (Hl f eq_refl). Qed.

Lemma engineFor_inv b eng remote :
  engineFor engine engines b = (eng, remote) -> if remote then remote_for b eng else local_for b /\ eng = engine.
Proof.
  unfold engineFor, remote_for, local_for. destruct engines as [f|]; [|by intros [= <- <-]].
  destruct (f (binding_ID b)) as [r|] eqn:Ef; intros [= <- <-]; [by exists f|]. split; [|done]. by intros f' [= <-].
Qed.

Lemma deferredVerdict_deferral now res : deferral now res (deferredVerdict now res).
Proof. by repeat split. Qed.

(** C17: When a probe cannot be made the answer is an honest deferral, not an
    error: "unknown, temporary failure" with the funnel's findings when the
    destination is throttled beyond the wait (and the context has not ended),
    when the pool has no identity, and when the agent of the identity fails.  A
    throttled probe does not touch the pool.  An error has one of two causes: the
    context ended while the limiter made the probe wait, or the local engine,
    which no agent replaces for the identity, failed. *)
Theorem probe_deferral clk res (w : World C P) :
  (throttled clk res w -> ctx_Err = None ->
     exists v, (probe_ clk res w).1 = Ok v /\ deferral (c_final clk) res v /\ w_egress (probe_ clk res w).2 = w_egress w) /\
  (~ throttled clk res w -> (forall b, ~ handed_out clk res w b) ->
     exists v, (probe_ clk res w).1 = Ok v /\ deferral (c_final clk) res v) /\
  (forall b eng, ~ throttled clk res w -> handed_out clk res w b -> remote_for b eng -> (exists e, eng (res_Task res) b = Err e) ->
     exists v, (probe_ clk res w).1 = Ok v /\ deferral (c_final clk) res v) /\
  (forall e, (probe_ clk res w).1 = Err e ->
     throttled clk res w /\ (exists c, ctx_Err = Some c /\ e = ContextError c) \/
     exists b x, handed_out clk res w b /\ local_for b /\ engine (res_Task res) b = Err x /\ e = EngineError x).
Proof.
  destruct (pace_throttled clk res w) as [Ht He]. pose proof (deferredVerdict_deferral (c_final clk) res) as Hd.
  unfold handed_out, probe. rewrite <- He. revert Ht. generalize (throttled clk res w). intros T Ht.
  destruct (pace sleep (c_wait clk) res w) as [go w1]. cbn [fst snd] in *. destruct go; cbn [negb].
  - assert (Hn : ~ T) by (by rewrite Ht). destruct (provide (c_bind clk) (res_Task res) (w_egress w1)) as [[b|x] p]; cbn [fst].
    + split; [done|]. split; [intros _ Hb; by destruct (Hb b)|]. split.
      * intros b' eng _ [= <-] Hr [x Hx]. rewrite (engineFor_remote b eng Hr), Hx. eexists. by split.
      * intros e. destruct (engineFor engine engines b) as [eng remote] eqn:Ee. apply engineFor_inv in Ee.
        destruct (eng (res_Task res) b) as [[ev sigs]|x] eqn:Ev; [done|]. destruct remote; [done|]. intros [= <-].
        destruct Ee as [Hl ->]. right. by exists b, x.
    + split; [done|]. split; [intros _ _; eexists; by split|]. by split.
  - assert (Hy : T) by (by rewrite Ht). split; [intros _ ->; eexists; by split|]. split; [done|]. split; [done|].
    intros e. destruct ctx_Err as [c|]; [|done]. intros [= <-]. left. split; [done|]. by exists c.
Qed.

(** A verdict of [probe]: a deferral, or the merge of what the binding's engine said. *)
Lemma probe_verdict clk res (w : World C P) v :
  (probe_ clk res w).1 = Ok v ->
  v = deferredVerdict (c_final clk) res \/
  exists binding eng ev sigs, eng (res_Task res) binding = Ok (ev, sigs) /\ v = merge res ev /\
    (eng = engine \/ exists f, engines = Some f /\ f (binding_ID binding) = Some eng).
Proof.
  intros Hv. pose proof (probe_cases clk res w) as Hp. cbv zeta in Hp. rewrite Hv in Hp.
  destruct (pace sleep (c_wait clk) res w) as [go w1].
  destruct (provide (c_bind clk) (res_Task res) (w_egress w1)) as [b p].
  destruct go; simpl in Hp; [|left; revert Hp; destruct ctx_Err; congruence].
  destruct b as [binding|e]; [|left; congruence].
  destruct (engineFor engine engines binding) as [eng remote] eqn:Ee.
  destruct (eng (res_Task res) binding) as [[ev sigs]|e] eqn:Ev;
    [|left; destruct remote; congruence].
  right. exists binding, eng, ev, sigs. destruct Hp as [[= ->] _]. split; [done|]. split; [done|].
  unfold engineFor in Ee. revert Ee. destruct engines as [f|]; intros Ee; [|left; congruence].
  destruct (f (binding_ID binding)) as [r|] eqn:Ef; injection Ee as -> _; [|by left].
  right. by exists f.
Qed.

(** The engines return verdicts that pass [Validate] on the task's address. *)
Definition engine_sound (eng : Engine_ EngEr) : Prop :=
  forall t b ev sigs, eng t b = Ok (ev, sigs) -> Task_Email t <> "" -> Validate ev = None.

Lemma merge_valid res ev : Validate ev = None -> Validate (merge res ev) = None.
Proof.
  intros Hv. unfold Validate in *. destruct (String.eqb (Email ev) "") eqn:Ee; [done|].
  destruct (Status_Valid (vStatus ev)) eqn:Es; [|done]. cbn [negb] in Hv.
  unfold merge. cbn [Email vStatus Confidence]. rewrite Ee.
  destruct (bool_decide (vStatus ev = StatusDeliverable) && Checks_Role (res_Checks res)); [done|].
  rewrite Es. exact Hv.
Qed.

(** C7: Every fresh verdict is well formed and honest about role accounts: for a
    non-blank address, with engines whose verdicts are valid, a verdict that did
    not come from the cache passes [Validate], and it is never "deliverable" for
    a role account. *)
Theorem verify_verdict_valid clk email w v res :
  engine_sound engine -> (forall f id eng, engines = Some f -> f id = Some eng -> engine_sound eng) ->
  TrimSpace email <> "" -> Run disposable (c_run clk) email = Ok res ->
  (cacheGet (c_get clk) (key_of res) w).1 = None -> (run clk email w).1 = Ok v ->
  Validate v = None /\ (Checks_Role (res_Checks res) = true -> vStatus v <> StatusDeliverable).
Proof.
  intros Heng Hengs Hb Hr Hmiss Hv. rewrite run_cases, Hr in Hv.
  destruct (cacheGet (c_get clk) (key_of res) w) as [hit w1]. simpl in Hmiss. subst hit.
  pose proof (Run_verdict disposable (c_run clk) email) as Hf. rewrite Hr in Hf.
  unfold decide_verdict in Hv. destruct (Terminal res) eqn:Et.
  { simpl in Hv. injection Hv as <-. destruct (Hf eq_refl) as [Hst Hval]. split; [by apply Hval|].
    intros _. by destruct Hst as [-> | ->]. }
  destruct (Run_task disposable (c_run clk) email res Hr Et) as (local & d & _ & _ & _ & He & _).
  assert (Hne : Task_Email (res_Task res) <> "") by (rewrite He; by destruct local).
  destruct (skipped res).
  { simpl in Hv. injection Hv as <-. split; [|done]. apply Validate_ok; [done|done|by apply funit_f64]. }
  assert (Hd : forall t, Validate (deferredVerdict t res) = None)
    by (intros t; apply Validate_ok; [done|done|by apply funit_f64]).
  pose proof (probe_verdict clk res w1) as Hp.
  destruct (probe_ clk res w1) as [r w2]. simpl in *. destruct r as [v'|e]; [|done].
  simpl in Hv. injection Hv as ->.
  destruct (Hp v eq_refl) as [->|(b & eng & ev & sigs & Hev & -> & Hsrc)]; [by split|].
  assert (Hs : engine_sound eng) by (destruct Hsrc as [->|(f & Hf1 & Hf2)]; eauto).
  split; [by apply merge_valid; eapply Hs|]. intros Hrole. unfold merge. cbn [vStatus]. rewrite Hrole, andb_true_r.
  by case_bool_decide.
Qed.
End Props.

(** ** Across calls *)

(** C14: A stable verdict is remembered: after a call that settled an address with
    a status other than "unknown" and whose verdict the store took, a call for
    any address with the same non-empty key, on the cache as the first call left
    it and while the entry lives, returns that verdict, as the store gives it
    back, marked as cached, when the store answers its read.  The second call may
    have other engines, agents, policies, limits, resolvers, contexts and clocks,
    and another pool and limiter. *)
Theorem verify_then_cached `{HU : UnicodeTables} `{HF : FloatConv} {DnsEr C CacheEr P PoolEr CtxEr EngEr : Type} (R R' : Resolver DnsEr)
    `{HC : ResultStore C CacheEr} `{HL : !ResultStoreLaws C CacheEr} `{HP : EgressProvider P PoolEr}
    disposable disposable' policy policy' cacheTTL cacheTTL' (engine engine' : Engine_ EngEr) engines engines'
    (sleep sleep' : Duration -> option CtxEr) ctx ctx' clk email (w : World C P) v res clk' email' (w' : World C P) res' :
  let first := Verify (H1 := R) disposable policy cacheTTL engine engines sleep ctx clk email w in
  let second := Verify (H1 := R') disposable' policy' cacheTTL' engine' engines' sleep' ctx' clk' email' w' in
  Run (H0 := R) disposable (c_run clk) email = Ok res -> (cacheGet (c_get clk) (key_of res) w).1 = None ->
  first.1 = Ok v -> vStatus v <> StatusUnknown ->
  w_cache w <> None -> key_of res <> "" -> proper v ->
  put_succeeds cacheTTL clk (key_of res) v (cacheGet (c_get clk) (key_of res) w).2 -> get_succeeds clk' (key_of res) w' ->
  0 < c_put clk -> c_put clk <= c_get clk' -> lives (c_put clk) cacheTTL (c_get clk') = true ->
  Run (H0 := R') disposable' (c_run clk') email' = Ok res' -> key_of res' = key_of res ->
  w_cache w' = w_cache first.2 ->
  second.1 = Ok (set_Cached true (shown v)).
Proof.
  intros first second Hr Hmiss Hv Hs Hc Hk Hpr Hput Hget Hp Ht Hal Hr' Hkey Hw'. apply (run_hit _ _ _ _ _ _ _ _ _ _ res'); [done|by rewrite Hkey|].
  pose proof (run_stores disposable policy cacheTTL engine engines sleep ctx clk email w v res (c_get clk') Hr Hmiss Hv Hs Hc Hk Hpr Hput Hp Ht) as Hsh.
  rewrite Hal in Hsh. unfold shows in *. by rewrite Hkey, Hw'.
Qed.
