(* ===== verification/Service.v ===== *)
(** The assembled service: the reputation manager as the verifier's egress
    provider, the SMTP prober as its engine, the in-memory cache, and what the
    whole does. *)

From Stdlib Require Import QArith.
From S2P Require Import Prelude GoStrings Float64 GoTime Verdict Engine Policy RateLimit Health.
From S2P Require Import Egress EgressInv EgressSel EgressOps EgressProps Regex Syntax Pipeline.
From S2P Require Import PipelineProps Builtin BuiltinProps Store Memory Verifier VerifierProps.
Local Open Scope Z_scope.

(** ** The manager as an egress provider *)

(** The states the manager can be in ([EgressProps.manager_total]). *)
Definition wf_manager : Type := { m : Manager | mgr_wf m }.

Lemma Binding_wf m t now r m' : mgr_wf m -> Binding m t now = Some (r, m') -> mgr_wf m'.
Proof.
  intros W E. destruct (Binding_spec m t now W) as (r' & m1 & E' & W' & _). rewrite E in E'. by inv E'.
Qed.

Lemma Binding_not_None m t now : mgr_wf m -> Binding m t now <> None.
Proof. intros W. destruct (Binding_spec m t now W) as (r & m' & -> & _). done. Qed.

Definition wf_Binding (now : Time) (t : Task) (m : wf_manager)
    : result egress_error EgressBinding * wf_manager :=
  match Binding (`m) t now as o return Binding (`m) t now = o -> _ with
  | Some (r, m') => fun E => (r, exist mgr_wf m' (Binding_wf (`m) t now r m' (proj2_sig m) E))
  | None => fun E => False_rect _ (Binding_not_None (`m) t now (proj2_sig m) E)
  end eq_refl.

Definition wf_Emit (now : Time) (sigs : list Signal) (m : wf_manager) : wf_manager :=
  exist mgr_wf (Emit sigs now (`m)) (Emit_wf sigs now (`m) (proj2_sig m)).

#[global] Instance manager_provider : EgressProvider wf_manager egress_error :=
  {| provide := wf_Binding; emit := wf_Emit |}.

Lemma wf_Binding_spec now t m :
  Binding (`m) t now = Some ((wf_Binding now t m).1, proj1_sig (wf_Binding now t m).2).
Proof.
  unfold wf_Binding. generalize (Binding_wf (`m) t now) as f, (Binding_not_None (`m) t now) as g.
  destruct (Binding (`m) t now) as [[r m']|]; intros f g; [done|]. by destruct (g (proj2_sig m)).
Qed.

(** ** The prober as an engine *)

Section Builtin.
Context `{UnicodeTables}.

(** [builtin.Engine] as the service calls it; its error is always nil. *)
Definition builtin_engine (cfg : Builtin.Config) (now : Time) (rand : option (list ascii))
    (dial : string -> option server) : Engine_ Empty_set :=
  fun t eg => let '(v, sigs, _) := Builtin.Verify cfg now rand dial t eg in Ok (v, sigs).

Lemma builtin_sound cfg now rand dial : engine_sound (builtin_engine cfg now rand dial).
Proof.
  intros t b ev sigs He Hne. unfold builtin_engine in He.
  pose proof (Verify_consistent cfg now rand dial t b) as Hc. unfold coherent in Hc.
  destruct (Builtin.Verify cfg now rand dial t b) as [[v s] sent]. injection He as <- <-.
  destruct Hc as (s0 & _ & _ & _ & _ & _ & _ & Hv). by apply Hv.
Qed.

(** ** Addresses on the wire *)

(** The bytes of a probed address. *)
Definition addr_byte (a : ascii) : bool := is_atext a || Ascii.eqb a at_byte || Ascii.eqb a dot_byte.

Lemma label_byte_props a :
  (is_alnum a || Ascii.eqb a hyphen_byte || Ascii.eqb a dot_byte) = true ->
  is_ascii_byte a = true /\ addr_byte (lower_byte a) = true.
Proof. destruct a as [[] [] [] [] [] [] [] []]; vm_compute; auto. Qed.

Lemma atext_addr a : is_atext a = true -> addr_byte a = true.
Proof. intros Ha. unfold addr_byte. by rewrite Ha. Qed.

Lemma dot_atom_addr l : dot_atom l -> Forall (fun a => addr_byte a = true) l.
Proof.
  intros Hd. apply split_on_Forall with dot_byte; [done|]. eapply Forall_impl; [|exact Hd].
  intros x [_ Hx]. eapply Forall_impl; [|exact Hx]. intros a. apply atext_addr.
Qed.

Lemma domain_ok_bytes l :
  domain_ok l -> Forall (fun a => (is_alnum a || Ascii.eqb a hyphen_byte || Ascii.eqb a dot_byte) = true) l.
Proof.
  intros (_ & HF & _). apply split_on_Forall with dot_byte; [done|]. eapply Forall_impl; [|exact HF].
  intros x (_ & Hx & _). eapply Forall_impl; [|exact Hx]. intros a Ha. by rewrite Ha.
Qed.

Lemma lower_domain_addr d : domain_ok (bytes d) -> Forall (fun a => addr_byte a = true) (bytes (ToLower d)).
Proof.
  intros Hd. apply domain_ok_bytes in Hd.
  rewrite ToLower_ascii.
  - rewrite bytes_of_bytes, List.Forall_map. eapply Forall_impl; [|exact Hd].
    intros a Ha. by apply label_byte_props.
  - unfold is_ascii. apply forallb_Forall. eapply Forall_impl; [|exact Hd].
    intros a Ha. by apply label_byte_props.
Qed.

(** An address cannot smuggle an SMTP command: every byte of the address of
    a probe task is a letter, digit, permitted symbol, dot or "@", so the RCPT TO
    line contains no line break, space or angle bracket of its own. *)
Theorem probe_address_bytes {Er} `{Resolver Er} disposable now email res :
  Run disposable now email = Ok res -> Terminal res = false ->
  Forall (fun a => addr_byte a = true) (bytes (Task_Email (res_Task res))).
Proof.
  intros Hr Ht. destruct (Run_task disposable now email res Hr Ht) as (local & d & Hs & _ & _ & He & _).
  apply splitAndValidate_sound in Hs as (_ & _ & _ & Hloc & Hdom).
  rewrite He, !bytes_app. apply Forall_app. split; [by apply dot_atom_addr|].
  constructor; [done|]. by apply lower_domain_addr.
Qed.
End Builtin.

(** ** The effect of one verification on the pool *)

Section Effect.
Context `{HU : UnicodeTables} `{HF : FloatConv} {DnsEr : Type} `{HR : Resolver DnsEr}.
Context {C CacheEr : Type} `{HC : ResultStore C CacheEr} `{HL : !ResultStoreLaws C CacheEr}.
Context {CtxEr : Type}.

(** Every probe is charged to, and reported for, the identity it used: one
    verification leaves the manager as it was, or as a refused [Binding] leaves
    it, or as the [Binding] of one identity followed by exactly one signal of
    that same identity. *)
Theorem verify_charges_identity disposable policy ttl cfg now rand dial (sleep : Duration -> option CtxEr)
    ctx clk email (w : World C wf_manager) :
  let m := proj1_sig (w_egress w) in
  let m' := proj1_sig (w_egress (Verifier.Verify disposable policy ttl (builtin_engine cfg now rand dial) None
                                   sleep ctx clk email w).2) in
  m' = m \/
  exists t, Binding m t (c_bind clk) = Some (Err ErrNoEgress, m') \/
    exists b m1 s, Binding m t (c_bind clk) = Some (Ok b, m1) /\
      Signal_EgressID s = binding_ID b /\ m' = Emit [s] (c_emit clk) m1.
Proof.
  cbv zeta. rewrite run_cases. destruct (Run disposable (c_run clk) email) as [res|e]; [|by left].
  destruct (cacheGet_spec (c_get clk) (key_of res) w) as (_ & _ & _ & Hg).
  destruct (cacheGet (c_get clk) (key_of res) w) as [hit w1]. simpl in Hg. rewrite <- Hg.
  destruct hit as [v|]; [by left|].
  assert (Hput : forall v (w2 : World C wf_manager), w_egress (cachePut ttl (c_put clk) (key_of res) v w2) = w_egress w2).
  { intros v w2. unfold cachePut. destruct (w_cache w2); [|done]. by destruct (String.eqb (key_of res) ""). }
  set (d := decide_verdict policy (builtin_engine cfg now rand dial) None sleep ctx clk res w1).
  assert (Hd : proj1_sig (w_egress d.2) = proj1_sig (w_egress w1) \/
    exists t, Binding (proj1_sig (w_egress w1)) t (c_bind clk) = Some (Err ErrNoEgress, proj1_sig (w_egress d.2)) \/
      exists b m1 s, Binding (proj1_sig (w_egress w1)) t (c_bind clk) = Some (Ok b, m1) /\
        Signal_EgressID s = binding_ID b /\ proj1_sig (w_egress d.2) = Emit [s] (c_emit clk) m1).
  2:{ destruct d as [[v|e] w2]; [|exact Hd]. cbn [snd] in *. case_bool_decide; [exact Hd|]. by rewrite Hput. }
  unfold d, decide_verdict. destruct (Terminal res); [by left|]. destruct (skipped policy res); [by left|].
  unfold probe. destruct (pace sleep (c_wait clk) res w1) as [go w2] eqn:Ep.
  assert (He : w_egress w2 = w_egress w1).
  { unfold pace in Ep. destruct (w_limiter w1); [|congruence].
    destruct (Wait sleep (destinationKey res) (c_wait clk) l) as [err l']. by injection Ep as _ <-. }
  destruct go; cbn [negb]; [|left; destruct ctx; cbn; by rewrite He].
  right. exists (res_Task res). rewrite He. cbn [provide manager_provider].
  pose proof (wf_Binding_spec (c_bind clk) (res_Task res) (w_egress w1)) as Hb.
  destruct (wf_Binding (c_bind clk) (res_Task res) (w_egress w1)) as [[b|[]] p]; cbn [fst snd] in Hb; [|by left].
  right. unfold engineFor, builtin_engine.
  pose proof (Verify_consistent cfg now rand dial (res_Task res) b) as Hc. unfold coherent in Hc.
  destruct (Builtin.Verify cfg now rand dial (res_Task res) b) as [[v sigs] sent].
  destruct Hc as (s & -> & Hs & _). exists b, (proj1_sig p), s. done.
Qed.
End Effect.

(** ** Witnesses *)

(** Gmail and one ordinary domain have exchangers. *)
Definition ex_dns : Resolver (bool * bool) := {|
  LookupMX := fun d =>
    if String.eqb d "gmail.com" then Ok [{| Host := "gmail-smtp-in.l.google.com."; Pref := 5 |}]
    else if String.eqb d "example.com" then Ok [{| Host := "mx.example.com."; Pref := 5 |}]
    else Err (true, false);
  LookupHost := fun _ => Err (true, false);
  as_DNSError := fun e => Some e |}.

(** An accepting server behind every exchanger. *)
Definition ex_accept : server := fun sent =>
  match sent with
  | [] => {| r_code := 220; r_msg := "ready"; r_err := false |}
  | [_; _; _; _] => {| r_code := 550; r_msg := "no such user"; r_err := false |}
  | _ => {| r_code := 250; r_msg := "ok"; r_err := false |}
  end.

Definition ex_clk (t : Time) : Clocks :=
  {| c_run := t; c_get := t; c_wait := t; c_bind := t; c_emit := t; c_final := t; c_put := t |}.

Definition ex_world : World (gmap string entry) DirectProvider :=
  {| w_cache := Some ∅; w_limiter := Some ex_limiter;
     w_egress := {| direct_ID := ""; direct_HELO := ""; direct_MailFrom := "" |} |}.

Abbreviation ex_policy := (Policy.Default (H := ascii_tables)).
Abbreviation ex_prober := (builtin_engine (H := ascii_tables) ex_engine 7 None (fun _ => Some ex_accept)).
Abbreviation ex_sleep := (fun _ : Z => @None unit).
Abbreviation ex_service t email w :=
  (Verifier.Verify (H := ascii_tables) (H0 := amd64) (H1 := ex_dns) defaultDisposableSet
    ex_policy defaultCacheTTL ex_prober None ex_sleep None (ex_clk t) email w).

(** A syntactically invalid address can answer for a valid one: its cache key
    is the raw input, and a valid Gmail address whose local part starts with "+"
    has the key "@gmail.com".  After a query for "@gmail.com", a query for
    "+x@gmail.com" returns the cached "invalid syntax, undeliverable", where it
    would otherwise be reported as risky. *)
Theorem cache_key_collision :
  match ex_service 10 "+x@gmail.com" ex_world, ex_service 20 "+x@gmail.com" (ex_service 10 "@gmail.com" ex_world).2 with
  | (Ok v, _), (Ok v', _) =>
      vStatus v = StatusRisky /\ vSubStatus v = SubProviderSkipped /\
      vStatus v' = StatusUndeliverable /\ vSubStatus v' = SubInvalidSyntax /\ Email v' = "@gmail.com"
  | _, _ => False
  end.
Proof. vm_compute. repeat split; reflexivity. Qed.

(** The funnel on a Gmail address and on an ordinary one. *)
Abbreviation ex_funnel_run t email :=
  (Run (H := ascii_tables) (H0 := ex_dns) defaultDisposableSet (c_run (ex_clk t)) email).

Lemma ex_gmail : exists res, ex_funnel_run 10 "ann@gmail.com" = Ok res /\ Terminal res = false /\
  skipped (HU := ascii_tables) ex_policy res = true /\ key_of res = "ann@gmail.com" /\
  (cacheGet (c_get (ex_clk 10)) (key_of res) ex_world).1 = None.
Proof. eexists. split; [vm_compute; reflexivity|]. split; [reflexivity|]. repeat split; vm_compute; reflexivity. Qed.

Lemma ex_plain : exists res, ex_funnel_run 10 "ann@example.com" = Ok res /\ Terminal res = false /\
  key_of res = "ann@example.com" /\ (cacheGet (c_get (ex_clk 10)) (key_of res) ex_world).1 = None.
Proof. eexists. split; [vm_compute; reflexivity|]. split; [reflexivity|]. repeat split; vm_compute; reflexivity. Qed.

Lemma ex_plain_later : exists res, ex_funnel_run 20 "Ann@Example.com" = Ok res /\ key_of res = "ann@example.com".
Proof. eexists. split; [vm_compute; reflexivity|]. vm_compute; reflexivity. Qed.

Lemma ex_plain_run : exists v, (ex_service 10 "ann@example.com" ex_world).1 = Ok v /\ vStatus v = StatusDeliverable.
Proof. eexists. split; [vm_compute; reflexivity|reflexivity]. Qed.

Lemma probe_address_bytes_witness :
  exists res, ex_funnel_run 10 "ann@example.com" = Ok res /\
    Forall (fun a => addr_byte a = true) (bytes (Task_Email (res_Task res))).
Proof.
  destruct ex_plain as (res & Hr & Ht & _). exists res. split; [exact Hr|].
  exact (probe_address_bytes (H := ascii_tables) (H0 := ex_dns) defaultDisposableSet _ "ann@example.com" res Hr Ht).
Defined.

Lemma verify_skip_no_probe_witness :
  exists res, ex_funnel_run 10 "ann@gmail.com" = Ok res /\
    (ex_service 10 "ann@gmail.com" ex_world).1 = Ok (skipVerdict 10 res) /\
    w_limiter (ex_service 10 "ann@gmail.com" ex_world).2 = w_limiter ex_world.
Proof.
  destruct ex_gmail as (res & Hr & Ht & Hs & _ & Hc). exists res. split; [exact Hr|].
  destruct (verify_skip_no_probe (HU := ascii_tables) (HF := amd64) (HR := ex_dns) defaultDisposableSet ex_policy
    defaultCacheTTL ex_prober None ex_sleep None (ex_clk 10) "ann@gmail.com" ex_world res Hr Ht Hs Hc) as (H1 & H2 & _).
  split; [exact H1|exact H2].
Defined.

Lemma ex_plain_hit k : k = "ann@example.com" -> exists v,
  (cacheGet (c_get (ex_clk 20)) k (ex_service 10 "ann@example.com" ex_world).2).1 = Some v.
Proof. intros ->. eexists. vm_compute. reflexivity. Qed.

Lemma verify_cache_hit_witness :
  exists v, (ex_service 20 "Ann@Example.com" (ex_service 10 "ann@example.com" ex_world).2).1 = Ok (set_Cached true v).
Proof.
  destruct ex_plain_later as (res & Hr & Hk). destruct (ex_plain_hit _ Hk) as (v & Hv). exists v.
  exact (proj1 (verify_cache_hit (HU := ascii_tables) (HF := amd64) (HR := ex_dns) defaultDisposableSet ex_policy
    defaultCacheTTL ex_prober None ex_sleep None (ex_clk 20) "Ann@Example.com"
    (ex_service 10 "ann@example.com" ex_world).2 res v Hr Hv)).
Defined.

(** The same service when no exchanger answers. *)
Abbreviation ex_unreachable t email w :=
  (Verifier.Verify (H := ascii_tables) (H0 := amd64) (H1 := ex_dns) defaultDisposableSet
    ex_policy defaultCacheTTL (builtin_engine (H := ascii_tables) ex_engine 7 None (fun _ => None)) None
    ex_sleep None (ex_clk t) email w).

Lemma ex_unreachable_unknown :
  match (ex_unreachable 10 "ann@example.com" ex_world).1 with Ok v => vStatus v = StatusUnknown | Err _ => True end.
Proof. vm_compute. reflexivity. Qed.

Lemma verify_unknown_not_cached_witness :
  shows 50 "ann@example.com" (ex_unreachable 10 "ann@example.com" ex_world).2 = shows 50 "ann@example.com" ex_world.
Proof.
  exact (verify_unknown_not_cached (HU := ascii_tables) (HF := amd64) (HR := ex_dns) defaultDisposableSet ex_policy
    defaultCacheTTL (builtin_engine (H := ascii_tables) ex_engine 7 None (fun _ => None)) None ex_sleep None
    (ex_clk 10) "ann@example.com" ex_world 50 "ann@example.com" ltac:(done) ex_unreachable_unknown).
Defined.

(** The in-memory store never fails. *)
Lemma mem_get_succeeds {P} clk k (w : World (gmap string entry) P) : get_succeeds clk k w.
Proof.
  intros c _. exists (mem_Get (c_get clk) k c).1. unfold Get, mem_ResultStore. by destruct (mem_Get (c_get clk) k c).
Qed.
Lemma mem_put_succeeds {P} ttl clk k v (w : World (gmap string entry) P) : put_succeeds ttl clk k v w.
Proof. intros c _. by exists tt. Qed.

(** An engine that reaches no exchanger. *)
Definition ex_offline : Engine_ Empty_set := builtin_engine (H := ascii_tables) ex_engine 0 None (fun _ => None).

Lemma verify_then_cached_witness :
  exists v, (ex_service 10 "ann@example.com" ex_world).1 = Ok v /\
    (Verifier.Verify (H := ascii_tables) (H0 := amd64) (H1 := ex_dns) defaultDisposableSet (Policy.Default (H := ascii_tables)) Hour ex_offline None ex_sleep None
       (ex_clk 20) "Ann@Example.com" (ex_service 10 "ann@example.com" ex_world).2).1 = Ok (set_Cached true v).
Proof.
  destruct ex_plain as (res & Hr & _ & Hk & Hc). destruct ex_plain_later as (res' & Hr' & Hk').
  destruct ex_plain_run as (v & Hv & Hs). exists v. split; [exact Hv|].
  apply (verify_then_cached (HU := ascii_tables) (HF := amd64) ex_dns ex_dns (HL := mem_laws) defaultDisposableSet defaultDisposableSet
    ex_policy (Policy.Default (H := ascii_tables)) defaultCacheTTL Hour ex_prober ex_offline None None ex_sleep ex_sleep None None (ex_clk 10)
    "ann@example.com" ex_world v res (ex_clk 20) "Ann@Example.com" (ex_service 10 "ann@example.com" ex_world).2 res').
  - exact Hr.
  - exact Hc.
  - exact Hv.
  - rewrite Hs. discriminate.
  - cbn. discriminate.
  - rewrite Hk. discriminate.
  - exact I.
  - apply mem_put_succeeds.
  - apply mem_get_succeeds.
  - reflexivity.
  - discriminate.
  - reflexivity.
  - exact Hr'.
  - rewrite Hk. exact Hk'.
  - reflexivity.
Defined.

Lemma verify_verdict_valid_witness :
  exists v, (ex_service 10 "ann@example.com" ex_world).1 = Ok v /\ Validate v = None.
Proof.
  destruct ex_plain as (res & Hr & _ & _ & Hc). destruct ex_plain_run as (v & Hv & _).
  exists v. split; [exact Hv|].
  apply (verify_verdict_valid (HU := ascii_tables) (HF := amd64) (HR := ex_dns) defaultDisposableSet ex_policy
    defaultCacheTTL ex_prober None ex_sleep None (ex_clk 10) "ann@example.com" ex_world v res).
  - apply builtin_sound.
  - discriminate.
  - vm_compute. discriminate.
  - exact Hr.
  - exact Hc.
  - exact Hv.
Defined.
