(* ===== verification/Runner.v ===== *)
(** [internal/jobs]: the bulk-job runner over a job store.

    The store is an argument, by the calls of [JobStoreOps]: the in-memory store,
    or the tables of PostgreSQL ([RunnerPg.v]).  A call that returns an error and
    changes nothing, as a database's may at any time, is an event of its own.

    A job is a group of goroutines that share the store, the runner's table of
    cancel functions and the job's context.  The model is a step function: an
    [event] is one atomic action of one goroutine (a store call, a send on the
    semaphore, a critical section), and [exec] performs it or is [None] when
    the action is not enabled.  All interleavings are the sequences of events,
    [reaches] by induction.  The verifier is the parameter [answer]: what
    [Verify] returns for an address of a job, [None] for an error. *)

From Stdlib Require Import QArith.
From S2P Require Import Prelude GoStrings Float64 GoTime Verdict Engine Settings Store Memory.
From S2P Require Import Builtin.
Local Open Scope list_scope.
Local Open Scope Z_scope.

(** ** Rows *)

Record Row := { row_Label : string; row_Email : string }.

Definition defaultConcurrency : Z := 10.
Definition defaultMaxEmails : Z := 100000.

Inductive submit_error := ErrNoEmails | ErrTooManyEmails.

Section Rows.
Context `{HU : UnicodeTables}.

Definition nul : string := of_bytes [ascii_of_N 0].

Definition dedup_key (label email : string) : string := ToLower label +:+ nul +:+ ToLower email.

(** [dedup]: the loop over the rows with the set of keys seen so far. *)
Fixpoint dedup_loop (seen : gset string) (rows : list Row) : list Row :=
  match rows with
  | [] => []
  | row :: rows =>
      let email := TrimSpace (row_Email row) in
      if String.eqb email "" then dedup_loop seen rows
      else
        let label := TrimSpace (row_Label row) in
        let key := dedup_key label email in
        if bool_decide (key ∈ seen) then dedup_loop seen rows
        else {| row_Label := label; row_Email := email |} :: dedup_loop ({[ key ]} ∪ seen) rows
  end.

Definition dedup (rows : list Row) : list Row := dedup_loop ∅ rows.

(** The grouping of [process]: the addresses in first-seen order, and the labels
    of each address. *)
Definition group_row (acc : list string * gmap string (list string)) (row : Row)
    : list string * gmap string (list string) :=
  let '(order, byEmail) := acc in
  let key := ToLower (row_Email row) in
  let order := match byEmail !! key with Some _ => order | None => order ++ [row_Email row] end in
  (order, <[key := default [] (byEmail !! key) ++ [row_Label row]]> byEmail).

Definition group (rows : list Row) : list string * gmap string (list string) :=
  fold_left group_row rows ([], ∅).
End Rows.

(** [newJobID]: the bytes [rand.Read] gives, [None] when it fails. *)
Definition newJobID (b : option (list ascii)) : string :=
  match b with
  | None => "job_000000000000000000000000"
  | Some b => "job_" +:+ hex_encode b
  end.

(** ** State *)

(** A worker goroutine: inside [Verify], or with results left to record. *)
Inductive worker := Verifying (email : string) | Recording (email : string) (todo : list Result).

(** Where the goroutine of a job is: [Submit] has created the job but not yet
    started it; [process] is dispatching addresses, or waits for its workers;
    [finish] has released the cancel function, or has read a running status;
    the goroutine has returned. *)
Inductive phase := Created | Dispatching | Draining | Released | Marking | Exited.

#[global] Instance phase_eq_decision : EqDecision phase.
Proof. solve_decision. Defined.

Record proc := {
  p_rows : list Row;         (* the deduplicated submission *)
  p_order : list string;     (* addresses not dispatched yet *)
  p_labels : gmap string (list string);
  p_slots : Z;               (* the capacity of the semaphore *)
  p_workers : list worker;   (* workers holding a slot *)
  p_done : bool;             (* the job's context is canceled *)
  p_phase : phase;
}.

(** A [Cancel] call under way: it has read a status that can be canceled, or
    has called the cancel function. *)
Inductive cancel_call := CRead (id : string) | CCalled (id : string).

(** The runner over a store of jobs. *)
Record runner_of (St : Type) := {
  r_store : St;
  r_concurrency : Z;
  r_maxEmails : Z;
  r_cancels : gset string;
  r_procs : gmap string proc;
  r_calls : list cancel_call;
}.
#[global] Arguments r_store {St} _.
#[global] Arguments r_concurrency {St} _.
#[global] Arguments r_maxEmails {St} _.
#[global] Arguments r_cancels {St} _.
#[global] Arguments r_procs {St} _.
#[global] Arguments r_calls {St} _.
#[global] Arguments Build_runner_of {St} _ _ _ _ _ _.
Abbreviation Runner := (runner_of job_store).

Record Config := { cfg_Concurrency : Z; cfg_MaxEmails : Z }.

(** [New], on an empty store; and on the in-memory one. *)
Definition New_on {St Er} `{JobStoreOps St Er} (cfg : Config) : runner_of St := {|
  r_store := js_empty;
  r_concurrency := if cfg_Concurrency cfg <=? 0 then defaultConcurrency else cfg_Concurrency cfg;
  r_maxEmails := if cfg_MaxEmails cfg <=? 0 then defaultMaxEmails else cfg_MaxEmails cfg;
  r_cancels := ∅; r_procs := ∅; r_calls := [] |}.
Definition New (cfg : Config) : Runner := New_on cfg.

Definition set_store {St} (st : St) (r : runner_of St) : runner_of St :=
  {| r_store := st; r_concurrency := r_concurrency r; r_maxEmails := r_maxEmails r;
     r_cancels := r_cancels r; r_procs := r_procs r; r_calls := r_calls r |}.
Definition set_proc {St} (id : string) (p : proc) (r : runner_of St) : runner_of St :=
  {| r_store := r_store r; r_concurrency := r_concurrency r; r_maxEmails := r_maxEmails r;
     r_cancels := r_cancels r; r_procs := <[id := p]> (r_procs r); r_calls := r_calls r |}.
Definition set_cancels {St} (c : gset string) (r : runner_of St) : runner_of St :=
  {| r_store := r_store r; r_concurrency := r_concurrency r; r_maxEmails := r_maxEmails r;
     r_cancels := c; r_procs := r_procs r; r_calls := r_calls r |}.
Definition set_calls {St} (c : list cancel_call) (r : runner_of St) : runner_of St :=
  {| r_store := r_store r; r_concurrency := r_concurrency r; r_maxEmails := r_maxEmails r;
     r_cancels := r_cancels r; r_procs := r_procs r; r_calls := c |}.

Definition with_workers (order : list string) (ws : list worker) (p : proc) : proc :=
  {| p_rows := p_rows p; p_order := order; p_labels := p_labels p; p_slots := p_slots p;
     p_workers := ws; p_done := p_done p; p_phase := p_phase p |}.
Definition with_phase (ph : phase) (p : proc) : proc :=
  {| p_rows := p_rows p; p_order := p_order p; p_labels := p_labels p; p_slots := p_slots p;
     p_workers := p_workers p; p_done := p_done p; p_phase := ph |}.
Definition with_done (p : proc) : proc :=
  {| p_rows := p_rows p; p_order := p_order p; p_labels := p_labels p; p_slots := p_slots p;
     p_workers := p_workers p; p_done := true; p_phase := p_phase p |}.

(** [SetLimits] *)
Definition SetLimits {St} (concurrency maxEmails : Z) (r : runner_of St) : runner_of St :=
  {| r_store := r_store r;
     r_concurrency := if concurrency >? 0 then concurrency else r_concurrency r;
     r_maxEmails := if maxEmails >? 0 then maxEmails else r_maxEmails r;
     r_cancels := r_cancels r; r_procs := r_procs r; r_calls := r_calls r |}.

(** ** Operations *)

Section Exec.
Context `{HU : UnicodeTables}.

(** What [Verify] returns for an address of a job ([None]: an error), and the
    time the runner stamps on the verdict it makes up for an error. *)
Variable answer : string -> string -> option Verdict.
Variable failed_at : string -> string -> Time.

(** The verdict recorded for an address. *)
Definition recorded (id email : string) : Verdict :=
  match answer id email with
  | Some v => v
  | None => {| Email := email; Normalized := ""; vStatus := StatusUnknown;
               vSubStatus := SubTemporaryFailure; Confidence := f64 0; vChecks := Checks_zero;
               Provider := ""; Engine := ""; EgressID := ""; Cached := false;
               CheckedAt := failed_at id email |}
  end.

(** The results a worker records for its address, one per label. *)
Definition results_of (id : string) (labels : gmap string (list string)) (email : string) : list Result :=
  (fun label => {| res_Label := label; res_Verdict := recorded id email |})
    <$> default [] (labels !! ToLower email).

(** A job as it is submitted, and its goroutine before it starts. *)
Definition new_job (id : string) (unique : list Row) (now : Time) : Job :=
  {| job_ID := id; job_Status := JobRunning; job_Total := len unique; job_Done := 0;
     job_CreatedAt := now; job_CompletedAt := None |}.
Definition new_proc (unique : list Row) : proc :=
  {| p_rows := unique; p_order := []; p_labels := ∅; p_slots := 0; p_workers := []; p_done := false; p_phase := Created |}.

(** [Submit] over the in-memory store, up to the creation of the job: the job it
    returns. *)
Definition Submit (id : string) (rows : list Row) (now : Time) (r : Runner)
    : result submit_error (Job * Runner) :=
  let unique := dedup rows in
  if len unique =? 0 then Err ErrNoEmails
  else if len unique >? r_maxEmails r then Err ErrTooManyEmails
  else
    let job := new_job id unique now in
    Ok (job, set_proc id (new_proc unique) (set_store (CreateJob job (r_store r)) r)).

Section Store.
Context {St Er : Type} `{HJ : JobStoreOps St Er}.

(** [Submit] over any store, whose error it returns when the job is not created. *)
Definition submit_on (id : string) (rows : list Row) (now : Time) (r : runner_of St)
    : result (submit_error + Er) (Job * runner_of St) :=
  let unique := dedup rows in
  if len unique =? 0 then Err (inl ErrNoEmails)
  else if len unique >? r_maxEmails r then Err (inl ErrTooManyEmails)
  else
    let job := new_job id unique now in
    match js_Create job (r_store r) with
    | Err e => Err (inr e)
    | Ok st => Ok (job, set_proc id (new_proc unique) (set_store st r))
    end.

(** The rest of [Submit] with the beginning of [process]: the cancel function is
    registered, the rows are grouped and the semaphore is made. *)
Definition start (r : runner_of St) (p : proc) : proc :=
  let '(order, byEmail) := group (p_rows p) in
  {| p_rows := p_rows p; p_order := order; p_labels := byEmail; p_slots := r_concurrency r;
     p_workers := []; p_done := p_done p; p_phase := Dispatching |}.

Inductive event :=
| ESubmit (id : string) (rows : list Row) (now : Time)
| EStart (id : string)
| EDispatch (id : string)          (* a slot is free: the next address gets a worker *)
| EStop (id : string)              (* the dispatch loop ends, by the context or the last address *)
| EVerified (id : string) (i : nat)  (* worker i returns from Verify *)
| ERecord (id : string) (i : nat) (now : Time)  (* worker i records one result *)
| ERefuse (id : string) (i : nat)  (* worker i: the store refuses the result, its error is dropped *)
| ELeave (id : string) (i : nat)   (* worker i releases its slot *)
| ERelease (id : string)           (* finish: the cancel function is called and dropped *)
| EInspect (id : string)           (* finish: GetJob *)
| EBlind (id : string)             (* finish: GetJob fails *)
| EMark (id : string) (now : Time) (* finish: SetStatus canceled *)
| EUnmarked (id : string)          (* finish: SetStatus fails *)
| ECancelRead (id : string)        (* Cancel: GetJob *)
| ECancelCall (i : nat)            (* Cancel call i: the cancel function *)
| ECancelMark (i : nat) (now : Time)  (* Cancel call i: SetStatus canceled *)
| ECancelLost (i : nat)            (* Cancel call i: SetStatus fails *)
| ELimits (concurrency maxEmails : Z).

(** Whether the next slot of the semaphore is free. *)
Definition slot_free (p : proc) : bool := len (p_workers p) <? p_slots p.

(** The steps of the goroutine of a job and of its workers, on the job's own
    state and the store. *)
Definition exec_proc (id : string) (p : proc) (st : St) (e : event) : option (proc * St) :=
  match e with
  | EDispatch _ =>
      match p_phase p, p_order p with
      | Dispatching, email :: rest =>
          if slot_free p then Some (with_workers rest (p_workers p ++ [Verifying email]) p, st) else None
      | _, _ => None
      end
  | EStop _ =>
      match p_phase p with
      | Dispatching =>
          if p_done p || bool_decide (p_order p = []) then Some (with_phase Draining p, st) else None
      | _ => None
      end
  | EVerified _ i =>
      match p_workers p !! i with
      | Some (Verifying email) =>
          Some (with_workers (p_order p)
                  (<[i := Recording email (results_of id (p_labels p) email)]> (p_workers p)) p, st)
      | _ => None
      end
  | ERecord _ i now =>
      match p_workers p !! i with
      | Some (Recording email (x :: todo)) =>
          let st' := match js_Append now id x st with Ok st' => st' | Err _ => st end in
          Some (with_workers (p_order p) (<[i := Recording email todo]> (p_workers p)) p, st')
      | _ => None
      end
  | ERefuse _ i =>
      match p_workers p !! i with
      | Some (Recording email (x :: todo)) =>
          Some (with_workers (p_order p) (<[i := Recording email todo]> (p_workers p)) p, st)
      | _ => None
      end
  | ELeave _ i =>
      match p_workers p !! i with
      | Some (Recording email []) => Some (with_workers (p_order p) (delete i (p_workers p)) p, st)
      | _ => None
      end
  | EInspect _ =>
      match p_phase p with
      | Released =>
          match js_Get id st with
          | Ok job => Some (with_phase (if bool_decide (job_Status job = JobRunning) then Marking else Exited) p, st)
          | Err _ => Some (with_phase Exited p, st)
          end
      | _ => None
      end
  | EBlind _ => match p_phase p with Released => Some (with_phase Exited p, st) | _ => None end
  | EUnmarked _ => match p_phase p with Marking => Some (with_phase Exited p, st) | _ => None end
  | EMark _ now =>
      match p_phase p with
      | Marking =>
          let st' := match js_SetStatus now id JobCanceled st with Ok st' => st' | Err _ => st end in
          Some (with_phase Exited p, st')
      | _ => None
      end
  | _ => None
  end.

Definition event_id (e : event) : option string :=
  match e with
  | EDispatch id | EStop id | EVerified id _ | ERecord id _ _ | ERefuse id _ | ELeave id _
  | EInspect id | EBlind id | EMark id _ | EUnmarked id => Some id
  | _ => None
  end.

(** [Cancel] up to the read of the status: [None] when it returns at once. *)
Definition Cancel_begin (id : string) (st : St) : result Er (option cancel_call) :=
  let? job := js_Get id st in
  Ok (match job_Status job with JobCompleted | JobCanceled => None | _ => Some (CRead id) end).

(** One step.  A submission draws a new identifier (96 random bits, taken to be
    different from those in use), and [EStart] is the registration of the cancel
    function together with the start of the goroutine, which sees it registered
    at once. *)
Definition exec (e : event) (r : runner_of St) : option (runner_of St) :=
  match event_id e with
  | Some id =>
      p ← r_procs r !! id;
      '(p', st') ← exec_proc id p (r_store r) e;
      Some (set_proc id p' (set_store st' r))
  | None =>
      match e with
      | ESubmit id rows now =>
          (* identifiers are 96 random bits: a submission gets a new one *)
          match js_Get id (r_store r), r_procs r !! id with
          | Err _, None => match submit_on id rows now r with Ok (_, r') => Some r' | Err _ => Some r end
          | _, _ => None
          end
      | EStart id =>
          p ← r_procs r !! id;
          match p_phase p with
          | Created => Some (set_cancels ({[ id ]} ∪ r_cancels r) (set_proc id (start r p) r))
          | _ => None
          end
      | ERelease id =>
          p ← r_procs r !! id;
          match p_phase p, p_workers p with
          | Draining, [] =>
              let p' := if bool_decide (id ∈ r_cancels r) then with_done p else p in
              Some (set_cancels (r_cancels r ∖ {[ id ]}) (set_proc id (with_phase Released p') r))
          | _, _ => None
          end
      | ECancelRead id =>
          match Cancel_begin id (r_store r) with
          | Ok (Some c) => Some (set_calls (r_calls r ++ [c]) r)
          | _ => Some r
          end
      | ECancelCall i =>
          match r_calls r !! i with
          | Some (CRead id) =>
              let r' := set_calls (<[i := CCalled id]> (r_calls r)) r in
              Some (if bool_decide (id ∈ r_cancels r) then
                      match r_procs r !! id with Some p => set_proc id (with_done p) r' | None => r' end
                    else r')
          | _ => None
          end
      | ECancelMark i now =>
          match r_calls r !! i with
          | Some (CCalled id) =>
              let st' := match js_SetStatus now id JobCanceled (r_store r) with Ok st' => st' | Err _ => r_store r end in
              Some (set_calls (delete i (r_calls r)) (set_store st' r))
          | _ => None
          end
      | ECancelLost i =>
          match r_calls r !! i with
          | Some (CCalled id) => Some (set_calls (delete i (r_calls r)) r)
          | _ => None
          end
      | ELimits c m => Some (SetLimits c m r)
      | _ => None
      end
  end.

Definition run (es : list event) (r : runner_of St) : option (runner_of St) :=
  fold_left (fun o e => o ≫= exec e) es (Some r).

(** The states the interleavings of events reach from a new runner. *)
Inductive reaches (cfg : Config) : list event -> runner_of St -> Prop :=
| reach_new : reaches cfg [] (New_on cfg)
| reach_step es r e r' : reaches cfg es r -> exec e r = Some r' -> reaches cfg (es ++ [e]) r'.

Lemma run_cons ev es r r' :
  run (ev :: es) r = Some r' ->
  exists r1, exec ev r = Some r1 /\ run es r1 = Some r'.
Proof.
  unfold run. simpl. destruct (exec ev r) as [r1|]; [eauto|].
  intros H. exfalso. revert H. clear. induction es as [|e es IH]; simpl; [done|exact IH].
Qed.

Lemma run_reaches cfg es : forall es0 r r', reaches cfg es0 r ->
  run es r = Some r' -> reaches cfg (es0 ++ es) r'.
Proof.
  induction es as [|ev es IH]; intros es0 r r' Hr Hrun.
  - injection Hrun as <-. by rewrite app_nil_r.
  - apply run_cons in Hrun as (r1 & Hx & Hrun). change (ev :: es) with ([ev] ++ es). rewrite app_assoc.
    eapply IH; [|done]. by econstructor.
Qed.

End Store.
End Exec.
