(* ===== verification/RunnerProps.v ===== *)
(** The bulk runner: what every interleaving guarantees.

    The grouping of a submission by address is related to a specification row
    by row; an invariant of the jobs is preserved by every event; the theorems
    read off it that a job records each row once, that a job nobody cancels
    completes, that every job ends, and what the race between [Cancel] and the
    last result can do. *)

From Stdlib Require Import QArith.
From S2P Require Import Prelude GoStrings Float64 GoTime Verdict Engine Settings Store Memory.
From S2P Require Import Builtin Runner.
Local Open Scope list_scope.
Local Open Scope Z_scope.

Section Guarantees.
Context `{HU : UnicodeTables}.

(** ** Grouping *)

(** The spelling under which an address of the rows is verified: the first one. *)
Definition first_as (rows : list Row) (email : string) : string :=
  match List.find (fun r => String.eqb (ToLower (row_Email r)) (ToLower email)) rows with
  | Some r => row_Email r
  | None => email
  end.

Variable answer : string -> string -> option Verdict.
Variable failed_at : string -> string -> Time.
Local Abbreviation recorded := (recorded answer failed_at).
Local Abbreviation results_of := (results_of answer failed_at).

(** What a job must record: for every row its label and the verdict of its address. *)
Definition row_result (id : string) (rows : list Row) (row : Row) : Result :=
  {| res_Label := row_Label row; res_Verdict := recorded id (first_as rows (row_Email row)) |}.

Definition expected (id : string) (rows : list Row) : list Result := row_result id rows <$> rows.

Lemma find_app_Some {A} (f : A -> bool) l1 l2 x : List.find f l1 = Some x -> List.find f (l1 ++ l2) = Some x.
Proof. induction l1 as [|y l1 IH]; simpl; [done|]. by destruct (f y). Qed.

Lemma find_app_None {A} (f : A -> bool) l1 l2 : List.find f l1 = None -> List.find f (l1 ++ l2) = List.find f l2.
Proof. induction l1 as [|y l1 IH]; simpl; [done|]. by destruct (f y). Qed.

Lemma first_as_seen rows row x :
  row ∈ rows -> ToLower (row_Email row) = ToLower x -> forall rows', first_as (rows ++ rows') x = first_as rows x.
Proof.
  intros Hin Hk rows'. unfold first_as.
  destruct (List.find _ rows) as [r|] eqn:E; [by rewrite (find_app_Some _ _ _ _ E)|].
  exfalso. eapply List.find_none in E; [|apply list_elem_of_In, Hin]. simpl in E.
  by rewrite Hk, String.eqb_refl in E.
Qed.

Lemma first_as_new rows row x :
  (forall r, r ∈ rows -> ToLower (row_Email r) <> ToLower x) -> ToLower (row_Email row) = ToLower x ->
  first_as (rows ++ [row]) x = row_Email row.
Proof.
  intros Hn Hk. unfold first_as. rewrite find_app_None.
  - simpl. by rewrite Hk, String.eqb_refl.
  - destruct (List.find _ rows) as [r|] eqn:E; [|done]. apply List.find_some in E as [Hin He].
    apply String.eqb_eq in He. exfalso. apply (Hn r); [by apply list_elem_of_In|done].
Qed.

(** The groups of the rows seen so far. *)
Record grouped (id : string) (rows : list Row) (order : list string) (byEmail : gmap string (list string)) : Prop := {
  gr_nodup : NoDup (ToLower <$> order);
  gr_dom k : is_Some (byEmail !! k) <-> k ∈ ToLower <$> order;
  gr_first e x : e ∈ order -> ToLower x = ToLower e -> first_as rows x = e;
  gr_rows row : row ∈ rows -> ToLower (row_Email row) ∈ ToLower <$> order;
  gr_seen k : k ∈ ToLower <$> order -> exists row, row ∈ rows /\ ToLower (row_Email row) = k;
  gr_results : concat (results_of id byEmail <$> order) ≡ₚ expected id rows;
}.

Lemma expected_snoc id rows row order byEmail :
  grouped id rows order byEmail ->
  expected id (rows ++ [row]) = expected id rows ++ [row_result id (rows ++ [row]) row].
Proof.
  intros G. unfold expected. rewrite fmap_app. f_equal.
  apply list_fmap_ext. intros i x Hx. unfold row_result. f_equal. f_equal.
  eapply first_as_seen; [eapply list_elem_of_lookup_2, Hx|done].
Qed.

Lemma results_of_insert_ne id byEmail k ls (order : list string) :
  k ∉ ToLower <$> order ->
  results_of id (<[k := ls]> byEmail) <$> order = results_of id byEmail <$> order.
Proof.
  intros Hk. apply list_fmap_ext. intros i x Hx. unfold Runner.results_of. rewrite lookup_insert_ne; [done|].
  intros ->. apply Hk, list_elem_of_fmap_2. eapply list_elem_of_lookup_2, Hx.
Qed.

(** A row of an address already seen adds a label to its group. *)
Lemma group_row_seen id rows order byEmail row ls :
  grouped id rows order byEmail -> byEmail !! ToLower (row_Email row) = Some ls ->
  grouped id (rows ++ [row]) order (<[ToLower (row_Email row) := ls ++ [row_Label row]]> byEmail).
Proof.
  intros G Ek. set (k := ToLower (row_Email row)) in *.
  assert (Hk : k ∈ ToLower <$> order) by (apply (gr_dom _ _ _ _ G); eauto).
  assert (Hold : forall e x, e ∈ order -> ToLower x = ToLower e -> first_as (rows ++ [row]) x = e).
  { intros e x He Hx. rewrite <- (gr_first _ _ _ _ G e x He Hx).
    destruct (gr_seen _ _ _ _ G (ToLower e)) as (r & Hr & Hre); [by apply list_elem_of_fmap_2|].
    eapply first_as_seen; [done|congruence]. }
  constructor; [apply (gr_nodup _ _ _ _ G)| |done| | |].
  - intros k'. destruct (decide (k' = k)) as [-> |Hne].
    + rewrite lookup_insert_eq. naive_solver.
    + rewrite lookup_insert_ne by done. apply (gr_dom _ _ _ _ G).
  - intros r [Hr| ->%list_elem_of_singleton]%elem_of_app; [by apply (gr_rows _ _ _ _ G)|done].
  - intros k' Hk'. destruct (gr_seen _ _ _ _ G k' Hk') as (r & ? & ?). exists r. set_solver.
  - rewrite (expected_snoc id rows row order byEmail G), <- (gr_results _ _ _ _ G).
    apply list_elem_of_fmap in Hk as (e & He & Hine).
    specialize (Hold e (row_Email row) Hine He).
    apply list_elem_of_split in Hine as (o1 & o2 & ->).
    pose proof (gr_nodup _ _ _ _ G) as Hnd. rewrite fmap_app, fmap_cons in Hnd.
    apply list.NoDup_app in Hnd as (_ & Hd & [Hn2 _]%list.NoDup_cons).
    rewrite !fmap_app, !fmap_cons, <- He in *.
    rewrite !(results_of_insert_ne id byEmail) by set_solver.
    rewrite !concat_app. cbn [concat].
    replace (results_of id (<[k:=ls ++ [row_Label row]]> byEmail) e)
      with (results_of id byEmail e ++ [row_result id (rows ++ [row]) row]); [solve_Permutation|].
    unfold Runner.results_of, row_result. rewrite Hold, <- He, lookup_insert_eq, Ek. simpl. by rewrite fmap_app.
Qed.

(** A row of a new address opens a group. *)
Lemma group_row_new id rows order byEmail row :
  grouped id rows order byEmail -> byEmail !! ToLower (row_Email row) = None ->
  grouped id (rows ++ [row]) (order ++ [row_Email row]) (<[ToLower (row_Email row) := [row_Label row]]> byEmail).
Proof.
  intros G Ek. set (k := ToLower (row_Email row)) in *.
  assert (Hk : k ∉ ToLower <$> order).
  { intros Hk. apply (gr_dom _ _ _ _ G) in Hk as [? ?]. congruence. }
  assert (Hnew : forall r, r ∈ rows -> ToLower (row_Email r) <> k).
  { intros r Hr Heq. apply Hk. rewrite <- Heq. by apply (gr_rows _ _ _ _ G). }
  constructor.
  - rewrite fmap_app. apply list.NoDup_app. split; [apply (gr_nodup _ _ _ _ G)|]. split; [set_solver|].
    apply NoDup_singleton.
  - intros k'. rewrite fmap_app. destruct (decide (k' = k)) as [-> |Hne].
    + rewrite lookup_insert_eq. split; [set_solver|eauto].
    + rewrite lookup_insert_ne by done. rewrite (gr_dom _ _ _ _ G). set_solver.
  - intros e x [He| ->%list_elem_of_singleton]%elem_of_app Hx.
    + rewrite <- (gr_first _ _ _ _ G e x He Hx).
      destruct (gr_seen _ _ _ _ G (ToLower e)) as (r & Hr & Hre); [by apply list_elem_of_fmap_2|].
      eapply first_as_seen; [done|congruence].
    + apply first_as_new; [|done]. intros r Hr. rewrite Hx. by apply Hnew.
  - intros r [Hr| ->%list_elem_of_singleton]%elem_of_app; rewrite fmap_app; [|set_solver].
    pose proof (gr_rows _ _ _ _ G r Hr). set_solver.
  - intros k' Hk'. rewrite fmap_app in Hk'. apply elem_of_app in Hk' as [Hk'|Hk'].
    + destruct (gr_seen _ _ _ _ G k' Hk') as (r & ? & ?). exists r. set_solver.
    + exists row. set_solver.
  - rewrite (expected_snoc id rows row order byEmail G), <- (gr_results _ _ _ _ G).
    rewrite fmap_app, concat_app, results_of_insert_ne by done. apply Permutation_app_head.
    simpl. rewrite app_nil_r. unfold Runner.results_of, row_result. fold k. rewrite lookup_insert_eq. simpl.
    by rewrite first_as_new.
Qed.

Lemma group_ok id rows : grouped id rows (group rows).1 (group rows).2.
Proof.
  unfold group.
  assert (H : forall todo done order byEmail, grouped id done order byEmail ->
    grouped id (done ++ todo) (fold_left group_row todo (order, byEmail)).1
      (fold_left group_row todo (order, byEmail)).2).
  { induction todo as [|row todo IH]; intros done order byEmail G; cbn [fold_left fst snd]; [by rewrite app_nil_r|].
    change (row :: todo) with ([row] ++ todo). rewrite app_assoc. unfold group_row at 2 4.
    destruct (byEmail !! ToLower (row_Email row)) as [ls|] eqn:Ek; apply IH;
      [by apply group_row_seen|by apply group_row_new]. }
  apply (H rows [] [] ∅). constructor; simpl; try set_solver.
  - apply NoDup_nil_2.
  - intros k. rewrite lookup_empty. split; [by intros []|set_solver].
Qed.

(** The addresses of [group] are written as in the rows. *)
Lemma group_addresses rows : (group rows).1 ⊆ row_Email <$> rows.
Proof.
  unfold group.
  assert (H : forall todo acc, (fold_left group_row todo acc).1 ⊆ acc.1 ++ (row_Email <$> todo)).
  { induction todo as [|row todo IH]; intros [order byEmail]; [simpl; by rewrite app_nil_r|].
    cbn [fold_left fmap list_fmap]. etransitivity; [apply IH|]. unfold group_row.
    destruct (byEmail !! _); cbn [fst]; set_solver. }
  apply (H rows ([], ∅)).
Qed.

(** ** The invariant of a job *)

Lemma concat_insert {A B} (f : A -> list B) ws i w w' d :
  ws !! i = Some w -> f w = d ++ f w' -> concat (f <$> ws) ≡ₚ d ++ concat (f <$> <[i := w']> ws).
Proof.
  intros Hi Hf. rewrite insert_take_drop by (eapply lookup_lt_Some, Hi).
  rewrite <- (take_drop_middle ws i w Hi) at 1.
  rewrite !fmap_app, !fmap_cons, !concat_app. cbn [concat]. rewrite Hf. solve_Permutation.
Qed.

Lemma concat_delete {A B} (f : A -> list B) ws i w :
  ws !! i = Some w -> f w = [] -> concat (f <$> delete i ws) = concat (f <$> ws).
Proof.
  intros Hi Hf. rewrite delete_take_drop. rewrite <- (take_drop_middle ws i w Hi) at 3.
  rewrite !fmap_app, !fmap_cons, !concat_app. cbn [concat]. by rewrite Hf.
Qed.

Lemma concat_nil_idle {A B} (f : A -> list B) ws : ws = [] -> concat (f <$> ws) = [].
Proof. by intros ->. Qed.

(** The results a worker still owes. *)
Definition owed (id : string) (labels : gmap string (list string)) (w : worker) : list Result :=
  match w with Verifying email => results_of id labels email | Recording _ todo => todo end.

Definition outstanding (id : string) (p : proc) : list Result :=
  concat (owed id (p_labels p) <$> p_workers p) ++ concat (results_of id (p_labels p) <$> p_order p).

(** The phases after the dispatch loop, and those of [finish]. *)
Definition stopped (ph : phase) : bool :=
  match ph with Draining | Released | Marking | Exited => true | _ => false end.
Definition finishing (ph : phase) : bool :=
  match ph with Released | Marking | Exited => true | _ => false end.

(** [c]: a [Cancel] of the job has begun, or the store has refused a result of
    it; [f]: the store has failed [finish]; [reg]: its cancel function is
    registered; [n]: the number of addresses handed to [Verify]; [k]: the number
    of results refused. *)
Record job_inv (c f reg : Prop) (n k : nat) (id : string) (p : proc) (e : jobEntry) : Prop := {
  ji_done : job_Done (je_job e) = len (je_results e);
  ji_total : job_Total (je_job e) = len (p_rows p);
  ji_rows : 0 < len (p_rows p);
  ji_created : p_phase p = Created -> je_results e = [] /\ p_workers p = [] /\ p_order p = [] /\ n = 0%nat /\ k = 0%nat;
  ji_conserved : p_phase p <> Created ->
    exists lost, length lost = k /\ je_results e ++ outstanding id p ++ lost ≡ₚ expected id (p_rows p);
  ji_refused : (0 < k)%nat -> c;
  ji_probes : p_phase p <> Created -> (n + length (p_order p))%nat = length (group (p_rows p)).1;
  ji_status :
    (job_Status (je_job e) = JobRunning /\ job_Done (je_job e) < job_Total (je_job e)) \/
    (job_Status (je_job e) = JobCompleted /\ job_Done (je_job e) = job_Total (je_job e)) \/
    (job_Status (je_job e) = JobCanceled /\ c);
  ji_stopped : stopped (p_phase p) = true -> p_order p = [] \/ c;
  ji_ctx : p_done p = true -> finishing (p_phase p) = true \/ c;
  ji_idle : finishing (p_phase p) = true -> p_workers p = [];
  ji_marking : p_phase p = Marking -> c;
  ji_exited : p_phase p = Exited -> job_Status (je_job e) <> JobRunning \/ f;
  ji_slots : p_phase p <> Created -> 0 < p_slots p /\ len (p_workers p) <= p_slots p;
  ji_reg : reg <-> p_phase p = Dispatching \/ p_phase p = Draining;
}.
#[local] Arguments ji_done {_ _ _ _ _ _ _ _} _.
#[local] Arguments ji_total {_ _ _ _ _ _ _ _} _.
#[local] Arguments ji_created {_ _ _ _ _ _ _ _} _.
#[local] Arguments ji_conserved {_ _ _ _ _ _ _ _} _.
#[local] Arguments ji_refused {_ _ _ _ _ _ _ _} _.
#[local] Arguments ji_probes {_ _ _ _ _ _ _ _} _.
#[local] Arguments ji_status {_ _ _ _ _ _ _ _} _.
#[local] Arguments ji_stopped {_ _ _ _ _ _ _ _} _.
#[local] Arguments ji_ctx {_ _ _ _ _ _ _ _} _.
#[local] Arguments ji_idle {_ _ _ _ _ _ _ _} _.
#[local] Arguments ji_marking {_ _ _ _ _ _ _ _} _.
#[local] Arguments ji_exited {_ _ _ _ _ _ _ _} _.
#[local] Arguments ji_slots {_ _ _ _ _ _ _ _} _.
#[local] Arguments ji_reg {_ _ _ _ _ _ _ _} _.

Lemma expected_len id rows : len (expected id rows) = len rows.
Proof. unfold len, expected. by rewrite length_fmap. Qed.

Lemma conserved_len id p e lost :
  je_results e ++ outstanding id p ++ lost ≡ₚ expected id (p_rows p) ->
  len (je_results e) + len (outstanding id p) + len lost = len (p_rows p).
Proof. intros H. rewrite <- (expected_len id), <- H, !len_app. lia. Qed.

(** A registered result is the next one of the job, or the job's last. *)
Lemma append_inv c f reg n k id p p' e now x :
  job_inv c f reg n k id p e -> p_phase p <> Created -> p_phase p' = p_phase p -> p_rows p' = p_rows p ->
  p_done p' = p_done p -> p_order p' = p_order p -> p_slots p' = p_slots p ->
  len (p_workers p') = len (p_workers p) -> finishing (p_phase p) = false ->
  outstanding id p ≡ₚ x :: outstanding id p' ->
  job_inv c f reg n k id p' (append_entry now x e).
Proof.
  intros I Hc Hph Hrows Hd Ho Hs Hw Hf Hout.
  destruct (ji_conserved I Hc) as (lost & Hk & Hcons). rewrite Hout in Hcons.
  assert (Hlen : len (je_results e) + 1 + len (outstanding id p') + len lost = len (p_rows p)).
  { rewrite <- (expected_len id), <- Hcons, len_app. unfold len. simpl. rewrite length_app. lia. }
  pose proof (len_nonneg (outstanding id p')). pose proof (len_nonneg lost).
  assert (Hjd : job_Done (je_job (append_entry now x e)) = job_Done (je_job e) + 1)
    by (unfold append_entry; by destruct (_ && _)).
  assert (Hjt : job_Total (je_job (append_entry now x e)) = job_Total (je_job e))
    by (unfold append_entry; by destruct (_ && _)).
  pose proof (ji_done I). pose proof (ji_total I).
  constructor; rewrite ?Hph, ?Hrows, ?Hd, ?Ho, ?Hs, ?Hw; try apply I.
  - rewrite Hjd. simpl. rewrite len_app. change (len [x]) with 1. lia.
  - rewrite Hjt. apply I.
  - done.
  - intros _. exists lost. split; [done|]. simpl. rewrite <- app_assoc. exact Hcons.
  - rewrite Hjd, Hjt. unfold append_entry. destruct (ji_status I) as [[-> ?]|[[-> ?]|[-> ?]]]; simpl.
    + destruct (_ >=? _) eqn:E; simpl; bool_to_prop; [right; left|left]; split; try done; lia.
    + lia.
    + auto.
  - intros Hp. by rewrite Hp in Hf.
  - intros Hp. by rewrite Hp in Hf.
Qed.

(** How many addresses of the job an event hands to [Verify]. *)
Definition dispatches (id : string) (e : event) : nat :=
  match e with EDispatch id' => if bool_decide (id' = id) then 1 else 0 | _ => 0 end.

Lemma dispatch_inv c f reg n k id p e email rest :
  job_inv c f reg n k id p e -> p_phase p = Dispatching -> p_order p = email :: rest -> slot_free p = true ->
  job_inv c f reg (n + 1) k id (with_workers rest (p_workers p ++ [Verifying email]) p) e.
Proof.
  intros I Hph Ho Hs. assert (Hc : p_phase p <> Created) by (by rewrite Hph).
  constructor; cbn [with_workers p_phase p_rows p_order p_workers p_done p_slots]; try apply I; rewrite ?Hph; try done.
  - intros _. destruct (ji_conserved I Hc) as (lost & Hk & Hcons). exists lost. split; [done|]. rewrite <- Hcons.
    apply Permutation_app_head, Permutation_app_tail.
    unfold outstanding. simpl. rewrite Ho, fmap_app, concat_app. simpl. rewrite app_nil_r. solve_Permutation.
  - intros _. rewrite <- (ji_probes I Hc), Ho. simpl. lia.
  - intros _. destruct (ji_slots I Hc). unfold slot_free in Hs. bool_to_prop.
    rewrite len_app. change (len [_]) with 1. lia.
Qed.

(** A worker's private step: it owes the same results before and after. *)
Lemma worker_inv c f reg n k id p e ws :
  job_inv c f reg n k id p e -> p_phase p <> Created -> finishing (p_phase p) = false ->
  len ws <= len (p_workers p) ->
  concat (owed id (p_labels p) <$> ws) = concat (owed id (p_labels p) <$> p_workers p) ->
  job_inv c f reg n k id (with_workers (p_order p) ws p) e.
Proof.
  intros I Hc Hf Hl Ho.
  constructor; cbn [with_workers p_phase p_rows p_order p_workers p_done p_slots]; try apply I; try done.
  - intros _. unfold outstanding. simpl. rewrite Ho. exact (ji_conserved I Hc).
  - intros Hp. by rewrite Hf in Hp.
  - intros _. destruct (ji_slots I Hc). lia.
Qed.

Lemma worker_active c f reg n k id p e i w :
  job_inv c f reg n k id p e -> p_workers p !! i = Some w -> p_phase p <> Created /\ finishing (p_phase p) = false.
Proof.
  intros I Hi. split.
  - intros Hph. destruct (ji_created I Hph) as (_ & Hw & _). by rewrite Hw in Hi.
  - destruct (finishing (p_phase p)) eqn:E; [|done]. rewrite (ji_idle I E) in Hi. done.
Qed.

(** The steps of the job's goroutine that move between phases. *)
Lemma phase_inv c f reg n k id p e ph :
  job_inv c f reg n k id p e -> p_phase p <> Created -> ph <> Created ->
  (stopped ph = true -> p_order p = [] \/ c) ->
  (p_done p = true -> finishing ph = true \/ c) ->
  (finishing ph = true -> p_workers p = []) ->
  (ph = Marking -> c) -> (ph = Exited -> job_Status (je_job e) <> JobRunning \/ f) ->
  (reg <-> ph = Dispatching \/ ph = Draining) ->
  job_inv c f reg n k id (with_phase ph p) e.
Proof.
  intros I Hc Hn Hs Hd Hi Hm He Hr.
  constructor; cbn [with_phase p_phase p_rows p_order p_workers p_done p_slots]; try apply I; auto; try done.
  - intros _. exact (ji_conserved I Hc).
  - intros _. exact (ji_probes I Hc).
  - intros _. exact (ji_slots I Hc).
Qed.

(** Every result is recorded or refused when the job is released, unless it is
    cancelled. *)
Lemma released_complete c f reg n k id p e :
  job_inv c f reg n k id p e -> finishing (p_phase p) = true -> p_order p = [] ->
  (exists lost, length lost = k /\ je_results e ++ lost ≡ₚ expected id (p_rows p)) /\
  job_Done (je_job e) + Z.of_nat k = job_Total (je_job e).
Proof.
  intros I Hf Ho. assert (Hc : p_phase p <> Created) by (intros Hp; by rewrite Hp in Hf).
  destruct (ji_conserved I Hc) as (lost & Hk & Hcons).
  assert (Hz : outstanding id p = []) by (unfold outstanding; by rewrite Ho, (ji_idle I Hf)).
  pose proof (conserved_len _ _ _ _ Hcons) as Hlen. rewrite Hz in Hcons, Hlen. split; [by exists lost|].
  rewrite (ji_done I), (ji_total I), <- Hlen. unfold len in *. simpl. lia.
Qed.

Lemma status_inv c f reg n k id p e now :
  c -> job_inv c f reg n k id p e -> job_inv c f reg n k id p (status_entry now JobCanceled e).
Proof.
  intros Hc I. constructor; unfold status_entry; simpl; try apply I; auto.
Qed.

Lemma stop_inv c f reg n k id p e :
  job_inv c f reg n k id p e -> p_phase p = Dispatching -> p_done p || bool_decide (p_order p = []) = true ->
  job_inv c f reg n k id (with_phase Draining p) e.
Proof.
  intros I Hph Hd.
  assert (Hctx : p_done p = true -> c).
  { intros Hd'. destruct (ji_ctx I Hd') as [H|H]; [by rewrite Hph in H|done]. }
  apply phase_inv; rewrite ?Hph; auto; try done.
  - intros _. apply orb_true_iff in Hd as [Hd|Hd]; [auto|left; by apply bool_decide_eq_true_1 in Hd].
  - rewrite (ji_reg I), Hph. naive_solver.
Qed.

Lemma inspect_inv c f reg n k id p e :
  job_inv c f reg n k id p e -> p_phase p = Released ->
  job_inv c f reg n k id (with_phase (if bool_decide (job_Status (je_job e) = JobRunning) then Marking else Exited) p) e.
Proof.
  intros I Hph. assert (Hfin : finishing (p_phase p) = true) by (by rewrite Hph).
  assert (Hreg : ~ reg) by (rewrite (ji_reg I), Hph; naive_solver).
  case_bool_decide as Hr; apply phase_inv; rewrite ?Hph; auto; try done;
    try (intros _; apply (ji_stopped I); by rewrite Hph); try (intros _; by apply (ji_idle I));
    try (by split; [intros|intros []]).
  intros _. destruct (ji_stopped I) as [Ho|]; [by rewrite Hph| |done].
  destruct (released_complete _ _ _ _ _ _ _ _ I Hfin Ho) as [_ Hd].
  destruct (ji_status I) as [[? ?]|[[? ?]|[? ?]]]; [|congruence|congruence]. apply (ji_refused I). lia.
Qed.

Lemma mark_inv c f reg n k id p e now :
  job_inv c f reg n k id p e -> p_phase p = Marking ->
  job_inv c f reg n k id (with_phase Exited p) (status_entry now JobCanceled e).
Proof.
  intros I Hph. assert (Hcc : c) by (by apply (ji_marking I)).
  apply (phase_inv c f reg n k id p); rewrite ?Hph; auto; try done.
  - by apply status_inv.
  - intros _. apply (ji_idle I). by rewrite Hph.
  - rewrite (ji_reg I), Hph. naive_solver.
Qed.

(** How many results of the job an event is refused. *)
Definition refuses (id : string) (e : event) : nat :=
  match e with ERefuse id' _ => if bool_decide (id' = id) then 1 else 0 | _ => 0 end.

(** A refused result is owed no longer, and lost. *)
Lemma refuse_inv c f reg n k id p p' e x :
  c -> job_inv c f reg n k id p e -> p_phase p <> Created -> finishing (p_phase p) = false ->
  p_phase p' = p_phase p -> p_rows p' = p_rows p -> p_done p' = p_done p -> p_order p' = p_order p ->
  p_slots p' = p_slots p -> len (p_workers p') = len (p_workers p) ->
  outstanding id p ≡ₚ x :: outstanding id p' -> job_inv c f reg n (k + 1) id p' e.
Proof.
  intros HC I Hc Hf Hph Hrows Hd Ho Hs Hw Hout. destruct (ji_conserved I Hc) as (lost & Hk & Hcons).
  constructor; rewrite ?Hph, ?Hrows, ?Hd, ?Ho, ?Hs, ?Hw; try apply I; try done.
  - intros _. exists (lost ++ [x]). rewrite length_app, Hk. split; [done|]. rewrite <- Hcons, Hout. solve_Permutation.
  - intros Hp. by rewrite Hp in Hf.
Qed.

(** The end of [finish] when the store fails it. *)
Lemma failed_finish_inv (c f reg : Prop) n k id p e :
  f -> job_inv c f reg n k id p e -> p_phase p = Released \/ p_phase p = Marking -> job_inv c f reg n k id (with_phase Exited p) e.
Proof.
  intros Hfail I Hph. assert (Hfin : finishing (p_phase p) = true) by (by destruct Hph as [-> | ->]).
  assert (Hreg : ~ reg) by (rewrite (ji_reg I); destruct Hph as [-> | ->]; naive_solver).
  apply phase_inv; auto; try done.
  - by destruct Hph as [-> | ->].
  - intros _. apply (ji_stopped I). by destruct Hph as [-> | ->].
  - intros _. by apply (ji_idle I).
  - split; [done|]. by intros [].
Qed.

Lemma exec_proc_inv c f reg n k id p e st ev p' st' :
  ((0 < refuses id ev)%nat -> c) -> (ev = EBlind id \/ ev = EUnmarked id -> f) ->
  job_inv c f reg n k id p e -> st !! id = Some e -> event_id ev = Some id ->
  exec_proc answer failed_at id p st ev = Some (p', st') ->
  exists e', st' = <[id := e']> st /\ job_inv c f reg (n + dispatches id ev) (k + refuses id ev) id p' e'.
Proof.
  intros HC HF I He Hid Hx. assert (Hst : st = <[id := e]> st) by (by rewrite insert_id).
  destruct ev; simpl in Hid; simplify_eq; simpl in Hx; simpl; rewrite ?Nat.add_0_r.
  - rewrite bool_decide_eq_true_2 by done.
    destruct (p_phase p) eqn:Hph; try done. destruct (p_order p) as [|email rest] eqn:Ho; [done|].
    destruct (slot_free p) eqn:Hs; simplify_eq. exists e. split; [done|]. by apply dispatch_inv.
  - destruct (p_phase p) eqn:Hph; try done. destruct (_ || _) eqn:Hd; simplify_eq. exists e. split; [done|].
    by apply stop_inv.
  - destruct (p_workers p !! i) as [[email|]|] eqn:Hi; simplify_eq. exists e. split; [done|].
    destruct (worker_active c f reg n k id p e i _ I Hi) as [Hc Hf].
    apply worker_inv; try done; [unfold len; by rewrite length_insert|].
    rewrite list_fmap_insert. simpl. rewrite list_insert_id; [done|]. by rewrite list_lookup_fmap, Hi.
  - destruct (p_workers p !! i) as [[|email [|x todo]]|] eqn:Hi; simplify_eq.
    destruct (worker_active c f reg n k id p e i _ I Hi) as [Hc Hf].
    unfold AppendResult. rewrite He. exists (append_entry now x e). split; [done|].
    eapply append_inv; try done; [simpl; unfold len; by rewrite length_insert|].
    unfold outstanding. simpl. change (x :: ?a ++ ?b) with (([x] ++ a) ++ b). apply Permutation_app_tail.
    by eapply concat_insert.
  - rewrite bool_decide_eq_true_2 by done.
    destruct (p_workers p !! i) as [[|email [|x todo]]|] eqn:Hi; simplify_eq.
    destruct (worker_active c f reg n k id p e i _ I Hi) as [Hc Hf]. exists e. split; [done|].
    eapply (refuse_inv _ _ _ _ _ _ _ _ _ x); try done; [apply HC; cbn; rewrite bool_decide_eq_true_2 by done; lia|simpl; unfold len; by rewrite length_insert|].
    unfold outstanding. simpl. change (x :: ?a ++ ?b) with (([x] ++ a) ++ b). apply Permutation_app_tail.
    by eapply concat_insert.
  - destruct (p_workers p !! i) as [[|email [|]]|] eqn:Hi; simplify_eq. exists e. split; [done|].
    destruct (worker_active c f reg n k id p e i _ I Hi) as [Hc Hf].
    apply worker_inv; try done; [|by eapply concat_delete].
    unfold len. rewrite length_delete by eauto. lia.
  - destruct (p_phase p) eqn:Hph; try done. unfold GetJob in Hx. rewrite He in Hx. simplify_eq. exists e.
    split; [done|]. by apply inspect_inv.
  - destruct (p_phase p) eqn:Hph; simplify_eq. exists e. split; [done|]. apply failed_finish_inv; auto.
  - destruct (p_phase p) eqn:Hph; try done. unfold SetStatus in Hx. rewrite He in Hx. simplify_eq.
    exists (status_entry now JobCanceled e). split; [done|]. by apply mark_inv.
  - destruct (p_phase p) eqn:Hph; simplify_eq. exists e. split; [done|]. apply failed_finish_inv; auto.
Qed.

(** ** The invariant of the runner *)

Definition call_id (cc : cancel_call) : string := match cc with CRead id | CCalled id => id end.

Definition probes (id : string) (es : list event) : nat := sum_list (dispatches id <$> es).

Lemma probes_snoc id es ev : probes id (es ++ [ev]) = (probes id es + dispatches id ev)%nat.
Proof. unfold probes. rewrite fmap_app, sum_list_with_app. simpl. lia. Qed.

Definition refusals (id : string) (es : list event) : nat := sum_list (refuses id <$> es).

Lemma refusals_snoc id es ev : refusals id (es ++ [ev]) = (refusals id es + refuses id ev)%nat.
Proof. unfold refusals. rewrite fmap_app, sum_list_with_app. simpl. lia. Qed.

(** A job that someone cancels or the store has refused a result of, and one
    whose last step the store has failed. *)
Definition troubled (id : string) (es : list event) : Prop := ECancelRead id ∈ es \/ (0 < refusals id es)%nat.
Definition unfinished (id : string) (es : list event) : Prop := EBlind id ∈ es \/ EUnmarked id ∈ es.

(** The invariant of a job after a sequence of events. *)
Definition job_inv_at (es : list event) (reg : Prop) (id : string) (p : proc) (e : jobEntry) : Prop :=
  job_inv (troubled id es) (unfinished id es) reg (probes id es) (refusals id es) id p e.

Record run_inv (es : list event) (r : Runner) : Prop := {
  ri_conc : 0 < r_concurrency r;
  ri_jobs id p : r_procs r !! id = Some p -> exists e, r_store r !! id = Some e /\
    job_inv_at es (id ∈ r_cancels r) id p e;
  ri_calls cc : cc ∈ r_calls r -> ECancelRead (call_id cc) ∈ es /\ is_Some (r_procs r !! call_id cc);
  ri_store id : is_Some (r_store r !! id) -> is_Some (r_procs r !! id);
  ri_fresh id : r_procs r !! id = None -> probes id es = 0%nat /\ refusals id es = 0%nat /\ id ∉ r_cancels r;
}.

Lemma job_inv_mono (c c' f f' reg reg' : Prop) n n' k k' id p e :
  job_inv c f reg n k id p e -> (c -> c') -> (f -> f') -> (reg <-> reg') -> n = n' -> k = k' ->
  job_inv c' f' reg' n' k' id p e.
Proof. intros I Hc Hf Hr <- <-. destruct I. constructor; auto; naive_solver. Qed.

(** An event that hands nothing of the job over and is refused nothing of it. *)
Definition quiet (id : string) (ev : event) : Prop := dispatches id ev = 0%nat /\ refuses id ev = 0%nat.

Lemma job_inv_later es ev (reg reg' : Prop) n k id p e :
  job_inv (troubled id es) (unfinished id es) reg n k id p e -> (reg <-> reg') ->
  job_inv (troubled id (es ++ [ev])) (unfinished id (es ++ [ev])) reg' n k id p e.
Proof.
  intros I Hr. eapply job_inv_mono; [exact I| | |exact Hr|done|done]; unfold troubled, unfinished; rewrite ?refusals_snoc; [|set_solver].
  intros [H|H]; [left; set_solver|right; lia].
Qed.

Lemma job_inv_quiet es ev (reg reg' : Prop) id p e :
  job_inv_at es reg id p e -> (reg <-> reg') -> quiet id ev -> job_inv_at (es ++ [ev]) reg' id p e.
Proof.
  intros I Hr [H1 H2]. unfold job_inv_at. rewrite probes_snoc, (refusals_snoc id es ev), H1, H2, !Nat.add_0_r.
  by eapply job_inv_later.
Qed.

(** An event of one job: the other jobs and the other calls are as they were. *)
Lemma run_inv_job es ev r r' id p' e' :
  run_inv es r -> 0 < r_concurrency r' ->
  r_procs r' = <[id := p']> (r_procs r) -> r_store r' = <[id := e']> (r_store r) ->
  (forall id', id' <> id -> quiet id' ev /\ (id' ∈ r_cancels r' <-> id' ∈ r_cancels r)) ->
  (forall cc, cc ∈ r_calls r' -> ECancelRead (call_id cc) ∈ es ++ [ev] /\ is_Some (r_procs r' !! call_id cc)) ->
  job_inv_at (es ++ [ev]) (id ∈ r_cancels r') id p' e' ->
  run_inv (es ++ [ev]) r'.
Proof.
  intros I Hc Hp Hs Ho Hcc Hj. constructor; [done|rewrite Hp, Hs|exact Hcc|rewrite Hp, Hs|rewrite Hp].
  - intros id' p. destruct (decide (id' = id)) as [-> |Hne].
    + rewrite lookup_insert_eq. intros [= <-]. exists e'. rewrite lookup_insert_eq. done.
    + rewrite lookup_insert_ne by done. intros Hl. destruct (ri_jobs _ _ I id' p Hl) as (e & He & Hi).
      exists e. rewrite lookup_insert_ne by done. split; [done|].
      destruct (Ho id' Hne) as [Hd Hr]. by eapply job_inv_quiet.
  - intros id'. destruct (decide (id' = id)) as [-> |Hne]; [by rewrite !lookup_insert_eq|].
    rewrite !lookup_insert_ne by done. apply (ri_store _ _ I).
  - intros id'. destruct (decide (id' = id)) as [-> |Hne]; [by rewrite lookup_insert_eq|].
    rewrite lookup_insert_ne, probes_snoc, refusals_snoc by done. intros Hn. destruct (ri_fresh _ _ I id' Hn) as (H1 & H2 & H3).
    destruct (Ho id' Hne) as [[-> ->] Hr]. rewrite Hr, H1, H2. done.
Qed.

(** An event that touches no job. *)
Lemma run_inv_other es ev r r' :
  run_inv es r -> (forall id, quiet id ev) ->
  0 < r_concurrency r' -> r_procs r' = r_procs r -> r_store r' = r_store r -> r_cancels r' = r_cancels r ->
  (forall cc, cc ∈ r_calls r' -> cc ∈ r_calls r \/
     ECancelRead (call_id cc) ∈ es ++ [ev] /\ is_Some (r_procs r !! call_id cc)) ->
  run_inv (es ++ [ev]) r'.
Proof.
  intros I Hd Hc Hp Hs Hr Hcc. constructor; rewrite ?Hp, ?Hs, ?Hr; auto.
  - intros id p Hl. destruct (ri_jobs _ _ I id p Hl) as (e & He & Hi). exists e.
    split; [done|]. by eapply job_inv_quiet.
  - intros cc Hin. destruct (Hcc cc Hin) as [H|H]; [|done].
    destruct (ri_calls _ _ I cc H). set_solver.
  - apply (ri_store _ _ I).
  - intros id Hn. rewrite probes_snoc, refusals_snoc. destruct (Hd id) as [-> ->]. by rewrite !Nat.add_0_r; apply (ri_fresh _ _ I).
Qed.

Lemma submit_inv (c f reg : Prop) id rows now maxEmails :
  ~ reg -> (len (dedup rows) =? 0) = false -> (len (dedup rows) >? maxEmails) = false ->
  job_inv c f reg 0 0 id
    {| p_rows := dedup rows; p_order := []; p_labels := ∅; p_slots := 0; p_workers := [];
       p_done := false; p_phase := Created |}
    {| je_job := {| job_ID := id; job_Status := JobRunning; job_Total := len (dedup rows); job_Done := 0;
                    job_CreatedAt := now; job_CompletedAt := None |}; je_results := [] |}.
Proof.
  intros Hr H0 _. bool_to_prop. pose proof (len_nonneg (dedup rows)).
  constructor; simpl; try done; try lia.
  - left. split; [done|lia].
  - naive_solver.
Qed.

Lemma start_inv (c f reg reg' : Prop) n k id p e (r : Runner) :
  job_inv c f reg n k id p e -> p_phase p = Created -> 0 < r_concurrency r -> reg' ->
  job_inv c f reg' n k id (start r p) e.
Proof.
  intros I Hph Hc Hr. destruct (ji_created I Hph) as (Hres & Hw & Ho & -> & ->).
  unfold start. destruct (group (p_rows p)) as [order byEmail] eqn:Hg.
  constructor; simpl; try apply I; try done.
  - intros _. exists []. split; [done|]. rewrite Hres, app_nil_r. unfold outstanding. simpl.
    pose proof (gr_results _ _ _ _ (group_ok id (p_rows p))) as HG. by rewrite Hg in HG.
  - intros _. by rewrite Hg.
  - intros Hd. destruct (ji_ctx I Hd) as [H|H]; [by rewrite Hph in H|by right].
  - intros _. unfold len. simpl. lia.
  - split; auto.
Qed.

Lemma release_inv (c f reg reg' : Prop) n k id p e (b : bool) :
  job_inv c f reg n k id p e -> p_phase p = Draining -> p_workers p = [] -> ~ reg' ->
  job_inv c f reg' n k id (with_phase Released (if b then with_done p else p)) e.
Proof.
  intros I Hph Hw Hr. assert (Hc : p_phase p <> Created) by (by rewrite Hph).
  assert (Hcons := ji_conserved I Hc). assert (Hpr := ji_probes I Hc).
  assert (Hsl := ji_slots I Hc).
  assert (Ho : p_order p = [] \/ c) by (apply (ji_stopped I); by rewrite Hph).
  destruct b; constructor; simpl; try apply I; auto; try done; naive_solver.
Qed.

Lemma done_inv c f reg n k id p e : c -> job_inv c f reg n k id p e -> job_inv c f reg n k id (with_done p) e.
Proof. intros Hc I. destruct I. constructor; simpl; auto. Qed.

Lemma run_inv_calls es ev r (P : gmap string proc) cc :
  run_inv es r -> (forall id, is_Some (r_procs r !! id) -> is_Some (P !! id)) -> cc ∈ r_calls r ->
  ECancelRead (call_id cc) ∈ es ++ [ev] /\ is_Some (P !! call_id cc).
Proof. intros I HP Hin. destruct (ri_calls _ _ I cc Hin). set_solver. Qed.

Lemma insert_is_Some {A} (m : gmap string A) i x id : is_Some (m !! id) -> is_Some (<[i := x]> m !! id).
Proof. rewrite lookup_insert_is_Some'. auto. Qed.

Hint Resolve insert_is_Some : core.

Lemma exec_own_inv es ev r r' id :
  run_inv es r -> event_id ev = Some id -> exec answer failed_at ev r = Some r' -> run_inv (es ++ [ev]) r'.
Proof.
  intros I Hid Hx. unfold exec in Hx. rewrite Hid in Hx.
  destruct (r_procs r !! id) as [p|] eqn:Hp; [|done]. simpl in Hx.
  destruct (exec_proc answer failed_at id p (r_store r) ev) as [[p' st']|] eqn:Ep; simplify_eq/=.
  destruct (ri_jobs _ _ I id p Hp) as (e & He & Hj).
  assert (Hc : (0 < refuses id ev)%nat -> troubled id (es ++ [ev])) by (right; rewrite refusals_snoc; lia).
  assert (Hf : ev = EBlind id \/ ev = EUnmarked id -> unfinished id (es ++ [ev])) by (unfold unfinished; set_solver).
  destruct (exec_proc_inv _ _ _ _ _ _ _ _ _ _ _ _ Hc Hf (job_inv_later es ev _ _ _ _ _ _ _ Hj (iff_refl _)) He Hid Ep) as (e' & Hst & Hj').
  eapply (run_inv_job es ev r _ id p' e' I); simpl; try done; [apply I| | |].
  - intros id' Hne. split; [|done]. unfold quiet. destruct ev; simpl in *; simplify_eq; try done; by rewrite bool_decide_eq_false_2.
  - intros cc Hin. eapply run_inv_calls; eauto.
  - unfold job_inv_at. by rewrite probes_snoc, (refusals_snoc id es ev).
Qed.

Lemma submit_run_inv es r r' id rows now :
  run_inv es r -> exec answer failed_at (ESubmit id rows now) r = Some r' -> run_inv (es ++ [ESubmit id rows now]) r'.
Proof.
  intros I Hx. unfold exec in Hx. cbn [event_id] in Hx.
  destruct (js_Get id (r_store r)) as [job|er]; [done|]. destruct (r_procs r !! id) eqn:Hp; [done|].
  unfold submit_on in Hx.
  assert (Hsame : run_inv (es ++ [ESubmit id rows now]) r) by (eapply run_inv_other; try done; [apply I|auto]).
  destruct (len (dedup rows) =? 0) eqn:E0; [by simplify_eq|].
  destruct (len (dedup rows) >? r_maxEmails r) eqn:E1; simplify_eq/=; [done|].
  destruct (ri_fresh _ _ I id Hp) as (Hd & Hk & Hc).
  eapply (run_inv_job es _ r _ id); simpl; try done; [apply I| |].
  - intros cc Hin. eapply run_inv_calls; eauto.
  - unfold job_inv_at. rewrite probes_snoc, (refusals_snoc id es), Hd, Hk. by eapply submit_inv.
Qed.

Lemma cancel_call_run_inv es r r' i :
  run_inv es r -> exec answer failed_at (ECancelCall i) r = Some r' -> run_inv (es ++ [ECancelCall i]) r'.
Proof.
  intros I Hx. unfold exec in Hx. cbn [event_id] in Hx. destruct (r_calls r !! i) as [[id|]|] eqn:Hi; simplify_eq.
  assert (Hin : CRead id ∈ r_calls r) by (by eapply list_elem_of_lookup_2).
  destruct (ri_calls _ _ I _ Hin) as [Hc [p Hp]]. simpl in Hc, Hp. rewrite Hp.
  assert (Hcalls : forall cc, cc ∈ <[i := CCalled id]> (r_calls r) -> call_id cc = id \/ cc ∈ r_calls r).
  { intros cc [j Hj]%list_elem_of_lookup. destruct (decide (j = i)) as [-> |].
    - rewrite list_lookup_insert_eq in Hj by (eapply lookup_lt_Some, Hi). left. by simplify_eq.
    - rewrite list_lookup_insert_ne in Hj by done. right. by eapply list_elem_of_lookup_2. }
  destruct (ri_jobs _ _ I id p Hp) as (e & He & Hj).
  case_bool_decide as Hreg.
  - eapply (run_inv_job es _ r _ id (with_done p) e I); simpl; try done; [apply I|by rewrite insert_id| |].
    + intros cc Hcc. destruct (Hcalls cc Hcc) as [-> |Hcc']; [|eapply run_inv_calls; eauto].
      rewrite lookup_insert_eq. set_solver.
    + apply done_inv; [left; set_solver|]. by apply (job_inv_quiet es _ _ _ _ _ _ Hj).
  - eapply run_inv_other; simpl; try done; [apply I|].
    intros cc Hcc. destruct (Hcalls cc Hcc) as [-> |]; [right|by left]. set_solver.
Qed.

Lemma cancel_mark_run_inv es r r' i now :
  run_inv es r -> exec answer failed_at (ECancelMark i now) r = Some r' -> run_inv (es ++ [ECancelMark i now]) r'.
Proof.
  intros I Hx. unfold exec in Hx. cbn [event_id] in Hx. destruct (r_calls r !! i) as [[|id]|] eqn:Hi; simplify_eq.
  assert (Hin : CCalled id ∈ r_calls r) by (by eapply list_elem_of_lookup_2).
  destruct (ri_calls _ _ I _ Hin) as [Hc [p Hp]]. simpl in Hc, Hp.
  destruct (ri_jobs _ _ I id p Hp) as (e & He & Hj). cbn [js_SetStatus memory_jobs]. unfold SetStatus. rewrite He.
  eapply (run_inv_job es _ r _ id p (status_entry now JobCanceled e) I); simpl; try done; [apply I|by rewrite insert_id| |].
  - intros cc Hcc. rewrite delete_take_drop in Hcc. eapply run_inv_calls; [done|done|].
    rewrite <- (take_drop_middle _ _ _ Hi). set_solver.
  - apply status_inv; [left; set_solver|]. by apply (job_inv_quiet es _ _ _ _ _ _ Hj).
Qed.

Lemma cancel_lost_run_inv es r r' i :
  run_inv es r -> exec answer failed_at (ECancelLost i) r = Some r' -> run_inv (es ++ [ECancelLost i]) r'.
Proof.
  intros I Hx. unfold exec in Hx. cbn [event_id] in Hx. destruct (r_calls r !! i) as [[|id]|] eqn:Hi; simplify_eq.
  eapply run_inv_other; simpl; try done; [apply I|]. intros cc Hcc. left. rewrite delete_take_drop in Hcc.
  rewrite <- (take_drop_middle _ _ _ Hi). set_solver.
Qed.

Lemma exec_inv es ev r r' :
  run_inv es r -> exec answer failed_at ev r = Some r' -> run_inv (es ++ [ev]) r'.
Proof.
  intros I Hx. destruct (event_id ev) as [id|] eqn:Hid; [by eapply exec_own_inv|].
  destruct ev as [id rows now|id| | | | | | |id| | | | |id|i|i now|i|cn m]; try done.
  - by eapply submit_run_inv.
  - unfold exec in Hx. cbn [event_id] in Hx. destruct (r_procs r !! id) as [p|] eqn:Hp; [|done]. cbn [mbind option_bind] in Hx.
    destruct (p_phase p) eqn:Hph; simplify_eq. destruct (ri_jobs _ _ I id p Hp) as (e & He & Hj).
    eapply (run_inv_job es _ r _ id (start r p) e I); simpl; try done; [apply I|by rewrite insert_id|intros ? ?; split; [done|set_solver]| |].
    + intros cc Hin. eapply run_inv_calls; eauto.
    + eapply start_inv; [|done|apply I|set_solver]. by eapply job_inv_quiet.
  - unfold exec in Hx. cbn [event_id] in Hx. destruct (r_procs r !! id) as [p|] eqn:Hp; [|done]. cbn [mbind option_bind] in Hx.
    destruct (p_phase p) eqn:Hph; try done. destruct (p_workers p) eqn:Hw; simplify_eq.
    destruct (ri_jobs _ _ I id p Hp) as (e & He & Hj).
    eapply (run_inv_job es _ r _ id _ e I); simpl; try done; [apply I|by rewrite insert_id|intros ? ?; split; [done|set_solver]| |].
    + intros cc Hin. eapply run_inv_calls; eauto.
    + eapply release_inv; [|done|done|set_solver]. by eapply job_inv_quiet.
  - unfold exec, Cancel_begin in Hx. cbn [event_id js_Get memory_jobs] in Hx.
    destruct (GetJob id (r_store r)) as [job|er] eqn:Hg;
      [|simplify_eq; eapply run_inv_other; try done; [apply I|auto]].
    assert (His : is_Some (r_procs r !! id)).
    { apply (ri_store _ _ I). unfold GetJob in Hg. destruct (r_store r !! id); [eauto|done]. }
    destruct (job_Status job); simplify_eq; (eapply run_inv_other; simpl; try done; [apply I|]);
      intros cc Hin; try (by left); apply elem_of_app in Hin as [Hin| ->%list_elem_of_singleton];
      try (by left); right; set_solver.
  - by eapply cancel_call_run_inv.
  - by eapply cancel_mark_run_inv.
  - by eapply cancel_lost_run_inv.
  - unfold exec in Hx. cbn [event_id] in Hx. simplify_eq. eapply run_inv_other; simpl; try done; [|auto].
    pose proof (ri_conc _ _ I). destruct (cn >? 0) eqn:E; bool_to_prop; lia.
Qed.

Lemma reaches_inv cfg es r : reaches answer failed_at cfg es r -> run_inv es r.
Proof.
  induction 1 as [|es r ev r' _ IH Hx]; [|by eapply exec_inv].
  constructor; simpl; try done; try set_solver.
  - unfold New. simpl. destruct (_ <=? 0) eqn:E; bool_to_prop; [done|lia].
  - intros id. by rewrite lookup_empty; intros [].
Qed.

(** ** Termination *)

(** The job whose goroutines perform an event. *)
Definition owner (e : event) : option string :=
  match e with EStart id | ERelease id => Some id | _ => event_id e end.

Definition own_steps (id : string) (es : list event) : nat :=
  length (List.filter (fun e => bool_decide (owner e = Some id)) es).

Definition rank (ph : phase) : nat :=
  match ph with Created => 6 | Dispatching => 5 | Draining => 4 | Released => 2 | Marking => 1 | Exited => 0 end.

Definition address_cost (id : string) (labels : gmap string (list string)) (email : string) : nat :=
  3 + length (results_of id labels email).

Definition worker_cost (id : string) (labels : gmap string (list string)) (w : worker) : nat :=
  match w with
  | Verifying email => 2 + length (results_of id labels email)
  | Recording _ todo => 1 + length todo
  end.

(** The number of steps a job has left at most. *)
Definition steps_left (id : string) (p : proc) : nat :=
  rank (p_phase p) +
  match p_phase p with
  | Created => sum_list (address_cost id (group (p_rows p)).2 <$> (group (p_rows p)).1)
  | _ => sum_list (address_cost id (p_labels p) <$> p_order p) +
         sum_list (worker_cost id (p_labels p) <$> p_workers p)
  end.

Lemma sum_insert {A} (f : A -> nat) ws i w w' :
  ws !! i = Some w -> (sum_list (f <$> <[i := w']> ws) + f w = sum_list (f <$> ws) + f w')%nat.
Proof.
  intros Hi. rewrite insert_take_drop by (eapply lookup_lt_Some, Hi).
  rewrite <- (take_drop_middle ws i w Hi) at 3.
  rewrite !fmap_app, !fmap_cons, !sum_list_with_app. simpl. lia.
Qed.

Lemma sum_delete {A} (f : A -> nat) ws i w :
  ws !! i = Some w -> (sum_list (f <$> delete i ws) + f w = sum_list (f <$> ws))%nat.
Proof.
  intros Hi. rewrite delete_take_drop. rewrite <- (take_drop_middle ws i w Hi) at 3.
  rewrite !fmap_app, !fmap_cons, !sum_list_with_app. simpl. lia.
Qed.

Lemma exec_proc_steps id p st ev p' st' e c f reg n k :
  job_inv c f reg n k id p e -> exec_proc answer failed_at id p st ev = Some (p', st') ->
  (steps_left id p' < steps_left id p)%nat.
Proof.
  intros I Hx. destruct ev; simpl in Hx; try done.
  - destruct (p_phase p) eqn:Hph; try done. destruct (p_order p) as [|email rest] eqn:Ho; [done|].
    destruct (slot_free p); simplify_eq. unfold steps_left. simpl. rewrite Hph, Ho, fmap_app, sum_list_with_app, !fmap_cons.
    simpl. lia.
  - destruct (p_phase p) eqn:Hph; try done. destruct (_ || _); simplify_eq. unfold steps_left. simpl.
    rewrite Hph. simpl. lia.
  - destruct (p_workers p !! i) as [[email|]|] eqn:Hi; simplify_eq.
    destruct (worker_active _ _ _ _ _ _ _ _ _ _ I Hi) as [Hc _].
    unfold steps_left. simpl. destruct (p_phase p) eqn:Hph; try done;
      epose proof (sum_insert (worker_cost id (p_labels p)) _ _ _ (Recording email (results_of id (p_labels p) email)) Hi);
      simpl in *; lia.
  - destruct (p_workers p !! i) as [[|email [|x todo]]|] eqn:Hi; simplify_eq.
    destruct (worker_active _ _ _ _ _ _ _ _ _ _ I Hi) as [Hc _].
    unfold steps_left. simpl. destruct (p_phase p) eqn:Hph; try done;
      epose proof (sum_insert (worker_cost id (p_labels p)) _ _ _ (Recording email todo) Hi); simpl in *; lia.
  - destruct (p_workers p !! i) as [[|email [|x todo]]|] eqn:Hi; simplify_eq.
    destruct (worker_active _ _ _ _ _ _ _ _ _ _ I Hi) as [Hc _].
    unfold steps_left. simpl. destruct (p_phase p) eqn:Hph; try done;
      epose proof (sum_insert (worker_cost id (p_labels p)) _ _ _ (Recording email todo) Hi); simpl in *; lia.
  - destruct (p_workers p !! i) as [[|email [|]]|] eqn:Hi; simplify_eq.
    destruct (worker_active _ _ _ _ _ _ _ _ _ _ I Hi) as [Hc _].
    unfold steps_left. simpl. destruct (p_phase p) eqn:Hph; try done;
      epose proof (sum_delete (worker_cost id (p_labels p)) _ _ _ Hi); simpl in *; lia.
  - destruct (p_phase p) eqn:Hph; try done. destruct (GetJob id st); simplify_eq; unfold steps_left; simpl;
      rewrite Hph; [case_bool_decide|]; simpl; lia.
  - destruct (p_phase p) eqn:Hph; simplify_eq. unfold steps_left. simpl. rewrite Hph. simpl. lia.
  - destruct (p_phase p) eqn:Hph; simplify_eq. unfold steps_left. simpl. rewrite Hph. simpl. lia.
  - destruct (p_phase p) eqn:Hph; simplify_eq. unfold steps_left. simpl. rewrite Hph. simpl. lia.
Qed.

Lemma with_done_steps id p : steps_left id (with_done p) = steps_left id p.
Proof. done. Qed.

Lemma start_steps id (r : Runner) p : p_phase p = Created -> (steps_left id (start r p) < steps_left id p)%nat.
Proof.
  intros Hph. unfold steps_left, start. rewrite Hph. destruct (group (p_rows p)) as [order byEmail]. simpl. lia.
Qed.

Lemma release_steps id (b : bool) p :
  p_phase p = Draining -> (steps_left id (with_phase Released (if b then with_done p else p)) < steps_left id p)%nat.
Proof. intros Hph. unfold steps_left. destruct b; simpl; rewrite Hph; simpl; lia. Qed.

(** A step of the job's goroutines brings it nearer to its end; the other events
    do not send it back. *)
Lemma exec_steps es ev r r' id p :
  run_inv es r -> exec answer failed_at ev r = Some r' -> r_procs r !! id = Some p ->
  exists p', r_procs r' !! id = Some p' /\
    (steps_left id p' + (if bool_decide (owner ev = Some id) then 1 else 0) <= steps_left id p)%nat.
Proof.
  intros I Hx Hp. unfold exec in Hx. destruct (event_id ev) as [id'|] eqn:Hid.
  - assert (Ho : owner ev = Some id') by (by destruct ev).
    destruct (r_procs r !! id') as [q|] eqn:Hq; [|done]. simpl in Hx.
    destruct (exec_proc _ _ id' q (r_store r) ev) as [[q' st']|] eqn:Ep; simplify_eq/=. rewrite Ho.
    destruct (decide (id' = id)) as [-> |Hne].
    + assert (q = p) as -> by congruence. destruct (ri_jobs _ _ I id p Hp) as (e & He & Hj). exists q'. rewrite lookup_insert_eq.
      split; [done|]. pose proof (exec_proc_steps _ _ _ _ _ _ _ _ _ _ _ _ Hj Ep). case_bool_decide; lia.
    + exists p. rewrite lookup_insert_ne by done. split; [done|]. rewrite bool_decide_eq_false_2 by congruence. lia.
  - destruct ev as [id' rows now|id'| | | | | | |id'| | | | |id'|i|i now|i|cn m]; try done; cbn [owner event_id];
      try (rewrite (bool_decide_eq_false_2 (None = Some id)) by done; cbn iota).
    + destruct (js_Get id' (r_store r)) as [job|er]; [done|]. destruct (r_procs r !! id') eqn:Hn; [done|].
      assert (id' <> id) by congruence. unfold submit_on in Hx.
      exists p. destruct (_ =? 0); [|destruct (_ >? _)]; simplify_eq/=; rewrite ?lookup_insert_ne by done; (split; [done|lia]).
    + destruct (r_procs r !! id') as [q|] eqn:Hq; [|done]. simpl in Hx. destruct (p_phase q) eqn:Hph; simplify_eq/=.
      destruct (decide (id' = id)) as [-> |Hne].
      * assert (q = p) as -> by congruence. exists (start r p). rewrite lookup_insert_eq. split; [done|].
        pose proof (start_steps id r p Hph). case_bool_decide; lia.
      * exists p. rewrite lookup_insert_ne by done. split; [done|]. rewrite bool_decide_eq_false_2 by congruence. lia.
    + destruct (r_procs r !! id') as [q|] eqn:Hq; [|done]. cbn [mbind option_bind] in Hx.
      destruct (p_phase q) eqn:Hph; try done. destruct (p_workers q) eqn:Hw; simplify_eq.
      cbn [r_procs set_cancels set_proc]. destruct (decide (id' = id)) as [-> |Hne].
      * assert (q = p) as -> by congruence. eexists. rewrite lookup_insert_eq. split; [done|].
        pose proof (release_steps id (bool_decide (id ∈ r_cancels r)) p Hph).
        rewrite (bool_decide_eq_true_2 (Some id = Some id)) by done. lia.
      * exists p. rewrite lookup_insert_ne by done. split; [done|]. rewrite bool_decide_eq_false_2 by congruence. lia.
    + exists p. destruct (Cancel_begin _ _) as [[|]|]; simplify_eq/=; (split; [done|lia]).
    + destruct (r_calls r !! i) as [[id'|]|]; simplify_eq/=.
      destruct (bool_decide _); [|exists p; split; [done|simpl; lia]].
      destruct (r_procs r !! id') as [q|] eqn:Hq; [|exists p; split; [done|simpl; lia]]. simpl.
      destruct (decide (id' = id)) as [-> |Hne].
      * assert (q = p) as -> by congruence. exists (with_done p). rewrite lookup_insert_eq, with_done_steps. split; [done|lia].
      * exists p. rewrite lookup_insert_ne by done. split; [done|lia].
    + destruct (r_calls r !! i) as [[|id']|]; simplify_eq/=. exists p. split; [done|lia].
    + destruct (r_calls r !! i) as [[|id']|]; simplify_eq/=. exists p. split; [done|lia].
    + simplify_eq/=. exists p. split; [done|lia].
Qed.

Lemma exec_own_some id p st ev p' st' r :
  event_id ev = Some id -> r_procs r !! id = Some p -> r_store r = st ->
  exec_proc answer failed_at id p st ev = Some (p', st') -> is_Some (exec answer failed_at ev r).
Proof. intros Hid Hp <- Hx. unfold exec. rewrite Hid, Hp. simpl. rewrite Hx. simpl. eauto. Qed.

(** A worker that holds a slot can always take its next step. *)
Lemma worker_step id p r :
  r_procs r !! id = Some p -> p_workers p <> [] ->
  exists ev, owner ev = Some id /\ is_Some (exec answer failed_at ev r).
Proof.
  intros Hp Hw. destruct (p_workers p) as [|w ws] eqn:E; [done|].
  destruct w as [email|email [|x todo]];
    [exists (EVerified id 0)|exists (ELeave id 0)|exists (ERecord id 0 0)]; (split; [done|]);
    (eapply exec_own_some; [done|exact Hp|done|]); simpl; by rewrite E.
Qed.

Lemma job_progress es r id p :
  run_inv es r -> r_procs r !! id = Some p -> p_phase p <> Exited ->
  exists ev, owner ev = Some id /\ is_Some (exec answer failed_at ev r).
Proof.
  intros I Hp Hx. destruct (ri_jobs _ _ I id p Hp) as (e & He & Hj).
  destruct (p_phase p) eqn:Hph; try done.
  - exists (EStart id). split; [done|]. unfold exec. simpl. rewrite Hp. simpl. rewrite Hph. eauto.
  - destruct (p_order p) as [|email rest] eqn:Ho.
    + exists (EStop id). split; [done|]. eapply exec_own_some; [done|exact Hp|done|]. cbn [exec_proc].
      by rewrite Hph, Ho, orb_true_r.
    + destruct (slot_free p) eqn:Hs.
      * exists (EDispatch id). split; [done|]. eapply exec_own_some; [done|exact Hp|done|]. simpl. by rewrite Hph, Ho, Hs.
      * eapply worker_step; [done|]. intros Hw. destruct (ji_slots Hj) as [H _]; [by rewrite Hph|].
        unfold slot_free in Hs. rewrite Hw in Hs. bool_to_prop. unfold len in Hs. simpl in Hs. lia.
  - destruct (p_workers p) as [|w ws] eqn:Hw.
    + exists (ERelease id). split; [done|]. unfold exec. cbn [event_id]. rewrite Hp. simpl. rewrite Hph, Hw. eauto.
    + eapply worker_step; [done|]. by rewrite Hw.
  - exists (EInspect id). split; [done|]. eapply exec_own_some; [done|exact Hp|done|]. simpl. rewrite Hph.
    unfold GetJob. by rewrite He.
  - exists (EMark id 0). split; [done|]. eapply exec_own_some; [done|exact Hp|done|]. simpl. by rewrite Hph.
Qed.

(** The rows of a job are those it was submitted with. *)
Lemma exec_proc_rows id p st ev p' st' : exec_proc answer failed_at id p st ev = Some (p', st') -> p_rows p' = p_rows p.
Proof. intros Hx. destruct ev; cbn in Hx; repeat (case_match; simplify_eq/=; try done); by simplify_eq/=. Qed.

(** What the events of the runner itself do to the job [p]: nothing, its start,
    a cancellation or its release. *)
Inductive outside (r : Runner) (p : proc) : proc -> Prop :=
| out_same : outside r p p
| out_start : p_phase p = Created -> outside r p (start r p)
| out_done : outside r p (with_done p)
| out_release : p_phase p = Draining -> outside r p (with_phase Released p)
| out_release_done : p_phase p = Draining -> outside r p (with_phase Released (with_done p)).

Lemma exec_cases ev (r r' : Runner) id p :
  exec answer failed_at ev r = Some r' -> r_procs r !! id = Some p -> exists p', r_procs r' !! id = Some p' /\
  (event_id ev = Some id /\ (exists st', exec_proc answer failed_at id p (r_store r) ev = Some (p', st')) \/
   event_id ev <> Some id /\ outside r p p').
Proof.
  intros Hx Hp.
  assert (Hset : forall id1 p1 (r1 : Runner), r_procs r1 = r_procs r ->
    (forall q, r_procs r !! id1 = Some q -> outside r q p1) ->
    exists p', r_procs (set_proc id1 p1 r1) !! id = Some p' /\ outside r p p').
  { intros id1 p1 r1 Hr H1. cbn. rewrite Hr. destruct (decide (id1 = id)) as [->|Hne].
    - exists p1. rewrite lookup_insert_eq. auto.
    - exists p. rewrite lookup_insert_ne by done. split; [done|constructor]. }
  unfold exec in Hx. destruct (event_id ev) as [id1|] eqn:Hid.
  - destruct (r_procs r !! id1) as [q|] eqn:Hq; [|done]. cbn [mbind option_bind] in Hx.
    destruct (exec_proc _ _ _ _ _ _) as [[p1 st1]|] eqn:Ep; [|done]. apply (inj Some) in Hx. subst r'.
    destruct (decide (id1 = id)) as [->|Hne].
    + assert (q = p) as -> by congruence. exists p1. split; [apply lookup_insert_eq|]. left. eauto.
    + exists p. split; [by etransitivity; [apply lookup_insert_ne|]|]. right. split; [congruence|constructor].
  - assert (Hout : exists p', r_procs r' !! id = Some p' /\ outside r p p'); [|destruct Hout as (p' & ? & ?); exists p'; auto].
    assert (Hkeep : forall r1 : Runner, r_procs r1 = r_procs r -> exists p', r_procs r1 !! id = Some p' /\ outside r p p')
      by (intros r1 ->; exists p; split; [done|constructor]).
    destruct ev as [id1 rows now|id1| | | | | | |id1| | | | |id1|i|i now|i|cn m]; try done.
    + destruct (js_Get id1 (r_store r)); [done|]. destruct (r_procs r !! id1) eqn:Hn; [done|]. unfold submit_on in Hx.
      destruct (_ =? 0); [simplify_eq; auto|]. destruct (_ >? _); [simplify_eq; auto|]. cbn [js_Create memory_jobs] in Hx.
      apply (inj Some) in Hx. subst r'. apply Hset; [done|]. congruence.
    + destruct (r_procs r !! id1) as [q|] eqn:Hq; [|done]. cbn [mbind option_bind] in Hx. destruct (p_phase q) eqn:Hph; try done.
      apply (inj Some) in Hx. subst r'. apply (Hset id1 (start r q) r); [done|]. intros q' Hq'. assert (q' = q) as -> by congruence.
      by constructor.
    + destruct (r_procs r !! id1) as [q|] eqn:Hq; [|done]. cbn [mbind option_bind] in Hx. destruct (p_phase q) eqn:Hph; try done.
      destruct (p_workers q); [|done]. apply (inj Some) in Hx. subst r'. apply (Hset id1 _ r); [done|]. intros q' Hq'.
      assert (q' = q) as -> by congruence. destruct (bool_decide _); by constructor.
    + destruct (Cancel_begin _ _) as [[|]|]; simplify_eq/=; auto.
    + destruct (r_calls r !! i) as [[id1|]|]; try done. apply (inj Some) in Hx. subst r'. destruct (bool_decide _); [|auto].
      destruct (r_procs r !! id1) as [q|] eqn:Hq; [|auto]. apply Hset; [done|]. intros q' Hq'.
      assert (q' = q) as -> by congruence. constructor.
    + destruct (r_calls r !! i) as [[|id1]|]; simplify_eq/=; auto.
    + destruct (r_calls r !! i) as [[|id1]|]; simplify_eq/=; auto.
    + simplify_eq/=. auto.
Qed.

Lemma outside_rows r p p' : outside r p p' -> p_rows p' = p_rows p.
Proof. destruct 1; try done. unfold start. by destruct (group (p_rows p)). Qed.

Lemma exec_rows ev (r r' : Runner) id p :
  exec answer failed_at ev r = Some r' -> r_procs r !! id = Some p -> exists p', r_procs r' !! id = Some p' /\ p_rows p' = p_rows p.
Proof.
  intros Hx Hp. destruct (exec_cases ev r r' id p Hx Hp) as (p' & Hp' & [(_ & st' & Hs)|(_ & Ho)]); exists p'; (split; [done|]).
  - by eapply exec_proc_rows.
  - by eapply outside_rows.
Qed.

Lemma run_rows es : forall (r r' : Runner) id p,
  run answer failed_at es r = Some r' -> r_procs r !! id = Some p -> exists p', r_procs r' !! id = Some p' /\ p_rows p' = p_rows p.
Proof.
  induction es as [|ev es IH]; intros r r' id p Hrun Hp; [injection Hrun as <-; eauto|].
  apply run_cons in Hrun as (r1 & Hx & Hrun). destruct (exec_rows ev r r1 id p Hx Hp) as (p1 & Hp1 & <-). by eapply IH.
Qed.

Lemma run_steps id es : forall es0 r r' p,
  run_inv es0 r -> r_procs r !! id = Some p -> run answer failed_at es r = Some r' ->
  exists p', r_procs r' !! id = Some p' /\ (own_steps id es + steps_left id p' <= steps_left id p)%nat.
Proof.
  induction es as [|ev es IH]; intros es0 r r' p I Hp Hrun.
  - injection Hrun as <-. exists p. split; [done|]. unfold own_steps. simpl. lia.
  - apply run_cons in Hrun as (r1 & Hx & Hrun).
    destruct (exec_steps _ _ _ _ _ _ I Hx Hp) as (p1 & Hp1 & H1).
    destruct (IH _ _ _ _ (exec_inv _ _ _ _ I Hx) Hp1 Hrun) as (p' & Hp' & H').
    exists p'. split; [done|]. unfold own_steps in *. simpl. destruct (bool_decide _); simpl in *; lia.
Qed.

(** ** The addresses a job verifies *)

(** The addresses [Verify] is running on. *)
Definition verifying (ws : list worker) : list string :=
  omap (fun w => match w with Verifying email => Some email | Recording _ _ => None end) ws.

(** The address the worker an [EDispatch] has just started calls [Verify] with. *)
Definition started (p' : proc) (ev : event) : list string :=
  match ev with EDispatch _ => verifying (drop (length (p_workers p') - 1) (p_workers p')) | _ => [] end.

(** The address of the call of [Verify] an [EVerified] returns from. *)
Definition returned (p : proc) (ev : event) : list string :=
  match ev with EVerified _ i => verifying (option_list (p_workers p !! i)) | _ => [] end.

(** The addresses [Verify] was called with for the job [id] during a run, in
    order, read off the workers the run starts, and the addresses whose calls
    have returned. *)
Fixpoint calls_of (id : string) (es : list event) (r : Runner) : list string * list string :=
  match es with
  | [] => ([], [])
  | ev :: es' =>
      match exec answer failed_at ev r with
      | Some r' =>
          let '(called, back) := calls_of id es' r' in
          if bool_decide (event_id ev = Some id)
          then (default [] (flip started ev <$> r_procs r' !! id) ++ called,
                default [] (flip returned ev <$> r_procs r !! id) ++ back)
          else (called, back)
      | None => ([], [])
      end
  end.

(** The calls made and returned so far against what the job has left to do. *)
Definition calls_ok (p : proc) (called back : list string) : Prop :=
  match p_phase p with
  | Created => called = [] /\ back = [] /\ p_workers p = []
  | _ => called ++ p_order p = (group (p_rows p)).1 /\ back ++ verifying (p_workers p) ≡ₚ called
  end.

Lemma calls_ok_running p called back :
  p_phase p <> Created ->
  (calls_ok p called back <-> called ++ p_order p = (group (p_rows p)).1 /\ back ++ verifying (p_workers p) ≡ₚ called).
Proof. unfold calls_ok. by destruct (p_phase p). Qed.

Lemma verifying_app ws ws' : verifying (ws ++ ws') = verifying ws ++ verifying ws'.
Proof. apply omap_app. Qed.

Lemma verifying_insert ws i w w' :
  ws !! i = Some w -> verifying [w] ++ verifying (<[i := w']> ws) ≡ₚ verifying [w'] ++ verifying ws.
Proof.
  intros Hi. rewrite (insert_take_drop ws i w') by (by eapply lookup_lt_Some).
  rewrite <- (take_drop_middle ws i w Hi) at 3.
  change (w' :: drop (S i) ws) with ([w'] ++ drop (S i) ws). change (w :: drop (S i) ws) with ([w] ++ drop (S i) ws).
  rewrite !verifying_app. solve_Permutation.
Qed.

Lemma verifying_delete ws i w : ws !! i = Some w -> verifying ws ≡ₚ verifying [w] ++ verifying (delete i ws).
Proof.
  intros Hi. rewrite delete_take_drop. rewrite <- (take_drop_middle ws i w Hi) at 1.
  change (w :: drop (S i) ws) with ([w] ++ drop (S i) ws). rewrite !verifying_app. solve_Permutation.
Qed.

Lemma outside_calls r p p' called back : outside r p p' -> calls_ok p called back -> calls_ok p' called back.
Proof.
  destruct 1 as [|Hc| |Hd|Hd]; try done.
  - unfold calls_ok. rewrite Hc. intros (-> & -> & Hw). unfold start.
    destruct (group (p_rows p)) as [o b] eqn:G. cbn [p_phase p_order p_rows p_workers verifying omap list_omap app]. by rewrite G.
  - unfold calls_ok. by rewrite Hd.
  - unfold calls_ok. by rewrite Hd.
Qed.

Lemma exec_proc_calls id p st ev p' st' called back :
  exec_proc answer failed_at id p st ev = Some (p', st') -> calls_ok p called back ->
  calls_ok p' (called ++ started p' ev) (back ++ returned p ev).
Proof.
  intros Hx Hok. pose proof (exec_proc_rows _ _ _ _ _ _ Hx) as Hrows.
  assert (Hidle : forall q, p_phase p <> Created -> p_phase q <> Created -> p_rows q = p_rows p -> p_order q = p_order p ->
    verifying (p_workers q) ≡ₚ verifying (p_workers p) -> calls_ok q (called ++ []) (back ++ [])).
  { intros q Hp Hq Hr Ho Hw. rewrite !app_nil_r. apply calls_ok_running in Hok; [|done]. apply calls_ok_running; [done|].
    by rewrite Hr, Ho, Hw. }
  assert (Hbusy : forall i w, p_workers p !! i = Some w -> p_phase p <> Created).
  { intros i w Hi Hc. unfold calls_ok in Hok. rewrite Hc in Hok. destruct Hok as (_ & _ & Hw). by rewrite Hw in Hi. }
  destruct ev as [| |?|?|? i|? i now|? i|? i| |?|?|? now|?|?|?|?|?|?]; cbn [exec_proc] in Hx; try done.
  - destruct (p_phase p) eqn:Hph; try done. destruct (p_order p) as [|email rest] eqn:Ho; [done|].
    destruct (slot_free p); [|done]. simplify_eq. apply calls_ok_running in Hok as [Hc Hb]; [|by rewrite Hph].
    apply calls_ok_running; [by cbn; rewrite Hph|]. cbn [started returned with_workers p_workers p_order p_rows].
    rewrite length_app, drop_app_ge by (simpl; lia). replace (length (p_workers p) + _ - 1 - _)%nat with 0%nat by (simpl; lia).
    rewrite Ho in Hc. cbn [drop verifying omap list_omap]. split; [by rewrite <- app_assoc|].
    by rewrite app_nil_r, verifying_app, app_assoc, Hb.
  - destruct (p_phase p) eqn:Hph; try done. destruct (_ || _); simplify_eq. apply Hidle; by rewrite ?Hph.
  - destruct (p_workers p !! i) as [[email|]|] eqn:Hi; simplify_eq. pose proof (Hbusy _ _ Hi) as Hph.
    apply calls_ok_running in Hok as [Hc Hb]; [|done]. apply calls_ok_running; [done|].
    cbn [started returned with_workers p_workers p_order p_rows]. rewrite Hi, app_nil_r. split; [done|].
    rewrite <- app_assoc. cbn [option_list]. rewrite (verifying_insert _ _ _ _ Hi). exact Hb.
  - destruct (p_workers p !! i) as [[|email [|x todo]]|] eqn:Hi; simplify_eq. pose proof (Hbusy _ _ Hi) as Hph.
    apply Hidle; try done. cbn [with_workers p_workers]. pose proof (verifying_insert _ _ _ (Recording email todo) Hi) as Hv. exact Hv.
  - destruct (p_workers p !! i) as [[|email [|x todo]]|] eqn:Hi; simplify_eq. pose proof (Hbusy _ _ Hi) as Hph.
    apply Hidle; try done. cbn [with_workers p_workers]. pose proof (verifying_insert _ _ _ (Recording email todo) Hi) as Hv. exact Hv.
  - destruct (p_workers p !! i) as [[|email [|]]|] eqn:Hi; simplify_eq. pose proof (Hbusy _ _ Hi) as Hph.
    apply Hidle; try done. cbn [with_workers p_workers]. symmetry. exact (verifying_delete _ _ _ Hi).
  - destruct (p_phase p) eqn:Hph; try done. destruct (js_Get _ _); simplify_eq; apply Hidle; rewrite ?Hph; try done.
    simpl. by destruct (bool_decide _).
  - destruct (p_phase p) eqn:Hph; simplify_eq. apply Hidle; by rewrite ?Hph.
  - destruct (p_phase p) eqn:Hph; simplify_eq. apply Hidle; by rewrite ?Hph.
  - destruct (p_phase p) eqn:Hph; simplify_eq. apply Hidle; by rewrite ?Hph.
Qed.

Lemma exec_new ev (r r' : Runner) id p' :
  exec answer failed_at ev r = Some r' -> r_procs r !! id = None -> r_procs r' !! id = Some p' ->
  calls_ok p' [] [] /\ event_id ev <> Some id.
Proof.
  intros Hx Hn Hp'.
  assert (Hold : forall (r1 : Runner) id1 p1, r_procs r1 = r_procs r -> is_Some (r_procs r !! id1) -> r_procs (set_proc id1 p1 r1) !! id = Some p' -> False).
  { intros r1 id1 p1 Hr [q Hq] H. cbn in H. rewrite Hr, lookup_insert_ne in H; [congruence|]. intros ->. congruence. }
  assert (Hkeep : forall r1 : Runner, r_procs r1 = r_procs r -> r_procs r1 !! id = Some p' -> False) by congruence.
  unfold exec in Hx. destruct (event_id ev) as [id1|] eqn:Hid.
  - destruct (r_procs r !! id1) as [q|] eqn:Hq; [|done]. cbn [mbind option_bind] in Hx.
    destruct (exec_proc _ _ _ _ _ _) as [[p1 st1]|]; [|done]. apply (inj Some) in Hx. subst r'. exfalso. by eapply (Hold (set_store st1 r)).
  - split; [|done]. destruct ev as [id1 rows now|id1| | | | | | |id1| | | | |id1|i|i now|i|cn m]; try done.
    + destruct (js_Get id1 (r_store r)); [done|]. destruct (r_procs r !! id1); [done|]. unfold submit_on in Hx.
      destruct (_ =? 0); [congruence|]. destruct (_ >? _); [congruence|]. cbn [js_Create memory_jobs] in Hx.
      apply (inj Some) in Hx. subst r'. cbn in Hp'. destruct (decide (id1 = id)) as [->|Hne].
      * rewrite lookup_insert_eq in Hp'. by simplify_eq.
      * rewrite lookup_insert_ne in Hp' by done. congruence.
    + destruct (r_procs r !! id1) as [q|] eqn:Hq; [|done]. cbn [mbind option_bind] in Hx. destruct (p_phase q); try done.
      apply (inj Some) in Hx. subst r'. exfalso.
      eapply (Hold r id1); [done|by eexists|exact Hp'].
    + destruct (r_procs r !! id1) as [q|] eqn:Hq; [|done]. cbn [mbind option_bind] in Hx. destruct (p_phase q); try done.
      destruct (p_workers q); [|done]. apply (inj Some) in Hx. subst r'. exfalso.
      eapply (Hold r id1); [done|by eexists|exact Hp'].
    + destruct (Cancel_begin _ _) as [[|]|]; try done; apply (inj Some) in Hx; subst r'; simpl in Hp'; congruence.
    + destruct (r_calls r !! i) as [[id1|]|]; try done. apply (inj Some) in Hx. subst r'. exfalso.
      destruct (bool_decide _); [|by eapply Hkeep]. destruct (r_procs r !! id1) as [q|] eqn:Hq; [|by eapply Hkeep].
      by eapply (Hold (set_calls (<[i:=CCalled id1]> (r_calls r)) r)).
    + destruct (r_calls r !! i) as [[|id1]|]; try done; apply (inj Some) in Hx; subst r'; simpl in Hp'; congruence.
    + destruct (r_calls r !! i) as [[|id1]|]; try done; apply (inj Some) in Hx; subst r'; simpl in Hp'; congruence.
    + apply (inj Some) in Hx; subst r'; simpl in Hp'; congruence.
Qed.

(** The bookkeeping of a run, against the state of the job, if it is there. *)
Definition tracked (id : string) (r : Runner) (called back : list string) : Prop :=
  match r_procs r !! id with Some p => calls_ok p called back | None => called = [] /\ back = [] end.

Lemma run_tracked id es : forall (r r' : Runner) called back,
  run answer failed_at es r = Some r' -> tracked id r called back ->
  tracked id r' (called ++ (calls_of id es r).1) (back ++ (calls_of id es r).2).
Proof.
  induction es as [|ev es IH]; intros r r' called back Hrun Ht.
  - injection Hrun as <-. by rewrite !app_nil_r.
  - apply run_cons in Hrun as (r1 & Hx & Hrun). cbn [calls_of]. rewrite Hx.
    specialize (IH r1 r'). destruct (calls_of id es r1) as [c b] eqn:Hc. cbn [fst snd] in IH.
    unfold tracked in Ht. destruct (r_procs r !! id) as [p|] eqn:Hp.
    + destruct (exec_cases ev r r1 id p Hx Hp) as (p1 & Hp1 & [(Hid & st' & Hs)|(Hid & Ho)]).
      * rewrite (bool_decide_eq_true_2 _ Hid), Hp1. cbn [fst snd flip fmap option_fmap option_map default from_option].
        rewrite !app_assoc. apply IH; [done|]. unfold tracked. rewrite Hp1. by eapply exec_proc_calls.
      * rewrite (bool_decide_eq_false_2 _ Hid). apply IH; [done|]. unfold tracked. rewrite Hp1. by eapply outside_calls.
    + destruct Ht as [-> ->].
      assert (Hnew : tracked id r1 [] []).
      { unfold tracked. destruct (r_procs r1 !! id) as [p1|] eqn:Hp1; [|done]. by eapply exec_new. }
      assert (Hnid : event_id ev <> Some id).
      { intros Hid. unfold exec in Hx. by rewrite Hid, Hp in Hx. }
      rewrite (bool_decide_eq_false_2 _ Hnid). by apply IH.
Qed.

Lemma reaches_run cfg es r : reaches answer failed_at cfg es r -> run answer failed_at es (New_on cfg) = Some r.
Proof. induction 1 as [|es r ev r' _ IH Hx]; [done|]. unfold run in *. by rewrite fold_left_app, IH. Qed.

Lemma reaches_calls cfg es r id p :
  reaches answer failed_at cfg es r -> r_procs r !! id = Some p ->
  calls_ok p (calls_of id es (New_on cfg)).1 (calls_of id es (New_on cfg)).2.
Proof.
  intros Hr Hp. pose proof (run_tracked id es _ _ [] [] (reaches_run _ _ _ Hr)) as H. unfold tracked in H.
  rewrite Hp in H. apply H. cbn. by rewrite lookup_empty.
Qed.

(** ** Theorems *)

(** A job that ends undisturbed has all its results. *)
Lemma run_completes es r id p :
  run_inv es r -> r_procs r !! id = Some p ->
  ECancelRead id ∉ es -> refusals id es = 0%nat -> p_phase p = Exited ->
  exists e, r_store r !! id = Some e /\ job_Status (je_job e) = JobCompleted /\
    job_Done (je_job e) = len (p_rows p) /\ je_results e ≡ₚ expected id (p_rows p).
Proof.
  intros Hr Hp Hc Hk Hx. destruct (ri_jobs _ _ Hr id p Hp) as (e & He & I).
  assert (Ht : ~ troubled id es) by (intros [?|?]; [done|lia]).
  assert (Hf : finishing (p_phase p) = true) by (by rewrite Hx). unfold job_inv_at in I. rewrite Hk in I.
  destruct (ji_stopped I) as [Ho|]; [by rewrite Hx| |done].
  destruct (released_complete _ _ _ _ _ _ _ _ I Hf Ho) as [(lost & ->%nil_length_inv & Hres) Hd]. rewrite app_nil_r in Hres.
  pose proof (ji_total I). exists e. split; [done|]. split; [|split; [lia|done]].
  destruct (ji_status I) as [[? ?]|[[? ?]|[? ?]]]; [lia|done|done].
Qed.

(** C3: A job that nobody cancels and none of whose results the store refuses
    completes, whatever the other jobs do and whatever other calls of the store
    fail: when its goroutine has returned, the job is completed and it has
    recorded, for every row of the deduplicated submission, exactly one result
    with the row's label and the verdict of its address. *)
Theorem job_completes cfg es r id p :
  reaches answer failed_at cfg es r -> r_procs r !! id = Some p ->
  ECancelRead id ∉ es -> refusals id es = 0%nat -> p_phase p = Exited ->
  exists e, r_store r !! id = Some e /\ job_Status (je_job e) = JobCompleted /\
    job_Done (je_job e) = len (p_rows p) /\ je_results e ≡ₚ expected id (p_rows p).
Proof. intros Hr. apply (run_completes es), (reaches_inv cfg), Hr. Qed.

(** C18: No row is recorded twice and none is made up: at every moment of every
    interleaving the recorded results, together with those still owed and as
    many as the store has refused, are the results of the submission; [Done]
    counts the recorded ones; a job holds no more workers than the semaphore has
    slots. *)
Theorem job_results_exact cfg es r id p :
  reaches answer failed_at cfg es r -> r_procs r !! id = Some p -> p_phase p <> Created ->
  exists e lost, r_store r !! id = Some e /\
    length lost = refusals id es /\ je_results e ++ outstanding id p ++ lost ≡ₚ expected id (p_rows p) /\
    job_Done (je_job e) = len (je_results e) /\ job_Total (je_job e) = len (p_rows p) /\
    len (p_workers p) <= p_slots p.
Proof.
  intros Hr Hp Hc. destruct (ri_jobs _ _ (reaches_inv _ _ _ Hr) id p Hp) as (e & He & I).
  destruct (ji_conserved I Hc) as (lost & Hk & Hcons). destruct (ji_slots I Hc) as [_ Hs].
  exists e, lost. repeat split; try done; apply I.
Qed.

(** A job one of whose results the store has refused is never completed, and once
    its goroutine has returned it is canceled, although nobody cancels it, unless
    the store fails its last step too, which leaves it running for good. *)
Theorem refused_result_cancels cfg es r id p :
  reaches answer failed_at cfg es r -> r_procs r !! id = Some p -> (0 < refusals id es)%nat ->
  exists e, r_store r !! id = Some e /\ job_Status (je_job e) <> JobCompleted /\
    (p_phase p = Exited -> job_Status (je_job e) = JobCanceled \/ job_Status (je_job e) = JobRunning /\ unfinished id es).
Proof.
  intros Hr Hp Hk. destruct (ri_jobs _ _ (reaches_inv _ _ _ Hr) id p Hp) as (e & He & I). exists e. split; [done|].
  assert (Hc : p_phase p <> Created) by (intros Hc; destruct (ji_created I Hc) as (_ & _ & _ & _ & ?); lia).
  destruct (ji_conserved I Hc) as (lost & Hl & Hcons). apply conserved_len in Hcons.
  assert (Hd : job_Done (je_job e) < job_Total (je_job e)).
  { rewrite (ji_done I), (ji_total I), <- Hcons. pose proof (len_nonneg (outstanding id p)). unfold len in *. lia. }
  destruct (ji_status I) as [[Hs ?]|[[? ?]|[Hs ?]]]; [|lia|]; rewrite Hs; (split; [done|]); intros Hx; [right|by left].
  destruct (ji_exited I Hx); [congruence|done].
Qed.

(** C20: Duplicates cost no extra probe, and no address is skipped or verified in
    another's place: at every moment of every interleaving, the addresses a job
    has called [Verify] with, in the order of the calls, followed by those it has
    still to hand out, are the distinct addresses of its submission; no two of
    them agree up to letter case and every row has one; and the calls that have
    returned together with those running are exactly the calls made. *)
Theorem job_probes_once cfg es r id p :
  reaches answer failed_at cfg es r -> r_procs r !! id = Some p -> p_phase p <> Created ->
  (calls_of id es (New_on cfg)).1 ++ p_order p = (group (p_rows p)).1 /\
  (calls_of id es (New_on cfg)).2 ++ verifying (p_workers p) ≡ₚ (calls_of id es (New_on cfg)).1 /\
  NoDup (ToLower <$> (group (p_rows p)).1) /\
  (forall row, row ∈ p_rows p -> ToLower (row_Email row) ∈ ToLower <$> (group (p_rows p)).1) /\
  (group (p_rows p)).1 ⊆ row_Email <$> p_rows p.
Proof.
  intros Hr Hp Hc. pose proof (reaches_calls cfg es r id p Hr Hp) as H. apply calls_ok_running in H as [H1 H2]; [|done].
  pose proof (group_ok id (p_rows p)) as G. do 2 (split; [done|]).
  split; [apply G|split; [apply (gr_rows _ _ _ _ G)|apply group_addresses]].
Qed.

(** C19: Every job ends: while its goroutine has not returned one of its steps is
    enabled, and no interleaving lets it take more than [steps_left] of them. *)
Theorem job_terminates cfg es r id p :
  reaches answer failed_at cfg es r -> r_procs r !! id = Some p ->
  (p_phase p <> Exited -> exists ev, owner ev = Some id /\ is_Some (exec answer failed_at ev r)) /\
  (forall es' r', run answer failed_at es' r = Some r' -> (own_steps id es' <= steps_left id p)%nat).
Proof.
  intros Hr Hp. pose proof (reaches_inv _ _ _ Hr) as I. split; [by eapply job_progress|].
  intros es' r' Hrun. destruct (run_steps id es' es r r' p I Hp Hrun) as (p' & _ & H). lia.
Qed.

(** A job whose goroutine has returned is left running only if the store failed
    its last step, and its cancel function is gone. *)
Theorem job_exit_status cfg es r id p :
  reaches answer failed_at cfg es r -> r_procs r !! id = Some p -> p_phase p = Exited ->
  exists e, r_store r !! id = Some e /\ id ∉ r_cancels r /\
    (job_Status (je_job e) = JobCompleted /\ job_Done (je_job e) = job_Total (je_job e) \/
     job_Status (je_job e) = JobCanceled /\ troubled id es \/ unfinished id es).
Proof.
  intros Hr Hp Hx. destruct (ri_jobs _ _ (reaches_inv _ _ _ Hr) id p Hp) as (e & He & I).
  exists e. split; [done|]. split; [rewrite (ji_reg I), Hx; naive_solver|].
  destruct (ji_exited I Hx) as [?|?]; [|auto]. destruct (ji_status I) as [[? ?]|[?|?]]; auto; done.
Qed.
End Guarantees.
