(* ===== verification/RunnerCases.v ===== *)
(** The bulk runner: deduplication, the race between [Cancel] and completion,
    and the theorems of [RunnerProps.v] on a concrete run. *)

From Stdlib Require Import QArith.
From S2P Require Import Prelude GoStrings Float64 GoTime Verdict Engine Settings Store Memory.
From S2P Require Import Builtin Runner RunnerProps.
Local Open Scope list_scope.
Local Open Scope Z_scope.

Section Dedup.
Context `{HU : UnicodeTables}.

(** A row as [dedup] keeps it, and what it compares. *)
Definition trimmed (row : Row) : Row :=
  {| row_Label := TrimSpace (row_Label row); row_Email := TrimSpace (row_Email row) |}.
Definition row_pair (row : Row) : string * string := (ToLower (row_Label row), ToLower (row_Email row)).
Definition row_key (row : Row) : string := dedup_key (row_Label row) (row_Email row).

Lemma row_key_pair row row' : row_pair row = row_pair row' -> row_key row = row_key row'.
Proof. unfold row_pair, row_key, dedup_key. intros [= -> ->]. done. Qed.

(** The separator makes the key unambiguous unless a label contains it. *)
Lemma row_key_inj row row' :
  ascii_of_N 0 ∉ bytes (ToLower (row_Label row)) -> ascii_of_N 0 ∉ bytes (ToLower (row_Label row')) ->
  row_key row = row_key row' -> row_pair row = row_pair row'.
Proof.
  unfold row_pair, row_key, dedup_key, nul. intros H1 H2 He. apply (f_equal bytes) in He.
  rewrite !bytes_app, !bytes_of_bytes in He.
  assert (Hgen : forall (a b x y : list ascii) c, c ∉ a -> c ∉ b -> a ++ c :: x = b ++ c :: y -> a = b /\ x = y).
  { induction a as [|p a IH]; intros [|q b] x y c Ha Hb Heq; injection Heq.
    - by intros ->.
    - intros _ ->. exfalso. apply Hb. by left.
    - intros _ ->. exfalso. apply Ha. by left.
    - intros Heq' ->. rewrite not_elem_of_cons in Ha, Hb.
      destruct (IH b x y c) as [-> ->]; [apply Ha|apply Hb|done|done]. }
  destruct (Hgen _ _ _ _ _ H1 H2 He) as [Hl Hm]. apply bytes_inj in Hl, Hm. by rewrite Hl, Hm.
Qed.

Lemma dedup_loop_spec rows : forall seen,
  NoDup (row_key <$> dedup_loop seen rows) /\
  (forall row, row ∈ dedup_loop seen rows -> row_key row ∉ seen /\ row_Email row <> "") /\
  dedup_loop seen rows `sublist_of` (trimmed <$> rows) /\
  (forall row, row ∈ rows -> TrimSpace (row_Email row) <> "" ->
     row_key (trimmed row) ∈ seen \/
     exists row', row' ∈ dedup_loop seen rows /\ row_key row' = row_key (trimmed row)).
Proof.
  induction rows as [|row rows IH]; intros seen; cbn [dedup_loop].
  - split; [apply NoDup_nil_2|]. split; [set_solver|]. split; [done|set_solver].
  - destruct (String.eqb (TrimSpace (row_Email row)) "") eqn:Eb.
    { apply String.eqb_eq in Eb. destruct (IH seen) as (H1 & H2 & H3 & H4). split; [done|]. split; [done|].
      split; [by apply sublist_cons|]. intros r [-> |Hr]%elem_of_cons Hne; [done|by apply H4]. }
    apply String.eqb_neq in Eb. change {| row_Label := TrimSpace (row_Label row); row_Email := TrimSpace (row_Email row) |}
      with (trimmed row). change (dedup_key (TrimSpace (row_Label row)) (TrimSpace (row_Email row))) with (row_key (trimmed row)).
    case_bool_decide as Hs.
    { destruct (IH seen) as (H1 & H2 & H3 & H4). split; [done|]. split; [done|].
      split; [by apply sublist_cons|]. intros r [-> |Hr]%elem_of_cons Hne; [by left|by apply H4]. }
    destruct (IH ({[ row_key (trimmed row) ]} ∪ seen)) as (H1 & H2 & H3 & H4). repeat split.
    + apply list.NoDup_cons. split; [|done]. intros (r & Hk & Hr)%list_elem_of_fmap.
      destruct (H2 r Hr) as [Hn _]. set_solver.
    + apply elem_of_cons in H as [-> |Hr]; [done|]. destruct (H2 row0 Hr). set_solver.
    + apply elem_of_cons in H as [-> |Hr]; [done|]. by destruct (H2 row0 Hr).
    + by apply sublist_skip.
    + intros r [-> |Hr]%elem_of_cons Hne; [right; exists (trimmed row); set_solver|].
      destruct (H4 r Hr Hne) as [Hk|(r' & Hr' & Hk)]; [|right; exists r'; set_solver].
      apply elem_of_union in Hk as [->%elem_of_singleton|Hk]; [|by left].
      right. exists (trimmed row). set_solver.
Qed.

(** The deduplication keeps one row per (label, address) pair up to letter
    case and surrounding space, in the order of the input: the kept rows are
    trimmed input rows with a non-blank address, no two share a pair, and, when
    no label contains a NUL byte, every input row with a non-blank address has
    its pair kept. *)
Theorem dedup_exact rows :
  (forall row, row ∈ rows -> ascii_of_N 0 ∉ bytes (ToLower (TrimSpace (row_Label row)))) ->
  dedup rows `sublist_of` (trimmed <$> rows) /\
  NoDup (row_pair <$> dedup rows) /\
  (forall row, row ∈ dedup rows -> row_Email row <> "") /\
  (forall row, row ∈ rows -> TrimSpace (row_Email row) <> "" ->
     exists row', row' ∈ dedup rows /\ row_pair row' = row_pair (trimmed row)).
Proof.
  intros Hnul. destruct (dedup_loop_spec rows ∅) as (H1 & H2 & H3 & H4). fold (dedup rows) in *.
  split; [done|]. split; [|split].
  - apply NoDup_fmap_1 with (f := fun p : string * string => p.1 +:+ nul +:+ p.2).
    rewrite <- list_fmap_compose. exact H1.
  - intros row Hr. apply (H2 row Hr).
  - intros row Hr Hne. destruct (H4 row Hr Hne) as [Hk|(row' & Hr' & Hk)]; [set_solver|].
    exists row'. split; [done|]. apply row_key_inj; [| |done].
    + apply (elem_of_sublist _ _ _ Hr') in H3. apply list_elem_of_fmap in H3 as (r0 & -> & Hr0).
      simpl. by apply Hnul.
    + simpl. by apply Hnul.
Qed.

(** A completed job can still become canceled: a [Cancel] that has read the
    running status before the last result was recorded marks the job as
    canceled afterwards, although every result is there. *)
Theorem cancel_overrides_completed answer failed_at cfg es r i id e now :
  reaches answer failed_at cfg es r -> r_calls r !! i = Some (CCalled id) ->
  r_store r !! id = Some e -> job_Status (je_job e) = JobCompleted ->
  exists r' e', exec answer failed_at (ECancelMark i now) r = Some r' /\ r_store r' !! id = Some e' /\
    job_Status (je_job e') = JobCanceled /\ je_results e' = je_results e /\
    job_Done (je_job e') = job_Total (je_job e').
Proof.
  intros Hr Hi He Hs. pose proof (reaches_inv _ _ _ _ _ Hr) as I.
  destruct (ri_store _ _ _ _ I id) as [p Hp]; [eauto|].
  destruct (ri_jobs _ _ _ _ I id p Hp) as (e0 & He0 & J). assert (e0 = e) as -> by congruence.
  exists (set_calls (delete i (r_calls r)) (set_store (<[id := status_entry now JobCanceled e]> (r_store r)) r)).
  exists (status_entry now JobCanceled e). split.
  - unfold exec. cbn [event_id]. rewrite Hi. cbn [js_SetStatus memory_jobs]. unfold SetStatus. by rewrite He.
  - simpl. rewrite lookup_insert_eq. repeat split.
    destruct (ji_status _ _ _ _ _ _ _ _ _ _ J) as [[? ?]|[[? ?]|[? ?]]]; [congruence|done|congruence].
Qed.
End Dedup.

(** ** A concrete run: three rows over two addresses, one worker at a time *)

Definition ex_rows : list Row := [
  {| row_Label := "Ann"; row_Email := "A@x.com" |}; {| row_Label := "Bob"; row_Email := " a@x.com " |};
  {| row_Label := "ann"; row_Email := "a@X.com" |}; {| row_Label := "Cy"; row_Email := "b@y.org" |};
  {| row_Label := "Dee"; row_Email := " " |}].

Definition ex_answer (_ email : string) : option Verdict :=
  if String.eqb email "b@y.org" then None else Some (ex_verdict StatusDeliverable).
Definition ex_failed (_ _ : string) : Time := 7.
Definition ex_config : Config := {| cfg_Concurrency := 1; cfg_MaxEmails := 0 |}.

Abbreviation ex_events := [
  ESubmit "j" ex_rows 1; EStart "j"; EDispatch "j"; EVerified "j" 0; ERecord "j" 0 2; ERecord "j" 0 3;
  ELeave "j" 0; EDispatch "j"; EVerified "j" 0; ERecord "j" 0 4; ELeave "j" 0; EStop "j"; ERelease "j"; EInspect "j"].

(** Its beginning, up to the first recorded result. *)
Abbreviation ex_part := [
  ESubmit "j" ex_rows 1; EStart "j"; EDispatch "j"; EVerified "j" 0; ERecord "j" 0 2].

(** The same job with a [Cancel] call that overlaps the last result. *)
Abbreviation ex_race := [
  ESubmit "j" ex_rows 1; EStart "j"; EDispatch "j"; EVerified "j" 0; ERecord "j" 0 2; ERecord "j" 0 3;
  ELeave "j" 0; EDispatch "j"; EVerified "j" 0; ECancelRead "j"; ERecord "j" 0 4; ECancelCall 0].

(** The same job when the store refuses the second result. *)
Abbreviation ex_refused := [
  ESubmit "j" ex_rows 1; EStart "j"; EDispatch "j"; EVerified "j" 0; ERecord "j" 0 2; ERefuse "j" 0;
  ELeave "j" 0; EDispatch "j"; EVerified "j" 0; ERecord "j" 0 4; ELeave "j" 0; EStop "j"; ERelease "j"; EInspect "j";
  EMark "j" 5].

Abbreviation ex_run es := (run (HU := ascii_tables) ex_answer ex_failed es (New ex_config)).

Lemma ex_reaches es r : ex_run es = Some r -> reaches (HU := ascii_tables) ex_answer ex_failed ex_config es r.
Proof. intros H. apply (run_reaches (HU := ascii_tables) ex_answer ex_failed ex_config es [] (New ex_config) r); [constructor|exact H]. Qed.

Lemma ex_final : exists r p, ex_run ex_events = Some r /\ r_procs r !! "j" = Some p /\ p_phase p = Exited /\
  len (p_rows p) = 3.
Proof. eexists _, _. split; [vm_compute; reflexivity|]. split; [vm_compute; reflexivity|]. by vm_compute. Qed.

Lemma ex_halfway : exists r p, ex_run ex_part = Some r /\ r_procs r !! "j" = Some p /\
  p_phase p = Dispatching /\ len (outstanding (HU := ascii_tables) ex_answer ex_failed "j" p) = 2.
Proof. eexists _, _. split; [vm_compute; reflexivity|]. split; [vm_compute; reflexivity|]. by vm_compute. Qed.

Lemma ex_raced : exists r e, ex_run ex_race = Some r /\ r_calls r !! 0%nat = Some (CCalled "j") /\
  r_store r !! "j" = Some e /\ job_Status (je_job e) = JobCompleted.
Proof.
  eexists _, _. split; [vm_compute; reflexivity|]. split; [vm_compute; reflexivity|].
  split; [vm_compute; reflexivity|]. by vm_compute.
Qed.

Lemma ex_dispatching p : p_phase p = Dispatching -> p_phase p <> Created.
Proof. by intros ->. Qed.

Lemma ex_running p : p_phase p = Dispatching -> p_phase p <> Exited.
Proof. by intros ->. Qed.

Lemma ex_not_canceled : ECancelRead "j" ∉ ex_events.
Proof.
  intros H. repeat (apply elem_of_cons in H as [H|H]; [discriminate H|]). by apply not_elem_of_nil in H.
Qed.

Lemma job_completes_witness : exists r e, ex_run ex_events = Some r /\ r_store r !! "j" = Some e /\
  job_Status (je_job e) = JobCompleted /\ job_Done (je_job e) = 3.
Proof.
  destruct ex_final as (r & p & Hrun & Hp & Hx & Hl). exists r.
  destruct (job_completes (HU := ascii_tables) ex_answer ex_failed ex_config ex_events r "j" p
    (ex_reaches _ _ Hrun) Hp ex_not_canceled eq_refl Hx)
    as (e & He & Hs & Hd & _).
  rewrite Hl in Hd. exact (ex_intro _ e (conj Hrun (conj He (conj Hs Hd)))).
Defined.

Lemma job_results_exact_witness : exists r e, ex_run ex_part = Some r /\ r_store r !! "j" = Some e /\
  job_Done (je_job e) = len (je_results e).
Proof.
  destruct ex_halfway as (r & p & Hrun & Hp & Hx & Hl). exists r.
  destruct (job_results_exact (HU := ascii_tables) ex_answer ex_failed ex_config ex_part r "j" p
    (ex_reaches _ _ Hrun) Hp (ex_dispatching p Hx)) as (e & lost & He & _ & _ & Hd & _).
  exact (ex_intro _ e (conj Hrun (conj He Hd))).
Defined.

Lemma job_probes_once_witness : exists (r : Runner) p, ex_run ex_part = Some r /\ r_procs r !! "j" = Some p /\
  (calls_of (HU := ascii_tables) ex_answer ex_failed "j" ex_part (New ex_config)).1 ++ p_order p =
    (group (HU := ascii_tables) (p_rows p)).1 /\
  (calls_of (HU := ascii_tables) ex_answer ex_failed "j" ex_part (New ex_config)).1 = ["A@x.com"] /\
  p_order p = ["b@y.org"] /\ length (p_rows p) = 3%nat.
Proof.
  destruct ex_halfway as (r & p & Hrun & Hp & Hx & Hl). exists r, p. split; [done|]. split; [done|]. split; [|split].
  - exact (proj1 (job_probes_once (HU := ascii_tables) ex_answer ex_failed ex_config ex_part r "j" p
      (ex_reaches _ _ Hrun) Hp (ex_dispatching p Hx))).
  - by vm_compute.
  - vm_compute in Hrun. injection Hrun as <-. vm_compute in Hp. by injection Hp as <-.
Defined.

Lemma job_terminates_witness : exists r ev, ex_run ex_part = Some r /\
  owner ev = Some "j" /\ is_Some (exec (HU := ascii_tables) ex_answer ex_failed ev r).
Proof.
  destruct ex_halfway as (r & p & Hrun & Hp & Hx & Hl). exists r.
  destruct (proj1 (job_terminates (HU := ascii_tables) ex_answer ex_failed ex_config ex_part r "j" p
    (ex_reaches _ _ Hrun) Hp) (ex_running p Hx)) as (ev & Ho & Hs).
  exact (ex_intro _ ev (conj Hrun (conj Ho Hs))).
Defined.

Lemma job_exit_status_witness : exists r e, ex_run ex_events = Some r /\ r_store r !! "j" = Some e /\
  "j" ∉ r_cancels r.
Proof.
  destruct ex_final as (r & p & Hrun & Hp & Hx & Hl). exists r.
  destruct (job_exit_status (HU := ascii_tables) ex_answer ex_failed ex_config ex_events r "j" p
    (ex_reaches _ _ Hrun) Hp Hx) as (e & He & Hc & _).
  exact (ex_intro _ e (conj Hrun (conj He Hc))).
Defined.

Lemma refused_result_cancels_witness : exists r e, ex_run ex_refused = Some r /\ r_store r !! "j" = Some e /\
  job_Status (je_job e) = JobCanceled /\ ECancelRead "j" ∉ ex_refused.
Proof.
  assert (F : exists r p, ex_run ex_refused = Some r /\ r_procs r !! "j" = Some p /\ p_phase p = Exited)
    by (eexists _, _; split; [vm_compute; reflexivity|]; split; [vm_compute; reflexivity|]; by vm_compute).
  destruct F as (r & p & Hrun & Hp & Hx). exists r.
  destruct (refused_result_cancels (HU := ascii_tables) ex_answer ex_failed ex_config ex_refused r "j" p
    (ex_reaches _ _ Hrun) Hp (le_n 1)) as (e & He & _ & Hs). exists e.
  assert (Hn : forall ev, List.forallb (fun e => negb (match e with ECancelRead _ | EBlind _ | EUnmarked _ => true | _ => false end)) ex_refused = true ->
    ev ∈ ex_refused -> match ev with ECancelRead _ | EBlind _ | EUnmarked _ => False | _ => True end).
  { intros ev Hall Hin. rewrite forallb_forall in Hall. apply list_elem_of_In, Hall in Hin. by destruct ev. }
  split; [done|]. split; [done|]. split; [|intros Hc; exact (Hn _ eq_refl Hc)].
  destruct (Hs Hx) as [?|[_ [Hc|Hc]]]; [done|destruct (Hn _ eq_refl Hc)|destruct (Hn _ eq_refl Hc)].
Defined.

Lemma cancel_overrides_completed_witness : exists (r : Runner) e, r_store r !! "j" = Some e /\
  job_Status (je_job e) = JobCanceled /\ job_Done (je_job e) = job_Total (je_job e).
Proof.
  destruct ex_raced as (r & e & Hrun & Hi & He & Hs).
  destruct (cancel_overrides_completed (HU := ascii_tables) ex_answer ex_failed ex_config ex_race r 0 "j" e 9
    (ex_reaches _ _ Hrun) Hi He Hs) as (r' & e' & _ & He' & Hs' & _ & Hd).
  exists r', e'. auto.
Defined.

Lemma dedup_exact_witness :
  len (dedup (HU := ascii_tables) ex_rows) = 3 /\ NoDup (row_pair (HU := ascii_tables) <$> dedup (HU := ascii_tables) ex_rows).
Proof.
  split; [by vm_compute|].
  refine (proj1 (proj2 (dedup_exact (HU := ascii_tables) ex_rows _))).
  intros row Hr. assert (Hall : forallb (fun row => negb (bool_decide
    (ascii_of_N 0 ∈ bytes (ToLower (H := ascii_tables) (TrimSpace (row_Label row)))))) ex_rows = true)
    by (vm_compute; reflexivity).
  rewrite forallb_forall in Hall. apply list_elem_of_In in Hr. specialize (Hall row Hr). by bool_to_prop.
Defined.
