(* ===== verification/Csv.v ===== *)
(** [encoding/csv], as the program uses it.

    The reader with [FieldsPerRecord = -1] and [TrimLeadingSpace = true] (the
    configuration of [internal/ingest]) and the writer with its defaults (the
    configuration of the dashboard's export).  Both work on the bytes of the
    file.  [Read_write] shows that the reader gives back what the writer wrote;
    carriage returns aside, which [normalize_lines] may drop. *)

From S2P Require Import Prelude GoStrings.
Local Open Scope list_scope.

Definition comma : ascii := ","%char.
Definition quote : ascii := ascii_of_N 34.
Definition lf : ascii := ascii_of_N 10.
Definition cr : ascii := ascii_of_N 13.

(** ** The reader *)

(** [readLine]: a carriage return before a line feed, and one before the end of
    the file, is dropped. *)
Fixpoint normalize_lines (l : list ascii) : list ascii :=
  match l with
  | [] => []
  | a :: l' =>
      if Ascii.eqb a cr then
        match l' with
        | [] => []
        | b :: _ => if Ascii.eqb b lf then normalize_lines l' else a :: normalize_lines l'
        end
      else a :: normalize_lines l'
  end.

(** The current line with its line feed, and the bytes after it. *)
Fixpoint cut_line (l : list ascii) : list ascii * list ascii :=
  match l with
  | [] => ([], [])
  | a :: l' => if Ascii.eqb a lf then ([a], l') else let '(x, y) := cut_line l' in (a :: x, y)
  end.

(** Drops the leading white space of the current line, its line feed included. *)
Definition trim_line (l : list ascii) : list ascii * list ascii :=
  let '(line, rest) := cut_line l in (trim_left line, rest).

Inductive csv_error := ErrBareQuote | ErrQuote.

(** What ends a field: another field of the record follows, or the record is
    complete. *)
Inductive terminator := More | Last.

(** An unquoted field, up to a comma or the end of the line. *)
Fixpoint unquoted (l : list ascii) : result csv_error (list ascii * terminator * list ascii) :=
  match l with
  | [] => Ok ([], Last, [])
  | a :: l' =>
      if Ascii.eqb a comma then Ok ([], More, l')
      else if Ascii.eqb a lf then Ok ([], Last, l')
      else if Ascii.eqb a quote then Err ErrBareQuote
      else let? (f, t, r) := unquoted l' in Ok (a :: f, t, r)
  end.

(** A quoted field after its opening quote; it may span lines. *)
Fixpoint quoted (l : list ascii) : result csv_error (list ascii * terminator * list ascii) :=
  match l with
  | [] => Err ErrQuote
  | a :: l' =>
      if Ascii.eqb a quote then
        match l' with
        | [] => Ok ([], Last, [])
        | b :: l'' =>
            if Ascii.eqb b quote then let? (f, t, r) := quoted l'' in Ok (a :: f, t, r)
            else if Ascii.eqb b comma then Ok ([], More, l'')
            else if Ascii.eqb b lf then Ok ([], Last, l'')
            else Err ErrQuote
        end
      else let? (f, t, r) := quoted l' in Ok (a :: f, t, r)
  end.

(** One field, from its first byte. *)
Definition read_field (l : list ascii) : result csv_error (list ascii * terminator * list ascii) :=
  match trim_line l with
  | ([], rest) => Ok ([], Last, rest)
  | (a :: line, rest) => if Ascii.eqb a quote then quoted (line ++ rest) else unquoted (a :: line ++ rest)
  end.

(** The fields of a record.  Every field but the last consumes a byte, so the
    length of the input is fuel enough. *)
Fixpoint read_fields (fuel : nat) (l : list ascii) : option (result csv_error (list string * list ascii)) :=
  match fuel with
  | O => None
  | S fuel =>
      match read_field l with
      | Err e => Some (Err e)
      | Ok (f, Last, rest) => Some (Ok ([of_bytes f], rest))
      | Ok (f, More, rest) =>
          match read_fields fuel rest with
          | Some (Ok (fs, rest)) => Some (Ok (of_bytes f :: fs, rest))
          | o => o
          end
      end
  end.

(** Empty lines are skipped. *)
Fixpoint skip_empty (l : list ascii) : list ascii :=
  match l with
  | a :: l' => if Ascii.eqb a lf then skip_empty l' else l
  | [] => []
  end.

(** [Reader.Read] on normalized bytes: [Ok None] is [io.EOF]. *)
Definition Read (l : list ascii) : option (result csv_error (option (list string * list ascii))) :=
  match skip_empty l with
  | [] => Some (Ok None)
  | l =>
      match read_fields (S (length l)) l with
      | None => None
      | Some (Err e) => Some (Err e)
      | Some (Ok p) => Some (Ok (Some p))
      end
  end.

(** ** The writer *)

(** The first rune is white space. *)
Definition leading_space (l : list ascii) : bool :=
  match l with
  | [] => false
  | a :: l1 =>
      is_space1 a ||
      match l1 with
      | [] => false
      | b :: l2 => is_space2 a b || match l2 with [] => false | c :: _ => is_space3 a b c end
      end
  end.

Definition special (a : ascii) : bool :=
  Ascii.eqb a lf || Ascii.eqb a cr || Ascii.eqb a quote || Ascii.eqb a comma.

(** [fieldNeedsQuotes] *)
Definition fieldNeedsQuotes (f : list ascii) : bool :=
  match f with
  | [] => false
  | _ => String.eqb (of_bytes f) "\." || existsb special f || leading_space f
  end.

Definition write_field (f : list ascii) : list ascii :=
  if fieldNeedsQuotes f then
    quote :: flat_map (fun a => if Ascii.eqb a quote then [quote; quote] else [a]) f ++ [quote]
  else f.

(** [Writer.Write] of one record. *)
Fixpoint write_record (fs : list string) : list ascii :=
  match fs with
  | [] => [lf]
  | [f] => write_field (bytes f) ++ [lf]
  | f :: fs => write_field (bytes f) ++ comma :: write_record fs
  end.

(** ** What is written is read back *)

Definition cr_free (l : list ascii) : Prop := Forall (fun a => Ascii.eqb a cr = false) l.

Lemma normalize_lines_id l : cr_free l -> normalize_lines l = l.
Proof. induction 1 as [|a l Ha _ IH]; simpl; [done|]. by rewrite Ha, IH. Qed.

Lemma cut_line_app l : (cut_line l).1 ++ (cut_line l).2 = l.
Proof.
  induction l as [|a l IH]; simpl; [done|]. destruct (Ascii.eqb a lf); [done|].
  destruct (cut_line l) as [x y]. simpl in *. by rewrite IH.
Qed.

Lemma trim_left_id l : leading_space l = false -> trim_left l = l.
Proof.
  unfold trim_left. destruct l as [|a [|b [|c l]]]; cbn [leading_space trim_run]; intros H; bool_to_prop;
    repeat match goal with H : ?x = false |- context [?x] => rewrite H end; done.
Qed.

Lemma read_field_cons a l :
  Ascii.eqb a lf = false -> leading_space (cut_line (a :: l)).1 = false ->
  read_field (a :: l) = if Ascii.eqb a quote then quoted l else unquoted (a :: l).
Proof.
  intros Ha Hs. unfold read_field, trim_line. pose proof (cut_line_app (a :: l)) as Happ.
  cbn [cut_line] in *. rewrite Ha in *. destruct (cut_line l) as [x y]. cbn [fst snd] in *.
  rewrite trim_left_id by done. rewrite <- app_comm_cons in Happ. injection Happ as ->. done.
Qed.

(** The separators are no white space and no part of an encoded rune. *)
Definition is_sep (t : ascii) : Prop := t = comma \/ t = lf.

Lemma leading_space_app f t z : f <> [] -> is_sep t -> leading_space (f ++ t :: z) = leading_space f.
Proof.
  intros Hf Ht.
  assert (H2 : forall a, is_space2 a t = false).
  { intros a. unfold is_space2. destruct Ht as [-> | ->]; by rewrite andb_false_r. }
  assert (H3 : forall a b, is_space3 a t b = false /\ is_space3 a b t = false).
  { intros a b. unfold is_space3. split; destruct Ht as [-> | ->]; simpl; by rewrite ?andb_false_r. }
  destruct f as [|a [|b [|c f]]]; simpl; [done| | |done].
  - rewrite H2. destruct z; simpl; [done|]. by rewrite (proj1 (H3 _ _)).
  - by rewrite (proj2 (H3 _ _)).
Qed.

Lemma cut_line_prefix f l : Forall (fun a => Ascii.eqb a lf = false) f ->
  (cut_line (f ++ l)).1 = f ++ (cut_line l).1.
Proof.
  induction 1 as [|a f Ha _ IH]; simpl; [done|]. rewrite Ha.
  destruct (cut_line (f ++ l)) as [x y]. simpl in *. by rewrite IH.
Qed.

Definition term_of (t : ascii) : terminator := if Ascii.eqb t comma then More else Last.

Lemma unquoted_plain f t rest :
  is_sep t -> existsb special f = false -> unquoted (f ++ t :: rest) = Ok (f, term_of t, rest).
Proof.
  intros Ht. induction f as [|a f IH]; intros Hs; [by destruct Ht as [-> | ->]|].
  cbn [existsb] in Hs. unfold special in Hs at 1. bool_to_prop. cbn [app unquoted].
  repeat match goal with H : Ascii.eqb a _ = false |- _ => rewrite H; clear H end. by rewrite IH.
Qed.

Lemma quoted_escaped f t rest :
  is_sep t ->
  quoted (flat_map (fun a => if Ascii.eqb a quote then [quote; quote] else [a]) f ++ quote :: t :: rest)
  = Ok (f, term_of t, rest).
Proof.
  intros Ht. induction f as [|a f IH]; [by destruct Ht as [-> | ->]|].
  cbn [flat_map]. destruct (Ascii.eqb a quote) eqn:Ea; cbn [app quoted].
  - apply Ascii.eqb_eq in Ea as ->. rewrite Ascii.eqb_refl. by rewrite IH.
  - by rewrite Ea, IH.
Qed.

Lemma existsb_special_lf f : existsb special f = false -> Forall (fun a => Ascii.eqb a lf = false) f.
Proof.
  induction f as [|a f IH]; simpl; [constructor|]. unfold special at 1. intros H. bool_to_prop. auto.
Qed.

(** A written field is read back, whatever follows it in the file. *)
Lemma read_write_field f t rest :
  is_sep t -> read_field (write_field f ++ t :: rest) = Ok (f, term_of t, rest).
Proof.
  intros Ht. unfold write_field. destruct (fieldNeedsQuotes f) eqn:Eq.
  - cbn [app]. rewrite <- app_assoc. cbn [app]. rewrite read_field_cons; [by rewrite Ascii.eqb_refl, quoted_escaped|done|].
    cbn [cut_line]. change (Ascii.eqb quote lf) with false. destruct (cut_line _) as [x y].
    cbn [fst leading_space]. by destruct x as [|? [|? ?]].
  - destruct f as [|a f].
    + destruct Ht as [-> | ->]; [|done]. cbn [app]. rewrite read_field_cons; [done|done|].
      cbn [cut_line]. change (Ascii.eqb comma lf) with false. destruct (cut_line rest) as [x y].
      cbn [fst leading_space]. by destruct x as [|? [|? ?]].
    + unfold fieldNeedsQuotes in Eq. apply orb_false_iff in Eq as [[_ Hsp]%orb_false_iff Hls].
      pose proof (existsb_special_lf _ Hsp) as Hlf. inversion Hlf as [|? ? Ha _]; subst.
      assert (Hq : Ascii.eqb a quote = false).
      { cbn [existsb] in Hsp. unfold special in Hsp at 1. by bool_to_prop. }
      change ((a :: f) ++ t :: rest) with (a :: (f ++ t :: rest)). rewrite read_field_cons; [|done|].
      * rewrite Hq. change (a :: f ++ t :: rest) with ((a :: f) ++ t :: rest). by apply unquoted_plain.
      * change (a :: f ++ t :: rest) with ((a :: f) ++ t :: rest). rewrite cut_line_prefix by done.
        cbn [cut_line]. destruct (Ascii.eqb t lf); [cbn [fst]; by rewrite leading_space_app|].
        destruct (cut_line rest) as [x y]. cbn [fst]. by rewrite leading_space_app.
Qed.

Lemma write_record_cons f fs : fs <> [] -> write_record (f :: fs) = write_field (bytes f) ++ comma :: write_record fs.
Proof. by destruct fs. Qed.

Lemma read_write_fields fs : forall fuel rest, fs <> [] -> (length fs <= fuel)%nat ->
  read_fields fuel (write_record fs ++ rest) = Some (Ok (fs, rest)).
Proof.
  induction fs as [|f fs IH]; intros [|fuel] rest Hne Hf; [done|done|simpl in Hf; lia|].
  destruct (decide (fs = [])) as [-> |Hfs].
  - cbn [write_record read_fields]. rewrite <- app_assoc. cbn [app]. rewrite read_write_field by (by right).
    change (term_of lf) with Last. by rewrite of_bytes_bytes.
  - rewrite write_record_cons by done. cbn [read_fields]. rewrite <- app_assoc. cbn [app].
    rewrite read_write_field by (by left). change (term_of comma) with More. cbn iota.
    rewrite IH; [|done|simpl in Hf; lia]. by rewrite of_bytes_bytes.
Qed.

Lemma write_record_length fs : (length fs <= length (write_record fs))%nat.
Proof.
  induction fs as [|f fs IH]; [simpl; lia|]. destruct (decide (fs = [])) as [-> |Hfs].
  - simpl. rewrite length_app. simpl. lia.
  - rewrite write_record_cons, length_app by done. simpl. lia.
Qed.

(** A record of at least two fields never looks like an empty line. *)
Lemma write_record_head f fs : fs <> [] ->
  exists a l, write_record (f :: fs) = a :: l /\ Ascii.eqb a lf = false.
Proof.
  intros Hfs. rewrite write_record_cons by done. unfold write_field.
  destruct (fieldNeedsQuotes (bytes f)) eqn:Eq; [by eexists _, _|].
  destruct (bytes f) as [|a l]; [by eexists _, _|]. exists a, (l ++ comma :: write_record fs). split; [done|].
  unfold fieldNeedsQuotes in Eq. apply orb_false_iff in Eq as [[_ Hsp]%orb_false_iff _].
  pose proof (existsb_special_lf _ Hsp) as Hlf. by inversion Hlf.
Qed.

(** [Read] gives back the record the writer wrote. *)
Lemma Read_write f fs rest : fs <> [] ->
  Read (write_record (f :: fs) ++ rest) = Some (Ok (Some (f :: fs, rest))).
Proof.
  intros Hfs. destruct (write_record_head f fs Hfs) as (a & l & Hw & Ha).
  unfold Read. rewrite Hw. cbn [app skip_empty]. rewrite Ha.
  change (a :: l ++ rest) with ((a :: l) ++ rest). rewrite <- Hw, read_write_fields; [done|done|].
  rewrite length_app. pose proof (write_record_length (f :: fs)). lia.
Qed.

Lemma Read_eof : Read [] = Some (Ok None).
Proof. done. Qed.

Lemma cr_free_record fs : Forall (fun f => cr_free (bytes f)) fs -> cr_free (write_record fs).
Proof.
  assert (Hf : forall f, cr_free f -> cr_free (write_field f)).
  { intros f H. unfold write_field. destruct (fieldNeedsQuotes f); [|done].
    constructor; [done|]. apply Forall_app. split; [|by constructor].
    induction H as [|a f Ha _ IH]; simpl; [constructor|]. apply Forall_app. split; [|done].
    destruct (Ascii.eqb a quote); repeat constructor; done. }
  induction 1 as [|f fs H1 H2 IH]; [by constructor|].
  destruct (decide (fs = [])) as [-> |Hfs].
  - simpl. apply Forall_app. split; [by apply Hf|by constructor].
  - rewrite write_record_cons by done. apply Forall_app. split; [by apply Hf|]. by constructor.
Qed.

(** ** The reader terminates *)

Lemma trim_run_length sp2 sp3 : forall n l, (length l <= n)%nat -> (length (trim_run sp2 sp3 l) <= length l)%nat.
Proof.
  induction n as [|n IH]; intros l Hl; [by destruct l; simpl in *; [|lia]|].
  destruct l as [|a l1]; simpl in *; [done|].
  destruct (is_space1 a); [specialize (IH l1 ltac:(lia)); lia|].
  destruct l1 as [|b l2]; simpl in *; [done|].
  destruct (sp2 a b); [specialize (IH l2 ltac:(lia)); lia|].
  destruct l2 as [|c l3]; simpl in *; [done|].
  destruct (sp3 a b c); [specialize (IH l3 ltac:(lia)); lia|simpl; lia].
Qed.

Lemma trim_line_length l line rest :
  trim_line l = (line, rest) -> (length line + length rest <= length l)%nat /\ (l <> [] -> (length rest < length l)%nat).
Proof.
  unfold trim_line. pose proof (cut_line_app l) as Happ. destruct (cut_line l) as [x y] eqn:Ec. simpl in Happ.
  intros [= <- <-]. pose proof (trim_run_length is_space2 is_space3 _ x (le_n _)). fold (trim_left x) in *.
  subst l. rewrite length_app. split; [lia|]. intros Hne. destruct x as [|a x]; [|simpl; lia].
  simpl in *. destruct y as [|a y]; [done|]. simpl in Ec. destruct (Ascii.eqb a lf); [done|].
  by destruct (cut_line y).
Qed.

Lemma unquoted_length l : forall f t r, unquoted l = Ok (f, t, r) ->
  (length r <= length l)%nat /\ (l <> [] -> (length r < length l)%nat) /\ (t = More -> l <> []).
Proof.
  induction l as [|a l IH]; simpl; intros f t r H; [by simplify_eq|].
  destruct (Ascii.eqb a comma); [simplify_eq; auto with lia|].
  destruct (Ascii.eqb a lf); [simplify_eq; auto with lia|]. destruct (Ascii.eqb a quote); [done|].
  destruct (unquoted l) as [[[f' t'] r']|]; simplify_eq. destruct (IH _ _ _ eq_refl) as (H1 & _ & _).
  repeat split; intros; try done; lia.
Qed.

Lemma quoted_length : forall n l f t r, (length l <= n)%nat -> quoted l = Ok (f, t, r) -> (length r < length l)%nat.
Proof.
  induction n as [|n IH]; intros [|a l] f t r Hn H; simpl in *; try done; [lia|].
  destruct (Ascii.eqb a quote).
  - destruct l as [|b l]; simpl in *; [simplify_eq; simpl; lia|].
    destruct (Ascii.eqb b quote).
    + destruct (quoted l) as [[[f' t'] r']|] eqn:E; simplify_eq. specialize (IH l _ _ _ ltac:(lia) E). lia.
    + destruct (Ascii.eqb b comma); [simplify_eq; lia|]. destruct (Ascii.eqb b lf); simplify_eq. lia.
  - destruct (quoted l) as [[[f' t'] r']|] eqn:E; simplify_eq. specialize (IH l _ _ _ ltac:(lia) E). lia.
Qed.

Lemma read_field_length l f t r : read_field l = Ok (f, t, r) ->
  (length r <= length l)%nat /\ (l <> [] -> (length r < length l)%nat) /\ (t = More -> l <> []).
Proof.
  unfold read_field. destruct (trim_line l) as [line rest] eqn:Et. apply trim_line_length in Et as [H1 H2].
  destruct line as [|a line]; [intros [= <- <- <-]; simpl in H1; split; [lia|done]|].
  assert (l <> []) by (intros ->; simpl in H1; lia). simpl in H1.
  destruct (Ascii.eqb a quote).
  - intros H'%(quoted_length _ _ _ _ _ (le_n _)). rewrite length_app in H'. split; [lia|]. split; [lia|done].
  - intros H'. apply unquoted_length in H' as (_ & H' & _). specialize (H' ltac:(done)). simpl in H'.
    rewrite length_app in H'. split; [lia|]. split; [lia|done].
Qed.

(** The fuel of [Read] is enough, and a record takes at least a byte. *)
Lemma read_fields_total fuel : forall l, (length l < fuel)%nat ->
  exists o, read_fields fuel l = Some o /\
    forall fs r, o = Ok (fs, r) -> (length r <= length l)%nat /\ (l <> [] -> (length r < length l)%nat).
Proof.
  induction fuel as [|fuel IH]; intros l Hf; [lia|]. simpl.
  destruct (read_field l) as [[[f [|]] r]|e] eqn:E; [| |by eexists].
  - destruct (read_field_length _ _ _ _ E) as (_ & H1 & H2). specialize (H1 (H2 eq_refl)).
    destruct (IH r ltac:(lia)) as (o & -> & Ho). destruct o as [[fs r']|e]; [|by eexists].
    eexists. split; [done|]. intros fs' r'' [= <- <-]. destruct (Ho _ _ eq_refl) as [H3 _]. split; [|intros]; lia.
  - destruct (read_field_length _ _ _ _ E) as (H0 & H1 & _). eexists. split; [done|]. intros fs' r' [= <- <-]. auto.
Qed.

Lemma skip_empty_length l : (length (skip_empty l) <= length l)%nat.
Proof. induction l as [|a l IH]; simpl; [done|]. destruct (Ascii.eqb a lf); simpl; lia. Qed.

Lemma Read_total l : exists o, Read l = Some o /\
  forall fs r, o = Ok (Some (fs, r)) -> (length r < length l)%nat.
Proof.
  unfold Read. pose proof (skip_empty_length l) as Hs. destruct (skip_empty l) as [|a l'] eqn:E; [by eexists|].
  destruct (read_fields_total (S (length (a :: l'))) (a :: l') ltac:(lia)) as (o & -> & Ho).
  destruct o as [[fs r]|e]; (eexists; split; [done|]); [|done]. intros fs' r' [= <- <-].
  destruct (Ho _ _ eq_refl) as [_ H]. specialize (H ltac:(done)). lia.
Qed.
