(* ===== verification/Ingest.v ===== *)
(** [internal/ingest]: reading address lists out of uploaded spreadsheets.

    [Parse] reads the bytes of a CSV file with the reader of [Csv.v]; for an
    XLSX file the third-party reader (excelize) is the parameter [xlsx_open],
    which gives the worksheets of a workbook.  [DetectColumns] guesses the
    mapping of the columns and [Extract] applies it. *)

From S2P Require Import Prelude GoStrings Csv.
Local Open Scope list_scope.
Local Open Scope Z_scope.

Definition MaxRows : Z := 200000.
Definition MaxColumns : Z := 64.
Definition PreviewRows : Z := 5.

Record Row := { Label : string; Email : string }.

Record Sheet := { Header : list string; Rows : list (list string) }.

Inductive parse_error :=
| UnsupportedType (ext : string)
| ReadingCSV (e : csv_error)
| ReadingXLSX
| ReadingWorksheet (name : string)
| ErrNoRows.

(** ** Cells *)

(** [looksLikeEmail] *)
Definition looksLikeEmail (s : string) : bool :=
  let s := TrimSpace s in
  let at_ := IndexByte s "@"%char in
  if (at_ <=? 0) || (at_ =? slen s - 1)
     || existsb (fun a => (byte_val a =? 32) || (byte_val a =? 9)) (bytes s) then false
  else Contains (slice_from s (at_ + 1)) ".".

(** [LooksLikeEmail] *)
Definition LooksLikeEmail (s : string) : bool := looksLikeEmail s.

(** [rowHasEmail] *)
Definition rowHasEmail (row : list string) : bool := existsb looksLikeEmail row.

(** [isBlank] *)
Definition isBlank (rec : list string) : bool := forallb (fun c => String.eqb (TrimSpace c) "") rec.

Definition nameKeywords : list string := ["name"; "client"; "company"; "contact"; "customer"; "organization"].

(** [headerLooksLikeName] *)
Definition headerLooksLikeName `{UnicodeTables} (h : string) : bool :=
  let h := ToLower (TrimSpace h) in existsb (Contains h) nameKeywords.

(** ** Parsing *)

(** The columns kept of a row. *)
Definition clip (rec : list string) : list string :=
  if len rec >? MaxColumns then take (Z.to_nat MaxColumns) rec else rec.

(** [newSheet] *)
Definition newSheet (rows : list (list string)) : result parse_error Sheet :=
  match rows with
  | [] => Err ErrNoRows
  | first :: rest =>
      let s := if negb (rowHasEmail first) then {| Header := first; Rows := rest |}
               else {| Header := []; Rows := rows |} in
      match Rows s with [] => Err ErrNoRows | _ => Ok s end
  end.

(** The loop of [parseCSV] over the records; every record takes at least a byte. *)
Fixpoint csv_loop (fuel : nat) (rows : list (list string)) (l : list ascii)
    : option (result parse_error (list (list string))) :=
  if len rows <=? MaxRows then
    match fuel with
    | O => None
    | S fuel =>
        match Read l with
        | None => None
        | Some (Err e) => Some (Err (ReadingCSV e))
        | Some (Ok None) => Some (Ok rows)
        | Some (Ok (Some (rec, l))) =>
            let rec := clip rec in
            if isBlank rec then csv_loop fuel rows l else csv_loop fuel (rows ++ [rec]) l
        end
    end
  else Some (Ok rows).

(** [parseCSV] *)
Definition parseCSV (file : list ascii) : option (result parse_error Sheet) :=
  let l := normalize_lines file in
  match csv_loop (S (length l)) [] l with
  | None => None
  | Some (Err e) => Some (Err e)
  | Some (Ok rows) => Some (newSheet rows)
  end.

(** The loop of [parseXLSX] over the rows of the worksheet. *)
Fixpoint xlsx_loop (rows raw : list (list string)) : list (list string) :=
  match raw with
  | [] => rows
  | rec :: raw =>
      if len rows >=? MaxRows then rows
      else let rec := clip rec in
           if isBlank rec then xlsx_loop rows raw else xlsx_loop (rows ++ [rec]) raw
  end.

(** A workbook: its worksheets by name, each with its rows or a read error. *)
Definition workbook : Type := list (string * option (list (list string))).

(** [parseXLSX] *)
Definition parseXLSX (xlsx_open : list ascii -> option workbook) (file : list ascii) : result parse_error Sheet :=
  match xlsx_open file with
  | None => Err ReadingXLSX
  | Some [] => Err ErrNoRows
  | Some ((name, None) :: _) => Err (ReadingWorksheet name)
  | Some ((_, Some raw) :: _) => newSheet (xlsx_loop [] raw)
  end.

(** [filepath.Ext]: from the last dot of the last path element. *)
Fixpoint ext_scan (acc rev : list ascii) : list ascii :=
  match rev with
  | [] => []
  | a :: rev =>
      if Ascii.eqb a "/"%char then []
      else if Ascii.eqb a "."%char then a :: acc
      else ext_scan (a :: acc) rev
  end.
Definition Ext (path : string) : string := of_bytes (ext_scan [] (reverse (bytes path))).

(** [Parse] *)
Definition Parse `{UnicodeTables} (xlsx_open : list ascii -> option workbook) (filename : string) (file : list ascii)
    : option (result parse_error Sheet) :=
  let ext := ToLower (Ext filename) in
  if bool_decide (ext ∈ [".csv"; ".txt"; ".tsv"]) then parseCSV file
  else if bool_decide (ext ∈ [".xlsx"; ".xlsm"]) then Some (parseXLSX xlsx_open file)
  else Some (Err (UnsupportedType (Ext filename))).

(** ** Columns *)

(** [width] *)
Definition width (s : Sheet) : Z :=
  let w := fold_left (fun w row => if len row >? w then len row else w) (Rows s) (len (Header s)) in
  if w >? MaxColumns then MaxColumns else w.

(** The cells of a column that satisfy a test. *)
Definition cell_sat (p : string -> bool) (c : nat) (row : list string) : bool :=
  match row !! c with Some x => p x | None => false end.
Definition hits (s : Sheet) (c : nat) : Z := len (List.filter (cell_sat looksLikeEmail c) (Rows s)).

(** The first loop of [DetectColumns]: the best count so far and its column. *)
Definition email_step (s : Sheet) (best : Z * Z) (c : nat) : Z * Z :=
  if hits s c >? best.1 then (hits s c, Z.of_nat c) else best.
Definition email_column (s : Sheet) : Z :=
  (fold_left (email_step s) (seq 0 (Z.to_nat (width s))) (0, -1)).2.

(** The columns in which the label is looked for. *)
Fixpoint first_col (p : nat -> bool) (cs : list nat) : option nat :=
  match cs with [] => None | c :: cs => if p c then Some c else first_col p cs end.

(** [DetectColumns] *)
Definition DetectColumns `{UnicodeTables} (s : Sheet) : Z * Z :=
  let w := width s in
  if w =? 0 then (-1, -1)
  else
    let e := email_column s in
    if e =? -1 then (-1, -1)
    else
      let other c := negb (Z.of_nat c =? e) in
      match first_col (fun c => other c && negb (Z.of_nat c >=? w)
                                && match Header s !! c with Some h => headerLooksLikeName h | None => false end)
                      (seq 0 (length (Header s))) with
      | Some c => (e, Z.of_nat c)
      | None =>
          match first_col (fun c => other c && existsb (cell_sat (fun x => negb (String.eqb (TrimSpace x) "")) c) (Rows s))
                          (seq 0 (Z.to_nat w)) with
          | Some c => (e, Z.of_nat c)
          | None => (e, -1)
          end
      end.

(** [Extract] *)
Definition extract_row (emailCol labelCol : Z) (row : list string) : option Row :=
  match row !! Z.to_nat emailCol with
  | None => None
  | Some cell =>
      let email := TrimSpace cell in
      if String.eqb email "" then None
      else
        let label := if 0 <=? labelCol then
                       match row !! Z.to_nat labelCol with Some x => TrimSpace x | None => "" end
                     else "" in
        Some {| Label := label; Email := email |}
  end.
Definition Extract (emailCol labelCol : Z) (s : Sheet) : list Row :=
  if emailCol <? 0 then [] else omap (extract_row emailCol labelCol) (Rows s).

(** [Preview] *)
Definition Preview (s : Sheet) : list (list string) :=
  if len (Rows s) <=? PreviewRows then Rows s else take (Z.to_nat PreviewRows) (Rows s).

(** ** Theorems *)

Definition row_ok (row : list string) : Prop := len row <= MaxColumns /\ isBlank row = false.

Lemma clip_len rec : len (clip rec) <= MaxColumns.
Proof.
  unfold clip. destruct (len rec >? MaxColumns) eqn:E; bool_to_prop; [|lia].
  unfold len. rewrite length_take. unfold MaxColumns in *. lia.
Qed.

Lemma csv_loop_ok fuel : forall rows l, (length l < fuel)%nat -> Forall row_ok rows -> len rows <= MaxRows + 1 ->
  exists o, csv_loop fuel rows l = Some o /\ forall out, o = Ok out -> Forall row_ok out /\ len out <= MaxRows + 1.
Proof.
  induction fuel as [|fuel IH]; intros rows l Hf Hok Hlen; [lia|]. cbn [csv_loop].
  destruct (len rows <=? MaxRows) eqn:E; [|eexists; split; [done|]; by intros ? [= <-]]. bool_to_prop.
  destruct (Read_total l) as (o & -> & Ho). destruct o as [[[rec l']|]|e].
  - specialize (Ho _ _ eq_refl). destruct (isBlank (clip rec)) eqn:Eb; [by apply IH; [lia| |]|].
    apply IH; [lia| |].
    + apply Forall_app. split; [done|]. constructor; [|done]. split; [apply clip_len|done].
    + rewrite len_app. change (len [_]) with 1. lia.
  - eexists. split; [done|]. by intros ? [= <-].
  - by eexists.
Qed.

Lemma xlsx_loop_ok raw : forall rows, Forall row_ok rows -> len rows <= MaxRows ->
  Forall row_ok (xlsx_loop rows raw) /\ len (xlsx_loop rows raw) <= MaxRows.
Proof.
  induction raw as [|rec raw IH]; intros rows Hok Hlen; cbn [xlsx_loop]; [done|].
  destruct (len rows >=? MaxRows) eqn:E; [done|]. bool_to_prop. destruct (isBlank (clip rec)) eqn:Eb; [by apply IH|].
  apply IH; [|rewrite len_app; change (len [_]) with 1; lia].
  apply Forall_app. split; [done|]. constructor; [|done]. split; [apply clip_len|done].
Qed.

(** What a parsed sheet looks like. *)
Record sheet_ok (s : Sheet) : Prop := {
  so_rows : Rows s <> [];
  so_cells : Forall row_ok (Rows s);
  so_size : len (Rows s) <= MaxRows + 1;
  so_header : len (Header s) <= MaxColumns /\ rowHasEmail (Header s) = false;
}.

Lemma newSheet_ok rows s : Forall row_ok rows -> len rows <= MaxRows + 1 -> newSheet rows = Ok s -> sheet_ok s.
Proof.
  destruct rows as [|first rest]; [done|]. intros Hok Hlen. inversion Hok as [|? ? [H1 H2] Hrest]; subst. simpl.
  destruct (rowHasEmail first) eqn:E; simpl.
  - intros [= <-]. by constructor.
  - destruct rest as [|r rest]; [done|]. intros [= <-]. constructor; simpl; try done.
    unfold len in *. simpl in *. lia.
Qed.

(** [Parse] returns for every file. *)
Lemma Parse_runs `{UnicodeTables} xlsx_open filename file : exists o, Parse xlsx_open filename file = Some o.
Proof.
  unfold Parse. case_bool_decide; [|case_bool_decide; by eexists]. unfold parseCSV. set (l := normalize_lines file).
  destruct (csv_loop_ok (S (length l)) [] l) as ([rows|e] & -> & _); [lia|constructor|done| |]; by eexists.
Qed.

(** Parsing always answers, and what it accepts is bounded: for every file
    name and every sequence of bytes [Parse] returns, and a sheet it returns has
    at least one and at most [MaxRows + 1] data rows, none of them blank, no row
    wider than [MaxColumns], and a header without an address in it. *)
Theorem Parse_total `{UnicodeTables} xlsx_open filename file :
  exists o, Parse xlsx_open filename file = Some o /\ forall s, o = Ok s -> sheet_ok s.
Proof.
  unfold Parse. case_bool_decide; [|case_bool_decide].
  - unfold parseCSV. set (l := normalize_lines file).
    destruct (csv_loop_ok (S (length l)) [] l) as (o & -> & Ho); [lia|constructor|done|].
    destruct o as [rows|e]; (eexists; split; [done|]); [|done]. intros s Hs.
    destruct (Ho rows eq_refl) as [H1 H2]. by eapply newSheet_ok.
  - eexists. split; [done|]. unfold parseXLSX. intros s.
    destruct (xlsx_open file) as [[|[name [raw|]] wb]|]; try done.
    destruct (xlsx_loop_ok raw [] (Forall_nil_2 _) ltac:(done)). intros Hs. eapply newSheet_ok; [..|done]; [done|lia].
  - eexists. by split.
Qed.

Lemma email_fold s n :
  let best := fold_left (email_step s) (seq 0 n) (0, -1) in
  (best = (0, -1) /\ forall c, (c < n)%nat -> hits s c = 0) \/
  (exists c, (c < n)%nat /\ best = (hits s c, Z.of_nat c) /\ 0 < hits s c /\
     (forall c', (c' < n)%nat -> hits s c' <= hits s c) /\ (forall c', (c' < c)%nat -> hits s c' < hits s c)).
Proof.
  induction n as [|n IH]; cbn zeta in *; [left; split; [done|lia]|].
  rewrite seq_S, fold_left_app. cbn [fold_left]. simpl (0 + n)%nat.
  destruct IH as [[-> Hz]|(c & Hc & -> & Hp & Hm & Hf)]; unfold email_step; cbn [fst].
  - destruct (hits s n >? 0) eqn:E; bool_to_prop.
    + right. exists n. repeat split; try done; try lia.
      * intros c' Hc'. destruct (decide (c' = n)) as [-> |]; [lia|]. rewrite Hz by lia. lia.
      * intros c' Hc'. rewrite Hz by lia. lia.
    + left. split; [done|]. intros c Hc. destruct (decide (c = n)) as [-> |]; [|apply Hz; lia].
      assert (0 <= hits s n) by apply len_nonneg. lia.
  - destruct (hits s n >? hits s c) eqn:E; bool_to_prop.
    + right. exists n. repeat split; try done; try lia; intros c' Hc'.
      * destruct (decide (c' = n)) as [-> |]; [lia|]. specialize (Hm c' ltac:(lia)). lia.
      * specialize (Hm c' ltac:(lia)). lia.
    + right. exists c. repeat split; try done; try lia. intros c' Hc'.
      destruct (decide (c' = n)) as [-> |]; [lia|]. apply Hm. lia.
Qed.

Lemma first_col_Some p cs c : first_col p cs = Some c -> c ∈ cs /\ p c = true.
Proof.
  induction cs as [|x cs IH]; simpl; [done|]. destruct (p x) eqn:E.
  - intros [= <-]. split; [left|done].
  - intros [H1 H2]%IH. split; [by right|done].
Qed.

Lemma width_range s : 0 <= width s <= MaxColumns.
Proof.
  unfold width. set (w := fold_left _ _ _). assert (Hw : 0 <= w).
  { unfold w. generalize (len_nonneg (Header s)). generalize (len (Header s)).
    induction (Rows s) as [|row rows IH]; simpl; [done|]. intros z Hz. apply IH. destruct (_ >? _) eqn:E; bool_to_prop; lia. }
  destruct (w >? MaxColumns) eqn:E; bool_to_prop; unfold MaxColumns in *; lia.
Qed.

(** The detected address column is the right guess: [DetectColumns] gives -1
    exactly when no cell of the data looks like an address; otherwise it gives
    the first of the columns with the most such cells, and a label column, if
    any, that is another column of the sheet. *)
Theorem DetectColumns_spec `{UnicodeTables} s e lb :
  DetectColumns s = (e, lb) ->
  (e = -1 /\ lb = -1 /\ forall c, Z.of_nat c < width s -> hits s c = 0) \/
  (exists c, e = Z.of_nat c /\ e < width s /\ 0 < hits s c /\
     (forall c', Z.of_nat c' < width s -> hits s c' <= hits s c) /\
     (forall c', (c' < c)%nat -> hits s c' < hits s c) /\
     lb <> e /\ -1 <= lb < width s).
Proof.
  pose proof (width_range s) as Hw. unfold DetectColumns. destruct (width s =? 0) eqn:E0; bool_to_prop.
  { intros [= <- <-]. left. repeat split; try done. lia. }
  pose proof (email_fold s (Z.to_nat (width s))) as Hf. cbn zeta in Hf.
  unfold email_column. destruct Hf as [[-> Hz]|(c & Hc & -> & Hp & Hm & Hl)]; cbn [snd].
  { intros [= <- <-]. left. repeat split; try done. intros c Hc. apply Hz. lia. }
  replace (Z.of_nat c =? -1) with false by (symmetry; apply Z.eqb_neq; lia).
  intros Hd. right. exists c.
  assert (Hmax : forall c', Z.of_nat c' < width s -> hits s c' <= hits s c) by (intros; apply Hm; lia).
  assert (Hgoal : e = Z.of_nat c /\ lb <> e /\ -1 <= lb < width s).
  { destruct (first_col _ (seq 0 (length (Header s)))) as [h|] eqn:E1.
    - injection Hd as <- <-. apply first_col_Some in E1 as [_ E1]. bool_to_prop. lia.
    - destruct (first_col _ (seq 0 (Z.to_nat (width s)))) as [h|] eqn:E2.
      + injection Hd as <- <-. apply first_col_Some in E2 as [Hin E2]. apply elem_of_seq in Hin. bool_to_prop. lia.
      + injection Hd as <- <-. lia. }
  destruct Hgoal as (-> & Hne & Hr). repeat split; try done; try lia.
Qed.

Definition ex_sheet : Sheet := {| Header := ["Contact"; "Id"; "Mail"];
  Rows := [["Ann"; "7"; "a@x.com"]; ["Bob"; "b@y"; "b@y.org"]] |}.

Lemma DetectColumns_spec_witness :
  DetectColumns (H := ascii_tables) ex_sheet = (2, 0) /\ (0 : Z) <> 2.
Proof.
  assert (E : DetectColumns (H := ascii_tables) ex_sheet = (2, 0)) by (vm_compute; reflexivity).
  split; [exact E|].
  destruct (DetectColumns_spec (H := ascii_tables) ex_sheet 2 0 E) as [[H _]|(c & _ & _ & _ & _ & _ & H & _)];
    [discriminate H|exact H].
Defined.
