(* ===== verification/Reports.v ===== *)
(** [internal/web/buckets.go] and [internal/web/metrics.go]: what the dashboard
    reports of a job.

    A [Bucket] is what an operator should do with a result.  The counts beside
    the download controls come from the job's statistics, the downloads from the
    results themselves; [bucket_counts_agree] shows that the two never disagree
    for the verdicts the verifier produces.  The formatting of the creation time
    is not modelled. *)

From Stdlib Require Import QArith Qabs Lqa.
From S2P Require Import Prelude GoStrings Float64 GoTime Verdict Engine Settings Policy Store Memory.
Local Open Scope list_scope.
Local Open Scope Z_scope.

(** ** Buckets *)

Inductive Bucket :=
| BucketAll | BucketSafe | BucketRisky | BucketUndeliverable | BucketSkipped | BucketRetry
| Bucket_other (s : string).

#[global] Instance Bucket_eq_decision : EqDecision Bucket.
Proof. solve_decision. Defined.

(** The string of the query parameter as a bucket. *)
Definition Bucket_of (s : string) : Bucket :=
  if String.eqb s "all" then BucketAll else if String.eqb s "safe" then BucketSafe
  else if String.eqb s "risky" then BucketRisky else if String.eqb s "undeliverable" then BucketUndeliverable
  else if String.eqb s "skipped" then BucketSkipped else if String.eqb s "retry" then BucketRetry
  else Bucket_other s.

Definition Bucket_String (b : Bucket) : string :=
  match b with
  | BucketAll => "all" | BucketSafe => "safe" | BucketRisky => "risky"
  | BucketUndeliverable => "undeliverable" | BucketSkipped => "skipped" | BucketRetry => "retry"
  | Bucket_other s => s
  end.

Definition bucketLabels (b : Bucket) : option string :=
  match b with
  | BucketAll => Some "All results" | BucketSafe => Some "Safe to send" | BucketRisky => Some "Risky"
  | BucketUndeliverable => Some "Do not send" | BucketSkipped => Some "Not checked"
  | BucketRetry => Some "Retry later" | Bucket_other _ => None
  end.

Definition bucketOrder : list Bucket :=
  [BucketSafe; BucketRisky; BucketSkipped; BucketRetry; BucketUndeliverable; BucketAll].

(** [validBucket] *)
Definition validBucket (b : Bucket) : bool := match bucketLabels b with Some _ => true | None => false end.

(** [classify] *)
Definition classify (v : Verdict) : Bucket :=
  match vSubStatus v with
  | SubRoleAccount => BucketSafe
  | SubProviderSkipped => BucketSkipped
  | _ => match vStatus v with
         | StatusDeliverable => BucketSafe
         | StatusRisky => BucketRisky
         | StatusUndeliverable => BucketUndeliverable
         | _ => BucketRetry
         end
  end.

Definition at_key (m : gmap string Z) (k : string) : Z := default 0 (m !! k).

(** [bucketCounts]; a bucket that is not in the map counts 0. *)
Definition bucketCounts (stats : JobStats) (b : Bucket) : Z :=
  let role := at_key (BySubStatus stats) (SubStatus_String SubRoleAccount) in
  let skipped := at_key (BySubStatus stats) (SubStatus_String SubProviderSkipped) in
  let n := match b with
           | BucketAll => stats_Total stats
           | BucketSafe => at_key (ByStatus stats) "deliverable" + role
           | BucketRisky => at_key (ByStatus stats) "risky" - role - skipped
           | BucketUndeliverable => at_key (ByStatus stats) "undeliverable"
           | BucketSkipped => skipped
           | BucketRetry => at_key (ByStatus stats) "unknown"
           | Bucket_other _ => 0
           end in
  if n <? 0 then 0 else n.

Record bucketView := { bv_Bucket : Bucket; bv_Label : string; bv_Count : Z }.

(** [bucketViews] *)
Definition bucketViews (stats : JobStats) : list bucketView :=
  (fun b => {| bv_Bucket := b; bv_Label := default "" (bucketLabels b); bv_Count := bucketCounts stats b |})
    <$> bucketOrder.

(** [filterBucket] *)
Definition filterBucket (results : list Result) (b : Bucket) : list Result :=
  if bool_decide (b = BucketAll) then results
  else List.filter (fun r => bool_decide (classify (res_Verdict r) = b)) results.

(** ** Metrics *)

Record metricRow := { mr_Key : string; mr_Count : Z; mr_Percent : Z; mr_Class : string }.

Section Metrics.
Context `{FloatConv}.

(** [percent] *)
Definition percent (n total : Z) : Z :=
  if total <=? 0 then 0
  else f64_to_int64 (fadd (fmul (fdiv (f64_of_Z n) (f64_of_Z total)) (f64 100)) (f64 (1 # 2))).

(** The comparison of [breakdown]: larger counts first, then by key. *)
Definition row_less (x y : metricRow) : bool :=
  if mr_Count x =? mr_Count y then String.ltb (mr_Key x) (mr_Key y) else mr_Count x >? mr_Count y.

(** [sort.Slice] with that comparison. *)
Fixpoint insert_row (r : metricRow) (l : list metricRow) : list metricRow :=
  match l with
  | [] => [r]
  | x :: l' => if row_less x r then x :: insert_row r l' else r :: l
  end.

Definition metric_row (total : Z) (badged : bool) (kn : string * Z) : metricRow :=
  let k := if String.eqb kn.1 "" then "unknown" else kn.1 in
  {| mr_Key := k; mr_Count := kn.2; mr_Percent := percent kn.2 total; mr_Class := if badged then k else "" |}.

(** The rows of the counts in the order the map is iterated. *)
Definition breakdown_of (counts : list (string * Z)) (total : Z) (badged : bool) : list metricRow :=
  foldr insert_row [] (metric_row total badged <$> counts).

(** [breakdown] *)
Definition breakdown (counts : gmap string Z) (total : Z) (badged : bool) : list metricRow :=
  breakdown_of (map_to_list counts) total badged.

(** [newJobView], the progress of a job. *)
Record jobView := { jv_Job : Job; jv_PercentDone : Z; jv_Running : bool }.

Definition newJobView (j : Job) : jobView :=
  {| jv_Job := j;
     jv_PercentDone := if job_Total j >? 0 then Z.quot (wrap64 (job_Done j * 100)) (job_Total j) else 0;
     jv_Running := bool_decide (job_Status j = JobRunning) || bool_decide (job_Status j = JobQueued) |}.

Record jobMetrics := {
  jm_Job : jobView; jm_Total : Z;
  jm_Deliverable : Z; jm_DeliverablePercent : Z; jm_Retryable : Z; jm_RetryablePercent : Z;
  jm_Probed : Z; jm_ProbedPercent : Z; jm_NotProbed : Z; jm_NotProbedPercent : Z;
  jm_Statuses : list metricRow; jm_Reasons : list metricRow; jm_Providers : list metricRow;
  jm_Buckets : list bucketView;
}.

(** [buildJobMetrics] *)
Definition buildJobMetrics (job : Job) (stats : JobStats) : jobMetrics :=
  let deliverable := at_key (ByStatus stats) "deliverable" in
  let retryable := at_key (ByStatus stats) "unknown" in
  {| jm_Job := newJobView job; jm_Total := stats_Total stats;
     jm_Deliverable := deliverable; jm_DeliverablePercent := percent deliverable (stats_Total stats);
     jm_Retryable := retryable; jm_RetryablePercent := percent retryable (stats_Total stats);
     jm_Probed := stats_Probed stats; jm_ProbedPercent := percent (stats_Probed stats) (stats_Total stats);
     jm_NotProbed := stats_NotProbed stats; jm_NotProbedPercent := percent (stats_NotProbed stats) (stats_Total stats);
     jm_Statuses := breakdown (ByStatus stats) (stats_Total stats) true;
     jm_Reasons := breakdown (BySubStatus stats) (stats_Total stats) false;
     jm_Providers := breakdown (ByProvider stats) (stats_Total stats) false;
     jm_Buckets := bucketViews stats |}.
End Metrics.

(** ** Buckets: lemmas and theorems *)

(** What the verifier emits: a valid status, and the two special reasons only
    under "risky". *)
Definition emitted (v : Verdict) : Prop :=
  Status_Valid (vStatus v) = true /\
  (vSubStatus v = SubRoleAccount \/ vSubStatus v = SubProviderSkipped -> vStatus v = StatusRisky) /\
  match vSubStatus v with SubStatus_other s => s <> "role_account" /\ s <> "provider_skipped" | _ => True end.

Definition in_bucket (b : Bucket) (r : Result) : bool := bool_decide (classify (res_Verdict r) = b).

Lemma count_cons {A} (p : A -> bool) x l : count p (x :: l) = count p l + (if p x then 1 else 0).
Proof. unfold count. simpl. destruct (p x); unfold len; simpl; lia. Qed.

(** One verdict contributes to the derived counts what it contributes to the
    downloads. *)
Lemma emitted_counts r :
  emitted (res_Verdict r) ->
  let b (x : bool) := if x then 1 else 0 in
  b (in_bucket BucketSafe r) = b (has_status "deliverable" r) + b (has_reason "role_account" r) /\
  b (in_bucket BucketRisky r) = b (has_status "risky" r) - b (has_reason "role_account" r) - b (has_reason "provider_skipped" r) /\
  b (in_bucket BucketUndeliverable r) = b (has_status "undeliverable" r) /\
  b (in_bucket BucketSkipped r) = b (has_reason "provider_skipped" r) /\
  b (in_bucket BucketRetry r) = b (has_status "unknown" r).
Proof.
  unfold emitted, in_bucket, has_status, has_reason, classify. destruct r as [label v]. simpl.
  intros (Hv & Hr & Ho). revert Hv Hr Ho.
  destruct (vSubStatus v) eqn:Es; destruct (vStatus v) eqn:Et; simpl; intros Hv Hr Ho; try done;
    try (exfalso; destruct (Hr ltac:(auto)); done); try (exfalso; by specialize (Hr ltac:(auto))).
  all: destruct Ho as [H1 H2]; apply String.eqb_neq in H1, H2; rewrite H1, H2; done.
Qed.

Lemma bucket_counts_fold results :
  Forall (fun r => emitted (res_Verdict r)) results ->
  count (in_bucket BucketSafe) results = count (has_status "deliverable") results + count (has_reason "role_account") results /\
  count (in_bucket BucketRisky) results = count (has_status "risky") results - count (has_reason "role_account") results
    - count (has_reason "provider_skipped") results /\
  count (in_bucket BucketUndeliverable) results = count (has_status "undeliverable") results /\
  count (in_bucket BucketSkipped) results = count (has_reason "provider_skipped") results /\
  count (in_bucket BucketRetry) results = count (has_status "unknown") results.
Proof.
  induction 1 as [|r results Hr _ IH]; [done|]. rewrite !count_cons.
  destruct (emitted_counts r Hr) as (H1 & H2 & H3 & H4 & H5). destruct IH as (G1 & G2 & G3 & G4 & G5). lia.
Qed.

(** The dashboard's counts are those of its downloads: for results with the
    verdicts the verifier emits, the count derived from the job's statistics
    for each bucket is the number of results the download of that bucket
    contains. *)
Theorem bucket_counts_agree results b :
  Forall (fun r => emitted (res_Verdict r)) results -> b ∈ bucketOrder ->
  bucketCounts (fold_left stats_add results stats_zero) b = len (filterBucket results b).
Proof.
  intros Hr Hb. destruct (stats_fold results stats_zero) as (H1 & _ & _ & H4 & H5). cbv zeta in *.
  assert (Hs : forall k, at_key (ByStatus (fold_left stats_add results stats_zero)) k = count (has_status k) results)
    by (intros k; unfold at_key; by rewrite H4).
  assert (Hq : forall k, at_key (BySubStatus (fold_left stats_add results stats_zero)) k = count (has_reason k) results)
    by (intros k; unfold at_key; by rewrite H5).
  destruct (bucket_counts_fold results Hr) as (G1 & G2 & G3 & G4 & G5).
  assert (Hf : forall b', b' <> BucketAll -> len (filterBucket results b') = count (in_bucket b') results).
  { intros b' Hne. unfold filterBucket. by rewrite bool_decide_eq_false_2. }
  assert (Hpos : forall b' n, b' <> BucketAll -> count (in_bucket b') results = n -> (if n <? 0 then 0 else n) = len (filterBucket results b')).
  { intros b' n Hne Hn. rewrite Hf by done. pose proof (len_nonneg (List.filter (in_bucket b') results)).
    unfold count in *. rewrite (proj2 (Z.ltb_ge n 0)) by lia. lia. }
  unfold bucketCounts. rewrite !Hs, !Hq, H1. cbn [SubStatus_String].
  unfold bucketOrder in Hb. rewrite !elem_of_cons in Hb.
  destruct Hb as [-> |[-> |[-> |[-> |[-> |[-> |Hb]]]]]]; try (by apply Hpos).
  - pose proof (len_nonneg results). simpl (stats_Total stats_zero). unfold filterBucket.
    rewrite bool_decide_eq_true_2, (proj2 (Z.ltb_ge _ _)) by (done || lia). lia.
  - by apply not_elem_of_nil in Hb.
Qed.

(** The five buckets other than "all". *)
Definition exclusive_buckets : list Bucket :=
  [BucketSafe; BucketRisky; BucketSkipped; BucketRetry; BucketUndeliverable].

Lemma classify_exclusive v : classify v ∈ exclusive_buckets.
Proof.
  unfold classify, exclusive_buckets.
  destruct (vSubStatus v); try (destruct (vStatus v)); rewrite !elem_of_cons; naive_solver.
Qed.

(** The buckets are a partition: every result is in exactly one of the five
    download groups, so together the downloads contain each result once. *)
Theorem buckets_partition results :
  concat (filterBucket results <$> exclusive_buckets) ≡ₚ results /\
  (forall r b b', r ∈ filterBucket results b -> r ∈ filterBucket results b' ->
     b ∈ exclusive_buckets -> b' ∈ exclusive_buckets -> b = b').
Proof.
  split.
  - unfold filterBucket. simpl. induction results as [|r results IH]; [done|].
    pose proof (classify_exclusive (res_Verdict r)) as Hc. unfold exclusive_buckets in Hc. rewrite !elem_of_cons in Hc.
    etransitivity; [|apply perm_skip, IH]. cbn [List.filter].
    destruct Hc as [-> |[-> |[-> |[-> |[-> |Hc]]]]]; [..|by apply not_elem_of_nil in Hc]; simpl; solve_Permutation.
  - intros r b b' H1 H2 Hb Hb'. unfold filterBucket in *.
    assert (Hne : forall x, x ∈ exclusive_buckets -> x <> BucketAll) by (intros x Hx ->; unfold exclusive_buckets in Hx; set_solver).
    rewrite bool_decide_eq_false_2 in H1, H2 by auto.
    apply list_elem_of_In, filter_In in H1 as [_ H1], H2 as [_ H2]. bool_to_prop. congruence.
Qed.

(** ** Percentages *)

Section Percent.
Context `{FloatConv}.
Local Open Scope Q_scope.

Lemma rnd_100 : rnd 100 = 100. Proof. vm_compute. reflexivity. Qed.

Lemma f64_of_Z_fin z : (0 <= z <= max_int64)%Z -> f64_of_Z z = Fin (rnd (inject_Z z)).
Proof.
  intros Hz. unfold f64_of_Z. apply f64_fin.
  - apply Qle_trans with 0; [by vm_compute|]. change 0 with (inject_Z 0). rewrite <- Zle_Qle. lia.
  - apply Qle_trans with (inject_Z max_int64); [rewrite <- Zle_Qle; lia|by vm_compute].
Qed.

(** The quotient of a part and its whole, as a float64 of the unit interval. *)
Lemma ratio_unit n total :
  (0 <= n <= total)%Z -> (0 < total <= max_int64)%Z ->
  exists q, fdiv (f64_of_Z n) (f64_of_Z total) = Fin q /\ 0 <= q /\ q <= 1 /\
    (n = total -> q = 1) /\ (n = 0%Z -> q = 0).
Proof.
  intros Hn Ht. rewrite !f64_of_Z_fin by lia. set (x := rnd (inject_Z n)). set (y := rnd (inject_Z total)).
  assert (Hx : 0 <= x) by (rewrite <- rnd_at_0; apply rnd_mono; change 0 with (inject_Z 0); rewrite <- Zle_Qle; lia).
  assert (Hxy : x <= y) by (apply rnd_mono; rewrite <- Zle_Qle; lia).
  assert (Hy : 1 <= y) by (rewrite <- rnd_at_1; apply rnd_mono; change 1 with (inject_Z 1); rewrite <- Zle_Qle; lia).
  assert (Hq : 0 <= x / y /\ x / y <= 1).
  { split; [apply Qle_shift_div_l|apply Qle_shift_div_r]; lra. }
  unfold fdiv. destruct (Qis0 y) eqn:E0.
  { unfold Qis0 in E0. apply Qeq_bool_iff in E0. lra. }
  destruct Hq as [Hq0 Hq1]. exists (rnd (x / y)). rewrite f64_unit by done. split; [done|].
  split; [rewrite <- rnd_at_0; by apply rnd_mono|]. split; [rewrite <- rnd_at_1; by apply rnd_mono|]. split.
  - intros ->. assert (He : x / y == 1) by (unfold x, y in *; apply Qmult_inv_r; lra).
    by rewrite (rnd_proper _ _ He), rnd_at_1.
  - intros ->. apply rnd_zero. unfold x. change (inject_Z 0) with 0. rewrite rnd_at_0. unfold Qdiv. ring.
Qed.

Lemma ftrunc_range q k : 0 <= q -> q < inject_Z (k + 1) -> (0 <= ftrunc q <= k)%Z.
Proof.
  unfold ftrunc. destruct q as [a d]. unfold Qle, Qlt. simpl. intros H0 H1.
  rewrite Z.quot_div_nonneg by lia. split; [apply Z.div_pos; lia|].
  assert (a / Z.pos d < k + 1)%Z by (apply Z.div_lt_upper_bound; lia). lia.
Qed.

(** A percentage is one: for a part of a positive whole the rounded percentage
    of the report lies between 0 and 100, it is 0 for nothing and 100 for the
    whole, although it is computed in floating point. *)
Theorem percent_range n total :
  (0 <= n <= total)%Z -> (0 < total <= max_int64)%Z ->
  (0 <= percent n total <= 100)%Z /\ percent 0 total = 0%Z /\ percent total total = 100%Z.
Proof.
  intros Hn Ht.
  assert (Hgen : forall m, (0 <= m <= total)%Z -> exists p, percent m total = ftrunc p /\ 1 # 2 <= p /\ p <= 201 # 2 /\
    (m = 0%Z -> p = 1 # 2) /\ (m = total -> p = 201 # 2)).
  { intros m Hm. unfold percent. rewrite (proj2 (Z.leb_gt _ _)) by lia.
    destruct (ratio_unit m total) as (q & -> & Hq0 & Hq1 & Hqt & Hqz); [lia|lia|].
    change (f64 100) with (Fin 100). unfold fmul. rewrite f64_fin; [|apply Qle_trans with 0; [by vm_compute|lra]
      |apply Qle_trans with 100; [lra|by vm_compute]].
    assert (Hp0 : 0 <= rnd (q * 100)) by (rewrite <- rnd_at_0; apply rnd_mono; lra).
    assert (Hp1 : rnd (q * 100) <= 100) by (rewrite <- rnd_100 at 2; apply rnd_mono; lra).
    change (f64 (1 # 2)) with (Fin (1 # 2)). unfold fadd. rewrite f64_fin; [|apply Qle_trans with 0; [by vm_compute|lra]
      |apply Qle_trans with 101; [lra|by vm_compute]].
    assert (Hr0 : 1 # 2 <= rnd (rnd (q * 100) + (1 # 2)))
      by (assert (E : rnd (1 # 2) = (1 # 2)) by (vm_compute; reflexivity); rewrite <- E at 1; apply rnd_mono; lra).
    assert (Hr1 : rnd (rnd (q * 100) + (1 # 2)) <= 201 # 2)
      by (assert (E : rnd (201 # 2) = (201 # 2)) by (vm_compute; reflexivity); rewrite <- E; apply rnd_mono; lra).
    eexists. split; [|split; [exact Hr0|split; [exact Hr1|]]].
    - unfold f64_to_int64. destruct (ftrunc_range (rnd (rnd (q * 100) + (1 # 2))) 100) as [Ha Hb]; [lra| |].
      { apply Qle_lt_trans with (201 # 2); [done|reflexivity]. }
      unfold int64_ok, min_int64, max_int64. rewrite !(proj2 (Z.leb_le _ _)) by lia. done.
    - split; intros E; [rewrite (Hqz E)|rewrite (Hqt E)]; vm_compute; reflexivity. }
  split; [|split].
  - destruct (Hgen n Hn) as (p & -> & H0 & H1 & _). apply ftrunc_range; [lra|].
    apply Qle_lt_trans with (201 # 2); [done|reflexivity].
  - destruct (Hgen 0%Z ltac:(lia)) as (p & -> & _ & _ & Hz & _). by rewrite Hz.
  - destruct (Hgen total ltac:(lia)) as (p & -> & _ & _ & _ & Hw). by rewrite Hw.
Qed.
End Percent.

(** ** Breakdowns *)

Section Breakdown.
Context `{FloatConv}.

Lemma string_ltb_irrefl a : String.ltb a a = false.
Proof.
  unfold String.ltb. pose proof (String.compare_antisym a a) as E. by destruct (String.compare a a).
Qed.

Lemma row_less_trans x y z : row_less x y = true -> row_less y z = true -> row_less x z = true.
Proof.
  unfold row_less. rewrite !Z.gtb_ltb.
  destruct (Z.eqb_spec (mr_Count x) (mr_Count y)), (Z.eqb_spec (mr_Count y) (mr_Count z)),
    (Z.eqb_spec (mr_Count x) (mr_Count z)); rewrite ?Z.ltb_lt; intros; try lia.
  by eapply string_ltb_trans.
Qed.

Lemma row_less_asym x y : row_less x y = true -> row_less y x = false.
Proof.
  intros H1. destruct (row_less y x) eqn:H2; [|done]. pose proof (row_less_trans _ _ _ H1 H2) as H3. revert H3.
  unfold row_less. by rewrite Z.eqb_refl, string_ltb_irrefl.
Qed.

Lemma row_less_total x y : row_less x y = false -> row_less y x = false ->
  mr_Count x = mr_Count y /\ mr_Key x = mr_Key y.
Proof.
  unfold row_less. destruct (mr_Count x =? mr_Count y) eqn:E1; destruct (mr_Count y =? mr_Count x) eqn:E2;
    bool_to_prop; intros H1 H2; bool_to_prop; try lia.
  split; [done|]. destruct (decide (mr_Key x = mr_Key y)) as [|Hne]; [done|].
  apply (string_ltb_total _ _ Hne) in H1. congruence.
Qed.

(** Rows of one table are determined by their count and key. *)
Definition row_of (total : Z) (badged : bool) (r : metricRow) : Prop :=
  mr_Percent r = percent (mr_Count r) total /\ mr_Class r = if badged then mr_Key r else "".

Lemma row_of_eq total badged x y :
  row_of total badged x -> row_of total badged y -> mr_Count x = mr_Count y -> mr_Key x = mr_Key y -> x = y.
Proof. destruct x, y. unfold row_of. simpl. intros [-> ->] [-> ->] -> ->. done. Qed.

Lemma insert_row_comm x y l : row_less x y = true -> insert_row x (insert_row y l) = insert_row y (insert_row x l).
Proof.
  intros Hxy. pose proof (row_less_asym _ _ Hxy) as Hyx. induction l as [|z l IH]; cbn [insert_row].
  - by rewrite Hyx, Hxy.
  - destruct (row_less z y) eqn:Hzy.
    + cbn [insert_row]. destruct (row_less z x) eqn:Hzx; cbn [insert_row]; rewrite ?Hzy; [by rewrite IH|].
      by rewrite Hxy.
    + destruct (row_less z x) eqn:Hzx.
      { pose proof (row_less_trans _ _ _ Hzx Hxy). congruence. }
      cbn [insert_row]. by rewrite Hyx, ?Hxy, ?Hzy.
Qed.

Lemma insert_row_swap total badged x y l : row_of total badged x -> row_of total badged y ->
  insert_row x (insert_row y l) = insert_row y (insert_row x l).
Proof.
  intros Hx Hy. destruct (row_less x y) eqn:E1; [by apply insert_row_comm|].
  destruct (row_less y x) eqn:E2; [symmetry; by apply insert_row_comm|].
  destruct (row_less_total _ _ E1 E2) as [H1 H2]. by rewrite (row_of_eq _ _ _ _ Hx Hy H1 H2).
Qed.

Lemma insert_row_perm r l : insert_row r l ≡ₚ r :: l.
Proof.
  induction l as [|x l IH]; simpl; [done|]. destruct (row_less x r); [|done]. rewrite IH. apply Permutation_swap.
Qed.

Definition row_le (x y : metricRow) : Prop := row_less y x = false.

Lemma insert_row_sorted r l : Sorted.StronglySorted row_le l -> Sorted.StronglySorted row_le (insert_row r l).
Proof.
  induction 1 as [|x l Hs IH HF]; simpl; [repeat constructor|]. destruct (row_less x r) eqn:E.
  - constructor; [done|]. rewrite insert_row_perm. constructor; [|done]. by apply row_less_asym.
  - constructor; [by constructor|]. constructor; [done|]. eapply Forall_impl; [|exact HF]. intros y Hy.
    unfold row_le in *. destruct (row_less y r) eqn:Ey; [|done]. destruct (row_less r x) eqn:Er.
    + pose proof (row_less_trans _ _ _ Ey Er). congruence.
    + destruct (row_less_total _ _ E Er) as [H1 H2]. revert Hy Ey. unfold row_less. rewrite H1, H2. congruence.
Qed.

(** A breakdown is a table, not an accident of map iteration: whatever order
    Go visits the counts in, the rows come out the same, each count once, in
    decreasing order of the count and then by key. *)
Theorem breakdown_deterministic counts counts' total badged :
  counts ≡ₚ counts' ->
  breakdown_of counts total badged = breakdown_of counts' total badged /\
  breakdown_of counts total badged ≡ₚ (metric_row total badged <$> counts) /\
  Sorted.StronglySorted row_le (breakdown_of counts total badged).
Proof.
  intros Hp. unfold breakdown_of. split; [|split].
  - induction Hp as [|x l l' _ IH|x y l|l1 l2 l3 _ IH1 _ IH2]; [done| | |congruence].
    + rewrite !fmap_cons. cbn [foldr]. by rewrite IH.
    + rewrite !fmap_cons. cbn [foldr]. by apply (insert_row_swap total badged).
  - clear Hp. induction counts as [|x l IH]; [done|]. rewrite fmap_cons. cbn [foldr]. by rewrite insert_row_perm, IH.
  - clear Hp. induction counts as [|x l IH]; [constructor|]. rewrite fmap_cons. cbn [foldr]. by apply insert_row_sorted.
Qed.
End Breakdown.

(** ** Witnesses *)

Definition ex_results : list Result := [
  {| res_Label := "Ann"; res_Verdict := ex_verdict StatusDeliverable |};
  {| res_Label := "Bob"; res_Verdict := {| Email := "info@x.com"; Normalized := "info@x.com"; vStatus := StatusRisky;
       vSubStatus := SubRoleAccount; Confidence := f64 (1 # 2); vChecks := Checks_zero; Provider := ""; Engine := "";
       EgressID := ""; Cached := false; CheckedAt := 5 |} |};
  {| res_Label := "Cy"; res_Verdict := ex_verdict StatusRisky |}].

Lemma bucket_counts_agree_witness :
  bucketCounts (fold_left stats_add ex_results stats_zero) BucketSafe = 2 /\
  bucketCounts (fold_left stats_add ex_results stats_zero) BucketSafe = len (filterBucket ex_results BucketSafe).
Proof.
  split; [vm_compute; reflexivity|].
  apply (bucket_counts_agree ex_results BucketSafe).
  - repeat constructor; simpl; try done; intros [H|H]; discriminate H.
  - left.
Defined.

Lemma percent_range_witness : percent (H := amd64) 2 3 = 67 /\ 0 <= percent (H := amd64) 2 3 <= 100.
Proof.
  split; [vm_compute; reflexivity|].
  exact (proj1 (percent_range (H := amd64) 2 3 ltac:(lia) ltac:(vm_compute; split; [reflexivity|discriminate]))).
Defined.

Lemma breakdown_deterministic_witness :
  breakdown_of (H := amd64) [("risky", 1); ("unknown", 2)] 3 true
  = breakdown_of (H := amd64) [("unknown", 2); ("risky", 1)] 3 true.
Proof.
  exact (proj1 (breakdown_deterministic (H := amd64) [("risky", 1); ("unknown", 2)] [("unknown", 2); ("risky", 1)] 3 true
    (perm_swap _ _ _))).
Defined.
