(* ===== verification/Upload.v ===== *)
(** [internal/web/upload.go]: uploading a list and downloading its results.

    Uploaded sheets wait in a small cache for the operator to confirm the column
    mapping; a confirmed mapping becomes a job of the runner; a finished job is
    exported as CSV.  The handlers are functions of the request and the state
    that return what is rendered and the new state.  The XLSX writer (a
    third-party package) and the rendering of templates are not modelled; the
    RFC 3339 rendering of a time is the parameter of [TimeFormat]. *)

From Stdlib Require Import QArith.
From S2P Require Import Prelude GoStrings Float64 GoTime Verdict Engine Settings Policy Store Memory.
From S2P Require Import GoConv Builtin Runner Csv Ingest Reports.
Local Open Scope list_scope.
Local Open Scope Z_scope.

(** ** The standard library *)

(** [Time.UTC().Format(time.RFC3339)] *)
Class TimeFormat := { rfc3339 : Time -> string }.

(** ** Pending uploads *)

Definition pendingTTL : Duration := 15 * Minute.
Definition maxPendingUpload : Z := 8.
Definition exportPageSize : Z := 500.

Record pendingUpload := { pu_filename : string; pu_sheet : Sheet; pu_created : Time }.
Abbreviation uploadCache := (gmap string pendingUpload).

Definition newUploadCache : uploadCache := ∅.

(** [evictLocked] *)
Definition evictLocked (now : Time) (c : uploadCache) : uploadCache :=
  filter (fun kv => Before (pu_created kv.2) (Add now (- pendingTTL)) = false) c.

(** The scan for the oldest upload in the loop of [put]. *)
Definition older (best : string * Time) (kv : string * pendingUpload) : string * Time :=
  if IsZero best.2 || Before (pu_created kv.2) best.2 then (kv.1, pu_created kv.2) else best.
Definition oldest (c : uploadCache) : string := (fold_left older (map_to_list c) ("", 0)).1.

(** The loop of [put]; each turn removes an upload, so their number is fuel enough. *)
Fixpoint make_room (fuel : nat) (c : uploadCache) : option uploadCache :=
  if Z.of_nat (size c) >=? maxPendingUpload then
    match fuel with O => None | S fuel => make_room fuel (delete (oldest c) c) end
  else Some c.

(** [put]; [b] is what [rand.Read] gives, [None] an error. *)
Definition put (b : option (list ascii)) (now : Time) (u : pendingUpload) (c : uploadCache)
    : option (option string * uploadCache) :=
  match b with
  | None => Some (None, c)
  | Some b =>
      let token := hex_encode b in
      let c := evictLocked now c in
      match make_room (size c) c with
      | None => None
      | Some c => Some (Some token, <[token := u]> c)
      end
  end.

(** [get] *)
Definition get (now : Time) (token : string) (c : uploadCache) : option pendingUpload * uploadCache :=
  let c := evictLocked now c in (c !! token, c).

(** [drop] *)
Definition drop_ (token : string) (c : uploadCache) : uploadCache := delete token c.

(** ** Preview and confirmation *)

Record uploadPreview := {
  up_Token : string; up_Filename : string; up_Header : list string; up_Rows : list (list string);
  up_Columns : list Z; up_EmailCol : Z; up_LabelCol : Z; up_Total : Z; up_Error : string;
}.

(** [buildPreview] *)
Definition buildPreview (token filename : string) (sheet : Sheet) (emailCol labelCol : Z) : uploadPreview :=
  let w := fold_left (fun w row => if len row >? w then len row else w) (Preview sheet) 0 in
  let w := if len (Header sheet) >? w then len (Header sheet) else w in
  {| up_Token := token; up_Filename := filename; up_Header := Header sheet; up_Rows := Preview sheet;
     up_Columns := Z.of_nat <$> seq 0 (Z.to_nat w);
     up_EmailCol := emailCol; up_LabelCol := labelCol; up_Total := len (Rows sheet); up_Error := "" |}.

Definition with_error (msg : string) (p : uploadPreview) : uploadPreview :=
  {| up_Token := up_Token p; up_Filename := up_Filename p; up_Header := up_Header p; up_Rows := up_Rows p;
     up_Columns := up_Columns p; up_EmailCol := up_EmailCol p; up_LabelCol := up_LabelCol p;
     up_Total := up_Total p; up_Error := msg |}.

(** What a handler renders. *)
Inductive response :=
| NotImplemented
| NotFound
| BadRequest (msg : string)
| InternalError (msg : string)
| VerdictError (msg : string)
| ParseFailed (e : parse_error)  (** the same fragment with the text of [e] *)
| MappingPanel (p : uploadPreview)
| JobCreated (job : Job)
| CSVFile (name : string) (content : list ascii)
| XLSXFile (name : string) (rows : list (list string)).

Definition submit_message (e : submit_error) : string :=
  match e with ErrNoEmails => "no emails to verify" | ErrTooManyEmails => "too many emails in one job" end.

Section Handlers.
Context `{HU : UnicodeTables} `{HT : TimeFormat}.
Variable xlsx_open : list ascii -> option workbook.

(** [handleUploadPreview] on a server with jobs enabled; [upload] is the file of
    the form, [None] when there is none. *)
Definition handleUploadPreview (upload : option (string * list ascii)) (b : option (list ascii)) (now : Time)
    (c : uploadCache) : option (response * uploadCache) :=
  match upload with
  | None => Some (VerdictError "choose a .csv or .xlsx file to upload", c)
  | Some (filename, file) =>
      match Parse xlsx_open filename file with
      | None => None
      | Some (Err e) => Some (ParseFailed e, c)
      | Some (Ok sheet) =>
          match put b now {| pu_filename := filename; pu_sheet := sheet; pu_created := now |} c with
          | None => None
          | Some (None, c) => Some (VerdictError "could not stage the upload", c)
          | Some (Some token, c) =>
              let '(emailCol, labelCol) := DetectColumns sheet in
              Some (MappingPanel (buildPreview token filename sheet emailCol labelCol), c)
          end
      end
  end.

Definition to_row (e : Ingest.Row) : Runner.Row := {| row_Label := Label e; row_Email := Ingest.Email e |}.

(** [handleUploadConfirm] on a server with jobs enabled; [form] is the parsed
    form, [id] the identifier of a new job. *)
Definition handleUploadConfirm (form : gmap string string) (id : string) (now : Time)
    (c : uploadCache) (r : Runner) : response * uploadCache * Runner :=
  let value k := default "" (form !! k) in
  let token := value "token" in
  let '(pending, c) := get now token c in
  match pending with
  | None => (VerdictError "this upload expired; please choose the file again", c, r)
  | Some pending =>
      let retry msg := (MappingPanel (with_error msg (buildPreview token (pu_filename pending) (pu_sheet pending) 0 (-1))), c, r) in
      match Atoi (value "email_col") with
      | None => retry "Choose which column holds the email address."
      | Some emailCol =>
          if emailCol <? 0 then retry "Choose which column holds the email address."
          else
            let labelCol := default (-1) (Atoi (value "label_col")) in
            let extracted := Extract emailCol labelCol (pu_sheet pending) in
            if len extracted =? 0 then retry "No values found in the selected column — pick a different one."
            else if len (List.filter (fun e => LooksLikeEmail (Ingest.Email e)) extracted) =? 0 then
              retry "That column does not look like email addresses — pick the column containing them."
            else
              match Submit id (to_row <$> extracted) now r with
              | Err e => retry ("Could not submit the list: " +:+ submit_message e)
              | Ok (job, r) => (JobCreated job, drop_ token c, r)
              end
      end
  end.

(** ** Export *)

Definition exportHeader : list string :=
  ["client"; "email"; "status"; "reason"; "provider"; "catch_all"; "role"; "disposable"; "checked_at"].

(** [exportRow] *)
Definition exportRow (r : Result) : list string :=
  let v := res_Verdict r in
  [res_Label r; Verdict.Email v; Status_String (vStatus v); SubStatus_String (vSubStatus v); Provider v;
   FormatBool (Checks_CatchAll (vChecks v)); FormatBool (Checks_Role (vChecks v));
   FormatBool (Checks_Disposable (vChecks v)); rfc3339 (CheckedAt v)].

(** The body [writeResultsCSV] sends. *)
Definition writeResultsCSV (results : list Result) : list ascii :=
  write_record exportHeader ++ concat (write_record <$> (exportRow <$> results)).

(** The cells [writeResultsXLSX] sets, row by row. *)
Definition writeResultsXLSX (results : list Result) : list (list string) := exportHeader :: (exportRow <$> results).

(** [allResults]: the pages of the job, concatenated.  Every page but the last
    is full, so the number of results is fuel enough. *)
Fixpoint all_pages (fuel : nat) (st : job_store) (id : string) (cursor : Z) (out : list Result)
    : option (result job_error (list Result)) :=
  match fuel with
  | O => None
  | S fuel =>
      match Results id cursor exportPageSize st with
      | None => None
      | Some (Err e) => Some (Err e)
      | Some (Ok (page, next)) =>
          let out := out ++ page in
          if (next =? 0) || (len page =? 0) then Some (Ok out) else all_pages fuel st id next out
      end
  end.
Definition allResults (st : job_store) (id : string) : option (result job_error (list Result)) :=
  let n := match st !! id with Some e => length (je_results e) | None => 0%nat end in
  all_pages (S n) st id 0 [].

(** [handleJobExport] on a server with jobs enabled. *)
Definition handleJobExport (st : job_store) (id format bucket : string) : option response :=
  match GetJob id st with
  | Err _ => Some NotFound
  | Ok _ =>
      let b := if String.eqb bucket "" then BucketAll else Bucket_of bucket in
      if negb (validBucket b) then
        Some (BadRequest "unknown bucket; use safe, risky, undeliverable, skipped, retry, or all")
      else
        match allResults st id with
        | None => None
        | Some (Err _) => Some (InternalError "could not load results")
        | Some (Ok results) =>
            let results := filterBucket results b in
            let name := if bool_decide (b = BucketAll) then id else id +:+ "-" +:+ Bucket_String b in
            if String.eqb format "csv" then Some (CSVFile name (writeResultsCSV results))
            else if String.eqb format "xlsx" then Some (XLSXFile name (writeResultsXLSX results))
            else Some (BadRequest "unsupported export format; use csv or xlsx")
        end
  end.
End Handlers.
