(* ===== verification/UploadProps.v ===== *)
(** Uploads and downloads: the pending uploads are bounded and the oldest go
    first; a confirmation submits what the operator mapped, and only addresses
    that could be some; an exported list can be uploaded again. *)

From Stdlib Require Import QArith.
From S2P Require Import Prelude GoStrings GoConv Float64 GoTime Verdict Engine Settings Policy Store Memory.
From S2P Require Import Builtin Runner Csv Ingest Reports Upload.
Local Open Scope list_scope.
Local Open Scope Z_scope.

(** ** Pending uploads *)

(** The scan gives an entry of the map, and one that is not newer than any other. *)
Lemma older_fold l : forall best,
  (forall kv, kv ∈ l -> 0 < pu_created kv.2) -> 0 <= best.2 ->
  let r := fold_left older l best in
  (r = best /\ (l = [] \/ 0 < best.2) \/ exists kv, kv ∈ l /\ r = (kv.1, pu_created kv.2)) /\
  (0 < best.2 -> r.2 <= best.2) /\ (forall kv, kv ∈ l -> r.2 <= pu_created kv.2).
Proof.
  induction l as [|kv l IH]; intros best Hpos Hb; cbn zeta in *; cbn [fold_left]; [set_solver|].
  assert (Hkv : 0 < pu_created kv.2) by (apply Hpos; left).
  assert (Ho : older best kv = best /\ 0 < best.2 <= pu_created kv.2 \/
               older best kv = (kv.1, pu_created kv.2) /\ (0 < best.2 -> pu_created kv.2 < best.2)).
  { unfold older, IsZero, Before. destruct (_ || _) eqn:E; [right|left]; (split; [done|]).
    - intros Hb'. apply orb_true_iff in E as [E|E]; bool_to_prop; lia.
    - bool_to_prop. lia. }
  assert (Hin : 0 <= (older best kv).2) by (destruct Ho as [[-> _]|[-> _]]; simpl; lia).
  destruct (IH (older best kv)) as (H1 & H2 & H3); [set_solver|done|].
  destruct Ho as [[Ho Hle]|[Ho Hlt]]; rewrite Ho in *; cbn [snd] in *.
  - split; [|split].
    + destruct H1 as [[-> _]|(kv' & Hkv' & ->)]; [left; split; [done|right; lia]|right; exists kv'; set_solver].
    + intros _. apply H2. lia.
    + intros kv' [-> |Hkv']%elem_of_cons; [|by apply H3]. specialize (H2 ltac:(lia)). lia.
  - split; [|split].
    + right. destruct H1 as [[-> _]|(kv' & Hkv' & ->)]; [exists kv; set_solver|exists kv'; set_solver].
    + intros Hp. specialize (H2 Hkv). specialize (Hlt Hp). lia.
    + intros kv' [-> |Hkv']%elem_of_cons; [by apply H2|by apply H3].
Qed.

(** Every upload carries the time it arrived. *)
Definition stamped (c : uploadCache) : Prop := map_Forall (fun _ u => 0 < pu_created u) c.

Lemma oldest_spec c :
  stamped c -> c <> ∅ ->
  exists u, c !! oldest c = Some u /\ map_Forall (fun _ u' => pu_created u <= pu_created u') c.
Proof.
  intros Hs Hne. unfold oldest.
  destruct (older_fold (map_to_list c) ("", 0)) as (H1 & _ & H3); [|done|].
  { intros [k u] Hin%elem_of_map_to_list. by eapply Hs. }
  destruct H1 as [[_ [Hnil|Hlt]]|([k u] & Hin & He)]; [by apply map_to_list_empty_iff in Hnil|simpl in Hlt; lia|].
  rewrite He in *. cbn [fst snd] in *. exists u. split; [by apply elem_of_map_to_list|].
  intros k' u' Hk'. apply (H3 (k', u')). by apply elem_of_map_to_list.
Qed.

Lemma make_room_spec fuel : forall c, stamped c -> (size c <= fuel)%nat ->
  exists c', make_room fuel c = Some c' /\ Z.of_nat (size c') < maxPendingUpload /\ c' ⊆ c /\
    (Z.of_nat (size c) < maxPendingUpload -> c' = c) /\
    (forall k u k' u', c !! k = Some u -> c' !! k = None -> c' !! k' = Some u' -> pu_created u <= pu_created u').
Proof.
  induction fuel as [|fuel IH]; intros c Hs Hf; cbn [make_room]; rewrite Z.geb_leb;
    (destruct (Z.leb_spec maxPendingUpload (Z.of_nat (size c))) as [Hge|Hlt];
      [|exists c; repeat split; try done; intros; congruence]).
  { unfold maxPendingUpload in *. lia. }
  assert (Hne : c <> ∅) by (intros ->; rewrite map_size_empty in Hge; unfold maxPendingUpload in *; lia).
  destruct (oldest_spec c Hs Hne) as (u0 & Hu0 & Hmin).
  destruct (IH (delete (oldest c) c)) as (c' & Hc' & Hsz & Hsub & _ & Hord).
  - intros k u Hk. eapply Hs, lookup_delete_Some, Hk.
  - rewrite map_size_delete_Some by eauto. lia.
  - exists c'. split; [done|]. split; [done|].
    assert (Hsub' : c' ⊆ c) by (etrans; [exact Hsub|apply delete_subseteq]).
    split; [done|]. split; [lia|]. intros k u k' u' Hk Hn Hk'.
    destruct (decide (k = oldest c)) as [-> |Hne'].
    + rewrite Hu0 in Hk. injection Hk as <-. eapply Hmin. eapply lookup_weaken; [exact Hk'|done].
    + eapply Hord; [|exact Hn|exact Hk']. by rewrite lookup_delete_ne.
Qed.

(** Staged uploads are bounded and fair: staging a sheet always succeeds when
    random bytes are available; at most [maxPendingUpload] sheets are held, the
    new one is among them, nothing else is added, a sheet still within its time
    is dropped only when the cache is full, and then only in favour of sheets
    that are not older. *)
Theorem upload_put_spec b now u c :
  stamped c ->
  exists c', put (Some b) now u c = Some (Some (hex_encode b), c') /\
    Z.of_nat (size c') <= maxPendingUpload /\ c' !! hex_encode b = Some u /\
    (forall k v, k <> hex_encode b -> c' !! k = Some v -> evictLocked now c !! k = Some v) /\
    (Z.of_nat (size (evictLocked now c)) < maxPendingUpload -> c' = <[hex_encode b := u]> (evictLocked now c)) /\
    (forall k v k' v', k <> hex_encode b -> k' <> hex_encode b -> evictLocked now c !! k = Some v ->
       c' !! k = None -> c' !! k' = Some v' -> pu_created v <= pu_created v').
Proof.
  intros Hs. assert (Hs' : stamped (evictLocked now c)).
  { intros k v [Hk _]%map_lookup_filter_Some. by eapply Hs. }
  destruct (make_room_spec (size (evictLocked now c)) (evictLocked now c) Hs' (le_n _)) as (c' & Hc' & Hsz & Hsub & Hsame & Hord).
  exists (<[hex_encode b := u]> c'). unfold put. rewrite Hc'. split; [done|].
  split; [rewrite map_size_insert; destruct (c' !! hex_encode b); simpl; lia|].
  split; [by rewrite lookup_insert_eq|]. split; [|split].
  - intros k v Hk. rewrite lookup_insert_ne by done. intros H. by eapply lookup_weaken.
  - intros H. by rewrite Hsame.
  - intros k v k' v' Hk Hk'. rewrite !lookup_insert_ne by done. apply Hord.
Qed.

(** ** Confirmation *)

Section Confirm.
Context `{HU : UnicodeTables}.

(** A confirmation submits exactly what was mapped: a job is created only from
    a sheet that is still staged, for a column of which at least one cell looks
    like an address; the job consists of the deduplicated rows of the chosen
    columns, and the sheet is unstaged.  In every other case the runner is
    untouched and the sheet stays staged for another try. *)
Theorem upload_confirm_spec form id now c r :
  let token := default "" (form !! "token") in
  let '(resp, c', r') := handleUploadConfirm form id now c r in
  match resp with
  | JobCreated job =>
      exists pending emailCol labelCol, evictLocked now c !! token = Some pending /\
        Atoi (default "" (form !! "email_col")) = Some emailCol /\ 0 <= emailCol /\
        labelCol = default (-1) (Atoi (default "" (form !! "label_col"))) /\
        (exists e, e ∈ Extract emailCol labelCol (pu_sheet pending) /\ LooksLikeEmail (Ingest.Email e) = true) /\
        Submit id (to_row <$> Extract emailCol labelCol (pu_sheet pending)) now r = Ok (job, r') /\
        job_Total job = len (dedup (to_row <$> Extract emailCol labelCol (pu_sheet pending))) /\
        c' = delete token (evictLocked now c)
  | _ => r' = r /\ c' = evictLocked now c
  end.
Proof.
  cbv zeta. unfold handleUploadConfirm, get. set (token := default "" (form !! "token")).
  destruct (evictLocked now c !! token) as [pending|] eqn:Ep; [|done].
  destruct (Atoi (default "" (form !! "email_col"))) as [emailCol|] eqn:Ea; [|done].
  destruct (emailCol <? 0) eqn:Eneg; [done|]. bool_to_prop.
  set (labelCol := default (-1) (Atoi (default "" (form !! "label_col")))).
  set (extracted := Extract emailCol labelCol (pu_sheet pending)).
  destruct (len extracted =? 0); [done|].
  destruct (len (List.filter _ extracted) =? 0) eqn:El; [done|]. bool_to_prop.
  destruct (Submit id (to_row <$> extracted) now r) as [[job r']|e] eqn:Es; [|done].
  exists pending, emailCol, labelCol. repeat (split; [done|]). split; [|split; [done|split; [|done]]].
  - destruct (List.filter _ extracted) as [|e l] eqn:Ef; [done|]. exists e.
    assert (Hin : In e (List.filter (fun e => LooksLikeEmail (Ingest.Email e)) extracted)) by (rewrite Ef; by left).
    apply filter_In in Hin as [H1 H2]. split; [by apply list_elem_of_In|done].
  - unfold Submit in Es. destruct (len (dedup _) =? 0); [done|]. destruct (_ >? _); simplify_eq/=. done.
Qed.
End Confirm.

(** ** Export *)

Lemma all_pages_drop fuel st id e : forall cursor out,
  st !! id = Some e -> len (je_results e) + exportPageSize <= max_int64 ->
  0 <= cursor < len (je_results e) -> (Z.to_nat (len (je_results e) - cursor) <= fuel)%nat ->
  all_pages fuel st id cursor out = Some (Ok (out ++ drop (Z.to_nat cursor) (je_results e))).
Proof.
  induction fuel as [|fuel IH]; intros cursor out He Hmax Hc Hf; [lia|]. cbn [all_pages]. unfold Results. rewrite He.
  rewrite page_at by done. cbn [mbind option_bind]. set (d := drop (Z.to_nat cursor) (je_results e)).
  assert (Hd : len d = len (je_results e) - cursor) by (unfold d, len in *; rewrite length_drop; lia).
  destruct (Z.ltb_spec (cursor + exportPageSize) (len (je_results e))) as [Hlt|Hge].
  - rewrite (proj2 (Z.eqb_neq (cursor + exportPageSize) 0)) by (unfold exportPageSize; lia). cbn [orb].
    rewrite (proj2 (Z.eqb_neq _ 0)) by (unfold len in *; rewrite length_take; unfold exportPageSize in *; lia).
    rewrite IH; [|done|done|unfold exportPageSize in *; lia|unfold exportPageSize in *; lia].
    rewrite <- app_assoc. do 3 f_equal. unfold d.
    replace (Z.to_nat (cursor + exportPageSize)) with (Z.to_nat cursor + Z.to_nat exportPageSize)%nat
      by (unfold exportPageSize in *; lia).
    rewrite <- drop_drop. apply take_drop.
  - cbn [orb Z.eqb]. do 3 f_equal. apply take_ge. unfold len, exportPageSize in *. lia.
Qed.

Lemma allResults_complete st id e :
  st !! id = Some e -> len (je_results e) + exportPageSize <= max_int64 ->
  allResults st id = Some (Ok (je_results e)).
Proof.
  intros He Hmax. unfold allResults. rewrite He. destruct (je_results e) as [|r rs] eqn:Er.
  - cbn [all_pages]. unfold Results. rewrite He, Er. done.
  - rewrite <- Er in *. rewrite (all_pages_drop _ st id e 0 []); [done|done|done| |]; rewrite Er; unfold len; simpl; lia.
Qed.

Section Reimport.
Context `{HU : UnicodeTables} `{HT : TimeFormat}.

Definition wide (rec : list string) : Prop := 2 <= len rec <= MaxColumns /\ isBlank rec = false.

Lemma csv_loop_records recs : forall fuel rows,
  Forall wide recs -> len rows + len recs <= MaxRows + 1 -> (length recs < fuel)%nat ->
  csv_loop fuel rows (concat (write_record <$> recs)) = Some (Ok (rows ++ recs)).
Proof.
  induction recs as [|rec recs IH]; intros [|fuel] rows Hw Hlen Hf; [simpl in Hf; lia| |simpl in Hf; lia|].
  - simpl. destruct (len rows <=? MaxRows); by rewrite app_nil_r.
  - inversion Hw as [|? ? [[H2 H64] Hb] Hw']; subst. cbn [csv_loop].
    assert (Hl : len (rec :: recs) = len recs + 1) by (unfold len; simpl; lia). pose proof (len_nonneg recs).
    rewrite (proj2 (Z.leb_le _ _)) by lia. rewrite fmap_cons. cbn [concat].
    destruct rec as [|f [|g fs]]; [unfold len in H2; simpl in H2; lia..|].
    rewrite Read_write by done. cbv zeta. unfold clip. rewrite Z.gtb_ltb, (proj2 (Z.ltb_ge _ _)) by lia. rewrite Hb.
    rewrite IH; [by rewrite <- app_assoc|done|rewrite len_app; change (len [_]) with 1; lia|simpl in Hf; lia].
Qed.

Lemma concat_records_length recs : (length recs <= length (concat (write_record <$> recs)))%nat.
Proof.
  induction recs as [|rec recs IH]; simpl; [lia|]. rewrite length_app.
  assert (1 <= length (write_record rec))%nat; [|unfold fmap in IH; lia].
  destruct rec as [|f fs]; [simpl; lia|]. pose proof (write_record_length (f :: fs)). simpl in *. lia.
Qed.

Lemma exportRow_wide r : wide (exportRow r).
Proof.
  split; [unfold len, MaxColumns; simpl; lia|]. unfold isBlank, exportRow.
  apply not_true_iff_false. rewrite forallb_forall. intros H.
  specialize (H (FormatBool (Checks_Role (vChecks (res_Verdict r))))). 
  destruct (Checks_Role (vChecks (res_Verdict r))); discriminate H; simpl; auto 10.
Qed.

Lemma Ext_csv s : Ext (s +:+ ".csv") = ".csv".
Proof. unfold Ext. rewrite bytes_app, reverse_app. reflexivity. Qed.

Lemma omap_fmap_eq {A B C} (f : B -> option C) (g : A -> B) (h : A -> option C) (l : list A) :
  (forall x, f (g x) = h x) -> omap f (g <$> l) = omap h l.
Proof.
  intros H. induction l as [|x l IH]; [done|]. rewrite fmap_cons. cbn. rewrite H.
  destruct (h x); [f_equal|]; exact IH.
Qed.

(** The row of a result, as an upload reads it. *)
Definition reread (r : Result) : option Ingest.Row :=
  let email := TrimSpace (Verdict.Email (res_Verdict r)) in
  if String.eqb email "" then None
  else Some {| Label := TrimSpace (res_Label r); Ingest.Email := email |}.

(** C28: An exported list can be uploaded again: the CSV file of a job's results,
    or of one of its buckets, parses to a sheet with the export's header and one
    row per result in order, and mapping its columns gives back the label and
    the address of every result, for cells without carriage returns. *)
Theorem export_reimport xlsx_open st id e bucket :
  let b := if String.eqb bucket "" then BucketAll else Bucket_of bucket in
  let results := filterBucket (je_results e) b in
  st !! id = Some e -> validBucket b = true -> results <> [] ->
  len (je_results e) <= MaxRows ->
  Forall (fun r => Forall (fun cell => cr_free (bytes cell)) (exportRow r)) results ->
  exists name content,
    handleJobExport st id "csv" bucket = Some (CSVFile name content) /\
    Parse xlsx_open ("rcptto-" +:+ name +:+ ".csv") content
      = Some (Ok {| Header := exportHeader; Rows := exportRow <$> results |}) /\
    Extract 1 0 {| Header := exportHeader; Rows := exportRow <$> results |} = omap reread results.
Proof.
  intros b results He Hb Hne Hmax Hcr. unfold handleJobExport, GetJob. rewrite He. cbv zeta. fold b. rewrite Hb.
  rewrite (allResults_complete st id e) by (done || (unfold MaxRows, exportPageSize, max_int64 in *; lia)).
  cbn [negb String.eqb Ascii.eqb Bool.eqb]. fold results. eexists _, _. split; [reflexivity|]. split.
  - unfold Parse. set (name := if bool_decide (b = BucketAll) then id else id +:+ "-" +:+ Bucket_String b).
    assert (Hx : ToLower (Ext ("rcptto-" +:+ name +:+ ".csv")) = ".csv").
    { replace ("rcptto-" +:+ name +:+ ".csv") with (("rcptto-" +:+ name) +:+ ".csv").
      - by rewrite Ext_csv.
      - apply bytes_inj. by rewrite !bytes_app, app_assoc. }
    rewrite Hx, bool_decide_eq_true_2 by set_solver. unfold parseCSV, writeResultsCSV.
    set (recs := exportHeader :: (exportRow <$> results)).
    replace (write_record exportHeader ++ concat (write_record <$> (exportRow <$> results)))
      with (concat (write_record <$> recs)) by reflexivity.
    assert (Hcf : cr_free (concat (write_record <$> recs))).
    { apply Forall_concat, Forall_fmap. constructor.
      - apply cr_free_record. repeat constructor.
      - apply Forall_fmap. eapply Forall_impl; [|exact Hcr]. intros r Hr. by apply cr_free_record. }
    rewrite normalize_lines_id by done.
    rewrite (csv_loop_records recs).
    + simpl. by destruct results.
    + constructor; [by split|]. apply Forall_fmap, Forall_true. intros r. apply exportRow_wide.
    + assert (len results <= len (je_results e)).
      { unfold results, filterBucket. case_bool_decide; [lia|]. unfold len.
        pose proof (List.filter_length_le (fun r => bool_decide (classify (res_Verdict r) = b)) (je_results e)). lia. }
      unfold recs. unfold len in *. simpl. rewrite length_fmap. lia.
    + pose proof (concat_records_length recs). lia.
  - unfold Extract. change (1 <? 0) with false. cbn iota. by apply omap_fmap_eq.
Qed.
End Reimport.

(** ** Witnesses *)

Definition ex_upload (t : Time) : pendingUpload :=
  {| pu_filename := "list.csv"; pu_sheet := ex_sheet; pu_created := t |}.

(** Eight uploads, a minute apart. *)
Definition ex_uploads : uploadCache :=
  list_to_map ((fun n => (hex_encode [ascii_of_N (N.of_nat n)], ex_upload (Minute * Z.of_nat (S n)))) <$> seq 0 8).

Lemma upload_put_spec_witness : exists c',
  put (Some [ascii_of_N 99]) (9 * Minute) (ex_upload (9 * Minute)) ex_uploads = Some (Some "63", c') /\
  Z.of_nat (size c') <= maxPendingUpload /\ c' !! "63" = Some (ex_upload (9 * Minute)).
Proof.
  destruct (upload_put_spec [ascii_of_N 99] (9 * Minute) (ex_upload (9 * Minute)) ex_uploads) as (c' & H1 & H2 & H3 & _).
  - intros k v Hk. apply elem_of_list_to_map_2 in Hk. apply list_elem_of_fmap in Hk as (n & [= -> ->] & _).
    simpl. unfold Minute, Second. lia.
  - exists c'. split; [exact H1|]. split; [exact H2|exact H3].
Defined.

Definition ex_format : TimeFormat := {| rfc3339 := fun _ => "2024-05-01T10:00:00Z" |}.

Definition ex_labelled : list Result := [
  {| res_Label := "Smith, John"; res_Verdict := ex_verdict StatusDeliverable |};
  {| res_Label := ""; res_Verdict := ex_verdict StatusRisky |}].

Abbreviation ex_entry := {| je_job := ex_job; je_results := ex_labelled |}.

Lemma ex_cells : Forall (fun r => Forall (fun cell => cr_free (bytes cell)) (exportRow (HT := ex_format) r)) ex_labelled.
Proof.
  assert (H : forallb (fun r => forallb (fun cell => forallb (fun a => negb (Ascii.eqb a cr)) (bytes cell))
    (exportRow (HT := ex_format) r)) ex_labelled = true) by (vm_compute; reflexivity).
  apply forallb_Forall in H. eapply Forall_impl; [|exact H]. intros r Hr. apply forallb_Forall in Hr.
  eapply Forall_impl; [|exact Hr]. intros cell Hc. apply forallb_Forall in Hc.
  eapply Forall_impl; [|exact Hc]. intros a Ha. by apply negb_true_iff in Ha.
Qed.

Lemma export_reimport_witness : exists name content,
  handleJobExport (HT := ex_format) {["job_1" := ex_entry]} "job_1" "csv" "" = Some (CSVFile name content) /\
  Parse (H := ascii_tables) (fun _ => None) ("rcptto-" +:+ name +:+ ".csv") content
    = Some (Ok {| Header := exportHeader; Rows := exportRow (HT := ex_format) <$> ex_labelled |}).
Proof.
  destruct (export_reimport (HU := ascii_tables) (HT := ex_format) (fun _ => None) {["job_1" := ex_entry]} "job_1" ex_entry "")
    as (name & content & H1 & H2 & _).
  - reflexivity.
  - reflexivity.
  - discriminate.
  - vm_compute. discriminate.
  - exact ex_cells.
  - exact (ex_intro _ name (ex_intro _ content (conj H1 H2))).
Defined.
