(* ===== verification/Worker.v ===== *)
(** [internal/worker]: the remote probe protocol.

    The wire types and their conversions; the client, which is an engine of the
    verifier; the agent's server; the registry that tracks which agents can be
    reached.  The HTTP transport is a parameter of the client: [post] and
    [fetch] say what a request is answered with, a status code and the decoded
    body when it decodes.  [Wire] instantiates them with the agent's handlers on
    the bytes of a request. *)

From Stdlib Require Import QArith.
From S2P Require Import Prelude GoStrings Float64 GoTime Verdict Engine Policy RateLimit Pipeline.
From S2P Require Import Egress Store Verifier.
Local Open Scope list_scope.
Local Open Scope Z_scope.

(** ** Protocol *)

Definition ProtocolVersion : Z := 1.
Definition PathVerify : string := "/worker/v1/verify".
Definition PathHealth : string := "/worker/v1/health".

Record TaskWire := {
  tw_ID : string; tw_JobID : string; tw_Email : string; tw_Normalized : string; tw_Domain : string;
  tw_Provider : string; tw_MX : list string;
}.
Record VerifyRequest := { rq_Version : Z; rq_Task : TaskWire; rq_DetectCatchAll : bool }.
Record SignalWire := {
  sw_Kind : string; sw_EgressID : string; sw_Destination : string; sw_Code : Z; sw_Detail : string;
}.
Record VerifyResponse := { rs_Version : Z; rs_Verdict : Verdict; rs_Signals : list SignalWire }.
Record HealthResponse := {
  hr_Version : Z; hr_ID : string; hr_IP : string; hr_HELO : string; hr_Region : string; hr_ASN : string;
}.

(** [string(kind)] and [engine.SignalKind(s)] *)
Definition SignalKind_String (k : SignalKind) : string :=
  match k with
  | SignalAccepted => "accepted" | SignalMailboxGone => "mailbox_gone" | SignalTempFail => "tempfail"
  | SignalBlocked => "blocked" | SignalConnRefused => "conn_refused" | SignalTimeout => "timeout"
  | SignalKind_other s => s
  end.
Definition SignalKind_of (s : string) : SignalKind :=
  if String.eqb s "accepted" then SignalAccepted else if String.eqb s "mailbox_gone" then SignalMailboxGone
  else if String.eqb s "tempfail" then SignalTempFail else if String.eqb s "blocked" then SignalBlocked
  else if String.eqb s "conn_refused" then SignalConnRefused else if String.eqb s "timeout" then SignalTimeout
  else SignalKind_other s.

(** [TaskToWire] and [TaskWire.ToTask] *)
Definition TaskToWire (t : Task) : TaskWire :=
  {| tw_ID := Task_ID t; tw_JobID := Task_JobID t; tw_Email := Task_Email t; tw_Normalized := Task_Normalized t;
     tw_Domain := Task_Domain t; tw_Provider := Task_Provider t; tw_MX := Task_MX t |}.
Definition ToTask (t : TaskWire) : Task :=
  {| Task_ID := tw_ID t; Task_JobID := tw_JobID t; Task_Email := tw_Email t; Task_Normalized := tw_Normalized t;
     Task_Domain := tw_Domain t; Task_Provider := tw_Provider t; Task_MX := tw_MX t |}.

(** [SignalsToWire] and [ToSignals] *)
Definition SignalsToWire (sigs : list Signal) : list SignalWire :=
  (fun s => {| sw_Kind := SignalKind_String (Signal_Kind s); sw_EgressID := Signal_EgressID s;
               sw_Destination := Signal_Destination s; sw_Code := Signal_Code s; sw_Detail := Signal_Detail s |}) <$> sigs.
Definition ToSignals (wire : list SignalWire) : list Signal :=
  (fun s => {| Signal_Kind := SignalKind_of (sw_Kind s); Signal_EgressID := sw_EgressID s;
               Signal_Destination := sw_Destination s; Signal_Code := sw_Code s; Signal_Detail := sw_Detail s |}) <$> wire.

(** ** Client *)

(** What an HTTP request is answered with: nothing (it could not be built or
    sent, or the connection failed), or a status and a body that
    decodes or does not. *)
Inductive http_reply (A : Type) := NoReply | Reply (status : Z) (body : option A).
Arguments NoReply {A}.
Arguments Reply {A} status body.

(** The errors of the client; the texts they wrap are not kept. *)
Inductive client_error := ErrContact | ErrStatus (code : Z) | ErrDecode.

Definition defaultClientTimeout : Duration := 60 * Second.

Record Client := { cl_baseURL : string; cl_token : string; cl_timeout : Duration }.

(** [NewClient] *)
Definition NewClient (baseURL token : string) (timeout : Duration) : Client :=
  {| cl_baseURL := TrimSuffix baseURL "/"; cl_token := token;
     cl_timeout := if timeout <=? 0 then defaultClientTimeout else timeout |}.

Definition Client_Name : string := "remote".
Definition Client_Capabilities : Caps := {| SupportsCatchAll := true; SupportsProxy := true; NeedsPort25 := true |}.

Definition bearer (token : string) : string := "Bearer " +:+ token.

(** The common end of [Verify] and [Health]: the status, then the body. *)
Definition read_reply {A} (r : http_reply A) : result client_error A :=
  match r with
  | NoReply => Err ErrContact
  | Reply status body =>
      if negb (status =? 200) then Err (ErrStatus status)
      else match body with Some a => Ok a | None => Err ErrDecode end
  end.

(** [Client.Verify]; the binding is ignored. *)
Definition Client_Verify (post : string -> string -> VerifyRequest -> http_reply VerifyResponse) (c : Client)
    : Engine_ client_error := fun t _ =>
  let? out := read_reply (post (cl_baseURL c +:+ PathVerify) (bearer (cl_token c))
                {| rq_Version := ProtocolVersion; rq_Task := TaskToWire t; rq_DetectCatchAll := true |}) in
  Ok (rs_Verdict out, ToSignals (rs_Signals out)).

(** [Client.Health] *)
Definition Client_Health (fetch : string -> string -> http_reply HealthResponse) (c : Client)
    : result client_error HealthResponse :=
  read_reply (fetch (cl_baseURL c +:+ PathHealth) (bearer (cl_token c))).

(** ** Server *)

Record Identity := {
  id_ID : string; id_IP : string; id_HELO : string; id_MailFrom : string; id_Region : string; id_ASN : string;
}.

Inductive server_error := ErrNoID | ErrNoEngine | ErrNoToken.

Record Server (Er : Type) := { sv_identity : Identity; sv_engine : Engine_ Er; sv_token : string }.
Arguments sv_identity {Er} s.
Arguments sv_engine {Er} s.
Arguments sv_token {Er} s.

(** [NewServer] *)
Definition NewServer {Er} (identity : Identity) (engine : option (Engine_ Er)) (token : string)
    : result server_error (Server Er) :=
  if String.eqb (id_ID identity) "" then Err ErrNoID
  else match engine with
  | None => Err ErrNoEngine
  | Some engine =>
      if String.eqb token "" then Err ErrNoToken
      else Ok {| sv_identity := identity; sv_engine := engine; sv_token := token |}
  end.

(** [authMiddleware]: [next] when the bearer token is the server's. *)
Definition authMiddleware {Er A} (s : Server Er) (authorization : string) (next : http_reply A) : http_reply A :=
  if negb (String.eqb (TrimPrefix authorization "Bearer ") (sv_token s)) then Reply 401 None else next.

(** [handleHealth] *)
Definition handleHealth {Er} (s : Server Er) : http_reply HealthResponse :=
  let i := sv_identity s in
  Reply 200 (Some {| hr_Version := ProtocolVersion; hr_ID := id_ID i; hr_IP := id_IP i; hr_HELO := id_HELO i;
                     hr_Region := id_Region i; hr_ASN := id_ASN i |}).

(** [binding] *)
Definition binding {Er} (s : Server Er) : EgressBinding :=
  {| binding_ID := id_ID (sv_identity s); binding_HELO := id_HELO (sv_identity s);
     binding_MailFrom := id_MailFrom (sv_identity s) |}.

Definition set_EgressID (id : string) (v : Verdict) : Verdict :=
  {| Email := Email v; Normalized := Normalized v; vStatus := vStatus v; vSubStatus := vSubStatus v;
     Confidence := Confidence v; vChecks := vChecks v; Provider := Provider v; Verdict.Engine := Verdict.Engine v;
     EgressID := id; Cached := Cached v; CheckedAt := CheckedAt v |}.

(** [handleVerify]; [body] is [None] when the request does not decode. *)
Definition handleVerify {Er} (s : Server Er) (body : option VerifyRequest) : http_reply VerifyResponse :=
  match body with
  | None => Reply 400 None
  | Some req =>
      if negb (rq_Version req =? ProtocolVersion) then Reply 400 None
      else if String.eqb (tw_Email (rq_Task req)) "" then Reply 400 None
      else match sv_engine s (ToTask (rq_Task req)) (binding s) with
      | Err _ => Reply 502 None
      | Ok (v, signals) =>
          Reply 200 (Some {| rs_Version := ProtocolVersion; rs_Verdict := set_EgressID (id_ID (sv_identity s)) v;
                             rs_Signals := SignalsToWire signals |})
      end
  end.

(** ** Registry *)

(** Why an agent is unusable: the value whose text is [lastErr], [None] for the
    empty text. *)
Inductive reach_error := ErrHealth (e : client_error) | ErrMismatch (reported configured : string).

Record AgentConfig := { ac_ID : string; ac_BaseURL : string; ac_Token : string }.
Record AgentInfo := {
  ai_ID : string; ai_BaseURL : string; ai_Online : bool; ai_IP : string; ai_HELO : string; ai_Region : string;
  ai_ASN : string; ai_LastErr : option reach_error; ai_LastSeen : Time;
}.
Record agentState := {
  ag_cfg : AgentConfig; ag_client : Client; ag_online : bool; ag_ip : string; ag_helo : string; ag_region : string;
  ag_asn : string; ag_lastErr : option reach_error; ag_lastSeen : Time;
}.
Record Registry := { agents : gmap string agentState; reg_order : list string }.

Inductive registry_error := ErrIncomplete (id url : string) | ErrDuplicate (id : string).

Definition fresh_agent (cfg : AgentConfig) (timeout : Duration) : agentState :=
  {| ag_cfg := cfg; ag_client := NewClient (ac_BaseURL cfg) (ac_Token cfg) timeout; ag_online := false; ag_ip := "";
     ag_helo := ""; ag_region := ""; ag_asn := ""; ag_lastErr := None; ag_lastSeen := 0 |}.

(** [NewRegistry] *)
Fixpoint add_agents (timeout : Duration) (cfgs : list AgentConfig) (r : Registry) : result registry_error Registry :=
  match cfgs with
  | [] => Ok r
  | cfg :: cfgs =>
      if String.eqb (ac_ID cfg) "" || String.eqb (ac_BaseURL cfg) "" then Err (ErrIncomplete (ac_ID cfg) (ac_BaseURL cfg))
      else match agents r !! ac_ID cfg with
      | Some _ => Err (ErrDuplicate (ac_ID cfg))
      | None => add_agents timeout cfgs
          {| agents := <[ac_ID cfg := fresh_agent cfg timeout]> (agents r); reg_order := reg_order r ++ [ac_ID cfg] |}
      end
  end.
Definition NewRegistry (cfgs : list AgentConfig) (timeout : Duration) : result registry_error Registry :=
  add_agents timeout cfgs {| agents := ∅; reg_order := [] |}.

(** [Len], [ClientFor], [IsRemote] *)
Definition Registry_Len (r : Registry) : Z := Z.of_nat (size (agents r)).
Definition ClientFor (r : Registry) (id : string) : option Client := ag_client <$> agents r !! id.
Definition IsRemote (r : Registry) (id : string) : bool := match agents r !! id with Some _ => true | None => false end.

(** [EngineFor]: nil for an identity of the control plane. *)
Definition EngineFor (post : string -> string -> VerifyRequest -> http_reply VerifyResponse) (r : Registry)
    (id : string) : option (Engine_ client_error) := Client_Verify post <$> ClientFor r id.

Definition agent_info (a : agentState) : AgentInfo :=
  {| ai_ID := ac_ID (ag_cfg a); ai_BaseURL := ac_BaseURL (ag_cfg a); ai_Online := ag_online a; ai_IP := ag_ip a;
     ai_HELO := ag_helo a; ai_Region := ag_region a; ai_ASN := ag_asn a; ai_LastErr := ag_lastErr a;
     ai_LastSeen := ag_lastSeen a |}.

Fixpoint insert_info (i : AgentInfo) (l : list AgentInfo) : list AgentInfo :=
  match l with
  | [] => [i]
  | x :: l' => if String.ltb (ai_ID x) (ai_ID i) then x :: insert_info i l' else i :: l
  end.

(** [Agents]; [None] is the nil dereference of an unknown id. *)
Definition Agents (r : Registry) : option (list AgentInfo) :=
  infos ← mapM (fun id => agent_info <$> agents r !! id) (reg_order r);
  Some (foldr insert_info [] infos).

Definition set_reach (online : bool) (err : reach_error) (a : agentState) : agentState :=
  {| ag_cfg := ag_cfg a; ag_client := ag_client a; ag_online := online; ag_ip := ag_ip a; ag_helo := ag_helo a;
     ag_region := ag_region a; ag_asn := ag_asn a; ag_lastErr := Some err; ag_lastSeen := ag_lastSeen a |}.

(** The switch of [check]. *)
Definition update_agent (health : result client_error HealthResponse) (now : Time) (a : agentState) : agentState :=
  match health with
  | Err e => set_reach false (ErrHealth e) a
  | Ok h =>
      if negb (String.eqb (hr_ID h) (ac_ID (ag_cfg a))) then
        set_reach false (ErrMismatch (hr_ID h) (ac_ID (ag_cfg a))) a
      else {| ag_cfg := ag_cfg a; ag_client := ag_client a; ag_online := true; ag_ip := hr_IP h; ag_helo := hr_HELO h;
              ag_region := hr_Region h; ag_asn := hr_ASN h; ag_lastErr := None; ag_lastSeen := now |}
  end.

(** [check] *)
Definition check (fetch : string -> string -> http_reply HealthResponse) (now : Time) (id : string) (r : Registry)
    : option AgentInfo * bool * Registry :=
  match agents r !! id with
  | None => (None, false, r)
  | Some a =>
      let a' := update_agent (Client_Health fetch (ag_client a)) now a in
      (Some (agent_info a'), negb (Bool.eqb (ag_online a) (ag_online a')),
       {| agents := <[id := a']> (agents r); reg_order := reg_order r |})
  end.

(** ** Configuration *)

Inductive agents_error := ErrForm (part : string) | ErrURL (id : string).

(** One element of the list of [ParseAgents]; [Ok None] when it is blank. *)
Definition parse_agent (token part : string) : result agents_error (option AgentConfig) :=
  let part := TrimSpace part in
  if String.eqb part "" then Ok None
  else
    let '(id, url, ok) := Cut part "="%char in
    let '(id, url) := (TrimSpace id, TrimSpace url) in
    if negb ok || String.eqb id "" || String.eqb url "" then Err (ErrForm part)
    else if negb (HasPrefix url "http://") && negb (HasPrefix url "https://") then Err (ErrURL id)
    else Ok (Some {| ac_ID := id; ac_BaseURL := url; ac_Token := token |}).

Fixpoint parse_parts (token : string) (parts : list string) : result agents_error (list AgentConfig) :=
  match parts with
  | [] => Ok []
  | part :: parts =>
      let? a := parse_agent token part in
      let? rest := parse_parts token parts in
      Ok (match a with Some a => a :: rest | None => rest end)
  end.

(** [ParseAgents] *)
Definition ParseAgents (spec token : string) : result agents_error (list AgentConfig) :=
  let spec := TrimSpace spec in
  if String.eqb spec "" then Ok [] else parse_parts token (Split spec ","%char).
