(* ===== verification/Fleet.v ===== *)
(** The control plane's fleet of remote agents: [internal/worker] wired to the
    egress manager by [cmd/rcptto-server/main.go].

    A probe through an agent is the same as a probe by the agent's own engine,
    and only the holder of the token can ask for one; the manager's view of
    which agents are reachable is at all times the registry's, so no probe is
    routed to an agent that failed its last check. *)

From Stdlib Require Import QArith.
From S2P Require Import Prelude GoStrings Float64 GoTime Verdict Engine Policy RateLimit Pipeline.
From S2P Require Import Health Egress EgressInv EgressSel EgressOps EgressProps EgressLife Store Verifier Worker.
Local Open Scope list_scope.
Local Open Scope Z_scope.

(** ** The wire *)

Lemma SignalKind_String_of k :
  match k with SignalKind_other s => SignalKind_of s = SignalKind_other s | _ => True end ->
  SignalKind_of (SignalKind_String k) = k.
Proof. by destruct k. Qed.

(** A signal whose kind is one of the protocol's, or a string that is none of them. *)
Definition known_kind (s : Signal) : Prop :=
  match Signal_Kind s with SignalKind_other k => SignalKind_of k = SignalKind_other k | _ => True end.

Lemma signals_roundtrip sigs : Forall known_kind sigs -> ToSignals (SignalsToWire sigs) = sigs.
Proof.
  induction 1 as [|s sigs Hs _ IH]; [done|]. unfold ToSignals, SignalsToWire in *. rewrite !fmap_cons, IH.
  f_equal. simpl. rewrite SignalKind_String_of by done. by destruct s.
Qed.

Lemma task_roundtrip t : ToTask (TaskToWire t) = t.
Proof. by destruct t. Qed.

Lemma TrimPrefix_bearer token : TrimPrefix (bearer token) "Bearer " = token.
Proof.
  unfold TrimPrefix, bearer. assert (Hp : HasPrefix ("Bearer " +:+ token) "Bearer " = true).
  { apply HasPrefix_spec. by exists token. }
  rewrite Hp. apply bytes_inj. unfold slice_from. rewrite bytes_app, bytes_of_bytes. reflexivity.
Qed.

Section Wire.
Context {Er : Type}.

(** A network that delivers requests for [base] to the agent [s] and its
    answers back. *)
Definition delivers (post : string -> string -> VerifyRequest -> http_reply VerifyResponse)
    (base : string) (s : Server Er) : Prop :=
  forall auth req, post (base +:+ PathVerify) auth req = authMiddleware s auth (handleVerify s (Some req)).

(** A remote probe is a local probe elsewhere: over a network that delivers,
    the client with the agent's token returns the verdict and the signals of the
    agent's engine run with the agent's own identity, the verdict stamped with
    that identity; an engine error arrives as an error. *)
Theorem remote_probe_transparent post (s : Server Er) c t b :
  delivers post (cl_baseURL c) s -> cl_token c = sv_token s -> Task_Email t <> "" ->
  match sv_engine s t (binding s) with
  | Ok (v, sigs) => Forall known_kind sigs ->
      Client_Verify post c t b = Ok (set_EgressID (id_ID (sv_identity s)) v, sigs)
  | Err _ => Client_Verify post c t b = Err (ErrStatus 502)
  end.
Proof.
  intros Hd Ht He. unfold Client_Verify. rewrite Hd. unfold authMiddleware.
  rewrite TrimPrefix_bearer, Ht, String.eqb_refl. cbn [negb handleVerify rq_Version rq_Task]. rewrite Z.eqb_refl.
  cbn [negb]. change (tw_Email (TaskToWire t)) with (Task_Email t).
  rewrite (proj2 (String.eqb_neq _ _) He), task_roundtrip.
  destruct (sv_engine s t (binding s)) as [[v sigs]|e]; [|done]. intros Hk. simpl. by rewrite signals_roundtrip.
Qed.

(** Nobody else uses the agent's address: a request whose token is not the
    agent's is answered 401 whatever the engine is, so the engine is never run
    for it; and an agent without a token cannot be built. *)
Theorem agent_requires_token (s : Server Er) auth req engine :
  (TrimPrefix auth "Bearer " <> sv_token s ->
   let s' : Server Er := {| sv_identity := sv_identity s; sv_engine := engine; sv_token := sv_token s |} in
   authMiddleware s' auth (handleVerify s' req) = (Reply 401 None : http_reply VerifyResponse)) /\
  (forall identity (e : option (Engine_ Er)) s', NewServer identity e (sv_token s) = Ok s' -> sv_token s <> "").
Proof.
  split.
  - intros Hne. unfold authMiddleware. simpl. by rewrite (proj2 (String.eqb_neq _ _) Hne).
  - intros identity e s' Hn Hs. unfold NewServer in Hn. rewrite Hs in Hn.
    destruct (String.eqb (id_ID identity) ""); [done|]. by destruct e.
Qed.
End Wire.

(** ** Wiring ([cmd/rcptto-server/main.go]) *)

Definition agent_spec (id ip helo region asn : string) (warm : bool) : Spec :=
  {| Spec_ID := id; Spec_Kind := KindLocalIP; Spec_IP := ip; Spec_HELO := helo; Spec_MailFrom := "";
     Spec_ASN := asn; Spec_Region := region; Spec_WarmUp := warm |}.

(** The registration of the configured agents at startup. *)
Definition register (now : Time) (cfgs : list AgentConfig) (m : Manager) : Manager :=
  fold_left (fun m a => SetOnline (ac_ID a) false (AddIdentity (agent_spec (ac_ID a) "" "" "" "" true) now m)) cfgs m.

(** The callback of the health loop.  It is one step here; in Go [SetOnline] and
    [AddIdentity] take the manager's lock one after the other, and the callback
    counts as pending until both are done. *)
Definition on_change (now : Time) (info : AgentInfo) (m : Manager) : Manager :=
  let m := SetOnline (ai_ID info) (ai_Online info) m in
  if ai_Online info then
    AddIdentity (agent_spec (ai_ID info) (ai_IP info) (ai_HELO info) (ai_Region info) (ai_ASN info) false) now m
  else m.

(** ** The health loop

    [CheckAll] starts one goroutine per agent and waits for all of them;
    [HealthLoop] runs one round after the other.  An agent's check updates the
    registry under its lock and, when the agent's reachability flipped, the
    goroutine then calls [on_change]; between the two any other goroutine may
    run: the checks and callbacks of the other agents, and every call to the
    manager. *)
Record fleet := {
  fl_registry : Registry;
  fl_manager : Manager;
  fl_todo : list string;        (** agents the current round has not checked yet *)
  fl_pending : list AgentInfo;  (** flipped agents whose callback has not run yet *)
}.

Definition only_links (o : op) : bool := match o with OpSetOnline _ _ => true | _ => false end.

Inductive step (fetch : Time -> string -> string -> http_reply HealthResponse) : fleet -> fleet -> Prop :=
| step_round r m :
    step fetch {| fl_registry := r; fl_manager := m; fl_todo := []; fl_pending := [] |}
               {| fl_registry := r; fl_manager := m; fl_todo := reg_order r; fl_pending := [] |}
| step_check r m todo1 id todo2 pend now info changed r' :
    check (fetch now) now id r = (info, changed, r') ->
    step fetch {| fl_registry := r; fl_manager := m; fl_todo := todo1 ++ id :: todo2; fl_pending := pend |}
               {| fl_registry := r'; fl_manager := m; fl_todo := todo1 ++ todo2;
                  fl_pending := match info with Some i => if changed then i :: pend else pend | None => pend end |}
| step_callback r m todo pend1 info pend2 now :
    step fetch {| fl_registry := r; fl_manager := m; fl_todo := todo; fl_pending := pend1 ++ info :: pend2 |}
               {| fl_registry := r; fl_manager := on_change now info m; fl_todo := todo;
                  fl_pending := pend1 ++ pend2 |}
| step_op r m m' todo pend now o :
    only_links o = false -> op_wf (len (warmupStages m)) o -> apply_op now o m = Some m' ->
    step fetch {| fl_registry := r; fl_manager := m; fl_todo := todo; fl_pending := pend |}
               {| fl_registry := r; fl_manager := m'; fl_todo := todo; fl_pending := pend |}.

(** The control plane after startup. *)
Definition boot (now : Time) (cfgs : list AgentConfig) (r : Registry) (m : Manager) : fleet :=
  {| fl_registry := r; fl_manager := register now cfgs m; fl_todo := []; fl_pending := [] |}.

(** ** The link of one identity across the manager's calls *)

Definition link (b : bool) (r : record) : Prop := online r = b.
Definition linked (b : bool) (id : string) (m : Manager) : Prop :=
  exists r, records m !! id = Some r /\ online r = b.

Lemma linked_at b id m : linked b id m <-> rec_at (link b) id (quarantineCooldown m) m.
Proof. unfold linked, rec_at, link. naive_solver. Qed.

Lemma reconcile_online m now r : online (reconcile_record m now r) = online r.
Proof.
  unfold reconcile_record. rewrite daily_loop_iter by done.
  apply (iter_inv (fun r' => online r' = online r)).
  - intros r' <-. unfold daily_reset. simpl. by case_match.
  - unfold expire_quarantine. by case_match.
Qed.

Lemma restore_one_linked b id m s : linked b id m -> linked b id (restore_one m s).
Proof.
  intros (r & Hr & Hb). unfold restore_one.
  destruct (records m !! es_ID s) as [r0|] eqn:E; [|by exists r]. unfold linked. cbn [records set_records].
  rewrite lookup_insert. case_decide as Hi; [|by eauto]. rewrite Hi in E. rewrite Hr in E. injection E as <-.
  eexists. split; [done|]. simpl. done.
Qed.

Lemma SetOnline_linked b id id' b' m :
  linked b id m -> linked (if decide (id' = id) then b' else b) id (SetOnline id' b' m).
Proof.
  intros (r & Hr & Hb). case_decide as Hi.
  - subst id'. eexists. split; [by apply SetOnline_lookup|done].
  - unfold SetOnline. destruct (records m !! id'); [|by exists r]. case_match; [by exists r|].
    exists r. simpl. by rewrite lookup_insert_ne.
Qed.

Lemma AddIdentity_linked b id s now m : linked b id m -> linked b id (AddIdentity s now m).
Proof.
  intros (r & Hr & Hb). unfold AddIdentity, linked.
  destruct (records m !! Spec_ID s) as [r0|] eqn:E; simpl; rewrite lookup_insert;
    case_decide as Hi; eauto; rewrite Hi in E; rewrite Hr in E; simplify_eq; eauto.
Qed.

Lemma apply_op_linked b id o now m m' :
  mgr_wf m -> only_links o = false -> apply_op now o m = Some m' -> linked b id m -> linked b id m'.
Proof.
  intros W Ho Hop Hl. pose proof (proj1 (linked_at b id m) Hl) as Hat.
  assert (Hend : forall cd, rec_at (link b) id cd m' -> linked b id m') by (intros cd [_ H]; exact H).
  destruct o; simpl in *; simplify_eq.
  - destruct (Binding m t now) as [[res m1]|] eqn:HB; simplify_eq/=. eapply Hend, Binding_at; eauto.
    + intros r Hr. unfold link. by rewrite reconcile_online.
    + intros r r' Hr Ht. destruct (touched_fields _ _ _ _ Ht) as (_ & _ & _ & _ & _ & H & _).
      unfold link. by rewrite H.
  - eapply Hend, emit_at; [|exact Hat]. intros m1 sig r _ Hr. unfold apply_signal, link in *.
    destruct (Signal_Kind sig); try done. by case_match.
  - by eapply Hend, update_record_at.
  - by eapply Hend, update_record_at.
  - by eapply Hend, update_record_at.
  - destruct (AuditDNSBL_total check now m W) as (items & _ & Ha). rewrite Ha in Hop. simplify_eq.
    eapply Hend. apply fold_left_inv; [|exact Hat]. intros m1 [[i ip] dis] Hm1. unfold audit_one.
    case_match; [done|]. case_match; [done|]. by apply update_record_at.
  - apply (fold_left_inv (linked b id) restore_one); [intros; by apply restore_one_linked|done].
  - by apply AddIdentity_linked.
  - done.
  - done.
Qed.

Lemma on_change_linked b id now info m :
  linked b id m -> linked (if decide (ai_ID info = id) then ai_Online info else b) id (on_change now info m).
Proof.
  intros Hl. unfold on_change. apply (SetOnline_linked _ _ (ai_ID info) (ai_Online info)) in Hl.
  destruct (ai_Online info); [by apply AddIdentity_linked|done].
Qed.

Lemma on_change_wf now info m : mgr_wf m -> mgr_wf (on_change now info m).
Proof.
  intros W. unfold on_change. apply (SetOnline_wf (ai_ID info) (ai_Online info)) in W.
  destruct (ai_Online info); [by apply AddIdentity_wf|done].
Qed.

(** ** Startup *)

Lemma AddIdentity_known s now m : exists r, records (AddIdentity s now m) !! Spec_ID s = Some r.
Proof. unfold AddIdentity. case_match; simpl; eexists; apply lookup_insert_eq. Qed.

Lemma register_wf now cfgs m : mgr_wf m -> mgr_wf (register now cfgs m).
Proof. apply fold_left_inv. intros. by apply SetOnline_wf, AddIdentity_wf. Qed.

Lemma register_linked now cfgs m id : id ∈ (ac_ID <$> cfgs) -> linked false id (register now cfgs m).
Proof.
  revert m. induction cfgs as [|a cfgs IH]; intros m Hin; [by apply not_elem_of_nil in Hin|].
  rewrite fmap_cons, elem_of_cons in Hin. unfold register in *. simpl. destruct (decide (id ∈ (ac_ID <$> cfgs))) as [|Hn]; [by apply IH|].
  destruct Hin as [->|]; [|done]. apply fold_left_inv.
  - intros m' a' Hl. apply (AddIdentity_linked _ _ (agent_spec (ac_ID a') "" "" "" "" true) now) in Hl.
    apply (SetOnline_linked _ _ (ac_ID a') false) in Hl. by destruct (decide (ac_ID a' = ac_ID a)).
  - destruct (AddIdentity_known (agent_spec (ac_ID a) "" "" "" "" true) now m) as [r Hr].
    eexists. split; [by apply SetOnline_lookup|done].
Qed.

(** The registry knows exactly the configured agents, each under its own name. *)
Record reg_wf (ids : list string) (r : Registry) : Prop := {
  rwf_order : reg_order r = ids;
  rwf_nodup : NoDup ids;
  rwf_dom : forall id, id ∈ ids <-> is_Some (agents r !! id);
  rwf_ids : map_Forall (fun id a => ac_ID (ag_cfg a) = id) (agents r);
}.

Lemma add_agents_wf timeout cfgs r ids r' :
  reg_wf ids r -> map_Forall (fun _ a => ag_online a = false) (agents r) -> add_agents timeout cfgs r = Ok r' ->
  reg_wf (ids ++ (ac_ID <$> cfgs)) r' /\ map_Forall (fun _ a => ag_online a = false) (agents r').
Proof.
  revert r ids. induction cfgs as [|c cfgs IH]; intros r ids W Hoff Hn; simpl in Hn.
  { simplify_eq. by rewrite app_nil_r. }
  destruct (_ || _); [done|]. destruct (agents r !! ac_ID c) eqn:E; [done|].
  rewrite fmap_cons, (cons_middle (ac_ID c)), app_assoc. destruct W as [Ho Hd Hdom Hid]. apply (IH _ (ids ++ [ac_ID c])) in Hn; [done| |].
  - constructor; simpl.
    + by rewrite Ho.
    + apply list.NoDup_app. split; [done|]. split; [|by apply NoDup_singleton].
      intros x Hx ->%list_elem_of_singleton. apply Hdom in Hx. rewrite E in Hx. by destruct Hx.
    + intros id. rewrite elem_of_app, list_elem_of_singleton, lookup_insert, Hdom.
      destruct (decide (ac_ID c = id)) as [<-|]; [rewrite E|]; naive_solver.
    + by apply map_Forall_insert_2.
  - by apply map_Forall_insert_2.
Qed.

Lemma NewRegistry_wf cfgs timeout r :
  NewRegistry cfgs timeout = Ok r ->
  reg_wf (ac_ID <$> cfgs) r /\ map_Forall (fun _ a => ag_online a = false) (agents r).
Proof.
  intros Hn. eapply (add_agents_wf timeout cfgs _ []) in Hn; [done| |apply map_Forall_empty].
  constructor; simpl; [done|constructor| |apply map_Forall_empty].
  intros id. split; [intros H; by apply not_elem_of_nil in H|]. rewrite lookup_empty. by intros [].
Qed.

(** ** The invariant *)

Record in_sync (ids : list string) (st : fleet) : Prop := {
  sync_reg : reg_wf ids (fl_registry st);
  sync_mgr : mgr_wf (fl_manager st);
  sync_once : NoDup (fl_todo st ++ (ai_ID <$> fl_pending st));
  sync_known : forall id a, agents (fl_registry st) !! id = Some a ->
    exists b, linked b id (fl_manager st) /\ (id ∈ (ai_ID <$> fl_pending st) \/ b = ag_online a);
  sync_news : forall id a info, agents (fl_registry st) !! id = Some a ->
    info ∈ fl_pending st -> ai_ID info = id -> ai_Online info = ag_online a;
}.

Lemma boot_sync now cfgs timeout r m :
  NewRegistry cfgs timeout = Ok r -> mgr_wf m -> in_sync (ac_ID <$> cfgs) (boot now cfgs r m).
Proof.
  intros Hn W. destruct (NewRegistry_wf cfgs timeout r Hn) as [Wr Hoff]. constructor; simpl; try done.
  - by apply register_wf.
  - constructor.
  - intros id a Ha. exists false. split; [|right; by rewrite (Hoff id a Ha)].
    apply register_linked. apply (rwf_dom _ _ Wr). by exists a.
  - intros id a info _ H. by apply not_elem_of_nil in H.
Qed.

Lemma update_agent_cfg h now a : ag_cfg (update_agent h now a) = ag_cfg a.
Proof. unfold update_agent. repeat case_match; done. Qed.

Lemma check_wf ids fetch now id r info changed r' :
  reg_wf ids r -> check fetch now id r = (info, changed, r') -> reg_wf ids r'.
Proof.
  intros W. unfold check. destruct (agents r !! id) as [a|] eqn:E; intros Hc; simplify_eq; [|done].
  destruct W as [Ho Hd Hdom Hid]. constructor; simpl; try done.
  - intros x. rewrite lookup_insert, Hdom. case_decide as Hi; [|done]. subst x. rewrite E. split; eauto.
  - apply map_Forall_insert_2; [|done]. rewrite update_agent_cfg. by apply Hid.
Qed.

Lemma step_sync ids fetch st st' : in_sync ids st -> step fetch st st' -> in_sync ids st'.
Proof.
  intros [Wr Wm Hd Hk Hnews] Hs.
  destruct Hs as [r m|r m t1 id t2 pend now info changed r' Hc|r m todo p1 info p2 now|r m m' todo pend now o Ho Hwf Hop];
    simpl in *.
  - constructor; simpl; try done. rewrite app_nil_r, (rwf_order _ _ Wr). apply (rwf_nodup _ _ Wr).
  - assert (Wr' : reg_wf ids r') by (by eapply check_wf).
    rewrite <- app_assoc in Hd. simpl in Hd.
    rewrite <- Permutation_middle, list.NoDup_cons, app_assoc in Hd. destruct Hd as [Hni Hd].
    unfold check in Hc. destruct (agents r !! id) as [a|] eqn:Ea; simplify_eq; [|by constructor].
    set (a' := update_agent _ _ _) in *. assert (Hcfg : ac_ID (ag_cfg a') = id).
    { unfold a'. rewrite update_agent_cfg. by apply (rwf_ids _ _ Wr). }
    destruct (Bool.eqb (ag_online a) (ag_online a')) eqn:Eq; simpl.
    + apply Bool.eqb_prop in Eq. constructor; simpl; try done.
      * intros x ax. rewrite lookup_insert. case_decide; intros; simplify_eq; [rewrite <- Eq|]; by apply Hk.
      * intros x ax i. rewrite lookup_insert. case_decide; intros; simplify_eq; [rewrite <- Eq|]; by eapply Hnews.
    + constructor; simpl; try done.
      * rewrite <- Permutation_middle. constructor; [by rewrite Hcfg|done].
      * intros x ax. rewrite lookup_insert. case_decide; intros Hx; simplify_eq.
        -- destruct (Hk _ a Ea) as (b & Hl & _). exists b. split; [done|]. left. set_solver.
        -- destruct (Hk x ax Hx) as (b & Hl & [|]); exists b; split; set_solver.
      * intros x ax i. rewrite lookup_insert. case_decide; intros Hx Hi He; simplify_eq.
        -- apply elem_of_cons in Hi as [->|Hi]; [done|]. exfalso. apply Hni, elem_of_app. right.
           rewrite <- He. by apply list_elem_of_fmap_2.
        -- apply elem_of_cons in Hi as [->|Hi]; [done|]. by eapply Hnews.
  - constructor; simpl; try done.
    + by apply on_change_wf.
    + rewrite fmap_app, fmap_cons, app_assoc, <- Permutation_middle, list.NoDup_cons in Hd.
      rewrite fmap_app, app_assoc. apply Hd.
    + intros x ax Hx. destruct (Hk x ax Hx) as (b & Hl & Hb). eexists. split; [by apply on_change_linked|].
      case_decide as Hi; [right; eapply Hnews; set_solver|]. destruct Hb as [Hb|]; [|by right]. left. set_solver.
    + intros x ax i Hx Hi. eapply Hnews; [done|set_solver].
  - constructor; simpl; try done.
    + destruct (apply_op_wf now o m Wm Hwf) as (m1 & Hop1 & W1 & _). congruence.
    + intros x ax Hx. destruct (Hk x ax Hx) as (b & Hl & Hb). exists b. split; [|done]. by eapply apply_op_linked.
Qed.

(** C27: Routing follows the fleet.  From startup on, whatever the order of the
    health checks, their callbacks and every other call to the manager, each
    configured agent stays registered, and unless its flip is still on the way
    to the manager, the manager has it online exactly when its last check
    succeeded: an identity handed out for a probe that belongs to an agent is an
    agent that answered its last check under its own name. *)
Theorem fleet_routes_reachable fetch cfgs timeout r m now st :
  NewRegistry cfgs timeout = Ok r -> mgr_wf m -> rtc (step fetch) (boot now cfgs r m) st ->
  forall cfg, cfg ∈ cfgs -> exists a, agents (fl_registry st) !! ac_ID cfg = Some a /\
    (ac_ID cfg ∉ (ai_ID <$> fl_pending st) ->
     linked (ag_online a) (ac_ID cfg) (fl_manager st) /\
     forall t t0 b m', Binding (fl_manager st) t t0 = Some (Ok b, m') -> binding_ID b = ac_ID cfg ->
       ag_online a = true).
Proof.
  intros Hn W Hr. assert (S : in_sync (ac_ID <$> cfgs) st).
  { revert Hr. generalize (boot_sync now cfgs timeout r m Hn W). generalize (boot now cfgs r m).
    intros st0 S0 Hr. induction Hr; [done|]. eauto using step_sync. }
  intros cfg Hc. destruct S as [Wr Wm _ Hk _].
  destruct (proj1 (rwf_dom _ _ Wr (ac_ID cfg)) (list_elem_of_fmap_2 _ _ _ Hc)) as [a Ha].
  exists a. split; [done|]. intros Hp. destruct (Hk _ _ Ha) as (b & (rc & Hrc & Hon) & [|Hb]); [done|subst b].
  split; [by exists rc|]. intros t t0 bd m' HB Hid.
  destruct (Binding_Ok _ t t0 bd m' Wm HB) as (r1 & _ & _ & Hr1 & He & _).
  rewrite Hid in Hr1. unfold reconciled in Hr1. rewrite lookup_fmap, Hrc in Hr1. simpl in Hr1. injection Hr1 as <-.
  unfold eligible in He. rewrite reconcile_online in He. bool_to_prop. congruence.
Qed.

(** ** Examples *)

Definition ex_fetch (now : Time) (url auth : string) : http_reply HealthResponse :=
  Reply 200 (Some {| hr_Version := 1; hr_ID := "r1"; hr_IP := "203.0.113.7"; hr_HELO := "r1.example.net";
                     hr_Region := "eu"; hr_ASN := "AS1" |}).
Definition ex_agent : AgentConfig :=
  {| ac_ID := "r1"; ac_BaseURL := "https://r1.example.net"; ac_Token := "s3cret" |}.
Definition ex_registry : Registry :=
  match NewRegistry [ex_agent] 60000000000 with Ok r => r | Err _ => {| agents := ∅; reg_order := [] |} end.
Definition ex_checked : option AgentInfo * bool * Registry := check (ex_fetch ex_start) ex_start "r1" ex_registry.
Definition ex_info : AgentInfo :=
  match ex_checked.1.1 with Some i => i | None => agent_info (fresh_agent ex_agent 0) end.
Definition ex_fleet : fleet :=
  {| fl_registry := ex_checked.2; fl_manager := on_change ex_start ex_info (register ex_start [ex_agent] ex_mgr);
     fl_todo := []; fl_pending := [] |}.

Lemma ex_fleet_reached : rtc (step ex_fetch) (boot ex_start [ex_agent] ex_registry ex_mgr) ex_fleet.
Proof.
  eapply rtc_l; [apply step_round|]. eapply rtc_l.
  { apply (step_check _ _ _ [] "r1" [] [] ex_start (Some ex_info) true ex_checked.2). vm_compute. reflexivity. }
  eapply rtc_l; [apply (step_callback _ _ _ _ [] ex_info [] ex_start)|]. apply rtc_refl.
Qed.

Lemma fleet_routes_reachable_witness :
  exists a, agents (fl_registry ex_fleet) !! "r1" = Some a /\ ag_online a = true /\
    linked (ag_online a) "r1" (fl_manager ex_fleet).
Proof.
  destruct (fleet_routes_reachable ex_fetch [ex_agent] 60000000000 ex_registry ex_mgr ex_start ex_fleet
              eq_refl ex_mgr_wf ex_fleet_reached ex_agent (list_elem_of_here ex_agent [])) as (a & Ha & Hl).
  exists a. split; [exact Ha|]. split.
  - assert (Hs : agents (fl_registry ex_fleet) !! "r1" = Some a) by exact Ha. vm_compute in Hs.
    injection Hs as <-. reflexivity.
  - apply Hl. intros Hin. vm_compute in Hin. by apply not_elem_of_nil in Hin.
Defined.

Definition ex_engine (t : Task) (b : EgressBinding) : result unit (Verdict * list Signal) :=
  Ok (zero_verdict, [{| Signal_Kind := SignalTempFail; Signal_EgressID := binding_ID b; Signal_Destination := "gmail";
                        Signal_Code := 451; Signal_Detail := "later" |}]).
Definition ex_server : Server unit :=
  {| sv_identity := {| id_ID := "r1"; id_IP := "203.0.113.7"; id_HELO := "r1.example.net"; id_MailFrom := "";
                       id_Region := "eu"; id_ASN := "AS1" |};
     sv_engine := ex_engine; sv_token := "s3cret" |}.
Definition ex_post (url auth : string) (req : VerifyRequest) : http_reply VerifyResponse :=
  if String.eqb url ("https://r1.example.net" +:+ PathVerify)
  then authMiddleware ex_server auth (handleVerify ex_server (Some req)) else NoReply.

Lemma remote_probe_transparent_witness :
  exists sig, Client_Verify ex_post (NewClient "https://r1.example.net/" "s3cret" 0) ex_task (binding ex_server)
              = Ok (set_EgressID "r1" zero_verdict, [sig]) /\ Signal_EgressID sig = "r1".
Proof.
  eexists. split.
  - refine (remote_probe_transparent ex_post ex_server (NewClient "https://r1.example.net/" "s3cret" 0) ex_task
              (binding ex_server) _ eq_refl _ _).
    + intros auth req. reflexivity.
    + discriminate.
    + repeat constructor.
  - reflexivity.
Defined.
