(* ===== verification/Control.v ===== *)
(** The runtime settings at work: the [settingsManager] of
    [cmd/rcptto-server/main.go] and the form of [internal/web/settings.go].

    The manager validates a change, saves it and pushes it into the limiter, the
    job runner, the egress manager and the engine.  Each of these has a lock of
    its own, so a change is a sequence of atomic actions; changes submitted at
    the same time interleave action by action. *)

From Stdlib Require Import QArith.
From S2P Require Import Prelude GoStrings GoConv Float64 GoTime Verdict Engine Settings RateLimit.
From S2P Require Import Health Egress EgressInv EgressSel EgressOps EgressProps Builtin Store Memory Runner.
Local Open Scope list_scope.
Local Open Scope Z_scope.

(** ** State *)

(** The manager's [current], the settings store and the live components. *)
Record settingsManager := {
  sm_current : Settings;
  sm_store : settings_store;
  sm_limiter : Limiter;
  sm_runner : Runner;
  sm_egress : Manager;
  sm_engine : Builtin.Config;
}.

Definition set_current (s : Settings) (m : settingsManager) : settingsManager :=
  {| sm_current := s; sm_store := sm_store m; sm_limiter := sm_limiter m; sm_runner := sm_runner m;
     sm_egress := sm_egress m; sm_engine := sm_engine m |}.
Definition set_stored (s : Settings) (m : settingsManager) : settingsManager :=
  {| sm_current := sm_current m; sm_store := SaveSettings s (sm_store m); sm_limiter := sm_limiter m;
     sm_runner := sm_runner m; sm_egress := sm_egress m; sm_engine := sm_engine m |}.

(** [Current] *)
Definition Current (m : settingsManager) : Settings := sm_current m.

(** ** Operations, as sequences of atomic actions *)

Inductive action := ASave | ACurrent | ARate | ALimits | AThresholds | ADetect.

Definition act (a : action) (s : Settings) (m : settingsManager) : settingsManager :=
  match a with
  | ASave => set_stored s m
  | ACurrent => set_current s m
  | ARate =>
      {| sm_current := sm_current m; sm_store := sm_store m;
         sm_limiter := SetRate (ProbeRate s) (ProbeBurst s) (sm_limiter m);
         sm_runner := sm_runner m; sm_egress := sm_egress m; sm_engine := sm_engine m |}
  | ALimits =>
      {| sm_current := sm_current m; sm_store := sm_store m; sm_limiter := sm_limiter m;
         sm_runner := SetLimits (JobConcurrency s) (MaxEmailsPerJob s) (sm_runner m);
         sm_egress := sm_egress m; sm_engine := sm_engine m |}
  | AThresholds =>
      {| sm_current := sm_current m; sm_store := sm_store m; sm_limiter := sm_limiter m; sm_runner := sm_runner m;
         sm_egress := SetThresholds (QuarantineThreshold s) (CircuitThreshold s) (sm_egress m);
         sm_engine := sm_engine m |}
  | ADetect =>
      {| sm_current := sm_current m; sm_store := sm_store m; sm_limiter := sm_limiter m; sm_runner := sm_runner m;
         sm_egress := sm_egress m; sm_engine := SetDetectCatchAll (DetectCatchAll s) (sm_engine m) |}
  end.

Definition activate_actions : list action := [ACurrent; ARate; ALimits; AThresholds; ADetect].

(** [activate] *)
Definition activate (s : Settings) (m : settingsManager) : settingsManager :=
  fold_left (fun m a => act a s m) activate_actions m.

(** A change under way: the settings to take over and the actions it has left. *)
Record change := { ch_settings : Settings; ch_left : list action }.

(** The beginning of [Apply], which touches nothing shared: the settings are
    completed by the defaults and validated. *)
Definition begin_change (s : Settings) : result setting_error change :=
  let s := WithDefaults s in
  match Settings.Validate s with
  | Some e => Err e
  | None => Ok {| ch_settings := s; ch_left := ASave :: activate_actions |}
  end.

(** The actions of a change with nothing in between. *)
Definition run_change (c : change) (m : settingsManager) : settingsManager :=
  fold_left (fun m a => act a (ch_settings c) m) (ch_left c) m.

(** [Apply], with a store whose save succeeds or not ([save_ok]). *)
Inductive apply_error := Invalid (e : setting_error) | SaveFailed.

Definition Apply (save_ok : bool) (s : Settings) (m : settingsManager) : result apply_error settingsManager :=
  match begin_change s with
  | Err e => Err (Invalid e)
  | Ok c => if negb save_ok then Err SaveFailed else Ok (run_change c m)
  end.


Lemma begin_change_id s :
  in_limits s -> begin_change s = Ok {| ch_settings := s; ch_left := ASave :: activate_actions |}.
Proof. intros H. unfold begin_change. by rewrite (WithDefaults_id s H), (proj2 (Validate_None s) H). Qed.

(** The settings at startup: the environment's, overridden by the saved ones,
    then pushed into the components.  [rate], [burst] and [detect] are the
    values [getenvFloat] and [getenvBool] give. *)
Definition startup_settings (rate burst : float64) (detect : bool) (st : settings_store) : Settings :=
  let d := WithDefaults Default in
  let env := {| ProbeRate := rate; ProbeBurst := burst; JobConcurrency := JobConcurrency d;
                MaxEmailsPerJob := MaxEmailsPerJob d; DetectCatchAll := detect;
                QuarantineThreshold := QuarantineThreshold d; CircuitThreshold := CircuitThreshold d |} in
  match LoadSettings st with (saved, true) => WithDefaults saved | (_, false) => env end.

Definition startup (rate burst : float64) (detect : bool) (m : settingsManager) : settingsManager :=
  activate (startup_settings rate burst detect (sm_store m)) m.

(** ** The settings form *)

Section Form.
(** [strconv.ParseFloat(s, 64)]: [None] for an error. *)
Variable ParseFloat : string -> option float64.

Definition formFloat (form : gmap string string) (key : string) (def : float64) : float64 :=
  default def (ParseFloat (default "" (form !! key))).
Definition formInt (form : gmap string string) (key : string) (def : Z) : Z :=
  default def (Atoi (default "" (form !! key))).

(** The record [handleSettingsSave] builds from the form. *)
Definition form_settings (form : gmap string string) (current : Settings) : Settings :=
  {| ProbeRate := formFloat form "probe_rate" (ProbeRate current);
     ProbeBurst := formFloat form "probe_burst" (ProbeBurst current);
     JobConcurrency := formInt form "job_concurrency" (JobConcurrency current);
     MaxEmailsPerJob := formInt form "max_emails_per_job" (MaxEmailsPerJob current);
     DetectCatchAll := negb (String.eqb (default "" (form !! "detect_catch_all")) "");
     QuarantineThreshold := formInt form "quarantine_threshold" (QuarantineThreshold current);
     CircuitThreshold := formInt form "circuit_threshold" (CircuitThreshold current) |}.

(** What the form is rendered with afterwards: the submitted values and the
    reason, or the settings in force. *)
Inductive form_reply := FormInvalid (current : Settings) | Rejected (next : Settings) (e : apply_error) | Saved (s : Settings).

(** [handleSettingsSave] on a server with settings enabled; [None] is a form that
    does not parse. *)
Definition handleSettingsSave (save_ok : bool) (form : option (gmap string string)) (m : settingsManager)
    : form_reply * settingsManager :=
  match form with
  | None => (FormInvalid (Current m), m)
  | Some form =>
      let next := form_settings form (Current m) in
      match Apply save_ok next m with
      | Err e => (Rejected next e, m)
      | Ok m => (Saved (Current m), m)
      end
  end.

(** *** The page *)

(** [strconv.FormatFloat(x, 'f', -1, 64)] *)
Variable FormatFloat : float64 -> string.

Record settingsField := {
  sf_Name : string; sf_Label : string; sf_Value : string; sf_Help : string; sf_Max : string; sf_Danger : bool;
  sf_Checked : bool; sf_IsBool : bool;
}.
Record settingsView := {
  sw_Performance : list settingsField; sw_Reputation : list settingsField; sw_Error : string; sw_Saved : bool;
}.

Definition number_field (name label value max : string) (danger : bool) (help : string) : settingsField :=
  {| sf_Name := name; sf_Label := label; sf_Value := value; sf_Help := help; sf_Max := max; sf_Danger := danger;
     sf_Checked := false; sf_IsBool := false |}.

(** [buildSettingsView] *)
Definition buildSettingsView (s : Settings) (errMsg : string) (saved : bool) : settingsView := {|
  sw_Error := errMsg; sw_Saved := saved;
  sw_Performance := [
    number_field "probe_rate" "Probe rate" (FormatFloat (ProbeRate s)) (FormatFloat MaxProbeRate) true
      ("SMTP probes per second, per destination mail server. This is the " +:+
       "main protection against a list concentrated on one domain looking like " +:+
       "an attack. Raising it increases the risk of being blocked.");
    number_field "probe_burst" "Probe burst" (FormatFloat (ProbeBurst s)) (FormatFloat MaxProbeBurst) true
      "How many probes may go back-to-back to one destination after an idle period.";
    number_field "job_concurrency" "Job concurrency" (FormatInt (JobConcurrency s)) (FormatInt MaxJobConcurrency) false
      ("Addresses verified in parallel within a job. Applies to jobs started " +:+
       "after saving; the per-destination rate limit still applies regardless.");
    number_field "max_emails_per_job" "Maximum addresses per job" (FormatInt (MaxEmailsPerJob s))
      (FormatInt MaxEmailsPerJobCeiling) false "Largest single upload accepted.";
    {| sf_Name := "detect_catch_all"; sf_Label := "Detect catch-all domains"; sf_Value := ""; sf_Max := ""; sf_Danger := false;
       sf_IsBool := true; sf_Checked := DetectCatchAll s;
       sf_Help := "Probes a random address to tell a genuine mailbox from a domain that " +:+
                  "accepts everything. Accurate, but costs a second probe per accepted address." |} ];
  sw_Reputation := [
    number_field "quarantine_threshold" "Quarantine threshold" (FormatInt (QuarantineThreshold s)) (FormatInt MaxThreshold) false
      ("Consecutive block signals before an egress identity is withdrawn. " +:+
       "Lower is more cautious — it withdraws a degrading IP sooner.");
    number_field "circuit_threshold" "Circuit-breaker threshold" (FormatInt (CircuitThreshold s)) (FormatInt MaxThreshold) false
      ("Failures against one destination before that identity stops probing it. " +:+
       "Other destinations are unaffected.") ] |}.

(** What a browser submits of the page: the value of every field, and of a
    checkbox the value 1 when it is ticked. *)
Definition submitted (v : settingsView) : gmap string string :=
  list_to_map (omap (fun f => if sf_IsBool f then (if sf_Checked f then Some (sf_Name f, "1") else None)
                              else Some (sf_Name f, sf_Value f))
                    (sw_Performance v ++ sw_Reputation v)).

Lemma submitted_fields s errMsg saved :
  submitted (buildSettingsView s errMsg saved) = list_to_map (
    [("probe_rate", FormatFloat (ProbeRate s)); ("probe_burst", FormatFloat (ProbeBurst s));
     ("job_concurrency", FormatInt (JobConcurrency s)); ("max_emails_per_job", FormatInt (MaxEmailsPerJob s))] ++
    (if DetectCatchAll s then [("detect_catch_all", "1")] else []) ++
    [("quarantine_threshold", FormatInt (QuarantineThreshold s)); ("circuit_threshold", FormatInt (CircuitThreshold s))]).
Proof. unfold submitted. f_equal. destruct s as [? ? ? ? [] ? ?]; reflexivity. Qed.

(** Submitting the page as it is shown submits the settings it was built from. *)
Lemma form_roundtrip s errMsg saved current :
  ParseFloat (FormatFloat (ProbeRate s)) = Some (ProbeRate s) ->
  ParseFloat (FormatFloat (ProbeBurst s)) = Some (ProbeBurst s) ->
  Forall (fun z => int64_ok z = true) [JobConcurrency s; MaxEmailsPerJob s; QuarantineThreshold s; CircuitThreshold s] ->
  form_settings (submitted (buildSettingsView s errMsg saved)) current = s.
Proof.
  intros Hr Hb HF. rewrite !Forall_cons_iff in HF. destruct HF as (H1 & H2 & H3 & H4 & _). rewrite submitted_fields.
  apply Atoi_FormatInt in H1, H2, H3, H4. destruct s as [rate burst conc emails detect quar circ]. cbn [ProbeRate ProbeBurst
    JobConcurrency MaxEmailsPerJob DetectCatchAll QuarantineThreshold CircuitThreshold] in *. unfold form_settings, formFloat, formInt.
  revert Hr Hb H1 H2 H3 H4. generalize (FormatFloat rate), (FormatFloat burst), (FormatInt conc), (FormatInt emails), (FormatInt quar),
    (FormatInt circ). intros a b c d e f Hr Hb H1 H2 H3 H4.
  replace rate with (default (ProbeRate current) (ParseFloat a)) by (by rewrite Hr).
  replace burst with (default (ProbeBurst current) (ParseFloat b)) by (by rewrite Hb).
  replace conc with (default (JobConcurrency current) (Atoi c)) by (by rewrite H1).
  replace emails with (default (MaxEmailsPerJob current) (Atoi d)) by (by rewrite H2).
  replace quar with (default (QuarantineThreshold current) (Atoi e)) by (by rewrite H3).
  replace circ with (default (CircuitThreshold current) (Atoi f)) by (by rewrite H4).
  destruct detect; reflexivity.
Qed.
End Form.

(** ** What a change does *)


(** The components run with the settings [s]; a NaN is never taken over. *)
Definition live (s : Settings) (m : settingsManager) : Prop :=
  (ProbeRate s <> NaN -> rate (sm_limiter m) = ProbeRate s) /\
  (ProbeBurst s <> NaN -> burst (sm_limiter m) = ProbeBurst s) /\
  r_concurrency (sm_runner m) = JobConcurrency s /\ r_maxEmails (sm_runner m) = MaxEmailsPerJob s /\
  quarantineThreshold (sm_egress m) = QuarantineThreshold s /\ circuitThreshold (sm_egress m) = CircuitThreshold s /\
  cfg_DetectCatchAll (sm_engine m) = DetectCatchAll s.

Lemma accepted_positive x m : accepted_float x m -> x <> NaN -> flt (f64 0) x = true.
Proof.
  intros [->|(q & -> & Hq & _)] Hn; [done|]. change (f64 0) with (Fin 0). cbn [flt]. unfold Qltb.
  destruct (Qle_bool q 0) eqn:E; [|done]. apply Qle_bool_iff in E. exfalso. by apply (Qlt_not_le _ _ Hq).
Qed.

Lemma activate_live s m : in_limits s -> live s (activate s m) /\ sm_current (activate s m) = s /\
  sm_store (activate s m) = sm_store m.
Proof.
  intros (Hr & Hb & Hc & He & Hq & Hk). split; [|done]. unfold live. cbn. rewrite !Z.gtb_ltb.
  repeat split.
  - intros Hn. by rewrite (accepted_positive _ _ Hr Hn).
  - intros Hn. by rewrite (accepted_positive _ _ Hb Hn).
  - by rewrite (proj2 (Z.ltb_lt _ _)) by lia.
  - by rewrite (proj2 (Z.ltb_lt _ _)) by lia.
  - by rewrite (proj2 (Z.ltb_lt _ _)) by lia.
  - by rewrite (proj2 (Z.ltb_lt _ _)) by lia.
Qed.

(** Stored and running settings are in step.  A change that is accepted is
    the submitted record completed by the defaults and within the hard limits;
    it is what the store holds, what [Current] shows and what every component
    runs with, now and after a restart, whatever the environment says then.  A
    change is refused only for the reason [Validate] gives or because it could
    not be saved. *)
Theorem settings_apply_live save_ok s m :
  match Apply save_ok s m with
  | Err (Invalid e) => Settings.Validate (WithDefaults s) = Some e
  | Err SaveFailed => Settings.Validate (WithDefaults s) = None /\ save_ok = false
  | Ok m' =>
      in_limits (WithDefaults s) /\ Current m' = WithDefaults s /\ sm_store m' = Some (WithDefaults s) /\
      live (WithDefaults s) m' /\
      forall rate burst detect fresh, sm_store fresh = sm_store m' ->
        let m2 := startup rate burst detect fresh in Current m2 = WithDefaults s /\ live (WithDefaults s) m2
  end.
Proof.
  unfold Apply, begin_change. destruct (Settings.Validate (WithDefaults s)) as [e|] eqn:E; [done|].
  apply Validate_None in E. destruct save_ok; [|done]. cbn [negb run_change ch_settings ch_left fold_left].
  change (fold_left _ activate_actions _) with (activate (WithDefaults s) (act ASave (WithDefaults s) m)).
  destruct (activate_live (WithDefaults s) (act ASave (WithDefaults s) m) E) as (Hl & Hc & Hs).
  split; [done|]. split; [exact Hc|]. split; [exact Hs|]. split; [done|].
  intros r b d fresh Hf. cbv zeta. unfold startup, startup_settings. rewrite Hf, Hs. cbn [act set_stored sm_store].
  cbn [SaveSettings LoadSettings]. rewrite (WithDefaults_id (WithDefaults s)) by done.
  destruct (activate_live (WithDefaults s) fresh E) as (Hl2 & Hc2 & _). done.
Qed.

(** ** Concurrent changes *)

Record control := { ct_manager : settingsManager; ct_changes : list change }.

Definition with_limiter (l : Limiter) (m : settingsManager) : settingsManager :=
  {| sm_current := sm_current m; sm_store := sm_store m; sm_limiter := l; sm_runner := sm_runner m;
     sm_egress := sm_egress m; sm_engine := sm_engine m |}.
Definition with_runner (r : Runner) (m : settingsManager) : settingsManager :=
  {| sm_current := sm_current m; sm_store := sm_store m; sm_limiter := sm_limiter m; sm_runner := r;
     sm_egress := sm_egress m; sm_engine := sm_engine m |}.
Definition with_egress (g : Manager) (m : settingsManager) : settingsManager :=
  {| sm_current := sm_current m; sm_store := sm_store m; sm_limiter := sm_limiter m; sm_runner := sm_runner m;
     sm_egress := g; sm_engine := sm_engine m |}.

Section Concurrent.
Context `{FloatConv} `{UnicodeTables}.
Variable answer : string -> string -> option Verdict.
Variable failed_at : string -> string -> Time.

Definition tunes (o : op) : bool := match o with OpSetThresholds _ _ => true | _ => false end.
Definition limits (e : event) : bool := match e with ELimits _ _ => true | _ => false end.

(** The changes, action by action, among everything else the components do.  A
    call of [Apply] that gets past its checks joins the changes under way. *)
Inductive cstep : control -> control -> Prop :=
| cstep_begin m cs s c :
    begin_change s = Ok c ->
    cstep {| ct_manager := m; ct_changes := cs |} {| ct_manager := m; ct_changes := cs ++ [c] |}
| cstep_act m cs1 s a left cs2 :
    cstep {| ct_manager := m; ct_changes := cs1 ++ {| ch_settings := s; ch_left := a :: left |} :: cs2 |}
          {| ct_manager := act a s m; ct_changes := cs1 ++ {| ch_settings := s; ch_left := left |} :: cs2 |}
| cstep_save_failed m cs1 s cs2 :
    cstep {| ct_manager := m;
             ct_changes := cs1 ++ {| ch_settings := s; ch_left := ASave :: activate_actions |} :: cs2 |}
          {| ct_manager := m; ct_changes := cs1 ++ {| ch_settings := s; ch_left := [] |} :: cs2 |}
| cstep_reserve m cs key now :
    cstep {| ct_manager := m; ct_changes := cs |}
          {| ct_manager := with_limiter (reserve key now (sm_limiter m)).2 m; ct_changes := cs |}
| cstep_runner m cs e r :
    limits e = false -> exec answer failed_at e (sm_runner m) = Some r ->
    cstep {| ct_manager := m; ct_changes := cs |} {| ct_manager := with_runner r m; ct_changes := cs |}
| cstep_egress m cs now o g :
    tunes o = false -> op_wf (len (warmupStages (sm_egress m))) o -> apply_op now o (sm_egress m) = Some g ->
    cstep {| ct_manager := m; ct_changes := cs |} {| ct_manager := with_egress g m; ct_changes := cs |}.

(** ** What the other operations leave alone *)






(** ** The hard limits *)








(** Changes submitted at the same time can part the store from the running
    settings: when the second change is saved between the first one's save and
    its activation, and activated before it, the store ends with the second and
    the components with the first. *)
Theorem concurrent_changes_diverge m s1 s2 :
  in_limits s1 -> in_limits s2 ->
  exists st, rtc cstep {| ct_manager := m; ct_changes := [] |} st /\
    Forall (fun c => ch_left c = []) (ct_changes st) /\
    sm_store (ct_manager st) = Some s2 /\ Current (ct_manager st) = s1 /\ live s1 (ct_manager st).
Proof.
  intros H1 H2.
  set (done1 := {| ch_settings := s1; ch_left := [] |}). set (done2 := {| ch_settings := s2; ch_left := [] |}).
  exists {| ct_manager := activate s1 (activate s2 (act ASave s2 (act ASave s1 m))); ct_changes := [done1; done2] |}.
  destruct (activate_live s1 (activate s2 (act ASave s2 (act ASave s1 m))) H1) as (Hl & Hc & Hs).
  split; [|split; [|split; [exact Hs|done]]].
  2: { constructor; [done|]. constructor; [done|constructor]. }
  eapply rtc_l; [by apply (cstep_begin m [] s1), begin_change_id|].
  eapply rtc_l; [by apply (cstep_begin m _ s2), begin_change_id|]. cbn [app].
  eapply rtc_l; [apply (cstep_act m [] s1 ASave)|]. cbn [app].
  eapply rtc_l; [apply (cstep_act _ [_] s2 ASave)|]. cbn [app].
  do 5 (eapply rtc_l; [apply (cstep_act _ [_] s2)|]; cbn [app]).
  do 5 (eapply rtc_l; [apply (cstep_act _ [] s1)|]; cbn [app]). apply rtc_refl.
Qed.
End Concurrent.

(** ** Examples *)

Definition ex_plane : settingsManager :=
  {| sm_current := Default; sm_store := None;
     sm_limiter := RateLimit.New {| cfg_Rate := f64 1; cfg_Burst := f64 5; cfg_MaxWait := 0; cfg_MaxIdle := 0 |};
     sm_runner := Runner.New {| cfg_Concurrency := 0; cfg_MaxEmails := 0 |}; sm_egress := ex_mgr;
     sm_engine := Builtin.New {| Port := 0; ConnectTimeout := 0; CommandTimeout := 0; cfg_DetectCatchAll := true;
                                 cfg_HELO := ""; cfg_MailFrom := "" |} |}.


(** A burst above the limit is refused, a lower concurrency and a rate of 3 are
    taken over. *)
Definition ex_change : Settings :=
  {| ProbeRate := f64 3; ProbeBurst := f64 0; JobConcurrency := 4; MaxEmailsPerJob := 0; DetectCatchAll := false;
     QuarantineThreshold := 0; CircuitThreshold := 7 |}.


Lemma concurrent_changes_diverge_witness :
  exists st, rtc (cstep (H := amd64) (H0 := ascii_tables) (fun _ _ => None) (fun _ _ => 0))
               {| ct_manager := ex_plane; ct_changes := [] |} st /\
    sm_store (ct_manager st) = Some (WithDefaults ex_change) /\ Current (ct_manager st) = Default.
Proof.
  destruct (concurrent_changes_diverge (H := amd64) (H0 := ascii_tables) (fun _ _ => None) (fun _ _ => 0) ex_plane
              Default (WithDefaults ex_change)) as (st & Hr & _ & Hs & Hc & _).
  - apply Validate_None. reflexivity.
  - apply Validate_None. reflexivity.
  - exists st. split; [exact Hr|]. split; [exact Hs|exact Hc].
Defined.
