(* ===== verification/GoNet.v ===== *)
(** Go's [net.ParseIP] and [IP.To4], through [netip.ParseAddr].

    An address is its sixteen bytes, as integers; an IPv4 address is the mapped
    IPv6 one.  An address with a zone is none for [ParseIP]. *)

From S2P Require Import Prelude GoStrings GoConv.
Local Open Scope list_scope.
Local Open Scope Z_scope.

(** One field of a dotted quad: decimal digits, no leading zero, at most 255. *)
Definition octet (l : list ascii) : option Z :=
  match l with
  | [] => None
  | a :: k =>
      if Ascii.eqb a "0"%char && negb (len k =? 0) then None
      else n ← digits_value 0 l; if n <=? 255 then Some n else None
  end.

(** [parseIPv4Fields] *)
Definition ipv4_fields (l : list ascii) : option (list Z) :=
  fs ← mapM octet (split_on "."%char l); if len fs =? 4 then Some fs else None.

Definition hex_digit (a : ascii) : option Z :=
  let n := byte_val a in
  if (48 <=? n) && (n <=? 57) then Some (n - 48)
  else if (97 <=? n) && (n <=? 102) then Some (n - 87)
  else if (65 <=? n) && (n <=? 70) then Some (n - 55) else None.

(** The leading hexadecimal digits, their value and the rest. *)
Fixpoint hex_run (l : list ascii) (acc : Z) (n : nat) : Z * nat * list ascii :=
  match l with
  | a :: k => match hex_digit a with Some d => hex_run k (acc * 16 + d) (S n) | None => (acc, n, l) end
  | [] => (acc, n, [])
  end.

(** The loop of [parseIPv6] over groups: the bytes so far, the position of the
    ellipsis and the rest of the text.  Each turn adds two bytes or ends it. *)
Fixpoint v6_loop (fuel : nat) (ip : list Z) (ellipsis : option nat) (s : list ascii)
    : option (list Z * option nat * list ascii) :=
  match fuel with
  | O => Some (ip, ellipsis, s)
  | S fuel =>
      let '(acc, n, rest) := hex_run s 0 0 in
      if (n =? 0)%nat || (4 <? n)%nat then None
      else match rest with
      | "."%char :: _ =>
          if negb (bool_decide (is_Some ellipsis)) && negb (length ip =? 12)%nat then None
          else if (16 <? length ip + 4)%nat then None
          else fs ← ipv4_fields s; Some (ip ++ fs, ellipsis, [])
      | _ =>
          let ip := ip ++ [acc / 256; acc mod 256] in
          match rest with
          | [] => Some (ip, ellipsis, [])
          | ":"%char :: [] => None
          | ":"%char :: ":"%char :: more =>
              match ellipsis with
              | Some _ => None
              | None => match more with
                        | [] => Some (ip, Some (length ip), [])
                        | _ => v6_loop fuel ip (Some (length ip)) more
                        end
              end
          | ":"%char :: more => v6_loop fuel ip ellipsis more
          | _ => None
          end
      end
  end.

(** [parseIPv6], on a text without a zone. *)
Definition parseIPv6 (s : list ascii) : option (list Z) :=
  match s with
  | ":"%char :: ":"%char :: [] => Some (repeat 0 16)
  | _ =>
      let '(ellipsis, s) := match s with ":"%char :: ":"%char :: k => (Some 0%nat, k) | _ => (None, s) end in
      '(ip, ellipsis, rest) ← v6_loop 8 [] ellipsis s;
      match rest, ellipsis with
      | _ :: _, _ => None
      | [], Some e => if (length ip <? 16)%nat then Some (take e ip ++ repeat 0 (16 - length ip) ++ drop e ip) else None
      | [], None => if (length ip <? 16)%nat then None else Some ip
      end
  end.

Definition v4_prefix : list Z := repeat 0 10 ++ [255; 255].

(** The first of the bytes ".", ":" and "%" decides how the text is read. *)
Fixpoint first_mark (l : list ascii) : option ascii :=
  match l with
  | [] => None
  | a :: l => if Ascii.eqb a "."%char || Ascii.eqb a ":"%char || Ascii.eqb a "%"%char then Some a else first_mark l
  end.

(** [net.ParseIP] *)
Definition ParseIP (s : string) : option (list Z) :=
  match first_mark (bytes s) with
  | Some "."%char => app v4_prefix <$> ipv4_fields (bytes s)
  | Some ":"%char => if existsb (Ascii.eqb "%"%char) (bytes s) then None else parseIPv6 (bytes s)
  | _ => None
  end.

(** [IP.To4] of a sixteen-byte address. *)
Definition To4 (ip : list Z) : option (list Z) :=
  if bool_decide (take 12 ip = v4_prefix) then Some (drop 12 ip) else None.

(** [fmt.Sprintf("%d.%d.%d.%d")] *)
Definition dotted (a b c d : Z) : string :=
  FormatInt a +:+ "." +:+ FormatInt b +:+ "." +:+ FormatInt c +:+ "." +:+ FormatInt d.

(** ** Examples *)

Example ParseIP_mapped : (ParseIP "::ffff:192.0.2.1" ≫= To4) = Some [192; 0; 2; 1].
Proof. reflexivity. Qed.
Example ParseIP_v6 : (ParseIP "2001:db8::1" ≫= To4) = None /\
  ParseIP "2001:db8::1" = Some [32; 1; 13; 184; 0; 0; 0; 0; 0; 0; 0; 0; 0; 0; 0; 1].
Proof. by split. Qed.
Example ParseIP_bad :
  ParseIP "1.2.3" = None /\ ParseIP "01.2.3.4" = None /\ ParseIP "1.2.3.256" = None /\ ParseIP "fe80::1%eth0" = None /\
  ParseIP "1:2:3:4:5:6:7::8:9" = None /\ ParseIP "" = None.
Proof. by repeat split. Qed.

(** ** Dotted quads *)

Lemma octet_dec n : 0 <= n <= 255 ->
  octet (bytes (FormatInt n)) = Some n /\
  Forall (fun a => a <> "."%char) (bytes (FormatInt n)) /\ first_mark (bytes (FormatInt n)) = None.
Proof.
  intros Hn. assert (Hall : forallb (fun k => let n := Z.of_nat k in
      bool_decide (octet (bytes (FormatInt n)) = Some n) &&
      forallb (fun a => negb (Ascii.eqb a "."%char)) (bytes (FormatInt n)) &&
      bool_decide (first_mark (bytes (FormatInt n)) = None)) (seq 0 256) = true) by (vm_compute; reflexivity).
  rewrite forallb_forall in Hall. specialize (Hall (Z.to_nat n) ltac:(apply in_seq; lia)). rewrite Z2Nat.id in Hall by lia.
  apply andb_true_iff in Hall as [[H1 H2]%andb_true_iff H3].
  apply bool_decide_eq_true in H1, H3. split; [done|]. split; [|done].
  apply Forall_forall. intros a Ha ->. rewrite forallb_forall in H2.
  specialize (H2 _ Ha). done.
Qed.

Lemma first_mark_dot l k : first_mark l = None -> first_mark (l ++ "."%char :: k) = Some "."%char.
Proof. induction l as [|a l IH]; simpl; [done|]. by destruct (_ || _). Qed.

Lemma ParseIP_dotted a b c d :
  0 <= a <= 255 -> 0 <= b <= 255 -> 0 <= c <= 255 -> 0 <= d <= 255 ->
  (ParseIP (dotted a b c d) ≫= To4) = Some [a; b; c; d].
Proof.
  intros Ha Hb Hc Hd. destruct (octet_dec a Ha) as (Oa & Na & Ma). destruct (octet_dec b Hb) as (Ob & Nb & _).
  destruct (octet_dec c Hc) as (Oc & Nc & _). destruct (octet_dec d Hd) as (Od & Nd & _).
  assert (E : bytes (dotted a b c d) = bytes (FormatInt a) ++ "."%char :: bytes (FormatInt b) ++ "."%char ::
                bytes (FormatInt c) ++ "."%char :: bytes (FormatInt d)).
  { unfold dotted. by rewrite !bytes_app. }
  unfold ParseIP. rewrite E, first_mark_dot by done. unfold ipv4_fields.
  rewrite !split_on_app, split_on_no_sep by done. cbn [mapM mbind option_bind].
  rewrite Oa, Ob, Oc, Od. reflexivity.
Qed.
