(* ===== verification/Blocklist.v ===== *)
(** [internal/egress/audit]: DNS blocklists and reverse DNS of the egress
    addresses, and the periodic audit of the pool built on them.

    The resolver is the parameter [Resolver]: the addresses of a host name and
    the names of an address, an error being [None]. *)

From Stdlib Require Import QArith.
From S2P Require Import Prelude GoStrings GoConv Float64 GoTime GoNet Engine Health Egress EgressInv.
From S2P Require Import EgressSel EgressOps EgressProps.
Local Open Scope list_scope.
Local Open Scope Z_scope.

Class Resolver := {
  LookupHost : string -> option (list string);
  LookupAddr : string -> option (list string);
}.

(** [strings.EqualFold]: letter case is ignored; beyond ASCII it follows the
    Unicode folding tables. *)
Class FoldTables := { unicode_equal_fold : string -> string -> bool }.
Definition EqualFold `{FoldTables} (s t : string) : bool :=
  if is_ascii s && is_ascii t then bool_decide (map lower_byte (bytes s) = map lower_byte (bytes t))
  else unicode_equal_fold s t.

(** ** Blocklists *)

(** [reverseIPv4] *)
Definition reverseIPv4 (ip : string) : option string :=
  parsed ← ParseIP ip;
  v4 ← To4 parsed;
  match v4 with [a; b; c; d] => Some (dotted d c b a) | _ => None end.

(** [isListingCode] *)
Definition isListingCode (addr : string) : bool := HasPrefix addr "127." && negb (HasPrefix addr "127.255.").

Section Audits.
Context `{HR : Resolver}.

(** The loop of [Check] over the zones. *)
Fixpoint check_zones (rev : string) (zones : list string) : list string :=
  match zones with
  | [] => []
  | zone :: zones =>
      match LookupHost (rev +:+ "." +:+ zone) with
      | None => check_zones rev zones
      | Some addrs => if existsb isListingCode addrs then zone :: check_zones rev zones else check_zones rev zones
      end
  end.

(** [DNSBL.Check]; its error is always nil. *)
Definition Check_ (zones : list string) (ip : string) : list string :=
  match reverseIPv4 ip with None => [] | Some rev => check_zones rev zones end.

(** ** Reverse DNS *)

Record PTRResult := { ptr_Names : list string; ptr_FCrDNS : bool; ptr_HELOMatch : bool }.

(** One name of [PTRAuditor.Audit]. *)
Definition audit_name `{FoldTables} (ip helo : string) (res : PTRResult) (name : string) : PTRResult :=
  let n := TrimSuffix name "." in
  let helo_match := ptr_HELOMatch res || EqualFold n helo in
  match LookupHost n with
  | None => {| ptr_Names := ptr_Names res; ptr_FCrDNS := ptr_FCrDNS res; ptr_HELOMatch := helo_match |}
  | Some addrs => {| ptr_Names := ptr_Names res;
                     ptr_FCrDNS := ptr_FCrDNS res || existsb (fun addr => String.eqb addr ip) addrs;
                     ptr_HELOMatch := helo_match |}
  end.

(** [PTRAuditor.Audit]; [None] when the reverse lookup fails. *)
Definition Audit `{FoldTables} (ip helo : string) : option PTRResult :=
  names ← LookupAddr ip;
  Some (fold_left (audit_name ip helo) names
          {| ptr_Names := names; ptr_FCrDNS := false; ptr_HELOMatch := false |}).
End Audits.

(** ** The checkers *)

Record DNSBL := { bl_resolver : Resolver; bl_zones : list string }.
Record PTRAuditor := { ptr_resolver : Resolver }.

(** [NewDNSBL] and [NewPTRAuditor]: [system] is [DirectResolver], which stands in
    for an absent resolver. *)
Definition NewDNSBL (system : Resolver) (resolver : option Resolver) (zones : list string) : DNSBL :=
  {| bl_resolver := match resolver with None => system | Some r => r end; bl_zones := zones |}.
Definition NewPTRAuditor (system : Resolver) (resolver : option Resolver) : PTRAuditor :=
  {| ptr_resolver := match resolver with None => system | Some r => r end |}.

(** Their methods. *)
Definition DNSBL_Check (d : DNSBL) (ip : string) : list string := Check_ (HR := bl_resolver d) (bl_zones d) ip.
Definition PTRAuditor_Audit `{FoldTables} (a : PTRAuditor) (ip helo : string) : option PTRResult :=
  Audit (HR := ptr_resolver a) ip helo.

Section AuditLemmas.
Context `{HR : Resolver}.

(** ** Lemmas *)

(** [zone] answers the query for [ip] with the code of a listing. *)
Definition lists (ip zone : string) : Prop :=
  exists rev addrs code, reverseIPv4 ip = Some rev /\ LookupHost (rev +:+ "." +:+ zone) = Some addrs /\
    code ∈ addrs /\ isListingCode code = true.

Lemma check_zones_spec rev zones zone :
  zone ∈ check_zones rev zones <-> zone ∈ zones /\
    exists addrs code, LookupHost (rev +:+ "." +:+ zone) = Some addrs /\ code ∈ addrs /\ isListingCode code = true.
Proof.
  assert (Hex : forall addrs, existsb isListingCode addrs = true <-> exists code, code ∈ addrs /\ isListingCode code = true).
  { intros addrs. rewrite existsb_exists. setoid_rewrite <- list_elem_of_In. done. }
  induction zones as [|z zones IH]; cbn [check_zones]; [set_solver|].
  destruct (LookupHost (rev +:+ "." +:+ z)) as [addrs|] eqn:El.
  - destruct (existsb isListingCode addrs) eqn:Ee; rewrite ?elem_of_cons, IH.
    + apply Hex in Ee as (code & Hin & Hc). naive_solver.
    + split; [naive_solver|]. intros [[->|Hz] (addrs' & code & Hl & Hin & Hc)]; [|naive_solver].
      rewrite El in Hl. injection Hl as <-. exfalso. apply not_true_iff_false in Ee. apply Ee, Hex. eauto.
  - rewrite elem_of_cons, IH. naive_solver congruence.
Qed.

Lemma Check_spec zones ip zone : zone ∈ Check_ zones ip <-> zone ∈ zones /\ lists ip zone.
Proof.
  unfold Check_, lists. destruct (reverseIPv4 ip) as [rev|].
  - rewrite check_zones_spec. naive_solver.
  - split; [intros H; by apply not_elem_of_nil in H|naive_solver].
Qed.

Lemma reverse_dotted a b c d :
  0 <= a <= 255 -> 0 <= b <= 255 -> 0 <= c <= 255 -> 0 <= d <= 255 ->
  reverseIPv4 (dotted a b c d) = Some (dotted d c b a).
Proof.
  intros Ha Hb Hc Hd. pose proof (ParseIP_dotted a b c d Ha Hb Hc Hd) as Hp. unfold reverseIPv4.
  destruct (ParseIP (dotted a b c d)) as [ip|]; [|done]. cbn [mbind option_bind] in *. by rewrite Hp.
Qed.

(** ** The audit of the pool *)

Definition quarantined (cd : Duration) (zones : list string) (now : Time) (r : record) : record :=
  set_life StateQuarantined (warmupStage r) (blockStreak r) (Add now cd)
    ("dnsbl:" +:+ Join (Check_ zones (Spec_IP (spec r))) ",") r.

(** Whether the audit withdraws the identity of the record [r]. *)
Definition withdrawn (zones : list string) (r : record) : bool :=
  negb (String.eqb (Spec_IP (spec r)) "") && negb (bool_decide (state r = StateDisabled)) &&
  negb (len (Check_ zones (Spec_IP (spec r))) =? 0).

Lemma withdrawn_spec zones r :
  withdrawn zones r = true <->
  Spec_IP (spec r) <> "" /\ state r <> StateDisabled /\ exists zone, zone ∈ zones /\ lists (Spec_IP (spec r)) zone.
Proof.
  unfold withdrawn. rewrite !andb_true_iff, !negb_true_iff, String.eqb_neq, bool_decide_eq_false, Z.eqb_neq.
  setoid_rewrite <- Check_spec. destruct (Check_ zones (Spec_IP (spec r))) as [|z l]; unfold len; simpl.
  - split; [lia|]. intros (_ & _ & z & Hz). by apply not_elem_of_nil in Hz.
  - split; [intros [[H1 H2] _]|intros (H1 & H2 & _); repeat split; try done; lia].
    split; [done|]. split; [done|]. exists z. apply list_elem_of_here.
Qed.

(** The items of the snapshot are those of the records. *)
Definition item_of (id : string) (r : record) : string * string * bool :=
  (id, Spec_IP (spec r), bool_decide (state r = StateDisabled)).

Lemma audit_one_cooldown check now m it : quarantineCooldown (audit_one check now m it) = quarantineCooldown m.
Proof.
  destruct it as [[i ip] dis]. unfold audit_one, Quarantine, update_record. by repeat case_match.
Qed.

Lemma audit_one_other check now m it id :
  it.1.1 <> id -> records (audit_one check now m it) !! id = records m !! id.
Proof.
  destruct it as [[i ip] dis]. simpl. intros Hid. unfold audit_one. destruct (_ || _); [done|].
  destruct (_ =? 0); [done|]. unfold Quarantine. by rewrite update_record_lookup, decide_False.
Qed.

Lemma audit_fold zones now id r items : forall m r0,
  (forall it, it ∈ items -> it.1.1 = id -> it = item_of id r) ->
  (r0 = r \/ r0 = quarantined (quarantineCooldown m) zones now r) -> records m !! id = Some r0 ->
  records (fold_left (audit_one (Check_ zones) now) items m) !! id
  = Some (if bool_decide (item_of id r ∈ items) && withdrawn zones r
          then quarantined (quarantineCooldown m) zones now r else r0).
Proof.
  induction items as [|it items IH]; intros m r0 Hits Hr0 Hr; cbn [fold_left]; [done|].
  set (m1 := audit_one (Check_ zones) now m it).
  assert (Hcd : quarantineCooldown m1 = quarantineCooldown m) by apply audit_one_cooldown.
  assert (Hits' : forall it', it' ∈ items -> it'.1.1 = id -> it' = item_of id r) by (intros; apply Hits; [by right|done]).
  destruct (decide (it.1.1 = id)) as [Hid|Hid].
  - assert (it = item_of id r) as -> by (apply Hits; [apply list_elem_of_here|done]).
    assert (Hm1 : records m1 !! id = Some (if withdrawn zones r then quarantined (quarantineCooldown m) zones now r else r0)).
    { unfold m1, audit_one, item_of, withdrawn.
      destruct (String.eqb (Spec_IP (spec r)) ""); [done|]. cbn [orb negb andb].
      destruct (bool_decide (state r = StateDisabled)); [done|]. cbn [orb negb andb].
      destruct (len (Check_ zones (Spec_IP (spec r))) =? 0); [done|]. cbn [negb].
      unfold Quarantine. rewrite update_record_lookup, decide_True, Hr by done. simpl. f_equal.
      destruct Hr0 as [->| ->]; done. }
    assert (Hq : (if withdrawn zones r then quarantined (quarantineCooldown m) zones now r else r0) = r \/
                 (if withdrawn zones r then quarantined (quarantineCooldown m) zones now r else r0)
                 = quarantined (quarantineCooldown m1) zones now r)
      by (rewrite Hcd; destruct (withdrawn zones r); [by right|done]).
    rewrite (IH m1 _ Hits' Hq Hm1), Hcd.
    rewrite (bool_decide_eq_true_2 (item_of id r ∈ item_of id r :: items)) by apply list_elem_of_here. cbn [andb].
    destruct (withdrawn zones r); [|by rewrite andb_false_r]. by destruct (_ && _).
  - rewrite (IH m1 r0 Hits').
    + rewrite Hcd. rewrite (bool_decide_ext (item_of id r ∈ items) (item_of id r ∈ it :: items)); [done|].
      rewrite elem_of_cons. split; [by right|]. by intros [<-|].
    + by rewrite Hcd.
    + unfold m1. by rewrite audit_one_other.
Qed.

(** The blocklist audit withdraws exactly the listed identities: after
    [AuditDNSBL] over the zones, an identity with an address that is not disabled
    is quarantined for the cool-down from now if some zone answered the query for
    its reversed address with the code of a listing; the record of every other
    identity is untouched, so neither a failed lookup nor an error code of a
    blocklist ever withdraws one. *)
Theorem audit_withdraws_listed zones now m m' id r :
  mgr_wf m -> AuditDNSBL (Check_ zones) now m = Some m' -> records m !! id = Some r ->
  let listed := Spec_IP (spec r) <> "" /\ state r <> StateDisabled /\
                exists zone, zone ∈ zones /\ lists (Spec_IP (spec r)) zone in
  exists r', records m' !! id = Some r' /\
    (listed -> state r' = StateQuarantined /\ quarantinedUntil r' = now + quarantineCooldown m) /\
    (~ listed -> r' = r).
Proof.
  intros W Ha Hr. cbv zeta.
  destruct (mapM_order (fun id r => (id, Spec_IP (spec r), bool_decide (state r = StateDisabled))) m W) as (items & Hi & Hf).
  assert (Hai : audit_items m = Some items).
  { rewrite <- Hi. unfold audit_items. f_equal. }
  unfold AuditDNSBL in Ha. rewrite Hai in Ha. injection Ha as <-.
  assert (Hitem : forall it, it ∈ items -> it.1.1 = id -> it = item_of id r).
  { intros it Hin Hid. destruct (list_elem_of_lookup_1 _ _ Hin) as [k Hk].
    destruct (Forall2_lookup_r _ _ _ _ _ Hf Hk) as (i & _ & r0 & Hr0 & ->). simpl in Hid. subst i.
    rewrite Hr in Hr0. by injection Hr0 as <-. }
  assert (Hin : item_of id r ∈ items).
  { assert (Ho : id ∈ order m) by (apply (mwf_order m W); by exists r).
    destruct (list_elem_of_lookup_1 _ _ Ho) as [k Hk].
    destruct (Forall2_lookup_l _ _ _ _ _ Hf Hk) as (it & Hit & r0 & Hr0 & ->).
    rewrite Hr in Hr0. injection Hr0 as <-. by eapply list_elem_of_lookup_2. }
  eexists. split; [apply (audit_fold zones now id r items m r Hitem (or_introl eq_refl) Hr)|].
  rewrite bool_decide_eq_true_2 by done. cbn [andb]. rewrite <- withdrawn_spec.
  destruct (withdrawn zones r); [by split; [|intros []]|by split; [|]].
Qed.
End AuditLemmas.

(** ** Example *)

(** A blocklist that lists 192.0.2.1 in one zone and answers an error code in
    another. *)
Definition ex_resolver : Resolver := {|
  LookupHost := fun h =>
    if String.eqb h "1.2.0.192.bl.example" then Some ["127.0.0.2"]
    else if String.eqb h "1.2.0.192.err.example" then Some ["127.255.255.254"] else None;
  LookupAddr := fun _ => None |}.

Lemma audit_withdraws_listed_witness :
  exists m' r', AuditDNSBL (Check_ (HR := ex_resolver) ["err.example"; "bl.example"]) 7 ex_mgr = Some m' /\
    records m' !! "a" = Some r' /\ state r' = StateQuarantined.
Proof.
  destruct (AuditDNSBL_total (Check_ (HR := ex_resolver) ["err.example"; "bl.example"]) 7 ex_mgr ex_mgr_wf)
    as (items & _ & Ha).
  destruct (audit_withdraws_listed (HR := ex_resolver) ["err.example"; "bl.example"] 7 ex_mgr _ "a"
              (fresh_record (ex_spec "a" false) ex_start) ex_mgr_wf Ha) as (r' & Hr' & Hl & _).
  - vm_compute. reflexivity.
  - eexists _, r'. split; [exact Ha|]. split; [exact Hr'|]. apply Hl.
    split; [discriminate|]. split; [discriminate|]. exists "bl.example". split; [right; left|].
    exists "1.2.0.192", ["127.0.0.2"], "127.0.0.2". split; [vm_compute; reflexivity|]. split; [reflexivity|].
    split; [apply list_elem_of_here|reflexivity].
Defined.
