(* ===== verification/Crypto.v ===== *)
(** SHA-256 (FIPS 180-4) and HMAC (RFC 2104), which sign the dashboard's session
    tokens through [crypto/hmac] and [crypto/sha256].

    A word is an integer of 32 bits; additions wrap.  The published test vectors
    are checked by computation. *)

From S2P Require Import Prelude GoStrings GoConv.
Local Open Scope list_scope.
Local Open Scope Z_scope.

Definition wrap32 (z : Z) : Z := Z.land z 4294967295.
Definition add32 (a b : Z) : Z := wrap32 (a + b).
Definition rotr (n x : Z) : Z := Z.lor (Z.shiftr x n) (wrap32 (Z.shiftl x (32 - n))).

Definition Ch (x y z : Z) : Z := Z.lxor (Z.land x y) (Z.land (Z.lxor x 4294967295) z).
Definition Maj (x y z : Z) : Z := Z.lxor (Z.land x y) (Z.lxor (Z.land x z) (Z.land y z)).
Definition Sigma0 (x : Z) : Z := Z.lxor (rotr 2 x) (Z.lxor (rotr 13 x) (rotr 22 x)).
Definition Sigma1 (x : Z) : Z := Z.lxor (rotr 6 x) (Z.lxor (rotr 11 x) (rotr 25 x)).
Definition sigma0 (x : Z) : Z := Z.lxor (rotr 7 x) (Z.lxor (rotr 18 x) (Z.shiftr x 3)).
Definition sigma1 (x : Z) : Z := Z.lxor (rotr 17 x) (Z.lxor (rotr 19 x) (Z.shiftr x 10)).

(** The first 32 bits of the fractional parts of the cube roots of the first 64
    primes, and of the square roots of the first eight. *)
Definition K256 : list Z :=
  [1116352408; 1899447441; 3049323471; 3921009573; 961987163; 1508970993;
   2453635748; 2870763221; 3624381080; 310598401; 607225278; 1426881987;
   1925078388; 2162078206; 2614888103; 3248222580; 3835390401; 4022224774;
   264347078; 604807628; 770255983; 1249150122; 1555081692; 1996064986;
   2554220882; 2821834349; 2952996808; 3210313671; 3336571891; 3584528711;
   113926993; 338241895; 666307205; 773529912; 1294757372; 1396182291;
   1695183700; 1986661051; 2177026350; 2456956037; 2730485921; 2820302411;
   3259730800; 3345764771; 3516065817; 3600352804; 4094571909; 275423344;
   430227734; 506948616; 659060556; 883997877; 958139571; 1322822218;
   1537002063; 1747873779; 1955562222; 2024104815; 2227730452; 2361852424;
   2428436474; 2756734187; 3204031479; 3329325298].
Definition H256 : list Z :=
  [1779033703; 3144134277; 1013904242; 2773480762; 1359893119; 2600822924;
   528734635; 1541459225].

(** The 64 words of the message schedule, the latest first. *)
Fixpoint schedule_loop (n : nat) (w : list Z) : list Z :=
  match n with
  | O => w
  | S n =>
      let at_ i := nth i w 0 in
      schedule_loop n (add32 (add32 (sigma1 (at_ 1%nat)) (at_ 6%nat)) (add32 (sigma0 (at_ 14%nat)) (at_ 15%nat)) :: w)
  end.
Definition schedule (block : list Z) : list Z := rev (schedule_loop 48 (rev block)).

(** One round on the working variables [a .. h]. *)
Definition round (v : list Z) (kw : Z * Z) : list Z :=
  match v with
  | [a; b; c; d; e; f; g; h] =>
      let t1 := add32 (add32 h (Sigma1 e)) (add32 (Ch e f g) (add32 kw.1 kw.2)) in
      let t2 := add32 (Sigma0 a) (Maj a b c) in
      [add32 t1 t2; a; b; c; add32 d t1; e; f; g]
  | _ => v
  end.
Definition compress (h : list Z) (block : list Z) : list Z :=
  zip_with add32 h (fold_left round (combine K256 (schedule block)) h).

(** ** Messages *)

Fixpoint words (l : list ascii) : list Z :=
  match l with
  | a :: b :: c :: d :: l =>
      (byte_val a * 16777216 + byte_val b * 65536 + byte_val c * 256 + byte_val d) :: words l
  | _ => []
  end.
Definition word_bytes (w : Z) : list ascii :=
  [byte_of (w / 16777216); byte_of (w / 65536); byte_of (w / 256); byte_of w].

(** A one bit, zeros, and the length in bits as 64 bits, up to a multiple of 64 bytes. *)
Definition pad (l : list ascii) : list ascii :=
  let n := len l in
  l ++ [byte_of 128] ++ repeat (byte_of 0) (Z.to_nat ((55 - n) mod 64))
    ++ word_bytes (n * 8 / 4294967296) ++ word_bytes (n * 8).

Fixpoint blocks (fuel : nat) (h : list Z) (ws : list Z) : list Z :=
  match fuel with
  | O => h
  | S fuel => match ws with [] => h | _ => blocks fuel (compress h (take 16 ws)) (drop 16 ws) end
  end.

Definition SHA256 (l : list ascii) : list ascii :=
  let ws := words (pad l) in
  concat (word_bytes <$> blocks (length ws) H256 ws).

(** [hmac.New(sha256.New, key)], written with [payload], and its sum. *)
Definition HMAC (key payload : list ascii) : list ascii :=
  let key := if len key >? 64 then SHA256 key else key in
  let key := key ++ repeat (byte_of 0) (64 - length key) in
  let xored c := (fun a => byte_of (Z.lxor (byte_val a) c)) <$> key in
  SHA256 (xored 92 ++ SHA256 (xored 54 ++ payload)).

(** ** Test vectors *)

Definition hex_value (a : ascii) : Z :=
  let n := byte_val a in if n <=? 57 then n - 48 else n - 87.
Fixpoint unhex (l : list ascii) : list ascii :=
  match l with a :: b :: l => byte_of (hex_value a * 16 + hex_value b) :: unhex l | _ => [] end.

(** FIPS 180-4, "abc" and the empty message. *)
Example SHA256_abc :
  SHA256 (bytes "abc") = unhex (bytes "ba7816bf8f01cfea414140de5dae2223b00361a396177a9cb410ff61f20015ad").
Proof. vm_compute. reflexivity. Qed.

Example SHA256_empty :
  SHA256 [] = unhex (bytes "e3b0c44298fc1c149afbf4c8996fb92427ae41e4649b934ca495991b7852b855").
Proof. vm_compute. reflexivity. Qed.

(** A message of two blocks. *)
Example SHA256_two_blocks :
  SHA256 (bytes "abcdbcdecdefdefgefghfghighijhijkijkljklmklmnlmnomnopnopq")
  = unhex (bytes "248d6a61d20638b8e5c026930c3e6039a33ce45964ff2167f6ecedd419db06c1").
Proof. vm_compute. reflexivity. Qed.

(** RFC 4231, test case 2. *)
Example HMAC_jefe :
  HMAC (bytes "Jefe") (bytes "what do ya want for nothing?")
  = unhex (bytes "5bdcc146bf60754e6a042426089575c75a003f089d2739839dec58b964ec3843").
Proof. vm_compute. reflexivity. Qed.
