(* ===== verification/Auth.v ===== *)
(** [internal/web/auth.go]: signing in to the dashboard.

    A session is a token "expiry.signature" in a cookie, the signature an HMAC
    of the expiry; there is no state on the server.  A request is what the
    handlers read of it; a response is what they write. *)

From S2P Require Import Prelude GoStrings GoConv GoTime Crypto.
Local Open Scope list_scope.
Local Open Scope Z_scope.

Definition sessionCookieName : string := "rcptto_session".
Definition defaultSessionTTL : Duration := 12 * Hour.

Record AuthConfig := {
  ac_Username : string; ac_Password : string; ac_Secret : list ascii; ac_TTL : Duration; ac_SecureCookie : bool;
}.
Record auth := {
  au_username : string; au_password : string; au_secret : list ascii; au_ttl : Duration; au_secureCookie : bool;
}.

Inductive auth_error := ErrCredentialsMissing | ErrSecret.

(** [newAuth]; [rand] is what [rand.Read] fills 32 bytes with, [None] when it fails. *)
Definition newAuth (cfg : option AuthConfig) (rand : option (list ascii)) : result auth_error (option auth) :=
  match cfg with
  | None => Ok None
  | Some cfg =>
      if String.eqb (ac_Username cfg) "" || String.eqb (ac_Password cfg) "" then Err ErrCredentialsMissing
      else
        let a secret := {| au_username := ac_Username cfg; au_password := ac_Password cfg; au_secret := secret;
                           au_ttl := if ac_TTL cfg <=? 0 then defaultSessionTTL else ac_TTL cfg;
                           au_secureCookie := ac_SecureCookie cfg |} in
        if len (ac_Secret cfg) =? 0 then
          match rand with None => Err ErrSecret | Some b => Ok (Some (a b)) end
        else Ok (Some (a (ac_Secret cfg)))
  end.

(** [checkCredentials]; a comparison in constant time is a comparison. *)
Definition checkCredentials (a : auth) (username password : string) : bool :=
  let userOK := String.eqb username (au_username a) in
  let passOK := String.eqb password (au_password a) in
  userOK && passOK.

(** ** Tokens *)

(** Seconds from the zero time to 1970; [Time.Unix] and [time.Unix(u, 0)]. *)
Definition unixToInternal : Z := 62135596800.
Definition Unix (t : Time) : Z := wrap64 (t / Second - unixToInternal).
Definition UnixTime (u : Z) : Time := wrap64 (u + unixToInternal) * Second.

(** [sign] *)
Definition sign (a : auth) (payload : string) : list ascii := HMAC (au_secret a) (bytes payload).

(** [issueToken] *)
Definition issueToken (a : auth) (expiry : Time) : string :=
  let exp := FormatInt (Unix expiry) in
  exp +:+ "." +:+ of_bytes (b64_encode (sign a exp)).

(** [validToken] at the instant [now]. *)
Definition validToken (a : auth) (now : Time) (token : string) : bool :=
  let '(exp, sig, ok) := Cut token "."%char in
  if negb ok then false
  else match b64_decode (bytes sig) with
  | None => false
  | Some got =>
      if negb (bool_decide (sign a exp = got)) then false
      else match Atoi exp with
      | None => false
      | Some unix => Before now (UnixTime unix)
      end
  end.

(** ** Requests *)

Record request := {
  rq_Path : string;
  rq_session : option string;  (** the value of the session cookie *)
  rq_HX : string;              (** the header HX-Request *)
  rq_form_ok : bool;           (** [ParseForm] succeeds *)
  rq_form : gmap string string;
}.

Record cookie := {
  ck_Name : string; ck_Value : string; ck_Path : string; ck_Expires : option Time; ck_MaxAge : Z;
  ck_HttpOnly : bool; ck_Secure : bool; ck_SameSiteLax : bool;
}.

Inductive auth_response :=
| Redirect (to : string) (set : option cookie)  (** 303 *)
| HXRedirect (to : string)                      (** 401 with the header HX-Redirect *)
| LoginPage (status : Z) (error : string).

(** [authenticated] *)
Definition authenticated (s : option auth) (now : Time) (r : request) : bool :=
  match s with
  | None => true
  | Some a => match rq_session r with None => false | Some v => validToken a now v end
  end.

(** [requireAuth]: what the inner handler [next] answers, or a refusal. *)
Definition requireAuth {R} (s : option auth) (now : Time) (next : request -> R) (r : request) : R + auth_response :=
  match s with
  | None => inl (next r)
  | Some a =>
      if HasPrefix (rq_Path r) "/login" || HasPrefix (rq_Path r) "/assets/" then inl (next r)
      else if authenticated s now r then inl (next r)
      else if String.eqb (rq_HX r) "true" then inr (HXRedirect "/login")
      else inr (Redirect "/login" None)
  end.

(** [handleLoginForm] *)
Definition handleLoginForm (s : option auth) (now : Time) (r : request) : auth_response :=
  match s with
  | None => Redirect "/" None
  | Some _ => if authenticated s now r then Redirect "/" None else LoginPage 200 ""
  end.

(** [handleLoginSubmit] *)
Definition handleLoginSubmit (s : option auth) (now : Time) (r : request) : auth_response :=
  match s with
  | None => Redirect "/" None
  | Some a =>
      if negb (rq_form_ok r) then LoginPage 200 "Invalid form submission."
      else if negb (checkCredentials a (default "" (rq_form r !! "username")) (default "" (rq_form r !! "password")))
      then LoginPage 401 "Incorrect username or password."
      else
        let expiry := Add now (au_ttl a) in
        Redirect "/" (Some {| ck_Name := sessionCookieName; ck_Value := issueToken a expiry; ck_Path := "/";
                              ck_Expires := Some expiry; ck_MaxAge := 0; ck_HttpOnly := true;
                              ck_Secure := au_secureCookie a; ck_SameSiteLax := true |})
  end.

(** [handleLogout] *)
Definition handleLogout (s : option auth) : auth_response :=
  Redirect "/login" (Some {| ck_Name := sessionCookieName; ck_Value := ""; ck_Path := "/"; ck_Expires := None;
                             ck_MaxAge := -1; ck_HttpOnly := true;
                             ck_Secure := match s with Some a => au_secureCookie a | None => false end;
                             ck_SameSiteLax := true |}).

(** ** Lemmas *)

Lemma index_byte_app c l k : Forall (fun a => a <> c) l -> index_byte c (l ++ c :: k) = Some (length l).
Proof.
  induction 1 as [|a l Ha _ IH]; cbn [index_byte app length]; [destruct (Ascii.eqb_spec c c); done|].
  destruct (Ascii.eqb_spec a c); [done|]. by rewrite IH.
Qed.

Lemma Cut_app p q c : Forall (fun a => a <> c) (bytes p) -> Cut (p +:+ String c q) c = (p, q, true).
Proof.
  intros Hp. unfold Cut, IndexByte.
  rewrite bytes_app. change (bytes (String c q)) with (c :: bytes q). rewrite index_byte_app by done.
  cbn [index_result from_option]. rewrite (proj2 (Z.ltb_ge _ _)) by lia.
  unfold slice_to, slice_from. rewrite bytes_app. change (bytes (String c q)) with (c :: bytes q).
  replace (Z.to_nat (Z.of_nat (length (bytes p)) + 1)) with (length (bytes p) + 1)%nat by lia.
  rewrite Nat2Z.id, take_app_length, <- drop_drop, drop_app_length. simpl. by rewrite drop_0, !of_bytes_bytes.
Qed.

Lemma FormatInt_no_dot z : Forall (fun a => a <> "."%char) (bytes (FormatInt z)).
Proof.
  assert (Hd : forall n, 0 <= n -> Forall (fun a => a <> "."%char) (dec_loop 20 n [])).
  { intros n Hn. apply dec_loop_bytes; [done| |constructor].
    intros d Hd E. pose proof (digit_char_value d Hd) as Hv. rewrite E in Hv. discriminate Hv. }
  unfold FormatInt. rewrite bytes_of_bytes. destruct (Z.ltb_spec z 0); [constructor; [done|]|]; apply Hd; lia.
Qed.

(** Instants whose seconds fit in an [int64] before and after the shift to 1970. *)
Definition in_range (t : Time) : Prop := 0 <= t < 2 ^ 62 * Second.

Lemma Unix_range t : in_range t -> int64_ok (Unix t) = true /\ UnixTime (Unix t) = t / Second * Second.
Proof.
  intros [H0 H1]. assert (Hs : 0 <= t / Second < 2 ^ 62).
  { split; [apply Z.div_pos; [done|unfold Second; lia]|apply Z.div_lt_upper_bound; [unfold Second; lia|]; lia]. }
  assert (Hu : int64_ok (t / Second - unixToInternal) = true).
  { unfold int64_ok, min_int64, max_int64, unixToInternal. apply andb_true_iff. rewrite !Z.leb_le. lia. }
  assert (Hi : int64_ok (t / Second) = true).
  { unfold int64_ok, min_int64, max_int64. apply andb_true_iff. rewrite !Z.leb_le. lia. }
  unfold Unix. rewrite (wrap64_id _ Hu). split; [done|]. unfold UnixTime.
  rewrite Z.sub_add, (wrap64_id _ Hi). done.
Qed.

(** The token of an expiry is valid exactly until the second of the expiry begins. *)
Lemma issued_token a expiry now :
  in_range expiry -> validToken a now (issueToken a expiry) = Before now (expiry / Second * Second).
Proof.
  intros Hr. destruct (Unix_range expiry Hr) as [Hu Ht]. unfold validToken, issueToken.
  change ("." +:+ ?s) with (String "."%char s). rewrite Cut_app by apply FormatInt_no_dot. cbn [negb].
  rewrite bytes_of_bytes, b64_roundtrip, bool_decide_eq_true_2 by done. cbn [negb].
  by rewrite Atoi_FormatInt, Ht.
Qed.

(** ** Guarantees *)

(** C32: Signing in gives a session, of the configured length and no longer: the
    right credentials, and no others, are answered with a cookie; a request that
    carries its value passes the gate, on every path, until the whole second of
    the expiry.  From then on it is redirected to /login, by the header
    HX-Redirect when it comes from htmx, unless it is for the login page itself or
    an asset, which need no session.  The expiry is taken to be a date whose
    seconds fit in 63 bits. *)
Theorem login_session {R} a now r (next : request -> R) :
  in_range (Add now (au_ttl a)) ->
  match handleLoginSubmit (Some a) now r with
  | Redirect _ (Some ck) =>
      rq_form_ok r = true /\ default "" (rq_form r !! "username") = au_username a /\ default "" (rq_form r !! "password") = au_password a /\
      ck_HttpOnly ck = true /\ ck_Secure ck = au_secureCookie a /\
      forall later q, rq_session q = Some (ck_Value ck) ->
        let open := HasPrefix (rq_Path q) "/login" || HasPrefix (rq_Path q) "/assets/" in
        requireAuth (Some a) later next q
        = if open || (later <? (now + au_ttl a) / Second * Second) then inl (next q)
          else inr (if String.eqb (rq_HX q) "true" then HXRedirect "/login" else Redirect "/login" None)
  | Redirect _ None | HXRedirect _ => False
  | LoginPage status _ =>
      if rq_form_ok r then status = 401 /\
        (default "" (rq_form r !! "username") <> au_username a \/ default "" (rq_form r !! "password") <> au_password a)
      else status = 200
  end.
Proof.
  intros Hr. unfold handleLoginSubmit, checkCredentials. destruct (rq_form_ok r); [|done]. cbn [negb].
  destruct (String.eqb_spec (default "" (rq_form r !! "username")) (au_username a)) as [Hu|Hu]; [|by split; [|left]].
  destruct (String.eqb_spec (default "" (rq_form r !! "password")) (au_password a)) as [Hp|Hp]; [|by split; [|right]].
  cbn [andb negb ck_HttpOnly ck_Secure ck_Value]. repeat (split; [done|]). intros later q Hq. cbv zeta.
  unfold requireAuth, authenticated. rewrite Hq, (issued_token a _ later Hr). unfold Before, Add.
  destruct (_ || _) eqn:Eo; [done|]. cbn [orb].
  destruct (later <? (now + au_ttl a) / Second * Second); [done|]. by destruct (String.eqb (rq_HX q) "true").
Qed.

(** A token that carries the signature of its own expiry text, for the instant
    [t]. *)
Definition signed_until (a : auth) (token : string) (t : Time) : Prop :=
  exists exp sig unix, Cut token "."%char = (exp, sig, true) /\ b64_decode (bytes sig) = Some (sign a exp) /\
    Atoi exp = Some unix /\ t = UnixTime unix.

Lemma validToken_spec a now token :
  validToken a now token = true <-> exists t, signed_until a token t /\ now < t.
Proof.
  unfold validToken, signed_until. destruct (Cut token "."%char) as [[exp sig] ok]. split.
  - destruct ok; [|done]. cbn [negb]. destruct (b64_decode (bytes sig)) as [got|] eqn:Ed; [|done].
    case_bool_decide as Hs; [|done]. cbn [negb]. destruct (Atoi exp) as [u|] eqn:Ea; [|done].
    intros Hb. apply Z.ltb_lt in Hb. exists (UnixTime u). split; [|done].
    exists exp, sig, u. by rewrite Ed, Hs.
  - intros (t & (exp' & sig' & u & Hc & Hd & Ha & ->) & Ht). injection Hc as -> -> ->. cbn [negb].
    rewrite Hd, bool_decide_eq_true_2 by done. cbn [negb]. rewrite Ha. by apply Z.ltb_lt.
Qed.

(** The dashboard's gate.  With protection configured, a request for
    anything but the login page and the assets reaches the dashboard exactly
    when its session cookie carries the server's signature of an expiry that
    lies ahead; every other request is answered by a redirect to the login page,
    in the form its client understands, without running any handler. *)
Theorem dashboard_gate {R} a now (next : request -> R) r :
  HasPrefix (rq_Path r) "/login" = false -> HasPrefix (rq_Path r) "/assets/" = false ->
  (requireAuth (Some a) now next r = inl (next r) /\
     exists token t, rq_session r = Some token /\ signed_until a token t /\ now < t) \/
  (requireAuth (Some a) now next r
     = inr (if String.eqb (rq_HX r) "true" then HXRedirect "/login" else Redirect "/login" None) /\
     forall token t, rq_session r = Some token -> signed_until a token t -> t <= now).
Proof.
  intros Hl Ha. unfold requireAuth, authenticated. rewrite Hl, Ha. cbn [orb].
  destruct (rq_session r) as [token|]; [|right; split; [by case_match|done]].
  destruct (validToken a now token) eqn:Ev.
  - left. split; [done|]. apply validToken_spec in Ev as (t & Hs & Ht). by exists token, t.
  - right. split; [by case_match|]. intros token' t Heq Hs. injection Heq as <-.
    destruct (Z.le_gt_cases t now) as [|Hgt]; [done|]. exfalso.
    assert (Hv : validToken a now token = true) by (apply validToken_spec; by exists t). congruence.
Qed.

(** ** Examples *)

(** January 1, 2026. *)
Definition ex_now : Time := (1767225600 + unixToInternal) * Second + 5.
Definition ex_auth : auth :=
  {| au_username := "ops"; au_password := "hunter2"; au_secret := bytes "Jefe"; au_ttl := defaultSessionTTL;
     au_secureCookie := true |}.
Definition ex_login : request :=
  {| rq_Path := "/login"; rq_session := None; rq_HX := "";
     rq_form_ok := true; rq_form := {["username" := "ops"; "password" := "hunter2"]} |}.
Definition ex_cookie : cookie :=
  {| ck_Name := sessionCookieName; ck_Value := issueToken ex_auth (Add ex_now (au_ttl ex_auth)); ck_Path := "/";
     ck_Expires := Some (Add ex_now (au_ttl ex_auth)); ck_MaxAge := 0; ck_HttpOnly := true;
     ck_Secure := true; ck_SameSiteLax := true |}.
Definition ex_page (cookie : option string) : request :=
  {| rq_Path := "/egress"; rq_session := cookie; rq_HX := ""; rq_form_ok := true; rq_form := ∅ |}.

(** The session of that login: eleven hours later it is alive, and after twelve
    it is over. *)
Lemma login_session_witness :
  handleLoginSubmit (Some ex_auth) ex_now ex_login = Redirect "/" (Some ex_cookie) /\
  requireAuth (Some ex_auth) (ex_now + 11 * Hour) rq_Path (ex_page (Some (ck_Value ex_cookie))) = inl "/egress" /\
  requireAuth (Some ex_auth) (ex_now + 12 * Hour) rq_Path (ex_page (Some (ck_Value ex_cookie))) = inr (Redirect "/login" None).
Proof.
  assert (E : handleLoginSubmit (Some ex_auth) ex_now ex_login = Redirect "/" (Some ex_cookie)) by reflexivity.
  split; [exact E|].
  assert (Hr : in_range (Add ex_now (au_ttl ex_auth))) by (split; [discriminate|reflexivity]).
  pose proof (login_session ex_auth ex_now ex_login rq_Path Hr) as Hs. rewrite E in Hs.
  destruct Hs as (_ & _ & _ & _ & _ & Hs).
  split; [rewrite (Hs (ex_now + 11 * Hour) (ex_page (Some (ck_Value ex_cookie))) eq_refl)|
          rewrite (Hs (ex_now + 12 * Hour) (ex_page (Some (ck_Value ex_cookie))) eq_refl)]; vm_compute; reflexivity.
Defined.

Lemma dashboard_gate_witness :
  requireAuth (Some ex_auth) ex_now rq_Path (ex_page (Some "9999999999.AAAA")) = inr (Redirect "/login" None).
Proof.
  destruct (dashboard_gate ex_auth ex_now rq_Path (ex_page (Some "9999999999.AAAA")) eq_refl eq_refl)
    as [[_ (token & t & Ht & Hs & _)]|[H _]]; [|exact H].
  exfalso. injection Ht as <-. destruct Hs as (exp & sig & u & Hc & Hd & _). vm_compute in Hc.
  injection Hc as <- <-. vm_compute in Hd. discriminate.
Defined.
