(* ===== verification/Postgres.v ===== *)
(** [internal/store/postgres]: the store ports over PostgreSQL.

    The database is the tables of the migrations under
    [internal/store/postgres/migrations]; a statement is a function on them, and
    may fail for the database's own reasons (a lost connection, a text that is
    not UTF-8), which an argument says.  A transaction that fails leaves the
    tables as they were.  What the adapters
    hand to the database as a JSON document, and what the driver makes of a
    time, are parameters with the laws the adapters rely on. *)

From Stdlib Require Import QArith.
From stdpp Require Import sorting.
From S2P Require Import Prelude GoStrings GoConv Float64 GoTime Verdict Engine Settings Egress Store Memory.
Local Open Scope list_scope.
Local Open Scope Z_scope.

(** ** Documents and times *)

(** [json.Marshal] and [json.Unmarshal] through a JSONB column.  Not every value
    survives: a document cannot hold NaN, a NUL character or bytes that are not
    UTF-8.  [storable] are the values that do. *)
Class Codec (A J : Type) := {
  marshal : A -> option J;
  unmarshal : J -> option A;
  storable : A -> Prop;
  codec_law a : storable a -> exists j, marshal a = Some j /\ unmarshal j = Some a;
}.

(** The verdict a document stands for, [kept v] for the document of [v] when the
    numbers of [v] have their width, and the fields of the document that the
    statistics query selects; [None] is SQL's NULL, for an absent field. *)
Class VerdictDoc (J : Type) := {
  vd_codec :: Codec Verdict J;
  sized : Verdict -> Prop;
  kept : Verdict -> Verdict;
  doc_status : J -> option string;
  doc_sub_status : J -> option string;
  doc_provider : J -> option string;
  doc_probed : J -> option bool;
  kept_storable v : storable v -> sized v /\ kept v = v;
  kept_law v j : sized v -> marshal v = Some j -> unmarshal j = Some (kept v);
  doc_law v j : sized v -> marshal v = Some j ->
    doc_status j = Some (Status_String (vStatus (kept v))) /\ doc_sub_status j = Some (SubStatus_String (vSubStatus (kept v))) /\
    doc_provider j = (if String.eqb (Provider (kept v)) "" then None else Some (Provider (kept v))) /\
    doc_probed j = Some (SMTP_Probed (Checks_SMTP (vChecks (kept v))));
}.

(** A TIMESTAMPTZ keeps microseconds: the driver drops the rest. *)
Class PgTime := {
  pg_time : Time -> Time;
  pg_time_law t : pg_time t <= t < pg_time t + 1000;
}.

Definition JobStatus_String (s : JobStatus) : string :=
  match s with
  | JobQueued => "queued" | JobRunning => "running" | JobCompleted => "completed" | JobCanceled => "canceled"
  | JobStatus_other s => s
  end.
Definition JobStatus_of (s : string) : JobStatus :=
  if String.eqb s "queued" then JobQueued else if String.eqb s "running" then JobRunning
  else if String.eqb s "completed" then JobCompleted else if String.eqb s "canceled" then JobCanceled
  else JobStatus_other s.

(** An INTEGER column holds 32 bits; a statement that would store more fails. *)
Definition int4_ok (z : Z) : bool := (-2147483648 <=? z) && (z <=? 2147483647).

Inductive pg_error := NotFound | DBError | JSONError.

(** ** The result cache *)

Section Tables.
Context {J : Type} `{HD : VerdictDoc J} `{HT : PgTime}.

Record cache_row := { cr_verdict : J; cr_expires : option Time }.
Abbreviation cache_table := (gmap string cache_row).

(** The first statement of [Get]: what it found, or the expired row that it will
    delete. *)
Inductive get_answer := Found (v : Verdict) | Missing | Expired.

Definition pg_select (ok : bool) (now : Time) (key : string) (t : cache_table) : result pg_error get_answer :=
  if negb ok then Err DBError
  else match t !! key with
  | None => Ok Missing
  | Some row =>
      match cr_expires row with
      | Some e => if After now e then Ok Expired
                  else match unmarshal (cr_verdict row) with Some v => Ok (Found v) | None => Err JSONError end
      | None => match unmarshal (cr_verdict row) with Some v => Ok (Found v) | None => Err JSONError end
      end
  end.

(** The second statement, for an expired row; its error is ignored. *)
Definition pg_delete (ok : bool) (key : string) (t : cache_table) : cache_table := if ok then delete key t else t.

(** [ResultStore.Get], with nothing between its statements. *)
Definition pg_Get (ok ok2 : bool) (now : Time) (key : string) (t : cache_table)
    : result pg_error (option Verdict) * cache_table :=
  match pg_select ok now key t with
  | Err e => (Err e, t)
  | Ok (Found v) => (Ok (Some v), t)
  | Ok Missing => (Ok None, t)
  | Ok Expired => (Ok None, pg_delete ok2 key t)
  end.

(** [ResultStore.Put] *)
Definition pg_Put (ok : bool) (now : Time) (key : string) (v : Verdict) (ttl : Duration) (t : cache_table)
    : result pg_error unit * cache_table :=
  match marshal v with
  | None => (Err JSONError, t)
  | Some raw =>
      let expires := if ttl >? 0 then Some (pg_time (Add now ttl)) else None in
      if negb ok then (Err DBError, t) else (Ok tt, <[key := {| cr_verdict := raw; cr_expires := expires |}]> t)
  end.

(** ** Jobs *)

Record job_row := {
  jr_status : string; jr_total : Z; jr_done : Z; jr_created : Time; jr_completed : option Time;
}.
Record result_row := { rr_verdict : J; rr_label : string }.

(** The tables [jobs] and [job_results]; the primary keys are the maps' keys. *)
Record tables := { t_jobs : gmap string job_row; t_results : gmap (string * Z) result_row }.

Definition no_tables : tables := {| t_jobs := ∅; t_results := ∅ |}.

(** [tx]: the statements run on a copy that is kept when all of them succeed. *)
Definition transact (body : tables -> result pg_error tables) (t : tables) : result pg_error unit * tables :=
  match body t with Ok t' => (Ok tt, t') | Err e => (Err e, t) end.

(** [CreateJob]: an id that exists violates the primary key. *)
Definition pg_CreateJob (ok : bool) (job : Job) (t : tables) : result pg_error unit * tables :=
  let row := {| jr_status := JobStatus_String (job_Status job); jr_total := job_Total job; jr_done := job_Done job;
                jr_created := pg_time (job_CreatedAt job); jr_completed := pg_time <$> job_CompletedAt job |} in
  transact (fun t =>
    if negb ok || negb (int4_ok (job_Total job)) || negb (int4_ok (job_Done job)) then Err DBError
    else match t_jobs t !! job_ID job with
    | Some _ => Err DBError
    | None => Ok {| t_jobs := <[job_ID job := row]> (t_jobs t); t_results := t_results t |}
    end) t.

(** [scanJob] *)
Definition scanJob (id : string) (row : option job_row) : result pg_error Job :=
  match row with
  | None => Err NotFound
  | Some r => Ok {| job_ID := id; job_Status := JobStatus_of (jr_status r); job_Total := jr_total r;
                    job_Done := jr_done r; job_CreatedAt := jr_created r; job_CompletedAt := jr_completed r |}
  end.

(** [GetJob] *)
Definition pg_GetJob (ok : bool) (id : string) (t : tables) : result pg_error Job :=
  if negb ok then Err DBError else scanJob id (t_jobs t !! id).

Definition set_job (id : string) (r : job_row) (t : tables) : tables :=
  {| t_jobs := <[id := r]> (t_jobs t); t_results := t_results t |}.

(** [AppendResult]; [ok n] is whether the n-th statement succeeds: BEGIN, the
    three statements, COMMIT. *)
Definition pg_AppendResult (ok : nat -> bool) (now : Time) (id : string) (r : Result) (t : tables)
    : result pg_error unit * tables :=
  match marshal (res_Verdict r) with
  | None => (Err JSONError, t)
  | Some raw =>
      transact (fun t =>
        if negb (ok 0%nat) || negb (ok 1%nat) then Err DBError
        else match t_jobs t !! id with
        | None => Err NotFound
        | Some j =>
            let n := jr_done j + 1 in
            if negb (int4_ok n) then Err DBError else
            let j := {| jr_status := jr_status j; jr_total := jr_total j; jr_done := n;
                        jr_created := jr_created j; jr_completed := jr_completed j |} in
            let t := set_job id j t in
            match t_results t !! (id, n - 1) with
            | Some _ => Err DBError
            | None =>
                if negb (ok 2%nat) then Err DBError
                else
                  let row := {| rr_verdict := raw; rr_label := res_Label r |} in
                  let t := {| t_jobs := t_jobs t; t_results := <[(id, n - 1) := row]> (t_results t) |} in
                  let? t :=
                    (if negb (String.eqb (jr_status j) (JobStatus_String JobCanceled)) && (n >=? jr_total j) then
                       if negb (ok 3%nat) then Err DBError
                       else Ok (set_job id {| jr_status := JobStatus_String JobCompleted; jr_total := jr_total j;
                                              jr_done := n; jr_created := jr_created j;
                                              jr_completed := Some (pg_time now) |} t)
                     else Ok t) in
                  if negb (ok 4%nat) then Err DBError else Ok t
            end
        end) t
  end.

(** The rows of a job in the order of [idx]. *)
Definition job_indices (id : string) (t : tables) : list Z :=
  elements (set_map (D := gset Z) snd (filter (fun k : string * Z => k.1 = id) (dom (t_results t)))).
Definition job_rows (id : string) (t : tables) : list result_row :=
  omap (fun i => t_results t !! (id, i)) (merge_sort Z.le (job_indices id t)).

(** The loop of [Results] over the rows. *)
Definition scan_row (row : result_row) : option Result :=
  v ← unmarshal (rr_verdict row); Some {| res_Label := rr_label row; res_Verdict := v |}.

(** [Results]; a negative LIMIT is an error of the database, and [make] panics
    ([None]) above the capacity [max_cap] the run-time system can allocate. *)
Definition pg_Results (max_cap : Z) (ok ok2 : bool) (id : string) (cursor limit : Z) (t : tables)
    : option (result pg_error (list Result * Z)) :=
  match pg_GetJob ok id t with
  | Err e => Some (Err e)
  | Ok _ =>
  let cursor := if cursor <? 0 then 0 else cursor in
  let limit := if limit <=? 0 then 1000 else limit in
  if negb ok2 || (wrap64 (limit + 1) <? 0) then Some (Err DBError)
  else if limit >? max_cap then None
  else
    let rows := take (Z.to_nat (limit + 1)) (drop (Z.to_nat cursor) (job_rows id t)) in
    match mapM scan_row rows with
    | None => Some (Err JSONError)
    | Some items =>
        Some (Ok (if len items >? limit then (take (Z.to_nat limit) items, wrap64 (cursor + limit)) else (items, 0)))
    end
  end.

(** [SetStatus] *)
Definition pg_SetStatus (ok : bool) (now : Time) (id : string) (status : JobStatus) (t : tables)
    : result pg_error unit * tables :=
  if negb ok then (Err DBError, t)
  else match t_jobs t !! id with
  | None => (Err NotFound, t)
  | Some j =>
      let s := JobStatus_String status in
      let final := String.eqb s (JobStatus_String JobCompleted) || String.eqb s (JobStatus_String JobCanceled) in
      let completed := match jr_completed j with
                       | None => if final then Some (pg_time now) else None
                       | Some c => Some c
                       end in
      (Ok tt, set_job id {| jr_status := s; jr_total := jr_total j; jr_done := jr_done j;
                            jr_created := jr_created j; jr_completed := completed |} t)
  end.

(** [ListJobs]: ORDER BY created_at DESC; jobs created in the same microsecond
    come in one of the orders the database may choose. *)
Definition pg_ListJobs (max_cap : Z) (ok : bool) (limit : Z) (t : tables) : option (result pg_error (list Job)) :=
  let limit := if limit <=? 0 then 200 else limit in
  if negb ok then Some (Err DBError)
  else if limit >? max_cap then None
  else
    let jobs := omap (fun kr => match scanJob kr.1 (Some kr.2) with Ok j => Some j | Err _ => None end)
                     (map_to_list (t_jobs t)) in
    Some (Ok (take (Z.to_nat limit) (foldr insert_job [] jobs))).

(** *** Statistics *)

(** The columns the query groups by. *)
Definition group_key : Type := string * string * string * bool.
Definition key_of_row (row : result_row) : group_key :=
  let j := rr_verdict row in
  let provider := match doc_provider j with Some p => if String.eqb p "" then "unknown" else p | None => "unknown" end in
  (default "" (doc_status j), default "" (doc_sub_status j), provider, default false (doc_probed j)).

(** GROUP BY with COUNT. *)
Definition count_group (m : gmap group_key Z) (k : group_key) : gmap group_key Z := <[k := default 0 (m !! k) + 1]> m.
Definition pg_groups (rows : list result_row) : gmap group_key Z := fold_left count_group (key_of_row <$> rows) ∅.

(** [m[k] += n] *)
Definition addn (k : string) (n : Z) (m : gmap string Z) : gmap string Z := <[k := default 0 (m !! k) + n]> m.

(** The loop body of [Stats], for one group. *)
Definition stats_group (k : group_key) (n : Z) (s : JobStats) : JobStats :=
  let '(status, sub, provider, probed) := k in
  {| stats_Total := stats_Total s + n; ByStatus := addn status n (ByStatus s);
     BySubStatus := addn sub n (BySubStatus s); ByProvider := addn provider n (ByProvider s);
     stats_Probed := if probed then stats_Probed s + n else stats_Probed s;
     stats_NotProbed := if probed then stats_NotProbed s else stats_NotProbed s + n |}.

(** [Stats]; the groups arrive in an order that does not matter. *)
Definition pg_Stats (ok ok2 : bool) (id : string) (t : tables) : result pg_error JobStats :=
  let? _ := pg_GetJob ok id t in
  if negb ok2 then Err DBError else Ok (map_fold stats_group stats_zero (pg_groups (job_rows id t))).
End Tables.

(** ** Reputation and settings *)

Section Documents.
Context {J : Type} `{HE : Codec EgressState J} `{HS : Codec Settings J}.
Abbreviation egress_table := (gmap string J).

(** [LoadEgress]: the rows come in an order the database chooses. *)
Definition pg_LoadEgress (ok : bool) (rows : list J) : result pg_error (list EgressState) :=
  if negb ok then Err DBError
  else match mapM unmarshal rows with Some l => Ok l | None => Err JSONError end.

(** The loop of [SaveEgress]; [ok n] is whether the n-th upsert succeeds. *)
Fixpoint upsert_all (ok : nat -> bool) (n : nat) (states : list EgressState) (t : egress_table)
    : result pg_error egress_table :=
  match states with
  | [] => Ok t
  | st :: states =>
      match marshal st with
      | None => Err JSONError
      | Some raw => if negb (ok n) then Err DBError else upsert_all ok (S n) states (<[es_ID st := raw]> t)
      end
  end.

(** [SaveEgress], in one transaction; [begin] and [commit] are whether it begins
    and commits. *)
Definition pg_SaveEgress (begin commit : bool) (ok : nat -> bool) (states : list EgressState) (t : egress_table)
    : result pg_error unit * egress_table :=
  if len states =? 0 then (Ok tt, t)
  else if negb begin then (Err DBError, t)
  else match upsert_all ok 0 states t with
  | Err e => (Err e, t)
  | Ok t' => if negb commit then (Err DBError, t) else (Ok tt, t')
  end.

(** [LoadSettings] and [SaveSettings]: the one row of the table. *)
Definition pg_LoadSettings (ok : bool) (row : option J) : result pg_error (option Settings) :=
  if negb ok then Err DBError
  else match row with
  | None => Ok None
  | Some raw => match unmarshal raw with Some s => Ok (Some s) | None => Err JSONError end
  end.
Definition pg_SaveSettings (ok : bool) (s : Settings) (row : option J) : result pg_error unit * option J :=
  match marshal s with
  | None => (Err JSONError, row)
  | Some raw => if negb ok then (Err DBError, row) else (Ok tt, Some raw)
  end.
End Documents.

(** ** Migrations ([db.go]) *)

Inductive migrate_error := BadName (name : string) | CheckFailed (version : Z) | ApplyFailed (name : string).

(** [migrationVersion] *)
Definition migrationVersion (name : string) : option Z :=
  let '(prefix, _, ok) := Cut name "_"%char in
  if negb ok then None else Atoi prefix.

Fixpoint insert_name (s : string) (l : list string) : list string :=
  match l with
  | [] => [s]
  | x :: l' => if String.ltb x s then x :: insert_name s l' else s :: l
  end.

(** The files of the directory that [Migrate] runs, in the order of their names. *)
Definition migration_files (entries : list string) : list string :=
  foldr insert_name [] (List.filter (fun n => HasSuffix n ".sql") entries).

(** What has been done to the database: the versions recorded in
    [schema_migrations] and the scripts that were run, in order. *)
Record schema := { sc_applied : gset Z; sc_run : list string }.

(** [applyMigration] runs the script and records its version in one
    transaction; [ok n] is whether its n-th statement succeeds: BEGIN, the script,
    the INSERT, COMMIT.  [None] is an error, after which nothing has changed. *)
Definition applyMigration (ok : nat -> bool) (version : Z) (name : string) (sc : schema) : option schema :=
  if ok 0%nat && ok 1%nat && ok 2%nat && ok 3%nat
  then Some {| sc_applied := {[ version ]} ∪ sc_applied sc; sc_run := sc_run sc ++ [name] |}
  else None.

(** The loop of [Migrate]; [check] and [apply] say whether the query of a version
    and the statements that apply it succeed. *)
Fixpoint migrate_loop (check : Z -> bool) (apply : Z -> nat -> bool) (names : list string) (sc : schema) : option migrate_error * schema :=
  match names with
  | [] => (None, sc)
  | name :: names =>
      match migrationVersion name with
      | None => (Some (BadName name), sc)
      | Some v =>
          if negb (check v) then (Some (CheckFailed v), sc)
          else if bool_decide (v ∈ sc_applied sc) then migrate_loop check apply names sc
          else match applyMigration (apply v) v name sc with
          | None => (Some (ApplyFailed name), sc)
          | Some sc => migrate_loop check apply names sc
          end
      end
  end.

(** [Migrate], once the table of versions exists. *)
Definition Migrate (check : Z -> bool) (apply : Z -> nat -> bool) (entries : list string) (sc : schema) : option migrate_error * schema :=
  migrate_loop check apply (migration_files entries) sc.
