(* ===== verification/PostgresProps.v ===== *)
(** The PostgreSQL stores keep the promises of the in-memory ones.

    A refinement relation ties the tables to the in-memory job store: every job
    has its row, times cut to the microsecond, and the results of a job are the
    rows 0, 1, 2, ... of its id.  Every operation preserves it, so all a client
    sees through the port agrees. *)

From Stdlib Require Import QArith.
From stdpp Require Import sorting.
From S2P Require Import Prelude GoStrings GoConv Float64 GoTime Verdict Engine Settings Egress Store Memory Postgres.
Local Open Scope list_scope.
Local Open Scope Z_scope.

Section Props.
Context {J : Type} `{HD : VerdictDoc J} `{HT : PgTime}.

(** ** The relation *)

Definition job_us (j : Job) : Job :=
  {| job_ID := job_ID j; job_Status := job_Status j; job_Total := job_Total j; job_Done := job_Done j;
     job_CreatedAt := pg_time (job_CreatedAt j); job_CompletedAt := pg_time <$> job_CompletedAt j |}.

Definition row_of (j : Job) : job_row :=
  {| jr_status := JobStatus_String (job_Status j); jr_total := job_Total j; jr_done := job_Done j;
     jr_created := pg_time (job_CreatedAt j); jr_completed := pg_time <$> job_CompletedAt j |}.

(** A status that is one of the four, or a string that is none of them. *)
Definition known_status (s : JobStatus) : Prop := JobStatus_of (JobStatus_String s) = s.

(** A result as the database keeps it. *)
Definition kept_result (r : Result) : Result := {| res_Label := res_Label r; res_Verdict := kept (res_Verdict r) |}.

Definition row_for (r : Result) (row : result_row (J := J)) : Prop :=
  exists v, sized v /\ marshal v = Some (rr_verdict row) /\ r = {| res_Label := rr_label row; res_Verdict := kept v |}.

Definition mem_result (m : job_store) (k : string * Z) : option Result :=
  if k.2 <? 0 then None else e ← m !! k.1; je_results e !! Z.to_nat k.2.

Record refines (t : tables (J := J)) (m : job_store) : Prop := {
  rf_jobs : t_jobs t = (fun e => row_of (je_job e)) <$> m;
  rf_entries : map_Forall (fun id e => job_ID (je_job e) = id /\ job_Done (je_job e) = len (je_results e) /\
                                       known_status (job_Status (je_job e))) m;
  rf_results : forall k, option_Forall2 row_for (mem_result m k) (t_results t !! k);
}.

Lemma mem_result_insert m id e k :
  mem_result (<[id := e]> m) k
  = if decide (k.1 = id) then (if k.2 <? 0 then None else je_results e !! Z.to_nat k.2) else mem_result m k.
Proof.
  unfold mem_result. destruct k as [i z]; simpl. destruct (z <? 0); [by case_decide|]. rewrite lookup_insert.
  case_decide as H1; case_decide as H2; congruence || done.
Qed.

Lemma mem_result_none m id i : m !! id = None -> mem_result m (id, i) = None.
Proof. intros H. unfold mem_result. simpl. rewrite H. by case_match. Qed.

(** ** Operations *)

Inductive job_op :=
| JCreate (job : Job)
| JAppend (now : Time) (id : string) (r : Result)
| JStatus (now : Time) (id : string) (status : JobStatus).

Definition mem_op (o : job_op) (m : job_store) : result job_error unit * job_store :=
  match o with
  | JCreate job => (Ok tt, CreateJob job m)
  | JAppend now id r => match AppendResult now id r m with Ok m' => (Ok tt, m') | Err e => (Err e, m) end
  | JStatus now id s => match SetStatus now id s m with Ok m' => (Ok tt, m') | Err e => (Err e, m) end
  end.

(** The same calls on a database that does not fail. *)
Definition pg_op (o : job_op) (t : tables (J := J)) : result pg_error unit * tables :=
  match o with
  | JCreate job => pg_CreateJob true job t
  | JAppend now id r => pg_AppendResult (fun _ => true) now id r t
  | JStatus now id s => pg_SetStatus true now id s t
  end.

(** The calls of the runner: a job is created once and empty, with a status of
    the port; results can be stored as documents; counts fit their columns. *)
Definition op_ok (o : job_op) (m : job_store) : Prop :=
  match o with
  | JCreate job => m !! job_ID job = None /\ job_Done job = 0 /\ int4_ok (job_Total job) = true /\ known_status (job_Status job)
  | JAppend _ id r => storable (res_Verdict r) /\ forall e, m !! id = Some e -> len (je_results e) < 2147483647
  | JStatus _ _ s => known_status s
  end.

Definition same_answer (a : result job_error unit) (b : result pg_error unit) : Prop :=
  match a, b with Ok _, Ok _ => True | Err ErrJobNotFound, Err NotFound => True | _, _ => False end.

Lemma create_refines t m job :
  refines t m -> op_ok (JCreate job) m ->
  refines (pg_op (JCreate job) t).2 (mem_op (JCreate job) m).2 /\
  same_answer (mem_op (JCreate job) m).1 (pg_op (JCreate job) t).1.
Proof.
  intros [Rj Re Rr] (Hn & Hd & Hi & Hs). simpl. unfold pg_CreateJob, transact. rewrite Hi, (f_equal int4_ok Hd). cbn [negb orb]. change (int4_ok 0) with true. cbn [negb].
  rewrite Rj, lookup_fmap, Hn. simpl. split; [|done]. constructor; simpl.
  - unfold CreateJob. by rewrite fmap_insert.
  - unfold CreateJob. apply map_Forall_insert_2; [|done]. simpl. by rewrite Hd.
  - intros k. unfold CreateJob. rewrite mem_result_insert. case_decide as Hk; [|done].
    specialize (Rr k). destruct k as [i z]. simpl in *. subst i. rewrite (mem_result_none m _ _ Hn) in Rr.
    inversion Rr. rewrite lookup_nil. case_match; constructor.
Qed.

Lemma final_status s : known_status s ->
  String.eqb (JobStatus_String s) "completed" || String.eqb (JobStatus_String s) "canceled"
  = bool_decide (s = JobCompleted) || bool_decide (s = JobCanceled).
Proof.
  destruct s as [| | | |s]; [done..|]. unfold known_status, JobStatus_of. simpl.
  destruct (String.eqb s "completed"), (String.eqb s "canceled"); repeat case_match; done.
Qed.

Lemma status_refines t m now id s :
  refines t m -> op_ok (JStatus now id s) m ->
  refines (pg_op (JStatus now id s) t).2 (mem_op (JStatus now id s) m).2 /\
  same_answer (mem_op (JStatus now id s) m).1 (pg_op (JStatus now id s) t).1.
Proof.
  intros [Rj Re Rr] Hs. simpl in *. unfold pg_SetStatus, SetStatus. cbn [negb]. rewrite Rj, lookup_fmap.
  destruct (m !! id) as [e|] eqn:E; simpl; [|by split]. split; [|done].
  destruct (Re id e E) as (Hid & Hd & Hk). constructor; simpl.
  - rewrite fmap_insert. f_equal; [|exact Rj]. unfold row_of, status_entry. simpl. f_equal.
    assert (Hfin : String.eqb (JobStatus_String s) "completed" || String.eqb (JobStatus_String s) "canceled"
                   = bool_decide (s = JobCompleted) || bool_decide (s = JobCanceled)) by (by apply final_status).
    rewrite <- Hfin. destruct (job_CompletedAt (je_job e)), (_ || _); done.
  - apply map_Forall_insert_2; [|done]. by simpl.
  - intros k. rewrite mem_result_insert. case_decide as Hi; [|done]. specialize (Rr k).
    unfold mem_result in Rr. rewrite Hi, E in Rr. simpl in Rr. done.
Qed.

(** One more row for one more result. *)
Lemma append_rows t m now id e r raw :
  refines t m -> m !! id = Some e -> sized (res_Verdict r) -> marshal (res_Verdict r) = Some raw ->
  forall k, option_Forall2 row_for (mem_result (<[id := append_entry now (kept_result r) e]> m) k)
    (<[(id, len (je_results e)) := {| rr_verdict := raw; rr_label := res_Label r |}]> (t_results t) !! k).
Proof.
  intros [_ _ Rr] E Hs Hm.
  intros [i z]. rewrite mem_result_insert. simpl. rewrite lookup_insert. specialize (Rr (i, z)).
  unfold mem_result in Rr. simpl in Rr. destruct (decide (i = id)) as [->|Hi].
  - rewrite E in Rr. simpl in Rr. destruct (Z.ltb_spec z 0) as [Hz|Hz].
    + rewrite decide_False; [exact Rr|]. intros [= <-]. pose proof (len_nonneg (je_results e)). lia.
    + destruct (decide ((id, len (je_results e)) = (id, z))) as [[= <-]|Hne].
      * unfold len. rewrite Nat2Z.id, lookup_app_r, Nat.sub_diag by lia. constructor. by exists (res_Verdict r).
      * destruct (Z.lt_ge_cases z (len (je_results e))) as [Hlt|Hge].
        -- rewrite lookup_app_l by (unfold len in *; lia). exact Rr.
        -- rewrite (lookup_ge_None_2 (je_results e ++ [kept_result r])); [|rewrite length_app; simpl; unfold len in *].
           ++ rewrite lookup_ge_None_2 in Rr by (unfold len in *; lia). exact Rr.
           ++ assert (z <> Z.of_nat (length (je_results e))) by congruence. lia.
  - rewrite decide_False by congruence. exact Rr.
Qed.

Lemma canceled_status s : known_status s -> String.eqb (JobStatus_String s) "canceled" = bool_decide (s = JobCanceled).
Proof.
  destruct s as [| | | |s]; [done..|]. unfold known_status, JobStatus_of. simpl.
  destruct (String.eqb s "canceled"); repeat case_match; done.
Qed.

(** A result whose verdict has a document is appended as the database keeps it. *)
Lemma append_kept t m now id r raw :
  refines t m -> sized (res_Verdict r) -> marshal (res_Verdict r) = Some raw ->
  (forall e, m !! id = Some e -> len (je_results e) < 2147483647) ->
  refines (pg_op (JAppend now id r) t).2 (mem_op (JAppend now id (kept_result r)) m).2 /\
  same_answer (mem_op (JAppend now id (kept_result r)) m).1 (pg_op (JAppend now id r) t).1.
Proof.
  intros R Hs Hm Hmax. pose proof R as [Rj Re Rr]. simpl.
  unfold pg_AppendResult, AppendResult, transact. rewrite Hm. cbn [negb orb]. rewrite Rj, lookup_fmap.
  destruct (m !! id) as [e|] eqn:E; simpl; [|by split]. destruct (Re id e E) as (Hid & Hd & Hk).
  specialize (Hmax e eq_refl). pose proof (len_nonneg (je_results e)) as Hpos.
  assert (H4 : int4_ok (job_Done (je_job e) + 1) = true) by (unfold int4_ok; lia). rewrite H4. cbn [negb].
  replace (job_Done (je_job e) + 1 - 1) with (len (je_results e)) by lia.
  assert (Hnone : t_results t !! (id, len (je_results e)) = None).
  { specialize (Rr (id, len (je_results e))). unfold mem_result in Rr. simpl in Rr. rewrite E in Rr. simpl in Rr.
    rewrite (proj2 (Z.ltb_ge _ _)) in Rr by apply len_nonneg. unfold len in *. rewrite Nat2Z.id in Rr.
    rewrite lookup_ge_None_2 in Rr by lia. by inversion Rr. }
  rewrite Hnone. cbn [negb].
  rewrite (canceled_status _ Hk : String.eqb _ "canceled" = _). set (fin := negb (bool_decide (job_Status (je_job e) = JobCanceled)) && _).
  pose proof (append_rows t m now id e r raw R E Hs Hm) as Hres.
  destruct fin eqn:Ef; simpl; (split; [|done]); constructor; simpl.
  - unfold set_job. simpl. rewrite insert_insert_eq, fmap_insert, Rj. f_equal. unfold row_of, append_entry.
    fold fin. by rewrite Ef.
  - apply map_Forall_insert_2; [|done]. unfold append_entry. fold fin. rewrite Ef. simpl. rewrite len_app.
    split; [done|]. split; [by rewrite Hd|done].
  - exact Hres.
  - unfold set_job. simpl. rewrite fmap_insert, Rj. f_equal. unfold row_of, append_entry.
    fold fin. by rewrite Ef.
  - apply map_Forall_insert_2; [|done]. unfold append_entry. fold fin. rewrite Ef. simpl. rewrite len_app.
    split; [done|]. split; [by rewrite Hd|done].
  - exact Hres.
Qed.

Lemma append_refines t m now id r :
  refines t m -> op_ok (JAppend now id r) m ->
  refines (pg_op (JAppend now id r) t).2 (mem_op (JAppend now id r) m).2 /\
  same_answer (mem_op (JAppend now id r) m).1 (pg_op (JAppend now id r) t).1.
Proof.
  intros R [Hs Hmax]. destruct (codec_law _ Hs) as (raw & Hm & _). destruct (kept_storable _ Hs) as [Hz Hk].
  assert (kept_result r = r) as E by (unfold kept_result; rewrite Hk; by destruct r).
  pose proof (append_kept t m now id r raw R Hz Hm Hmax) as H. by rewrite E in H.
Qed.

Lemma op_refines t m o :
  refines t m -> op_ok o m -> refines (pg_op o t).2 (mem_op o m).2 /\ same_answer (mem_op o m).1 (pg_op o t).1.
Proof. destruct o; [apply create_refines|apply append_refines|apply status_refines]. Qed.

(** ** The rows of a job *)

Lemma sorted_seq n k : Sorted Z.le (Z.of_nat <$> seq k n).
Proof.
  revert k. induction n as [|n IH]; intros k; simpl; [constructor|]. constructor; [apply IH|].
  destruct n; simpl; constructor. lia.
Qed.

Lemma job_indices_seq t m id e :
  refines t m -> m !! id = Some e ->
  merge_sort Z.le (job_indices id t) = Z.of_nat <$> seq 0 (length (je_results e)).
Proof.
  intros R E. apply (Sorted_unique Z.le); [apply Sorted_merge_sort; intros x y; lia|apply sorted_seq|].
  rewrite merge_sort_Permutation. apply NoDup_Permutation; [apply NoDup_elements| |].
  { apply (NoDup_fmap_2 Z.of_nat), NoDup_seq. }
  intros z. unfold job_indices. rewrite elem_of_elements, elem_of_map, list_elem_of_fmap.
  pose proof (rf_results t m R) as Rr. split.
  - intros ([i z'] & -> & Hk). apply elem_of_filter in Hk as [Hi Hk]. simpl in Hi. subst i.
    apply elem_of_dom in Hk as [row Hrow]. specialize (Rr (id, z')). rewrite Hrow in Rr.
    unfold mem_result in Rr. simpl in *. rewrite E in Rr. destruct (Z.ltb_spec z' 0); inversion Rr as [? ? Hp Hl|].
    simpl in Hl. exists (Z.to_nat z'). rewrite Z2Nat.id by done. split; [done|]. apply elem_of_seq.
    symmetry in Hl. apply lookup_lt_Some in Hl. lia.
  - intros (n & -> & Hn%elem_of_seq). exists (id, Z.of_nat n). split; [done|]. apply elem_of_filter. split; [done|].
    specialize (Rr (id, Z.of_nat n)). unfold mem_result in Rr. simpl in Rr. rewrite E in Rr. simpl in Rr.
    rewrite (proj2 (Z.ltb_ge _ _)), Nat2Z.id in Rr by lia.
    destruct (lookup_lt_is_Some_2 (je_results e) n) as [x Hx]; [lia|]. rewrite Hx in Rr. inversion Rr.
    apply elem_of_dom. by eexists.
Qed.

Lemma omap_map {A B C} (f : B -> option C) (g : A -> B) (l : list A) : omap f (map g l) = omap (fun x => f (g x)) l.
Proof. induction l as [|a l IH]; [done|]. cbn. by rewrite IH. Qed.

Lemma omap_rows l : forall (f : nat -> option (result_row (J := J))),
  (forall i, option_Forall2 row_for (l !! i) (f i)) -> Forall2 row_for l (omap f (seq 0 (length l))).
Proof.
  induction l as [|r l IH]; intros f Hf; simpl; [constructor|]. pose proof (Hf 0%nat) as H0. simpl in H0.
  inversion H0 as [? row Hp Hl Hrow|]. constructor; [done|]. rewrite <- seq_shift, omap_map.
  apply IH. intros i. apply (Hf (S i)).
Qed.

Lemma job_rows_results t m id e :
  refines t m -> m !! id = Some e -> Forall2 row_for (je_results e) (job_rows id t).
Proof.
  intros R E. unfold job_rows. rewrite (job_indices_seq t m id e R E).
  change (Z.of_nat <$> seq 0 (length (je_results e))) with (map Z.of_nat (seq 0 (length (je_results e)))).
  rewrite omap_map. apply omap_rows. intros i. pose proof (rf_results t m R (id, Z.of_nat i)) as Rr. unfold mem_result in Rr.
  simpl in Rr. rewrite E in Rr. simpl in Rr. by rewrite (proj2 (Z.ltb_ge _ _)), Nat2Z.id in Rr by lia.
Qed.

Lemma scan_rows rs rows : Forall2 row_for rs rows -> mapM scan_row rows = Some rs.
Proof.
  induction 1 as [|r row rs rows (v & Hs & Hm & ->) _ IH]; [done|].
  assert (Hr : scan_row row = Some {| res_Label := rr_label row; res_Verdict := kept v |})
    by (unfold scan_row; by rewrite (kept_law v _ Hs Hm)).
  cbn [mapM]. rewrite Hr. cbn [mbind option_bind]. by rewrite IH.
Qed.

(** ** Statistics *)

Lemma addn_comm k n k' n' m : addn k n (addn k' n' m) = addn k' n' (addn k n m).
Proof.
  unfold addn. apply map_eq. intros i. rewrite !lookup_insert. repeat case_decide; subst; simpl; try done; f_equal; lia.
Qed.

Lemma addn_add k n n' m : addn k n (addn k n' m) = addn k (n' + n) m.
Proof. unfold addn. rewrite lookup_insert_eq, insert_insert_eq. simpl. f_equal. lia. Qed.

Lemma stats_group_comm k n k' n' s : stats_group k n (stats_group k' n' s) = stats_group k' n' (stats_group k n s).
Proof.
  destruct k as [[[a b] c] p], k' as [[[a' b'] c'] p']. simpl. f_equal; try apply addn_comm; try lia;
    destruct p, p'; lia.
Qed.

Lemma stats_group_add k n n' s : stats_group k n (stats_group k n' s) = stats_group k (n' + n) s.
Proof. destruct k as [[[a b] c] p]. simpl. f_equal; try apply addn_add; try lia; destruct p; lia. Qed.

(** Counting the groups and adding the counts is adding the rows one by one. *)
Lemma groups_fold ks s :
  map_fold stats_group s (fold_left count_group ks ∅) = fold_left (fun s k => stats_group k 1 s) ks s.
Proof.
  induction ks as [|k ks IH] using rev_ind; [apply map_fold_empty|]. rewrite !fold_left_app. simpl. rewrite <- IH.
  set (g := fold_left count_group ks ∅). unfold count_group.
  assert (Hins : forall n g', g' !! k = None -> map_fold stats_group s (<[k := n]> g') = stats_group k n (map_fold stats_group s g')).
  { intros n g' Hg'. apply map_fold_insert_L; [|done]. intros. apply stats_group_comm. }
  destruct (g !! k) as [n|] eqn:Eg; simpl; [|by rewrite Hins].
  assert (Hg : g = <[k := n]> (delete k g)) by (rewrite insert_delete_eq; symmetry; by apply insert_id).
  assert (Hd : delete k g !! k = None) by apply lookup_delete_eq. revert Hg Hd. generalize (delete k g).
  intros g0 -> Hd. by rewrite insert_insert_eq, !Hins, stats_group_add.
Qed.

Definition verdict_key (v : Verdict) : group_key :=
  (Status_String (vStatus v), SubStatus_String (vSubStatus v),
   if String.eqb (Provider v) "" then "unknown" else Provider v, SMTP_Probed (Checks_SMTP (vChecks v))).

Lemma row_key r row : row_for r row -> key_of_row row = verdict_key (res_Verdict r).
Proof.
  intros (v & Hs & Hm & ->). destruct (doc_law _ _ Hs Hm) as (H1 & H2 & H3 & H4).
  unfold key_of_row, verdict_key. rewrite H1, H2, H3, H4. cbn [default from_option res_Verdict].
  destruct (String.eqb (Provider (kept v)) "") eqn:E; [done|]. by rewrite E.
Qed.

Lemma stats_rows rs rows :
  Forall2 row_for rs rows -> map_fold stats_group stats_zero (pg_groups rows) = fold_left stats_add rs stats_zero.
Proof.
  intros HF. unfold pg_groups. rewrite groups_fold. generalize stats_zero.
  induction HF as [|r row rs rows Hr _ IH]; intros s; [done|]. cbn [fmap list_fmap fold_left].
  rewrite (row_key r row Hr). apply IH.
Qed.

(** ** What the ports show *)

Lemma results_refine max_cap t m id e cursor limit :
  refines t m -> m !! id = Some e -> 0 < limit <= max_cap -> len (je_results e) + limit < max_int64 ->
  exists p, page (je_results e) cursor limit = Some p /\ pg_Results max_cap true true id cursor limit t = Some (Ok p).
Proof.
  intros R E Hl Hmax. pose proof (job_rows_results t m id e R E) as HF.
  assert (Hjob : exists j, pg_GetJob true id t = Ok j).
  { unfold pg_GetJob. cbn [negb]. rewrite (rf_jobs t m R), lookup_fmap, E. by eexists. }
  destruct Hjob as [j Hj]. unfold pg_Results. rewrite Hj, (proj2 (Z.leb_gt _ _)) by lia.
  rewrite (wrap64_id (limit + 1)) by (unfold int64_ok, min_int64, max_int64, len in *; rewrite !(proj2 (Z.leb_le _ _)) by lia; done).
  rewrite (proj2 (Z.ltb_ge (limit + 1) 0)), (Z.gtb_ltb limit), (proj2 (Z.ltb_ge max_cap limit)) by lia. cbn [negb orb].
  set (c := if cursor <? 0 then 0 else cursor). assert (Hc : 0 <= c) by (unfold c; destruct (Z.ltb_spec cursor 0); lia).
  assert (Hscan : mapM scan_row (take (Z.to_nat (limit + 1)) (drop (Z.to_nat c) (job_rows id t)))
                  = Some (take (Z.to_nat (limit + 1)) (drop (Z.to_nat c) (je_results e)))).
  { apply scan_rows. by apply Forall2_take, Forall2_drop. }
  assert (Hpage : page (je_results e) cursor limit = page (je_results e) c limit).
  { unfold page, c. destruct (cursor <? 0) eqn:Ec; [done|]. by rewrite Ec. }
  rewrite Hscan, Hpage.
  assert (Hlen : len (take (Z.to_nat (limit + 1)) (drop (Z.to_nat c) (je_results e)))
                 = Z.max 0 (Z.min (limit + 1) (len (je_results e) - c)))
    by (unfold len; rewrite length_take, length_drop; lia).
  rewrite Hlen, Z.gtb_ltb. destruct (Z.le_gt_cases (len (je_results e)) c) as [Hge|Hlt].
  { exists ([], 0). split.
    - unfold page. rewrite (proj2 (Z.ltb_ge c 0)), Z.geb_leb, (proj2 (Z.leb_le _ _)) by lia. done.
    - rewrite (proj2 (Z.ltb_ge _ _)) by lia. by rewrite drop_ge, take_nil by (unfold len in *; lia). }
  eexists. split; [apply page_at; lia|]. do 2 f_equal.
  destruct (Z.ltb_spec (c + limit) (len (je_results e))) as [Hmore|Hend].
  - rewrite (proj2 (Z.ltb_lt _ _)) by lia. rewrite take_take, Nat.min_l by lia.
    by rewrite wrap64_id by (unfold int64_ok, min_int64, max_int64, len in *; rewrite !(proj2 (Z.leb_le _ _)) by lia; done).
  - rewrite (proj2 (Z.ltb_ge _ _)) by lia. by rewrite !take_ge by (rewrite length_drop; unfold len in *; lia).
Qed.

(** Runs of calls; a call that fails leaves its store as it was. *)
Definition mem_run (ops : list job_op) (m : job_store) : job_store := fold_left (fun m o => (mem_op o m).2) ops m.
Definition pg_run (ops : list job_op) (t : tables (J := J)) : tables := fold_left (fun t o => (pg_op o t).2) ops t.
Fixpoint ops_ok (ops : list job_op) (m : job_store) : Prop :=
  match ops with [] => True | o :: ops => op_ok o m /\ ops_ok ops (mem_op o m).2 end.

Lemma run_refines ops : forall t m,
  refines t m -> ops_ok ops m -> refines (pg_run ops t) (mem_run ops m).
Proof.
  induction ops as [|o ops IH]; intros t m R Hok; [done|]. destruct Hok as [Ho Hok].
  apply IH; [|done]. by apply op_refines.
Qed.

Lemma refines_empty : refines no_tables ∅.
Proof.
  constructor; simpl; [by rewrite fmap_empty|apply map_Forall_empty|].
  intros k. unfold mem_result. rewrite !lookup_empty. case_match; constructor.
Qed.

Definition answer_us (r : result job_error Job) : result pg_error Job :=
  match r with Ok j => Ok (job_us j) | Err ErrJobNotFound => Err NotFound end.

(** What a read of the tables shows. *)
Lemma get_refines t m id : refines t m -> pg_GetJob true id t = answer_us (GetJob id m).
Proof.
  intros R. unfold pg_GetJob, GetJob. cbn [negb]. rewrite (rf_jobs t m R), lookup_fmap. destruct (m !! id) as [e|] eqn:E; [|done].
  destruct (rf_entries t m R id e E) as (Hid & _ & Hk). simpl. unfold job_us. by rewrite Hk, Hid.
Qed.

(** C8: The PostgreSQL job store is the in-memory one, to the microsecond, on the
    calls the server makes while the database is up: every statement succeeds,
    each id is created once, with no results and a declared status, with counts
    that fit the columns, and the verdicts appended are documents the column gives
    back as they were (valid UTF-8, without NUL).  After the same such calls on
    both, [GetJob] answers the same job with its times cut to the microsecond,
    every page of [Results] for a positive limit up to the cap is the same, and so
    are the statistics, which the database groups and counts while memory counts
    row by row; an unknown id is unknown to both. *)
Theorem postgres_refines_memory max_cap ops id :
  ops_ok ops ∅ ->
  let m := mem_run ops ∅ in
  let t := pg_run ops no_tables in
  pg_GetJob true id t = answer_us (GetJob id m) /\
  match Stats id m with
  | Err ErrJobNotFound => pg_Stats true true id t = Err NotFound
  | Ok stats => pg_Stats true true id t = Ok stats
  end /\
  forall e cursor limit, m !! id = Some e -> 0 < limit <= max_cap -> len (je_results e) + limit < max_int64 ->
    exists p, Results id cursor limit m = Some (Ok p) /\ pg_Results max_cap true true id cursor limit t = Some (Ok p).
Proof.
  intros Hok. cbv zeta. pose proof (run_refines ops _ _ refines_empty Hok) as R.
  set (m := mem_run ops ∅) in *. set (t := pg_run ops no_tables) in *.
  pose proof (get_refines t m id R) as HG.
  split; [done|]. split.
  - unfold Stats, pg_Stats. rewrite HG. unfold GetJob. destruct (m !! id) as [e|] eqn:E; [|done]. cbn [answer_us negb].
    f_equal. apply stats_rows. by apply (job_rows_results t m).
  - intros e cursor limit E Hl Hmax. destruct (results_refine max_cap t m id e cursor limit R E Hl Hmax) as (p & Hp & Hr).
    exists p. split; [|done]. unfold Results. rewrite E. by rewrite Hp.
Qed.

(** ** Failures *)

(** A failed call changes nothing: when a call on the jobs or the results
    reports an error, for whatever reason and at whatever statement of its
    transaction, the tables are exactly what they were. *)
Theorem postgres_all_or_nothing ok now id r job status t :
  (forall e, (pg_AppendResult ok now id r t).1 = Err e -> (pg_AppendResult ok now id r t).2 = t) /\
  (forall e, (pg_CreateJob (ok 0%nat) job t).1 = Err e -> (pg_CreateJob (ok 0%nat) job t).2 = t) /\
  (forall e, (pg_SetStatus (ok 0%nat) now id status t).1 = Err e -> (pg_SetStatus (ok 0%nat) now id status t).2 = t).
Proof.
  split; [|split].
  - intros e. unfold pg_AppendResult, transact. destruct (marshal _); [|done]. by case_match.
  - intros e. unfold pg_CreateJob, transact. by case_match.
  - intros e. unfold pg_SetStatus. destruct (negb _); [done|]. by destruct (t_jobs t !! id).
Qed.

(** ** The cache *)

(** What is in the cache is shown until its microsecond, and a call that fails
    shows nothing wrong. *)
Definition pg_alive (now : Time) (ttl : Duration) (t : Time) : bool := (ttl <=? 0) || (t <=? pg_time (now + ttl)).

(** The PostgreSQL cache never shows a verdict for longer than its
    time-to-live: after a [Put] that succeeded, a [Get] that succeeds returns that
    verdict until the microsecond of its expiry and nothing afterwards, and the
    expiry is less than a microsecond early. *)
Theorem postgres_cache_put_get ok ok2 now k v ttl t later :
  storable v ->
  let '(a, t') := pg_Put true now k v ttl t in
  a = Ok tt /\
  (forall o, (pg_Get ok ok2 later k t').1 = Ok o -> o = if pg_alive now ttl later then Some v else None) /\
  (alive now ttl (later + 1000) = true -> pg_alive now ttl later = true) /\
  (pg_alive now ttl later = true -> alive now ttl later = true).
Proof.
  intros Hs. destruct (codec_law v Hs) as (raw & Hm & Hu). unfold pg_Put. rewrite Hm. cbn [negb].
  split; [done|]. split.
  - intros o. unfold pg_Get, pg_select. destruct ok; [|done]. cbn [negb]. rewrite lookup_insert_eq. cbn [cr_expires cr_verdict].
    unfold pg_alive, After, Add. rewrite Z.gtb_ltb, Hu.
    destruct (Z.ltb_spec 0 ttl), (Z.leb_spec ttl 0); try lia; cbn [orb].
    + destruct (Z.ltb_spec (pg_time (now + ttl)) later), (Z.leb_spec later (pg_time (now + ttl))); try lia; simpl; congruence.
    + simpl. congruence.
  - pose proof (pg_time_law (now + ttl)) as Hpt. unfold pg_alive, alive.
    rewrite !orb_true_iff, !Z.leb_le. lia.
Qed.

(** The eviction of an expired row deletes whatever the key holds by then: a
    verdict stored between the two statements of a [Get] is lost, where the
    in-memory store keeps it. *)
Theorem postgres_evicts_fresh now k v ttl t old e :
  t !! k = Some {| cr_verdict := old; cr_expires := Some e |} -> e < now -> storable v ->
  pg_select true now k t = Ok Expired /\
  exists t', pg_Put true now k v ttl t = (Ok tt, t') /\ is_Some (t' !! k) /\ pg_delete true k t' !! k = None.
Proof.
  intros Ht He Hs. destruct (codec_law v Hs) as (raw & Hm & _). split.
  - unfold pg_select. cbn [negb]. rewrite Ht. cbn. unfold After. by rewrite (proj2 (Z.ltb_lt _ _)).
  - unfold pg_Put. rewrite Hm. cbn [negb]. eexists. split; [done|]. split; [by rewrite lookup_insert_eq; eexists|].
    apply lookup_delete_eq.
Qed.
End Props.
