(* ===== verification/CachePg.v ===== *)
(** The result cache over PostgreSQL, behind the interface of the verifier.

    The rows of the cache with the outcomes its statements will have: any of them
    may fail, at any time.  The laws of a cache ([ResultStoreLaws]) hold of it, so
    that what [VerifierProps.v] proves of the verifier holds over the database,
    with a verdict as its document keeps it and an expiry cut to the microsecond. *)

From Stdlib Require Import QArith.
From S2P Require Import Prelude GoStrings GoConv Float64 GoTime Verdict Engine Settings Egress Store Memory Postgres PostgresProps.
Local Open Scope list_scope.
Local Open Scope Z_scope.

Section Cache.
Context {J : Type} `{HD : VerdictDoc J} `{HT : PgTime}.

Record pg_cache := { pc_rows : gmap string (cache_row (J := J)); pc_ok : nat -> bool }.

(** The cache after a call that ran [n] statements. *)
Definition after (n : nat) (rows : gmap string (cache_row (J := J))) (c : pg_cache) : pg_cache :=
  {| pc_rows := rows; pc_ok := fun i => pc_ok c (n + i) |}.

#[global] Instance pg_ResultStore : ResultStore pg_cache pg_error := {|
  Get now k c := let '(a, t) := pg_Get (pc_ok c 0) (pc_ok c 1) now k (pc_rows c) in (a, after 2 t c);
  Put now k v ttl c := let '(a, t) := pg_Put (pc_ok c 0) now k v ttl (pc_rows c) in (a, after 1 t c) |}.

(** What a row shows: nothing once it has expired. *)
Definition row_shows (t : Time) (row : cache_row (J := J)) : option Verdict :=
  match cr_expires row with
  | Some e => if After t e then None else unmarshal (cr_verdict row)
  | None => unmarshal (cr_verdict row)
  end.
Definition pg_cached (t : Time) (k : string) (c : pg_cache) : option Verdict := pc_rows c !! k ≫= row_shows t.

Lemma pg_Get_spec now k c :
  (forall t k', now <= t -> pg_cached t k' (Get now k c).2 = pg_cached t k' c) /\
  (forall o, (Get now k c).1 = Ok o -> o = pg_cached now k c).
Proof.
  cbn [Get pg_ResultStore]. unfold pg_Get, pg_select, pg_cached, row_shows. destruct (pc_ok c 0); cbn [negb]; [|done].
  destruct (pc_rows c !! k) as [[raw ex]|] eqn:Ek; cbn; [|split; [done|congruence]].
  destruct ex as [e|]; cbn; [destruct (After now e) eqn:Ea; cbn|].
  - split; [|congruence]. intros t k' Ht. unfold pg_delete. destruct (pc_ok c 1); [|done].
    destruct (decide (k' = k)) as [->|Hne]; [|by rewrite lookup_delete_ne]. rewrite lookup_delete_eq, Ek. cbn.
    unfold After in *. bool_to_prop. by rewrite (proj2 (Z.ltb_lt _ _)) by lia.
  - destruct (unmarshal raw); cbn; (split; [done|congruence]).
  - destruct (unmarshal raw); cbn; (split; [done|congruence]).
Qed.

Lemma pg_Put_spec now k v ttl c t k' :
  sized v ->
  pg_cached t k' (Put now k v ttl c).2 =
    match (Put now k v ttl c).1 with
    | Ok _ => if decide (k' = k) then (if pg_alive now ttl t then Some (kept v) else None) else pg_cached t k' c
    | Err _ => pg_cached t k' c
    end.
Proof.
  intros Hs. cbn [Put pg_ResultStore]. unfold pg_Put. destruct (marshal v) as [raw|] eqn:Hm; [|done].
  destruct (pc_ok c 0); cbn [negb]; [|done]. cbn [fst snd]. unfold pg_cached. cbn [pc_rows after].
  case_decide as Hk; [subst k'; rewrite lookup_insert_eq|by rewrite lookup_insert_ne].
  cbn [mbind option_bind]. unfold row_shows, pg_alive, After, Add. cbn [cr_expires cr_verdict]. rewrite Z.gtb_ltb, (kept_law v raw Hs Hm).
  destruct (Z.ltb_spec 0 ttl), (Z.leb_spec ttl 0); try lia; cbn [orb]; [|done].
  destruct (Z.ltb_spec (pg_time (now + ttl)) t), (Z.leb_spec t (pg_time (now + ttl))); try lia; done.
Qed.

Lemma pg_alive_alive now ttl t : pg_alive now ttl t = true -> alive now ttl t = true.
Proof. pose proof (pg_time_law (now + ttl)). unfold pg_alive, alive. rewrite !orb_true_iff, !Z.leb_le. lia. Qed.

#[global] Instance pg_laws : ResultStoreLaws pg_cache pg_error :=
  {| cached := pg_cached; shown := kept; proper := sized; lives := pg_alive; lives_alive := pg_alive_alive;
     Get_spec := pg_Get_spec; Put_spec now k v ttl c t k' Hs _ _ := pg_Put_spec now k v ttl c t k' Hs |}.
End Cache.
