(* ===== verification/PostgresLife.v ===== *)
(** Restarts over PostgreSQL: the reputation and the settings a process finds
    when it starts again, the migrations it runs first, and the stores at work on
    concrete tables. *)

From Stdlib Require Import QArith.
From stdpp Require Import sorting.
From S2P Require Import Prelude GoStrings GoConv Float64 GoTime Verdict Engine Settings Health Egress EgressInv.
From S2P Require Import EgressSel EgressOps EgressProps EgressLife Store Memory Restart Postgres PostgresProps.
Local Open Scope list_scope.
Local Open Scope Z_scope.

(** ** Reputation *)

Section Documents.
Context {J : Type} `{HE : Codec EgressState J} `{HS : Codec Settings J}.

Definition state_doc (s : EgressState) (j : J) : Prop := storable s /\ marshal s = Some j.

(** The table holds the documents of what the in-memory store holds. *)
Definition egress_refines (t : gmap string J) (st : gmap string EgressState) : Prop :=
  forall id, option_Forall2 state_doc (st !! id) (t !! id).

Lemma egress_refines_insert t st id s j :
  egress_refines t st -> state_doc s j -> egress_refines (<[id := j]> t) (<[id := s]> st).
Proof. intros R Hs i. rewrite !lookup_insert. case_decide; [by constructor|apply R]. Qed.

(** A save that the database accepts is the in-memory one. *)
Lemma upsert_refines n states t st :
  egress_refines t st -> Forall storable states ->
  exists t', upsert_all (fun _ => true) n states t = Ok t' /\ egress_refines t' (mem_SaveEgress states st).
Proof.
  intros R HF. revert n t st R. induction HF as [|s states Hs _ IH]; intros n t st R; [by eexists|]. cbn [upsert_all].
  destruct (codec_law s Hs) as (raw & Hm & _). rewrite Hm. cbn [negb]. apply IH. by apply egress_refines_insert.
Qed.

Lemma save_refines states t st :
  egress_refines t st -> Forall storable states ->
  exists t', pg_SaveEgress true true (fun _ => true) states t = (Ok tt, t') /\
             egress_refines t' (mem_SaveEgress states st).
Proof.
  intros R HF. unfold pg_SaveEgress. destruct (Z.eqb_spec (len states) 0) as [H0|_].
  - destruct states; [by eexists|]. unfold len in H0. simpl in H0. lia.
  - destruct (upsert_refines 0 states t st R HF) as (t' & Ht' & R'). rewrite Ht'. by eexists.
Qed.

Lemma mapM_perm {A B} (f : A -> option B) (l1 l2 : list A) ys :
  l1 ≡ₚ l2 -> mapM f l2 = Some ys -> exists xs, mapM f l1 = Some xs /\ xs ≡ₚ ys.
Proof.
  intros Hp. rewrite mapM_Some. intros HF. symmetry in Hp. destruct (Permutation_Forall2 Hp HF) as (xs & Hx & HF1).
  exists xs. split; [by apply mapM_Some|done].
Qed.

(** Every row of the table can be read, and what is read is what the in-memory
    store would load, in the order of the rows. *)
Lemma load_refines t st rows :
  egress_refines t st -> rows ≡ₚ (map_to_list t).*2 ->
  exists l, pg_LoadEgress true rows = Ok l /\ l ≡ₚ mem_LoadEgress st.
Proof.
  intros R Hp. unfold pg_LoadEgress, mem_LoadEgress. cbn [negb].
  assert (Hm : exists ys, mapM unmarshal (map_to_list t).*2 = Some ys /\ ys ≡ₚ (map_to_list st).*2).
  { clear Hp rows. revert st R. induction t as [|id j t Hid IH] using map_ind; intros st R.
    - exists []. rewrite map_to_list_empty. split; [done|]. assert (st = ∅) as ->.
      { apply map_empty. intros i. specialize (R i). rewrite lookup_empty in R. by inversion R. }
      by rewrite map_to_list_empty.
    - pose proof (R id) as Rid. rewrite lookup_insert_eq in Rid. inversion Rid as [s ? [Hs Hj] Hst|].
      destruct (IH (delete id st)) as (ys & Hys & Hpy).
      { intros i. specialize (R i). rewrite lookup_insert in R. rewrite lookup_delete. case_decide; [|done].
        subst i. rewrite Hid. constructor. }
      destruct (codec_law s Hs) as (j' & Hj' & Hu). rewrite Hj in Hj'. injection Hj' as <-.
      destruct (mapM_perm unmarshal (map_to_list (<[id := j]> t)).*2 (j :: (map_to_list t).*2) (s :: ys)) as (xs & Hxs & Hpx).
      + by rewrite map_to_list_insert.
      + simpl. by rewrite Hu; simpl; rewrite Hys.
      + exists xs. split; [done|]. rewrite Hpx, Hpy.
        transitivity ((map_to_list (<[id := s]> (delete id st))).*2); [|by rewrite insert_delete_id].
        by rewrite map_to_list_insert by apply lookup_delete_eq. }
  destruct Hm as (ys & Hys & Hpy). destruct (mapM_perm _ _ _ _ Hp Hys) as (xs & Hxs & Hpx). rewrite Hxs.
  eexists. split; [done|]. by rewrite Hpx.
Qed.

(** What an identity of the next process finds in the tables after the snapshot
    of [m] was saved over what earlier processes had left ([st]). *)
Definition found (m : Manager) (st : egress_states) (id : string) (r0 r' : record) : Prop :=
  match records m !! id, st !! id with
  | Some r, _ => snapshot_record id r' = snapshot_record id r
  | None, Some s => r' = restore_record s r0
  | None, None => r' = r0
  end.

(** C29: The reputation survives a restart over PostgreSQL, identity by identity.
    The snapshot of a pool whose states the codec stores is saved in a table that
    may hold the states of earlier pools; the next process, of any
    configuration, reads every row, in whatever order the database returns them,
    and restores them.  Then an identity of both pools has the reputation that was
    saved; one the saved pool did not have has what an earlier process saved of
    it, or starts as new; a row of an identity that is gone changes nothing; and
    an identity registered after the restore (a remote agent's) starts as new
    whatever was saved of it.  A save that fails at any point, in any statement or
    at the commit, leaves the table as it was. *)
Theorem postgres_restart m l cfg start t st :
  mgr_wf m -> map_Forall (fun _ r => lastReset r <> 0) (records m) ->
  Snapshot m = Some l -> Forall storable l ->
  egress_refines t st -> keyed st ->
  (exists t1, pg_SaveEgress true true (fun _ => true) l t = (Ok tt, t1) /\
     forall rows, rows ≡ₚ (map_to_list t1).*2 ->
       exists loaded, pg_LoadEgress true rows = Ok loaded /\
         let m0 := New cfg start in
         let m1 := Restore loaded m0 in
         order m1 = order m0 /\
         (forall id, option_Forall2 (found m st id) (records m0 !! id) (records m1 !! id)) /\
         (forall s now, records m0 !! Spec_ID s = None ->
            records (AddIdentity s now m1) !! Spec_ID s = Some (fresh_record s now))) /\
  (forall begin commit ok e, (pg_SaveEgress begin commit ok l t).1 = Err e -> (pg_SaveEgress begin commit ok l t).2 = t).
Proof.
  intros W Hlr Hl Hs R Hk. split.
  - destruct (save_refines l t st R Hs) as (t1 & Ht1 & R1). exists t1. split; [done|]. intros rows Hrows.
    destruct (load_refines t1 _ rows R1 Hrows) as (loaded & Hload & Hp). exists loaded. split; [done|].
    cbv zeta. split; [apply restore_order|]. split; [|intros s now; apply late_fresh].
    intros id. rewrite (restore_perm (mem_SaveEgress l st)), (save_entry m) by (done || by apply save_keys).
    unfold found. destruct (records (New cfg start) !! id) as [r0|] eqn:Hr0;
      destruct (records m !! id) as [r|] eqn:Hr; [|destruct (st !! id)| |destruct (st !! id)]; simpl; constructor; try done.
    apply restore_snapshot; [by apply (Hlr id r)|]. left. exact (New_fresh cfg start id r0 Hr0).
  - intros begin commit ok e. unfold pg_SaveEgress. destruct (len l =? 0); [done|]. destruct (negb begin); [done|].
    destruct (upsert_all ok 0 l t); [|done]. by destruct (negb commit).
Qed.

(** ** Settings *)

(** Settings that were saved are the ones loaded, a failed save keeps the row,
    and a database that was never written gives none. *)
Lemma settings_saved s row :
  storable s ->
  (exists row', pg_SaveSettings true s row = (Ok tt, row') /\ pg_LoadSettings true row' = Ok (Some s)) /\
  (pg_SaveSettings false s row).2 = row /\
  pg_LoadSettings true None = Ok None.
Proof.
  intros Hs. destruct (codec_law s Hs) as (j & Hj & Hu). unfold pg_SaveSettings, pg_LoadSettings. rewrite Hj. cbn [negb].
  split; [|done]. eexists. split; [done|]. cbn. by rewrite Hu.
Qed.
End Documents.

(** ** Migrations *)

(** The scripts that ran are the ones of the recorded versions, each once. *)
Definition schema_wf (sc : schema) : Prop :=
  exists vs, mapM migrationVersion (sc_run sc) = Some vs /\ NoDup vs /\ list_to_set vs = sc_applied sc.

Lemma apply_spec ok v name sc sc' :
  applyMigration ok v name sc = Some sc' ->
  sc' = {| sc_applied := {[ v ]} ∪ sc_applied sc; sc_run := sc_run sc ++ [name] |}.
Proof. unfold applyMigration. case_match; naive_solver. Qed.

Lemma migrate_mono check apply names : forall sc, sc_applied sc ⊆ sc_applied (migrate_loop check apply names sc).2.
Proof.
  induction names as [|name names IH]; intros sc; cbn; [done|]. destruct (migrationVersion name) as [v|]; [|done].
  destruct (check v); cbn; [|done]. case_bool_decide; [apply IH|]. destruct (applyMigration (apply v) v name sc) as [sc'|] eqn:Ea; cbn; [|done].
  apply apply_spec in Ea as ->.
  etrans; [|apply IH]. cbn. set_solver.
Qed.

Lemma migrate_resume check apply names : forall sc,
  migrate_loop (fun _ => true) (fun _ _ => true) names (migrate_loop check apply names sc).2
  = migrate_loop (fun _ => true) (fun _ _ => true) names sc.
Proof.
  induction names as [|name names IH]; intros sc; [done|]. cbn [migrate_loop].
  destruct (migrationVersion name) as [v|]; [|done]. destruct (check v); cbn [negb snd]; [|done].
  destruct (bool_decide (v ∈ sc_applied sc)) eqn:Ev.
  - apply bool_decide_eq_true in Ev. rewrite IH, bool_decide_eq_true_2; [done|]. by apply migrate_mono.
  - destruct (applyMigration (apply v) v name sc) as [sc'|] eqn:Ea; cbn [snd]; [|by rewrite Ev].
    apply apply_spec in Ea as ->. rewrite bool_decide_eq_true_2; [apply IH|].
    apply migrate_mono. cbn. set_solver.
Qed.

Lemma migrate_wf check apply names : forall sc, schema_wf sc -> schema_wf (migrate_loop check apply names sc).2.
Proof.
  induction names as [|name names IH]; intros sc W; [done|]. cbn [migrate_loop].
  destruct (migrationVersion name) as [v|] eqn:Ev; [|done]. destruct (check v); cbn [negb snd]; [|done].
  case_bool_decide as Hv; [by apply IH|]. destruct (applyMigration (apply v) v name sc) as [sc'|] eqn:Ea; cbn [snd]; [|done].
  apply apply_spec in Ea as ->. apply IH.
  destruct W as (vs & Hvs & Hnd & Hset). exists (vs ++ [v]). cbn. split; [|split].
  - apply mapM_Some. apply mapM_Some in Hvs. apply Forall2_app; [done|]. by constructor.
  - apply list.NoDup_app. split; [done|]. split; [|apply NoDup_singleton]. intros x Hx.
    rewrite list_elem_of_singleton. intros ->. apply Hv. rewrite <- Hset. by apply elem_of_list_to_set.
  - rewrite list_to_set_app_L, Hset. cbn. set_solver.
Qed.

Lemma migrate_done check apply names : forall sc,
  (migrate_loop check apply names sc).1 = None ->
  Forall (fun n => exists v, migrationVersion n = Some v /\ v ∈ sc_applied (migrate_loop check apply names sc).2) names.
Proof.
  induction names as [|name names IH]; intros sc; [constructor|]. cbn [migrate_loop].
  destruct (migrationVersion name) as [v|] eqn:Ev; [|done]. destruct (check v); cbn [negb fst snd]; [|done].
  case_bool_decide as Hv.
  - intros H. constructor; [|by apply IH]. exists v. split; [done|]. by apply migrate_mono.
  - destruct (applyMigration (apply v) v name sc) as [sc'|] eqn:Ea; cbn [fst snd]; [|done].
    apply apply_spec in Ea as ->. intros H. constructor; [|by apply IH].
    exists v. split; [done|]. apply migrate_mono. cbn. set_solver.
Qed.

(** C30: Migrations can be run at every start: whatever fails in a run, each
    version's script runs at most once and is recorded with it; a later run that
    does not fail ends exactly where a run without the interruption would have,
    the scripts run in the same order; and when a run reports no error every file's
    version is recorded. *)
Theorem migrations_resume check apply entries sc :
  schema_wf sc ->
  let '(err, sc1) := Migrate check apply entries sc in
  schema_wf sc1 /\
  Migrate (fun _ => true) (fun _ _ => true) entries sc1 = Migrate (fun _ => true) (fun _ _ => true) entries sc /\
  (err = None -> Forall (fun n => exists v, migrationVersion n = Some v /\ v ∈ sc_applied sc1) (migration_files entries)).
Proof.
  intros W. pose proof (migrate_wf check apply (migration_files entries) sc W) as H1.
  pose proof (migrate_resume check apply (migration_files entries) sc) as H2.
  pose proof (migrate_done check apply (migration_files entries) sc) as H3. unfold Migrate.
  destruct (migrate_loop check apply (migration_files entries) sc) as [err sc1]. done.
Qed.

Definition migration_dir : list string :=
  ["0001_init.sql"; "0002_egress_state.sql"; "0003_result_labels.sql"; "0004_settings.sql"].

(** A first run that fails at the third script, and the run after it. *)
Lemma migrations_resume_witness :
  let none := {| sc_applied := ∅; sc_run := [] |} in
  let '(err, sc1) := Migrate (fun _ => true) (fun v n => negb ((v =? 3) && (n =? 2)%nat)) migration_dir none in
  err = Some (ApplyFailed "0003_result_labels.sql") /\ sc_run sc1 = ["0001_init.sql"; "0002_egress_state.sql"] /\
  sc_run (Migrate (fun _ => true) (fun _ _ => true) migration_dir sc1).2 = migration_dir.
Proof.
  intros none.
  assert (W : schema_wf none) by (exists []; split; [done|split; [constructor|done]]).
  pose proof (migrations_resume (fun _ => true) (fun v n => negb ((v =? 3) && (n =? 2)%nat)) migration_dir none W) as H.
  destruct (Migrate (fun _ => true) (fun v n => negb ((v =? 3) && (n =? 2)%nat)) migration_dir none) as [err sc1] eqn:E.
  destruct H as (_ & H & _). vm_compute in E. injection E as <- <-. split; [reflexivity|]. split; [reflexivity|].
  rewrite H. reflexivity.
Defined.

(** ** The stores at work *)

(** A column that keeps the value itself, and times cut to the microsecond. *)
#[local] Program Instance verdict_column : VerdictDoc Verdict := {|
  vd_codec := {| marshal := Some; unmarshal := Some; storable := fun _ => True |};
  sized := fun _ => True; kept := fun v => v;
  doc_status := fun v => Some (Status_String (vStatus v));
  doc_sub_status := fun v => Some (SubStatus_String (vSubStatus v));
  doc_provider := fun v => if String.eqb (Provider v) "" then None else Some (Provider v);
  doc_probed := fun v => Some (SMTP_Probed (Checks_SMTP (vChecks v)));
|}.
Next Obligation. eauto. Qed.
Next Obligation. done. Qed.
Next Obligation. done. Qed.
Next Obligation. intros v j _ [= ->]. done. Qed.

#[local] Program Instance state_column : Codec EgressState EgressState :=
  {| marshal := Some; unmarshal := Some; storable := fun _ => True |}.
Next Obligation. eauto. Qed.

#[local] Program Instance microseconds : PgTime := {| pg_time := fun t => t / 1000 * 1000 |}.
Next Obligation. intros t. cbn. pose proof (Z.div_mod t 1000 ltac:(done)). pose proof (Z.mod_pos_bound t 1000 ltac:(done)). lia. Qed.

Definition ex_ops : list job_op :=
  [JCreate ex_job; JStatus 2001 "job_1" JobRunning; JAppend 3001 "job_1" (ex_result StatusDeliverable);
   JAppend 4001 "nobody" (ex_result StatusRisky); JAppend 5001 "job_1" (ex_result StatusRisky)].

Lemma ex_entry :
  je_results <$> mem_run ex_ops ∅ !! "job_1" = Some [ex_result StatusDeliverable; ex_result StatusRisky].
Proof. vm_compute. reflexivity. Qed.

Lemma ex_ops_ok : ops_ok ex_ops ∅.
Proof.
  unfold ex_ops. cbn [ops_ok op_ok]. split; [by repeat split|]. split; [done|]. split; [|split; [|split; [|done]]].
  all: split; [exact I|]; intros e He; vm_compute in He; first [discriminate|injection He as <-; reflexivity].
Qed.

(** The second page of a job of two results, and its statistics. *)
Lemma postgres_refines_memory_witness :
  pg_Results 1000000 true true "job_1" 1 1 (pg_run ex_ops no_tables) = Some (Ok ([ex_result StatusRisky], 0)) /\
  exists stats, pg_Stats true true "job_1" (pg_run ex_ops no_tables) = Ok stats /\ stats_Total stats = 2.
Proof.
  destruct (postgres_refines_memory 1000000 ex_ops "job_1" ex_ops_ok) as (_ & HS & HR).
  pose proof ex_entry as E. unfold Stats in HS. unfold Results in HR.
  destruct (mem_run ex_ops ∅ !! "job_1") as [e|]; [|discriminate]. cbn in E. injection E as E. split.
  - assert (Hlt : len (je_results e) + 1 < max_int64) by (rewrite E; unfold len, max_int64; cbn [length]; clear; lia).
    assert (Hcap : 0 < 1 <= 1000000) by (clear; lia).
    destruct (HR e 1 1 eq_refl Hcap Hlt) as (p & Hp & Hq). rewrite Hq.
    rewrite page_at in Hp by (rewrite ?E; unfold len, max_int64; cbn [length]; clear; lia).
    cbn in Hp. injection Hp as <-. by rewrite E.
  - eexists. split; [exact HS|]. by rewrite E.
Defined.

(** A verdict kept for five microseconds, read ten nanoseconds before its
    expiry, which the database has rounded down, and after it. *)
Lemma postgres_cache_put_get_witness :
  let t := (pg_Put true 10 "k" (ex_verdict StatusRisky) 5000 ∅).2 in
  (pg_Get true true 5000 "k" t).1 = Ok (Some (ex_verdict StatusRisky)) /\
  forall o, (pg_Get true true 5001 "k" t).1 = Ok o -> o = None.
Proof.
  split; [reflexivity|].
  pose proof (postgres_cache_put_get true true 10 "k" (ex_verdict StatusRisky) 5000 ∅ 5001 I) as H.
  destruct (pg_Put true 10 "k" (ex_verdict StatusRisky) 5000 ∅) as [a t]. destruct H as (_ & H & _).
  intros o Ho. exact (H o Ho).
Defined.

Lemma postgres_evicts_fresh_witness :
  let t := (pg_Put true 10 "k" (ex_verdict StatusRisky) 5000 ∅).2 in
  exists t', pg_Put true 9000 "k" (ex_verdict StatusDeliverable) 5000 t = (Ok tt, t') /\
             is_Some (t' !! "k") /\ pg_delete true "k" t' !! "k" = None.
Proof.
  intros t. destruct (postgres_evicts_fresh 9000 "k" (ex_verdict StatusDeliverable) 5000 t (ex_verdict StatusRisky) 5000)
    as [_ H]; [reflexivity|lia|exact I|exact H].
Defined.
