(* ===== verification/Wire.v ===== *)
(** The JSON documents of the program: verdicts, the remote probe protocol, the
    stored reputation and settings, with their struct tags; and the probe
    protocol over the bytes that are sent. *)

From Stdlib Require Import QArith.
From S2P Require Import Prelude GoStrings GoConv Float64 GoTime Json GoDate JsonFloat JsonCodec.
From S2P Require Import Verdict Engine Settings Policy RateLimit Pipeline Egress Store Verifier Worker Fleet.
Local Open Scope list_scope.
Local Open Scope Z_scope.

(** ** String types *)

Definition Status_of (s : string) : Status :=
  if String.eqb s "deliverable" then StatusDeliverable else if String.eqb s "undeliverable" then StatusUndeliverable
  else if String.eqb s "risky" then StatusRisky else if String.eqb s "unknown" then StatusUnknown else Status_other s.

Definition declared_subs : list SubStatus :=
  [SubValidMailbox; SubInvalidSyntax; SubNoMXRecord; SubDomainNotFound; SubMailboxNotFound; SubCatchAll; SubRoleAccount;
   SubDisposable; SubFullMailbox; SubLowDeliverability; SubGreylisted; SubTimeout; SubBlocked; SubPort25Blocked;
   SubProviderSkipped; SubTemporaryFailure; SubNoConnect].
Definition SubStatus_of (s : string) : SubStatus :=
  default (SubStatus_other s) (List.find (fun x => String.eqb s (SubStatus_String x)) declared_subs).

(** ** Verdicts *)

Definition e_MXCheck (c : MXCheck) : option json :=
  e_struct [flag "found" (MX_Found c); list_opt "records" (fun s => Some (e_string s)) (MX_Records c)].
Definition d_MXCheck : decoder MXCheck :=
  d_struct [("found", dbad d_bool); ("records", dbad (d_list d_string))]
    (fun h => {| MX_Found := dval d_bool (h "found"); MX_Records := dval (d_list d_string) (h "records") |}).

Definition e_SMTPCheck (c : SMTPCheck) : option json :=
  e_struct [flag "probed" (SMTP_Probed c); int_opt "code" (SMTP_Code c); str_opt "response" (SMTP_Response c)].
Definition d_SMTPCheck : decoder SMTPCheck :=
  d_struct [("probed", dbad d_bool); ("code", dbad d_int); ("response", dbad d_string)]
    (fun h => {| SMTP_Probed := dval d_bool (h "probed"); SMTP_Code := dval d_int (h "code"); SMTP_Response := dval d_string (h "response") |}).

Definition e_SyntaxCheck (c : SyntaxCheck) : option json := e_struct [flag "valid" (Syntax_Valid c)].
Definition d_SyntaxCheck : decoder SyntaxCheck :=
  d_struct [("valid", dbad d_bool)] (fun h => {| Syntax_Valid := dval d_bool (h "valid") |}).

Definition e_Checks (c : Checks) : option json :=
  e_struct [("syntax", true, e_SyntaxCheck (Checks_Syntax c)); ("mx", true, e_MXCheck (Checks_MX c));
            flag "disposable" (Checks_Disposable c); flag "role" (Checks_Role c); flag "free" (Checks_Free c);
            flag "catch_all" (Checks_CatchAll c); ("smtp", true, e_SMTPCheck (Checks_SMTP c))].
Definition d_Checks : decoder Checks :=
  d_struct [("syntax", dbad d_SyntaxCheck); ("mx", dbad d_MXCheck); ("disposable", dbad d_bool); ("role", dbad d_bool);
            ("free", dbad d_bool); ("catch_all", dbad d_bool); ("smtp", dbad d_SMTPCheck)]
    (fun h => {| Checks_Syntax := dval d_SyntaxCheck (h "syntax"); Checks_MX := dval d_MXCheck (h "mx");
                 Checks_Disposable := dval d_bool (h "disposable"); Checks_Role := dval d_bool (h "role");
                 Checks_Free := dval d_bool (h "free"); Checks_CatchAll := dval d_bool (h "catch_all");
                 Checks_SMTP := dval d_SMTPCheck (h "smtp") |}).

Section Zone.
(** The offset of the zone the process runs in, in minutes. *)
Variable zone : Z.

Definition e_Verdict (v : Verdict) : option json :=
  e_struct [str "email" (Email v); str "normalized" (Normalized v); str "status" (Status_String (vStatus v));
            str "sub_status" (SubStatus_String (vSubStatus v)); ("confidence", true, e_float (Confidence v));
            ("checks", true, e_Checks (vChecks v)); str_opt "provider" (Provider v); str_opt "engine" (Verdict.Engine v);
            str_opt "egress_id" (EgressID v); flag "cached" (Cached v); ("checked_at", true, e_time zone (CheckedAt v))].
Definition d_Verdict : decoder Verdict :=
  d_struct [("email", dbad d_string); ("normalized", dbad d_string); ("status", dbad d_string); ("sub_status", dbad d_string);
            ("confidence", dbad d_float); ("checks", dbad d_Checks); ("provider", dbad d_string); ("engine", dbad d_string);
            ("egress_id", dbad d_string); ("cached", dbad d_bool); ("checked_at", dbad d_time)]
    (fun h => {| Email := dval d_string (h "email"); Normalized := dval d_string (h "normalized");
                 vStatus := Status_of (dval d_string (h "status"));
                 vSubStatus := SubStatus_of (dval d_string (h "sub_status"));
                 Confidence := dval d_float (h "confidence"); vChecks := dval d_Checks (h "checks");
                 Provider := dval d_string (h "provider"); Verdict.Engine := dval d_string (h "engine");
                 EgressID := dval d_string (h "egress_id"); Cached := dval d_bool (h "cached");
                 CheckedAt := dval d_time (h "checked_at") |}).

(** ** The remote probe protocol *)

Definition e_TaskWire (t : TaskWire) : option json :=
  e_struct [str_opt "id" (tw_ID t); str_opt "job_id" (tw_JobID t); str "email" (tw_Email t); str_opt "normalized" (tw_Normalized t);
            str_opt "domain" (tw_Domain t); str_opt "provider" (tw_Provider t); list_opt "mx" (fun s => Some (e_string s)) (tw_MX t)].
Definition d_TaskWire : decoder TaskWire :=
  d_struct [("id", dbad d_string); ("job_id", dbad d_string); ("email", dbad d_string); ("normalized", dbad d_string);
            ("domain", dbad d_string); ("provider", dbad d_string); ("mx", dbad (d_list d_string))]
    (fun h => {| tw_ID := dval d_string (h "id"); tw_JobID := dval d_string (h "job_id"); tw_Email := dval d_string (h "email");
                 tw_Normalized := dval d_string (h "normalized"); tw_Domain := dval d_string (h "domain");
                 tw_Provider := dval d_string (h "provider"); tw_MX := dval (d_list d_string) (h "mx") |}).

Definition e_VerifyRequest (r : VerifyRequest) : option json :=
  e_struct [int "version" (rq_Version r); ("task", true, e_TaskWire (rq_Task r)); flag "detect_catch_all" (rq_DetectCatchAll r)].
Definition d_VerifyRequest : decoder VerifyRequest :=
  d_struct [("version", dbad d_int); ("task", dbad d_TaskWire); ("detect_catch_all", dbad d_bool)]
    (fun h => {| rq_Version := dval d_int (h "version"); rq_Task := dval d_TaskWire (h "task");
                 rq_DetectCatchAll := dval d_bool (h "detect_catch_all") |}).

Definition e_SignalWire (s : SignalWire) : option json :=
  e_struct [str "kind" (sw_Kind s); str_opt "egress_id" (sw_EgressID s); str_opt "destination" (sw_Destination s);
            int_opt "code" (sw_Code s); str_opt "detail" (sw_Detail s)].
Definition d_SignalWire : decoder SignalWire :=
  d_struct [("kind", dbad d_string); ("egress_id", dbad d_string); ("destination", dbad d_string); ("code", dbad d_int);
            ("detail", dbad d_string)]
    (fun h => {| sw_Kind := dval d_string (h "kind"); sw_EgressID := dval d_string (h "egress_id");
                 sw_Destination := dval d_string (h "destination"); sw_Code := dval d_int (h "code"); sw_Detail := dval d_string (h "detail") |}).

Definition e_VerifyResponse (r : VerifyResponse) : option json :=
  e_struct [int "version" (rs_Version r); ("verdict", true, e_Verdict (rs_Verdict r)); list_opt "signals" e_SignalWire (rs_Signals r)].
Definition d_VerifyResponse : decoder VerifyResponse :=
  d_struct [("version", dbad d_int); ("verdict", dbad d_Verdict); ("signals", dbad (d_list d_SignalWire))]
    (fun h => {| rs_Version := dval d_int (h "version"); rs_Verdict := dval d_Verdict (h "verdict");
                 rs_Signals := dval (d_list d_SignalWire) (h "signals") |}).

Definition e_HealthResponse (r : HealthResponse) : option json :=
  e_struct [int "version" (hr_Version r); str "id" (hr_ID r); str_opt "ip" (hr_IP r); str_opt "helo" (hr_HELO r);
            str_opt "region" (hr_Region r); str_opt "asn" (hr_ASN r)].
Definition d_HealthResponse : decoder HealthResponse :=
  d_struct [("version", dbad d_int); ("id", dbad d_string); ("ip", dbad d_string); ("helo", dbad d_string);
            ("region", dbad d_string); ("asn", dbad d_string)]
    (fun h => {| hr_Version := dval d_int (h "version"); hr_ID := dval d_string (h "id"); hr_IP := dval d_string (h "ip");
                 hr_HELO := dval d_string (h "helo"); hr_Region := dval d_string (h "region"); hr_ASN := dval d_string (h "asn") |}).
End Zone.

(** ** Documents read back *)

(** What arrives: the strings of a value as JSON hands them on. *)
Definition utf8_mx (c : MXCheck) : MXCheck := {| MX_Found := MX_Found c; MX_Records := utf8 <$> MX_Records c |}.
Definition utf8_smtp (c : SMTPCheck) : SMTPCheck :=
  {| SMTP_Probed := SMTP_Probed c; SMTP_Code := SMTP_Code c; SMTP_Response := utf8 (SMTP_Response c) |}.
Definition utf8_checks (c : Checks) : Checks :=
  {| Checks_Syntax := Checks_Syntax c; Checks_MX := utf8_mx (Checks_MX c); Checks_Disposable := Checks_Disposable c;
     Checks_Role := Checks_Role c; Checks_Free := Checks_Free c; Checks_CatchAll := Checks_CatchAll c; Checks_SMTP := utf8_smtp (Checks_SMTP c) |}.
Definition utf8_verdict (v : Verdict) : Verdict :=
  {| Email := utf8 (Email v); Normalized := utf8 (Normalized v); vStatus := Status_of (utf8 (Status_String (vStatus v)));
     vSubStatus := SubStatus_of (utf8 (SubStatus_String (vSubStatus v))); Confidence := Confidence v; vChecks := utf8_checks (vChecks v);
     Provider := utf8 (Provider v); Verdict.Engine := utf8 (Verdict.Engine v); EgressID := utf8 (EgressID v); Cached := Cached v;
     CheckedAt := CheckedAt v |}.

Lemma codes_mx c : codes (e_MXCheck c) d_MXCheck 2 (utf8_mx c).
Proof. codes_struct_tac 1. Qed.
Lemma codes_smtp c : int64_ok (SMTP_Code c) = true -> codes (e_SMTPCheck c) d_SMTPCheck 1 (utf8_smtp c).
Proof. intros H. codes_struct_tac 0. Qed.
Lemma codes_syntax c : codes (e_SyntaxCheck c) d_SyntaxCheck 1 c.
Proof. destruct c. codes_struct_tac 0. Qed.
#[local] Hint Resolve codes_mx codes_smtp codes_syntax : codes.

Lemma codes_checks c : int64_ok (SMTP_Code (Checks_SMTP c)) = true -> codes (e_Checks c) d_Checks 3 (utf8_checks c).
Proof. intros H. codes_struct_tac 2. Qed.
#[local] Hint Resolve codes_checks : codes.

(** A verdict that can be written. *)
Definition printable (zone : Z) (v : Verdict) : Prop :=
  finite (Confidence v) /\ int64_ok (SMTP_Code (Checks_SMTP (vChecks v))) = true /\ dated_time zone (CheckedAt v).

Lemma codes_verdict zone v : printable zone v -> codes (e_Verdict zone v) d_Verdict 4 (utf8_verdict v).
Proof. intros (H1 & H2 & H3). codes_struct_tac 3. Qed.
#[local] Hint Resolve codes_verdict : codes.

Definition utf8_taskwire (t : TaskWire) : TaskWire :=
  {| tw_ID := utf8 (tw_ID t); tw_JobID := utf8 (tw_JobID t); tw_Email := utf8 (tw_Email t); tw_Normalized := utf8 (tw_Normalized t);
     tw_Domain := utf8 (tw_Domain t); tw_Provider := utf8 (tw_Provider t); tw_MX := utf8 <$> tw_MX t |}.
Definition utf8_request (r : VerifyRequest) : VerifyRequest :=
  {| rq_Version := rq_Version r; rq_Task := utf8_taskwire (rq_Task r); rq_DetectCatchAll := rq_DetectCatchAll r |}.
Definition utf8_signalwire (s : SignalWire) : SignalWire :=
  {| sw_Kind := utf8 (sw_Kind s); sw_EgressID := utf8 (sw_EgressID s); sw_Destination := utf8 (sw_Destination s);
     sw_Code := sw_Code s; sw_Detail := utf8 (sw_Detail s) |}.
Definition utf8_response (r : VerifyResponse) : VerifyResponse :=
  {| rs_Version := rs_Version r; rs_Verdict := utf8_verdict (rs_Verdict r); rs_Signals := utf8_signalwire <$> rs_Signals r |}.
Definition utf8_health (r : HealthResponse) : HealthResponse :=
  {| hr_Version := hr_Version r; hr_ID := utf8 (hr_ID r); hr_IP := utf8 (hr_IP r); hr_HELO := utf8 (hr_HELO r);
     hr_Region := utf8 (hr_Region r); hr_ASN := utf8 (hr_ASN r) |}.

Lemma codes_taskwire t : codes (e_TaskWire t) d_TaskWire 2 (utf8_taskwire t).
Proof. codes_struct_tac 1. Qed.
#[local] Hint Resolve codes_taskwire : codes.

Lemma codes_request r : int64_ok (rq_Version r) = true -> codes (e_VerifyRequest r) d_VerifyRequest 3 (utf8_request r).
Proof. intros H. codes_struct_tac 2. Qed.

Lemma codes_signalwire s : int64_ok (sw_Code s) = true -> codes (e_SignalWire s) d_SignalWire 1 (utf8_signalwire s).
Proof. intros H. codes_struct_tac 0. Qed.

Lemma codes_signals l : Forall (fun s => int64_ok (sw_Code s) = true) l ->
  codes (e_list e_SignalWire l) (d_list d_SignalWire) 2 (utf8_signalwire <$> l).
Proof.
  intros H. apply (codes_list _ _ 1); [lia|]. induction H as [|s l Hs _ IH]; cbn; constructor; [by apply codes_signalwire|exact IH].
Qed.
#[local] Hint Resolve codes_signals : codes.

Lemma codes_response zone r :
  int64_ok (rs_Version r) = true -> printable zone (rs_Verdict r) -> Forall (fun s => int64_ok (sw_Code s) = true) (rs_Signals r) ->
  codes (e_VerifyResponse zone r) d_VerifyResponse 5 (utf8_response r).
Proof. intros H1 H2 H3. codes_struct_tac 4. Qed.

Lemma codes_health r : int64_ok (hr_Version r) = true -> codes (e_HealthResponse r) d_HealthResponse 1 (utf8_health r).
Proof. intros H. codes_struct_tac 0. Qed.

(** ** The protocol over bytes *)

Section Exchange.
Context {Er : Type}.
Variable zone : Z.
Variable s : Server Er.

Definition maxBody : Z := Z.shiftl 1 20.
Definition maxHealthBody : Z := Z.shiftl 1 16.

(** [writeJSON] of the agent: the status and the body; what [http.Error] writes
    as a text is not kept. *)
Definition writeJSON {A} (e : A -> option json) (r : http_reply A) : option (Z * list ascii) :=
  match r with
  | NoReply => None
  | Reply status (Some a) => Some (status, default [] (Encode e a))
  | Reply status None => Some (status, [])
  end.

(** The agent's two handlers on the bytes of a request. *)
Definition serve_verify (auth : string) (body : list ascii) : option (Z * list ascii) :=
  writeJSON (e_VerifyResponse zone) (authMiddleware s auth (handleVerify s (Decode (MaxBytes maxBody) d_VerifyRequest body))).
Definition serve_health (auth : string) : option (Z * list ascii) :=
  writeJSON e_HealthResponse (authMiddleware s auth (handleHealth s)).

(** The client's side of an exchange: the request as sent, the answer as read. *)
Definition read_body {A} (limit : Z) (d : decoder A) (r : option (Z * list ascii)) : http_reply A :=
  match r with None => NoReply | Some (status, body) => Reply status (Decode (LimitReader limit) d body) end.
Definition wire_post (url auth : string) (req : VerifyRequest) : http_reply VerifyResponse :=
  match Marshal e_VerifyRequest req with
  | None => NoReply
  | Some body => read_body maxBody d_VerifyResponse (serve_verify auth body)
  end.
Definition wire_fetch (url auth : string) : http_reply HealthResponse := read_body maxHealthBody d_HealthResponse (serve_health auth).
End Exchange.

(** A task and signals as they are to arrive: every field as it was, strings with
    U+FFFD in place of bytes that are not UTF-8. *)
Definition utf8_task (t : Task) : Task :=
  {| Task_ID := utf8 (Task_ID t); Task_JobID := utf8 (Task_JobID t); Task_Email := utf8 (Task_Email t);
     Task_Normalized := utf8 (Task_Normalized t); Task_Domain := utf8 (Task_Domain t); Task_Provider := utf8 (Task_Provider t);
     Task_MX := utf8 <$> Task_MX t |}.
Definition utf8_kind (k : SignalKind) : SignalKind :=
  match k with SignalKind_other s => SignalKind_of (utf8 s) | k => k end.
Definition utf8_signal (s : Signal) : Signal :=
  {| Signal_Kind := utf8_kind (Signal_Kind s); Signal_EgressID := utf8 (Signal_EgressID s);
     Signal_Destination := utf8 (Signal_Destination s); Signal_Code := Signal_Code s; Signal_Detail := utf8 (Signal_Detail s) |}.

(** The conversions to and from the wire's types lose nothing. *)
Lemma task_arrives t : ToTask (utf8_taskwire (TaskToWire t)) = utf8_task t.
Proof. done. Qed.

Lemma signals_arrive sigs : ToSignals (utf8_signalwire <$> SignalsToWire sigs) = utf8_signal <$> sigs.
Proof.
  induction sigs as [|s sigs IH]; [done|]. unfold ToSignals, SignalsToWire in *. rewrite !fmap_cons, IH. f_equal.
  destruct s as [[] ? ? ? ?]; vm_compute utf8_kind; reflexivity.
Qed.

Lemma utf8_empty x : utf8 x = "" -> x = "".
Proof.
  unfold utf8. intros H. apply (f_equal bytes) in H. rewrite bytes_of_bytes in H. rewrite <- (of_bytes_bytes x).
  destruct (bytes x) as [|a l]; [done|]. cbn [to_valid] in H. by destruct (rune_len (a :: l)).
Qed.

Lemma Encode_read {A} (e : A -> option json) (d : decoder A) depth a b limit text :
  codes (e a) d depth b -> depth <= maxNestingDepth -> Marshal e a = Some text -> len text <= limit ->
  Decode (LimitReader limit) d (default [] (Encode e a)) = Some b.
Proof.
  intros Hc Hd Hm Hl. unfold Encode. rewrite Hm. cbn [fmap option_fmap option_map default from_option]. eapply Decode_printed; [exact Hc|]. intros j Hj He Hn.
  unfold Marshal in Hm. rewrite Hj in Hm. cbn in Hm. injection Hm as <-. apply LimitReader_printed; [done|lia|done|done].
Qed.

Lemma request_read req text :
  Marshal e_VerifyRequest req = Some text -> int64_ok (rq_Version req) = true -> len text <= maxBody ->
  Decode (MaxBytes maxBody) d_VerifyRequest text = Some (utf8_request req).
Proof.
  intros Hm Hv Hl. eapply Decode_printed; [by apply codes_request|]. intros j Hj He Hn.
  unfold Marshal in Hm. rewrite Hj in Hm. cbn in Hm. injection Hm as <-. rewrite <- (app_nil_r (print j)).
  apply MaxBytes_printed; try done; [unfold maxNestingDepth; lia|].
  unfold e_VerifyRequest, e_struct in Hj. apply fmap_Some in Hj as (ms & _ & ->). done.
Qed.

(** The agent's answer arrives: the verdict and the signals of its engine. *)
Definition fits {A} (e : A -> option json) (limit : Z) (a : A) : Prop := exists text, Marshal e a = Some text /\ len text <= limit.

Definition probe_request (t : Task) : VerifyRequest :=
  {| rq_Version := ProtocolVersion; rq_Task := TaskToWire t; rq_DetectCatchAll := true |}.
Definition probe_response {Er} (s : Server Er) (v : Verdict) (sigs : list Signal) : VerifyResponse :=
  {| rs_Version := ProtocolVersion; rs_Verdict := set_EgressID (id_ID (sv_identity s)) v; rs_Signals := SignalsToWire sigs |}.

Lemma serve_request {Er} (s : Server Er) zone t text :
  Task_Email t <> "" -> Marshal e_VerifyRequest (probe_request t) = Some text -> len text <= maxBody ->
  serve_verify zone s (bearer (sv_token s)) text =
  match sv_engine s (utf8_task t) (binding s) with
  | Err _ => Some (502, [])
  | Ok (v, sigs) => Some (200, default [] (Encode (e_VerifyResponse zone) (probe_response s v sigs)))
  end.
Proof.
  intros He Hm Hl. unfold serve_verify. rewrite (request_read (probe_request t) text) by done.
  unfold authMiddleware. rewrite TrimPrefix_bearer, String.eqb_refl. cbn [negb]. unfold handleVerify.
  change (rq_Version (utf8_request (probe_request t)) =? ProtocolVersion) with true. cbn [negb].
  assert (tw_Email (rq_Task (utf8_request (probe_request t))) <> "") as Hne by (intros E; by apply He, utf8_empty).
  rewrite (proj2 (String.eqb_neq _ _) Hne). change (rq_Task (utf8_request (probe_request t))) with (utf8_taskwire (TaskToWire t)). rewrite task_arrives.
  by destruct (sv_engine s (utf8_task t) (binding s)) as [[v sigs]|e].
Qed.

(** C38: A remote probe over the wire: the bytes the client sends are decoded by
    the agent to the task, and the bytes the agent answers to the verdict and the
    signals of its engine, stamped with the agent's identity; strings that are
    not UTF-8 arrive with U+FFFD in place of their bad bytes, everything else as
    it was, confidence and time included.  An engine error arrives as an error,
    and so does an answer that cannot be written. *)
Theorem remote_probe_over_wire {Er} (s : Server Er) zone c t b :
  cl_token c = sv_token s -> Task_Email t <> "" -> fits e_VerifyRequest maxBody (probe_request t) ->
  match sv_engine s (utf8_task t) (binding s) with
  | Err _ => Client_Verify (wire_post zone s) c t b = Err (ErrStatus 502)
  | Ok (v, sigs) =>
      (printable zone v -> Forall (fun sg => int64_ok (Signal_Code sg) = true) sigs ->
       fits (e_VerifyResponse zone) maxBody (probe_response s v sigs) ->
       Client_Verify (wire_post zone s) c t b = Ok (utf8_verdict (set_EgressID (id_ID (sv_identity s)) v), utf8_signal <$> sigs)) /\
      (e_VerifyResponse zone (probe_response s v sigs) = None -> Client_Verify (wire_post zone s) c t b = Err ErrDecode)
  end.
Proof.
  intros Ht He (text & Hm & Hl). pose proof (serve_request s zone t text He Hm Hl) as Hs.
  unfold Client_Verify, wire_post. fold (probe_request t). rewrite Hm, Ht, Hs.
  destruct (sv_engine s (utf8_task t) (binding s)) as [[v sigs]|e]; [|done]. split.
  - intros Hp Hc (text' & Hm' & Hl'). cbn [read_body].
    rewrite (Encode_read _ d_VerifyResponse 5 _ (utf8_response (probe_response s v sigs)) maxBody text'); try done.
    + cbn [read_reply utf8_response probe_response rs_Verdict rs_Signals]. by rewrite <- signals_arrive.
    + apply codes_response; [done|exact Hp|]. clear -Hc. unfold probe_response, SignalsToWire. cbn.
      induction Hc; cbn; constructor; auto.
  - intros Hn. cbn [read_body]. unfold Encode, Marshal. by rewrite Hn.
Qed.

(** ** Witness *)

(** An agent whose engine reports a greeting in Latin-1 as it came. *)
Definition ex_latin1 : string := "ol" +:+ of_bytes [ascii_of_N 225].
Definition ex_verdict : Verdict :=
  {| Email := "u@example.com"; Normalized := "u@example.com"; vStatus := StatusDeliverable; vSubStatus := SubValidMailbox;
     Confidence := f64 (95 # 100);
     vChecks := {| Checks_Syntax := {| Syntax_Valid := true |}; Checks_MX := {| MX_Found := true; MX_Records := ["mx.example.com"] |};
                   Checks_Disposable := false; Checks_Role := false; Checks_Free := false; Checks_CatchAll := false;
                   Checks_SMTP := {| SMTP_Probed := true; SMTP_Code := 250; SMTP_Response := ex_latin1 |} |};
     Provider := "custom"; Verdict.Engine := "builtin"; EgressID := ""; Cached := false; CheckedAt := 63850000000 * Second + 5 |}.
Definition ex_agent : Server unit :=
  {| sv_identity := {| id_ID := "r1"; id_IP := ""; id_HELO := "r1.example.net"; id_MailFrom := "v@example.net"; id_Region := ""; id_ASN := "" |};
     sv_engine := fun _ b => Ok (ex_verdict, [{| Signal_Kind := SignalAccepted; Signal_EgressID := binding_ID b;
                                                Signal_Destination := "custom"; Signal_Code := 250; Signal_Detail := "<ok>" |}]);
     sv_token := "s3cret" |}.

Lemma remote_probe_over_wire_witness :
  let t := {| Task_ID := ""; Task_JobID := ""; Task_Email := "u@example.com"; Task_Normalized := "u@example.com";
              Task_Domain := "example.com"; Task_Provider := "custom"; Task_MX := ["mx.example.com"] |} in
  exists v sigs, Client_Verify (wire_post 60 ex_agent) (NewClient "https://r1.example.net/" "s3cret" 0) t (binding ex_agent) = Ok (v, sigs) /\
    SMTP_Response (Checks_SMTP (vChecks v)) = "ol" +:+ of_bytes (AppendRune RuneError) /\ Confidence v = f64 (95 # 100) /\
    CheckedAt v = 63850000000 * Second + 5 /\ EgressID v = "r1" /\ Signal_Detail <$> sigs = ["<ok>"].
Proof.
  intros t.
  pose proof (remote_probe_over_wire ex_agent 60 (NewClient "https://r1.example.net/" "s3cret" 0) t (binding ex_agent) eq_refl) as H.
  assert (He : Task_Email t <> "") by discriminate.
  assert (Hf : fits e_VerifyRequest maxBody (probe_request t)).
  { eexists. split; [reflexivity|]. vm_compute. discriminate. }
  destruct (H He Hf) as [H1 _]. eexists _, _. split; [apply H1|].
  - split; [vm_compute; reflexivity|]. split; [reflexivity|]. split; [lia|]. vm_compute. discriminate.
  - repeat constructor.
  - eexists. split; [vm_compute; reflexivity|]. vm_compute. discriminate.
  - vm_compute. repeat split.
Defined.
