(* ===== verification/Columns.v ===== *)
(** The JSON columns of the PostgreSQL stores: the reputation, the settings and
    the verdicts as the documents [Marshal] writes, and the stores' column
    interface ([Codec], [VerdictDoc]) discharged by them. *)

From Stdlib Require Import QArith.
From S2P Require Import Prelude GoStrings GoConv Float64 GoTime Json GoDate JsonFloat JsonCodec.
From S2P Require Import Builtin Verdict Engine Settings Policy RateLimit Pipeline Health Egress EgressInv EgressSel EgressOps EgressProps EgressLife.
From S2P Require Import Store Memory Restart Verifier Worker Fleet Wire Postgres PostgresProps PostgresLife.
Local Open Scope list_scope.
Local Open Scope Z_scope.

(** ** Settings *)

Definition e_Settings (s : Settings) : option json :=
  e_struct [("probe_rate", true, e_float (ProbeRate s)); ("probe_burst", true, e_float (ProbeBurst s));
            int "job_concurrency" (JobConcurrency s); int "max_emails_per_job" (MaxEmailsPerJob s);
            flag "detect_catch_all" (DetectCatchAll s); int "quarantine_threshold" (QuarantineThreshold s);
            int "circuit_threshold" (CircuitThreshold s)].
Definition d_Settings : decoder Settings :=
  d_struct [("probe_rate", dbad d_float); ("probe_burst", dbad d_float); ("job_concurrency", dbad d_int);
            ("max_emails_per_job", dbad d_int); ("detect_catch_all", dbad d_bool); ("quarantine_threshold", dbad d_int);
            ("circuit_threshold", dbad d_int)]
    (fun h => {| ProbeRate := dval d_float (h "probe_rate"); ProbeBurst := dval d_float (h "probe_burst");
                 JobConcurrency := dval d_int (h "job_concurrency"); MaxEmailsPerJob := dval d_int (h "max_emails_per_job");
                 DetectCatchAll := dval d_bool (h "detect_catch_all"); QuarantineThreshold := dval d_int (h "quarantine_threshold");
                 CircuitThreshold := dval d_int (h "circuit_threshold") |}).

Definition settings_writable (s : Settings) : Prop :=
  finite (ProbeRate s) /\ finite (ProbeBurst s) /\ int64_ok (JobConcurrency s) = true /\ int64_ok (MaxEmailsPerJob s) = true /\
  int64_ok (QuarantineThreshold s) = true /\ int64_ok (CircuitThreshold s) = true.

Lemma codes_settings s : settings_writable s -> codes (e_Settings s) d_Settings 1 s.
Proof. intros (H1 & H2 & H3 & H4 & H5 & H6). destruct s. cbn in H1, H2, H3, H4, H5, H6. codes_struct_tac 0. Qed.

(** ** Reputation *)

(** The members of a map, sorted by their keys. *)
Fixpoint insert_sorted {A} (kv : string * A) (l : list (string * A)) : list (string * A) :=
  match l with
  | [] => [kv]
  | x :: l' => if String.ltb x.1 kv.1 then x :: insert_sorted kv l' else kv :: l
  end.
Definition sorted_members {A} (m : gmap string A) : list (string * A) := foldr insert_sorted [] (map_to_list m).

Definition e_floats (m : gmap string float64) : option json :=
  JObj <$> mapM (fun kv => pair (escape 0 (bytes kv.1)) <$> e_float kv.2) (sorted_members m).

Definition e_EgressState (zone : Z) (s : EgressState) : option json :=
  e_struct [str "id" (es_ID s); str "state" (es_State s); int "warmup_stage" (es_WarmupStage s); int "used_today" (es_UsedToday s);
            ("last_reset", true, e_time zone (es_LastReset s)); int "block_streak" (es_BlockStreak s);
            ("quarantined_until", true, e_time zone (es_QuarantinedUntil s)); str_opt "quarantine_reason" (es_QuarantineReason s);
            ("health", bool_decide (es_Health s <> ∅), e_floats (es_Health s))].
Definition d_EgressState : decoder EgressState :=
  d_struct [("id", dbad d_string); ("state", dbad d_string); ("warmup_stage", dbad d_int); ("used_today", dbad d_int);
            ("last_reset", dbad d_time); ("block_streak", dbad d_int); ("quarantined_until", dbad d_time);
            ("quarantine_reason", dbad d_string); ("health", dbad d_floats)]
    (fun h => {| es_ID := dval d_string (h "id"); es_State := dval d_string (h "state"); es_WarmupStage := dval d_int (h "warmup_stage");
                 es_UsedToday := dval d_int (h "used_today"); es_LastReset := dval d_time (h "last_reset");
                 es_BlockStreak := dval d_int (h "block_streak"); es_QuarantinedUntil := dval d_time (h "quarantined_until");
                 es_QuarantineReason := dval d_string (h "quarantine_reason"); es_Health := dval d_floats (h "health") |}).

Definition state_writable (zone : Z) (s : EgressState) : Prop :=
  valid_utf8 (es_ID s) /\ valid_utf8 (es_State s) /\ valid_utf8 (es_QuarantineReason s) /\
  int64_ok (es_WarmupStage s) = true /\ int64_ok (es_UsedToday s) = true /\ int64_ok (es_BlockStreak s) = true /\
  dated_time zone (es_LastReset s) /\ dated_time zone (es_QuarantinedUntil s) /\
  map_Forall (fun k x => valid_utf8 k /\ finite x) (es_Health s).

#[global] Instance state_writable_dec zone s : Decision (state_writable zone s).
Proof. unfold state_writable, dated_time. apply _. Defined.

Lemma insert_sorted_perm {A} (kv : string * A) l : insert_sorted kv l ≡ₚ kv :: l.
Proof.
  induction l as [|x l IH]; cbn [insert_sorted]; [done|]. destruct (String.ltb x.1 kv.1); [|done]. rewrite IH. by constructor.
Qed.
Lemma sorted_members_perm {A} (m : gmap string A) : sorted_members m ≡ₚ map_to_list m.
Proof. unfold sorted_members. induction (map_to_list m) as [|x l IH]; cbn; [done|]. by rewrite insert_sorted_perm, IH. Qed.

Lemma fold_insert (l : list (string * float64)) (acc : gmap string float64) :
  NoDup l.*1 -> fold_left (fun acc kv => <[kv.1 := kv.2]> acc) l acc = list_to_map l ∪ acc.
Proof.
  revert acc. induction l as [|[k x] l IH]; intros acc Hn; cbn in *; [by rewrite (left_id_L ∅ (∪))|].
  apply list.NoDup_cons in Hn as [Hk Hn]. rewrite IH by done. rewrite <- insert_union_l.
  symmetry. apply insert_union_r. by apply not_elem_of_list_to_map.
Qed.

Lemma codes_floats m : map_Forall (fun k x => valid_utf8 k /\ finite x) m -> codes (e_floats m) d_floats 1 m.
Proof.
  intros H. apply map_Forall_to_list in H. rewrite <- (sorted_members_perm m) in H.
  assert (Hms : exists ms, mapM (fun kv => pair (escape 0 (bytes kv.1)) <$> e_float kv.2) (sorted_members m) = Some ms /\
    foldr (fun m acc => escaped m.1 /\ encoded m.2 /\ acc) True ms /\ foldr (fun m acc => Z.max (nesting m.2) acc) 0 ms <= 0 /\
    existsb (fun m => dbad d_float m.2) ms = false /\
    forall acc : gmap string float64, fold_left (fun acc m => <[of_bytes (unquote 0 m.1) := dval d_float [m.2]]> acc) ms acc
                = fold_left (fun acc kv => <[kv.1 := kv.2]> acc) (sorted_members m) acc).
  { induction H as [|[k x] l [Hk Hx] _ (ms & M1 & M2 & M3 & M4 & M5)]; [by exists []|]. cbn [fst snd] in *.
    destruct (codes_float x Hx) as (j & J1 & J2 & J3 & J4 & J5). exists ((escape 0 (bytes k), j) :: ms).
    cbn -[dval dbad e_float escape]. rewrite J1. cbn -[dval dbad e_float escape]. rewrite M1. cbn -[dval dbad e_float escape]. split; [done|]. split; [split; [by exists (bytes k)|done]|].
    split; [lia|]. rewrite J4, M4. split; [done|]. intros acc. rewrite M5, unquote_valid by done. by rewrite J5. }
  destruct Hms as (ms & M1 & M2 & M3 & M4 & M5). exists (JObj ms). unfold e_floats. rewrite M1. split; [done|]. split; [done|].
  split; [cbn; lia|]. split; [done|]. cbn -[dval fold_left]. change (fold_left (fun acc m => <[of_bytes (unquote 0 m.1) := dval d_float [m.2]]> acc) ms ∅ = m).
  rewrite M5, fold_insert.
  - rewrite (right_id_L ∅ (∪)). transitivity (list_to_map (map_to_list m) : gmap string float64); [|apply list_to_map_to_list].
    apply list_to_map_proper; [|by apply sorted_members_perm]. rewrite sorted_members_perm. apply NoDup_fst_map_to_list.
  - rewrite sorted_members_perm. apply NoDup_fst_map_to_list.
Qed.
#[local] Hint Resolve codes_floats : codes.

Lemma codes_state zone s : state_writable zone s -> codes (e_EgressState zone s) d_EgressState 2 s.
Proof.
  intros (H1 & H2 & H3 & H4 & H5 & H6 & H7 & H8 & H9). apply (codes_struct _ _ 1); [lia|codes_members|].
  intros h Hh. rewrite !Hh. destruct s as [id st ws ut lr bs qu qr hm]. cbn [es_ID es_State es_WarmupStage es_UsedToday es_LastReset
    es_BlockStreak es_QuarantinedUntil es_QuarantineReason es_Health] in *.
  cbn [pick str str_opt int int_opt flag list_opt fst snd String.eqb Ascii.eqb Bool.eqb app]. rewrite ?app_nil_r.
  f_equal; try (by eapply dval_present; eauto with codes).
  - rewrite (dval_present _ _ _ _ (codes_string id)). by apply utf8_valid.
  - rewrite (dval_present _ _ _ _ (codes_string st)). by apply utf8_valid.
  - rewrite dval_str_opt. by apply utf8_valid.
  - destruct (bool_decide (hm <> ∅)) eqn:E; [by eapply dval_present; eauto with codes|].
    apply bool_decide_eq_false in E. assert (hm = ∅) as -> by (by apply dec_stable). done.
Qed.

(** ** Documents read back *)

(** C39: What the program writes as JSON it reads back, whatever zone the process
    runs in: a verdict with a finite confidence and a time JSON can write is
    written, and read back as it was but for bytes that are not UTF-8, which come
    back as U+FFFD; settings with finite numbers come back as they were; and so
    does the reputation of an identity whose strings are valid UTF-8, whose scores
    are finite and whose times JSON can write, its times and scores exact.  Each
    document is accepted as a whole, with nothing lost to repeated or missing
    members. *)
Theorem documents_roundtrip zone v s st :
  printable zone v -> settings_writable s -> state_writable zone st ->
  (exists text, Marshal (e_Verdict zone) v = Some text /\ Unmarshal d_Verdict text = Some (utf8_verdict v)) /\
  (exists text, Marshal e_Settings s = Some text /\ Unmarshal d_Settings text = Some s) /\
  (exists text, Marshal (e_EgressState zone) st = Some text /\ Unmarshal d_EgressState text = Some st).
Proof.
  intros Hv Hs Hst. split; [|split].
  - apply (Unmarshal_Marshal _ _ 4); [by apply codes_verdict|done].
  - apply (Unmarshal_Marshal _ _ 1); [by apply codes_settings|done].
  - apply (Unmarshal_Marshal _ _ 2); [by apply codes_state|done].
Qed.

(** ** Columns *)

(** A JSONB column refuses a document with a NUL character in one of its
    strings, which JSON itself can write. *)
Definition no_nul (raw : list ascii) : bool := forallb (fun a => negb (byte_val a =? 0)) (unquote 0 raw).
Fixpoint jsonb_accepts (j : json) : bool :=
  match j with
  | JStr raw => no_nul raw
  | JArr l => forallb jsonb_accepts l
  | JObj ms => forallb (fun m => no_nul m.1 && jsonb_accepts m.2) ms
  | _ => true
  end.

(** A value written into such a column: an error of [Marshal] and one of the
    database both leave the column as it was. *)
Definition jsonb {A} (e : A -> option json) (a : A) : option (list ascii) :=
  j ← e a; if jsonb_accepts j then Some (print j) else None.
Definition accepted (o : option json) : Prop := match o with Some j => jsonb_accepts j = true | None => False end.
#[global] Instance accepted_dec o : Decision (accepted o).
Proof. destruct o; apply _. Defined.

Lemma jsonb_law {A B} (e : A -> option json) (d : decoder B) depth a b :
  codes (e a) d depth b -> depth <= maxNestingDepth -> accepted (e a) -> exists text, jsonb e a = Some text /\ Unmarshal d text = Some b.
Proof.
  intros H Hd Ha. destruct (Unmarshal_Marshal e d depth a b H Hd) as (t & H1 & H2). exists t. split; [|done].
  unfold jsonb, Marshal in *. destruct (e a) as [j|]; [|done]. cbn in *. by rewrite Ha.
Qed.

Lemma jsonb_member j name x : jsonb_accepts j = true -> get_member name j = Some x -> jsonb_accepts x = true.
Proof.
  intros Ha Hx. destruct j as [| | | | |ms]; try done. cbn [jsonb_accepts get_member] in *. rewrite forallb_forall in Ha.
  apply last_Some_elem_of, list_elem_of_omap in Hx as (m & Hm & Hx). case_match; [|done]. injection Hx as <-.
  apply list_elem_of_In, Ha, andb_true_iff in Hm. apply Hm.
Qed.

(** Bytes of ASCII survive the replacement of what is not UTF-8. *)
Lemma to_valid_ascii a k l : byte_val a < 128 -> a ∈ l -> a ∈ to_valid k l.
Proof.
  intros Ha. revert k. induction l as [|b l IH]; intros k Hin; [by apply not_elem_of_nil in Hin|].
  apply elem_of_cons in Hin as [<-|Hin]; cbn [to_valid].
  - destruct k; [rewrite rune_len_ascii by done|]; apply elem_of_cons; by left.
  - destruct k as [|k]; [destruct (rune_len (b :: l)); [apply elem_of_app; right; by apply IH|]|]; apply elem_of_cons; right; by apply IH.
Qed.

(** [doc->>name] and [doc->name] of a document, and a boolean's text. *)
Definition select_text (name : string) (j : json) : option string :=
  match get_member name j with Some (JStr raw) => Some (of_bytes (unquote 0 raw)) | _ => None end.
Definition select_bool (name : string) (j : json) : option bool := match get_member name j with Some (JBool b) => Some b | _ => None end.

(** The verdicts a column gives back as they were. *)
Definition verdict_storable (zone : Z) (v : Verdict) : Prop :=
  printable zone v /\ utf8_verdict v = v /\ accepted (e_Verdict zone v).

(** The verdicts of the program: a code of 64 bits, a confidence that is a
    float64, and a zone of less than a day. *)
Definition verdict_sized (zone : Z) (v : Verdict) : Prop :=
  int64_ok (SMTP_Code (Checks_SMTP (vChecks v))) = true /\ -1440 < zone < 1440 /\
  match Confidence v with Fin q => finite (Fin q) | _ => True end.

(** What a database selects from a written struct. *)
Lemma get_written l j name :
  e_struct l = Some j -> forallb (fun m => plain_name m.1.1) l = true -> get_member name j = list.last (pick name l).
Proof.
  intros Hj Hl. unfold e_struct in Hj. apply fmap_Some in Hj as (ms & Hms & ->). cbn [get_member]. f_equal.
  revert ms Hms. induction l as [|[[n b] o] l IH]; intros ms Hms; [change (Some [] = Some ms) in Hms; by injection Hms as <-|].
  cbn in Hl. apply andb_true_iff in Hl as [Hn Hl]. specialize (IH Hl). unfold written in Hms. cbn in Hms. cbn [pick fst snd].
  destruct b; [|rewrite (IH ms Hms); by destruct (String.eqb name n)]. cbn in Hms.
  destruct o as [x|]; [|done]. cbn in Hms. apply bind_Some in Hms as (ms' & Hms' & Hms). change (Some ((bytes n, x) :: ms') = Some ms) in Hms. injection Hms as <-.
  specialize (IH ms' Hms'). cbn -[is_key bytes]. rewrite is_key_plain by done. rewrite <- IH. by destruct (String.eqb name n).
Qed.

Lemma written_some l j n o : e_struct l = Some j -> (n, true, o) ∈ l -> is_Some o.
Proof.
  intros Hj Hin. unfold e_struct in Hj. apply fmap_Some in Hj as (ms & Hms & _). apply mapM_Some_1 in Hms.
  assert (Hw : (bytes n, o) ∈ written l) by (unfold written; apply list_elem_of_omap; by exists (n, true, o)).
  apply list_elem_of_lookup in Hw as [i Hi]. destruct (Forall2_lookup_l _ _ _ _ _ Hms Hi) as (m & _ & Hm). apply fmap_Some in Hm as (x & Hx & _). by exists x.
Qed.

Lemma sized_printable zone v j : verdict_sized zone v -> e_Verdict zone v = Some j -> printable zone v.
Proof.
  intros (H1 & H2 & H3) Hj. unfold printable, dated_time.
  destruct (written_some _ j "confidence" (e_float (Confidence v)) Hj) as [jf Hf]; [repeat (left || right)|].
  destruct (written_some _ j "checked_at" (e_time zone (CheckedAt v)) Hj) as [jt Ht]; [repeat (left || right)|].
  split; [by destruct (Confidence v)|]. split; [done|]. split; [done|]. intros E. unfold e_time in Ht. by rewrite E in Ht.
Qed.

Lemma Status_String_of s : Status_String (Status_of s) = s.
Proof.
  unfold Status_of. repeat match goal with |- context [String.eqb s ?t] => destruct (String.eqb_spec s t) as [->|_]; [done|] end. done.
Qed.
Lemma SubStatus_String_of s : SubStatus_String (SubStatus_of s) = s.
Proof.
  unfold SubStatus_of. destruct (List.find _ _) as [x|] eqn:E; [|done]. apply List.find_some in E as [_ E].
  by apply String.eqb_eq in E as ->.
Qed.

Lemma verdict_members zone v j : printable zone v -> e_Verdict zone v = Some j ->
  select_text "status" j = Some (utf8 (Status_String (vStatus v))) /\
  select_text "sub_status" j = Some (utf8 (SubStatus_String (vSubStatus v))) /\
  select_text "provider" j = (if String.eqb (Provider v) "" then None else Some (utf8 (Provider v))) /\
  (c ← get_member "checks" j; x ← get_member "smtp" c; select_bool "probed" x) = Some (SMTP_Probed (Checks_SMTP (vChecks v))).
Proof.
  intros (_ & H2 & _) Hj. destruct (codes_checks (vChecks v) H2) as (jc & Hjc & _). destruct (codes_smtp (Checks_SMTP (vChecks v)) H2) as (js & Hjs & _).
  assert (Hu : forall x, of_bytes (unquote 0 (escape 0 (bytes x))) = utf8 x) by (intros x; by rewrite unquote_escape).
  unfold select_text, select_bool. rewrite !(get_written _ j _ Hj) by reflexivity. split; [|split; [|split]].
  - by rewrite <- Hu.
  - by rewrite <- Hu.
  - cbn [pick str str_opt flag fst snd String.eqb Ascii.eqb Bool.eqb app]. rewrite <- Hu. by destruct (String.eqb (Provider v) "").
  - cbn [pick str str_opt flag fst snd String.eqb Ascii.eqb Bool.eqb app]. rewrite Hjc.
    change (list.last (option_list (Some jc) ++ [])) with (Some jc). cbn [mbind option_bind].
    rewrite (get_written _ jc _ Hjc) by reflexivity. cbn [pick flag fst snd String.eqb Ascii.eqb Bool.eqb app]. rewrite Hjs.
    change (list.last (option_list (Some js) ++ [])) with (Some js). cbn [mbind option_bind].
    by rewrite (get_written _ js _ Hjs).
Qed.

Section Column.
Variable zone : Z.

#[global] Program Instance json_verdicts : VerdictDoc (list ascii) := {|
  vd_codec := {| marshal := jsonb (e_Verdict zone); unmarshal := Unmarshal d_Verdict; storable := verdict_storable zone |};
  sized := verdict_sized zone; kept := utf8_verdict;
  doc_status t := j ← only_value t; select_text "status" j;
  doc_sub_status t := j ← only_value t; select_text "sub_status" j;
  doc_provider t := j ← only_value t; select_text "provider" j;
  doc_probed t := j ← only_value t; c ← get_member "checks" j; x ← get_member "smtp" c; select_bool "probed" x;
|}.
Next Obligation.
  intros v (Hp & Hu & Ha). destruct (jsonb_law (e_Verdict zone) d_Verdict 4 v _ (codes_verdict zone v Hp) ltac:(done) Ha) as (t & H1 & H2).
  exists t. split; [done|]. by rewrite H2, Hu.
Qed.
Next Obligation.
  intros v ((H1 & H2 & H3 & _) & Hu & _). split; [|done]. split; [done|]. split; [done|]. by destruct (Confidence v).
Qed.
Next Obligation.
  intros v t Hs Hm. change (jsonb (e_Verdict zone) v = Some t) in Hm. change (Unmarshal d_Verdict t = Some (utf8_verdict v)).
  unfold jsonb in Hm. destruct (e_Verdict zone v) as [j|] eqn:Hj; [|done]. pose proof (sized_printable zone v j Hs Hj) as Hp.
  destruct (Unmarshal_Marshal (e_Verdict zone) d_Verdict 4 v _ (codes_verdict zone v Hp) ltac:(done)) as (t' & H1 & H2).
  unfold Marshal in H1. rewrite Hj in H1. cbn in H1, Hm. destruct (jsonb_accepts j); [|done]. congruence.
Qed.
Next Obligation.
  intros v t Hs Hm. cbn [doc_status doc_sub_status doc_provider doc_probed kept]. change (jsonb (e_Verdict zone) v = Some t) in Hm.
  unfold jsonb in Hm. destruct (e_Verdict zone v) as [j|] eqn:Hj; [|done]. pose proof (sized_printable zone v j Hs Hj) as Hp.
  destruct (codes_verdict zone v Hp) as (j' & Hj' & He & Hn & _). assert (j' = j) as -> by congruence.
  cbn in Hm. destruct (jsonb_accepts j); [|done]. apply (inj Some) in Hm. subst t.
  rewrite only_printed by (done || unfold maxNestingDepth; lia). cbn [mbind option_bind].
  destruct (verdict_members zone v j Hp Hj) as (-> & -> & -> & ->).
  unfold utf8_verdict. cbn [vStatus vSubStatus Provider vChecks utf8_checks utf8_smtp Checks_SMTP SMTP_Probed].
  rewrite Status_String_of, SubStatus_String_of. repeat split.
  destruct (String.eqb_spec (Provider v) "") as [->|Hne]; [done|].
  destruct (String.eqb_spec (utf8 (Provider v)) "") as [Hu|_]; [by apply utf8_empty in Hu|done].
Qed.

#[global] Program Instance json_states : Codec EgressState (list ascii) :=
  {| marshal := jsonb (e_EgressState zone); unmarshal := Unmarshal d_EgressState;
     storable s := state_writable zone s /\ accepted (e_EgressState zone s) |}.
Next Obligation. intros s [Hs Ha]. apply (jsonb_law _ _ 2); [by apply codes_state|done..]. Qed.

(** A mail server's reply with a NUL byte cannot be stored with its verdict: the
    result is refused and the tables stay as they were. *)
Theorem nul_reply_refused `{PgTime} ok now id r t :
  (exists a, a ∈ bytes (SMTP_Response (Checks_SMTP (vChecks (res_Verdict r)))) /\ byte_val a = 0) ->
  pg_AppendResult (HD := json_verdicts) ok now id r t = (Err JSONError, t).
Proof.
  intros (a & Hin & Ha). set (v := res_Verdict r) in *. unfold pg_AppendResult. fold v.
  enough (jsonb (e_Verdict zone) v = None) as E by (cbn [marshal vd_codec json_verdicts]; by rewrite E).
  unfold jsonb. destruct (e_Verdict zone v) as [j|] eqn:Hj; [|done]. cbn [mbind option_bind].
  destruct (jsonb_accepts j) eqn:Hacc; [|done]. exfalso.
  destruct (written_some _ j "checks" (e_Checks (vChecks v)) Hj) as [jc Hjc]; [repeat (left || right)|].
  destruct (written_some _ jc "smtp" (e_SMTPCheck (Checks_SMTP (vChecks v))) Hjc) as [js Hjs]; [repeat (left || right)|].
  assert (G1 : get_member "checks" j = Some jc).
  { rewrite (get_written _ j _ Hj) by reflexivity. cbn [pick str str_opt flag fst snd String.eqb Ascii.eqb Bool.eqb app]. by rewrite Hjc. }
  assert (G2 : get_member "smtp" jc = Some js).
  { rewrite (get_written _ jc _ Hjc) by reflexivity. cbn [pick flag fst snd String.eqb Ascii.eqb Bool.eqb app]. by rewrite Hjs. }
  set (resp := SMTP_Response (Checks_SMTP (vChecks v))) in *.
  assert (G3 : get_member "response" js = Some (JStr (escape 0 (bytes resp)))).
  { rewrite (get_written _ js _ Hjs) by reflexivity. cbn [pick str_opt int_opt flag fst snd String.eqb Ascii.eqb Bool.eqb app]. fold resp.
    destruct (String.eqb_spec resp "") as [E|_]; [|done]. rewrite E in Hin. by apply not_elem_of_nil in Hin. }
  pose proof (jsonb_member _ _ _ (jsonb_member _ _ _ (jsonb_member _ _ _ Hacc G1) G2) G3) as N.
  cbn [jsonb_accepts] in N. unfold no_nul in N. rewrite unquote_escape, forallb_forall in N.
  specialize (N a (proj1 (list_elem_of_In _ _) (to_valid_ascii a 0 _ ltac:(lia) Hin))). rewrite Ha in N. done.
Qed.
End Column.

(** The engine keeps such a byte in the response it reports. *)
Example nul_reply_reported : let msg := of_bytes (bytes "no such" ++ [ascii_of_N 0; "u"%char]) in shortResponse msg = msg.
Proof. reflexivity. Qed.

#[global] Program Instance json_settings : Codec Settings (list ascii) :=
  {| marshal := jsonb e_Settings; unmarshal := Unmarshal d_Settings; storable := settings_writable |}.
Next Obligation.
  intros s Hs. pose proof (codes_settings s Hs) as C. apply (jsonb_law _ _ 1); [done..|]. destruct C as (j & Hj & _).
  rewrite Hj. unfold e_Settings, e_float in Hj. destruct (float_text (ProbeRate s)); [|done]. destruct (float_text (ProbeBurst s)); [|done].
  apply (inj Some) in Hj. by subst j.
Qed.

(** ** Witnesses *)

Lemma documents_roundtrip_witness :
  let st := {| es_ID := "direct"; es_State := "quarantined"; es_WarmupStage := 2; es_UsedToday := 17; es_LastReset := 63850000000 * Second;
               es_BlockStreak := 3; es_QuarantinedUntil := 63850003600 * Second; es_QuarantineReason := "dnsbl:zen";
               es_Health := {[ "gmail" := f64 (7 # 10) ]} |} in
  exists text, Marshal (e_EgressState 0) st = Some text /\ Unmarshal d_EgressState text = Some st.
Proof.
  intros st. refine (proj2 (proj2 (documents_roundtrip 0 Wire.ex_verdict Settings.Default st _ _ _))).
  - split; [vm_compute; reflexivity|]. split; [reflexivity|]. split; [lia|]. vm_compute. discriminate.
  - repeat split; vm_compute; reflexivity.
  - unfold state_writable. do 6 (split; [vm_compute; reflexivity|]). split; [split; [lia|vm_compute; discriminate]|].
    split; [split; [lia|vm_compute; discriminate]|]. apply map_Forall_singleton. split; vm_compute; reflexivity.
Defined.

(** The states of a pool as the texts of a column, in UTC. *)
#[local] Instance ex_column : Codec EgressState (list ascii) := json_states 0.

(** A pool of [a], [b] and a remote agent's identity, saved over the rows of two
    identities of earlier pools, and a next process configured with [a], [b] and
    one of the two. *)
Definition ex_left (id : string) : EgressState :=
  {| es_ID := id; es_State := "active"; es_WarmupStage := 4; es_UsedToday := 7; es_LastReset := ex_start;
     es_BlockStreak := 1; es_QuarantinedUntil := 0; es_QuarantineReason := ""; es_Health := {[ "gmail" := f64 (1 # 2) ]} |}.

Definition ex_left_states : gmap string EgressState := {[ "old" := ex_left "old"; "gone" := ex_left "gone" ]}.
Definition ex_left_rows : gmap string (list ascii) := (fun s => default [] (marshal s)) <$> ex_left_states.

Definition ex_next : Egress.Config :=
  {| Egress.cfg_Identities := [ex_spec "a" false; ex_spec "b" true; ex_spec "old" true];
     Egress.cfg_HealthAlpha := f64 0; Egress.cfg_CircuitThreshold := 0; Egress.cfg_CircuitCooldown := 0;
     Egress.cfg_QuarantineThreshold := 0; Egress.cfg_QuarantineCooldown := 0; Egress.cfg_WarmupStages := [];
     Egress.cfg_ActiveDailyCap := 0 |}.

Lemma ex_left_refines : egress_refines ex_left_rows ex_left_states.
Proof.
  assert (Hs : map_Forall (fun _ s => state_writable 0 s /\ accepted (e_EgressState 0 s)) ex_left_states).
  { apply map_Forall_to_list.
    assert (Hf : Forall (fun ks => state_writable 0 ks.2 /\ accepted (e_EgressState 0 ks.2)) (map_to_list ex_left_states))
      by (refine (bool_decide_eq_true_1 _ _); vm_compute; reflexivity).
    rewrite list.Forall_forall in Hf. apply list.Forall_forall. intros [k x] Hin. exact (Hf _ Hin). }
  intros id. unfold ex_left_rows. rewrite lookup_fmap. destruct (ex_left_states !! id) as [s|] eqn:E; [|constructor].
  destruct (@codec_law EgressState (list ascii) ex_column s (Hs id s E)) as (j & Hj & _). constructor. split; [exact (Hs id s E)|]. by rewrite Hj.
Qed.

Lemma postgres_restart_witness :
  let m := Quarantine "b" "manual" ex_start (AddIdentity (ex_spec "remote" false) ex_start ex_mgr) in
  exists l (t1 : gmap string (list ascii)) loaded,
    Snapshot m = Some l /\ pg_SaveEgress true true (fun _ => true) l ex_left_rows = (Ok tt, t1) /\
    pg_LoadEgress true (map_to_list t1).*2 = Ok loaded /\
    (let m1 := Restore loaded (New ex_next (ex_start + Hour)) in
     order m1 = ["a"; "b"; "old"] /\
     option_Forall2 (found m ex_left_states "b") (records (New ex_next (ex_start + Hour)) !! "b") (records m1 !! "b") /\
     option_Forall2 (found m ex_left_states "old") (records (New ex_next (ex_start + Hour)) !! "old") (records m1 !! "old") /\
     records (AddIdentity (ex_spec "remote" false) 9 m1) !! "remote" = Some (fresh_record (ex_spec "remote" false) 9)).
Proof.
  intros m. assert (W : mgr_wf m) by (apply Quarantine_wf, AddIdentity_wf, ex_mgr_wf).
  destruct (Snapshot_total m W) as (l & Hl & _).
  destruct (postgres_restart m l ex_next (ex_start + Hour) ex_left_rows ex_left_states W) as [(t1 & Ht1 & Hload) _].
  - apply map_Forall_to_list. vm_compute. repeat constructor; discriminate.
  - exact Hl.
  - set (ok s := state_writable 0 s /\ accepted (e_EgressState 0 s)).
    assert (Hw : Forall ok (default [] (Snapshot m)))
      by (apply (bool_decide_eq_true_1 (Forall ok (default [] (Snapshot m)))); vm_compute; reflexivity).
    rewrite Hl in Hw. exact Hw.
  - exact ex_left_refines.
  - apply map_Forall_to_list. vm_compute. repeat constructor.
  - destruct (Hload _ (Permutation_refl _)) as (loaded & H1 & Ho & Hf & Hlate). exists l, t1, loaded.
    split; [exact Hl|]. split; [exact Ht1|]. split; [exact H1|]. split; [exact Ho|].
    split; [exact (Hf "b")|]. split; [exact (Hf "old")|]. apply (Hlate (ex_spec "remote" false) 9). reflexivity.
Defined.
