(* ===== verification/RunnerPg.v ===== *)
(** The bulk runner over the PostgreSQL store.

    The tables are a store of jobs ([pg_jobs]), so the runner of [Runner.v] runs
    over them; a statement that fails is one of its failing events.  Every such
    run is simulated by a run over the in-memory store whose verdicts are the
    documents' ([kept]) and in which a verdict that has no document is refused,
    so the guarantees of [RunnerProps.v] hold over the database. *)

From Stdlib Require Import QArith.
From S2P Require Import Prelude GoStrings GoConv Float64 GoTime Verdict Engine Settings Egress Store Memory.
From S2P Require Import Json JsonFloat JsonCodec Wire Columns.
From S2P Require Import Builtin Runner RunnerProps RunnerCases Postgres PostgresProps PostgresLife.
Local Open Scope list_scope.
Local Open Scope Z_scope.

(** ** The tables as a store of jobs *)

Section Store.
Context {J : Type} `{HD : VerdictDoc J} `{HT : PgTime}.
Abbreviation tables := (Postgres.tables (J := J)).

(** A call's answer with the tables it leaves. *)
Definition outcome (a : result pg_error unit * tables) : result pg_error tables :=
  match a with (Ok _, t) => Ok t | (Err e, _) => Err e end.

#[global] Instance pg_jobs : JobStoreOps tables pg_error := {|
  js_empty := no_tables;
  js_Create job t := outcome (pg_CreateJob true job t);
  js_Get id t := pg_GetJob true id t;
  js_Append now id r t := outcome (pg_AppendResult (fun _ => true) now id r t);
  js_SetStatus now id s t := outcome (pg_SetStatus true now id s t) |}.

(** Whatever statements of a call fail, it does what it does when none fails, or
    returns an error and changes nothing. *)
Lemma failing_append ok now id r t :
  pg_AppendResult ok now id r t = pg_AppendResult (fun _ => true) now id r t \/ exists e, pg_AppendResult ok now id r t = (Err e, t).
Proof.
  unfold pg_AppendResult, transact. destruct (marshal (res_Verdict r)) as [raw|]; [|by left].
  destruct (ok 0%nat), (ok 1%nat); cbn [negb orb]; try (right; by eexists). destruct (t_jobs t !! id) as [j|]; [|by left].
  destruct (int4_ok (jr_done j + 1)); cbn [negb]; [|by left]. destruct (t_results _ !! _); [by left|].
  destruct (ok 2%nat); cbn [negb]; [|right; by eexists].
  destruct (negb (String.eqb _ _) && _); [destruct (ok 3%nat); cbn [negb]; [|right; by eexists]|];
    (destruct (ok 4%nat); cbn [negb]; [by left|right; by eexists]).
Qed.
End Store.

(** ** The simulation *)

Section Simulation.
Context `{HU : UnicodeTables} {J : Type} `{HD : VerdictDoc J} `{HT : PgTime}.
Abbreviation tables := (Postgres.tables (J := J)).
Variable answer : string -> string -> option Verdict.
Variable failed_at : string -> string -> Time.
Local Abbreviation recorded := (recorded answer failed_at).

(** The verdicts a run over the tables records, as the tables keep them. *)
Definition kept_answer (id email : string) : option Verdict := Some (kept (recorded id email)).

Definition kept_worker (w : worker) : worker :=
  match w with Verifying email => Verifying email | Recording email todo => Recording email (kept_result <$> todo) end.
Definition kept_proc (p : proc) : proc := with_workers (p_order p) (kept_worker <$> p_workers p) p.

(** Results still to be recorded are those of the job. *)
Definition own_todo (id : string) (w : worker) : Prop :=
  match w with Verifying _ => True | Recording _ todo => Forall (fun x => exists email, res_Verdict x = recorded id email) todo end.

Record sim (q : runner_of tables) (r : Runner) : Prop := {
  sm_store : refines (r_store q) (r_store r);
  sm_totals : map_Forall (fun _ e => int4_ok (job_Total (je_job e)) = true) (r_store r);
  sm_concurrency : r_concurrency r = r_concurrency q;
  sm_maxEmails : r_maxEmails r = r_maxEmails q;
  sm_cancels : r_cancels r = r_cancels q;
  sm_calls : r_calls r = r_calls q;
  sm_procs : r_procs r = kept_proc <$> r_procs q;
  sm_todo : map_Forall (fun id p => Forall (own_todo id) (p_workers p)) (r_procs q);
}.

(** The events of a run over the tables and of the run that simulates it: they
    are the same but for a result without a document, which is refused, and a
    submission that the database refuses, which leaves nothing. *)
Inductive shadow : list event -> list event -> Prop :=
| shadow_nil : shadow [] []
| shadow_same es es' ev : shadow es es' -> shadow (es ++ [ev]) (es' ++ [ev])
| shadow_refused es es' id i now email :
    shadow es es' -> marshal (recorded id email) = None -> shadow (es ++ [ERecord id i now]) (es' ++ [ERefuse id i])
| shadow_not_created es es' id rows now : shadow es es' -> shadow (es ++ [ESubmit id rows now]) es'.

Lemma shadow_cancel es es' id : shadow es es' -> ECancelRead id ∈ es' -> ECancelRead id ∈ es.
Proof. induction 1; set_solver. Qed.

Lemma shadow_refusals es es' id :
  shadow es es' -> (forall email, is_Some (marshal (recorded id email))) -> refusals id es' = refusals id es.
Proof.
  intros H Hd. induction H as [|es es' ev _ IH|es es' id' i now email _ IH Hn|es es' id' rows now _ IH]; [done| | |].
  - by rewrite !refusals_snoc, IH.
  - rewrite !refusals_snoc, IH. cbn. case_bool_decide as E; [|lia]. subst id'. destruct (Hd email) as [? E]. congruence.
  - rewrite refusals_snoc, IH. cbn. lia.
Qed.

Lemma results_kept id labels email :
  results_of kept_answer failed_at id labels email = kept_result <$> results_of answer failed_at id labels email.
Proof. unfold results_of. rewrite <- list_fmap_compose. done. Qed.

Lemma get_exists t m id e : refines t m -> m !! id = Some e -> exists job, pg_GetJob true id t = Ok job /\ job_Status job = job_Status (je_job e).
Proof. intros R He. rewrite (get_refines t m id R). unfold GetJob. rewrite He. by eexists. Qed.
(** *** The steps of a job *)

Lemma fmap_delete_list {A B} (f : A -> B) i (l : list A) : f <$> delete i l = delete i (f <$> l).
Proof. by rewrite !delete_take_drop, fmap_app, fmap_take, fmap_drop. Qed.

Lemma kept_workers order ws p : kept_proc (with_workers order ws p) = with_workers order (kept_worker <$> ws) (kept_proc p).
Proof. done. Qed.

Lemma slot_free_kept p : slot_free (kept_proc p) = slot_free p.
Proof. unfold slot_free, kept_proc, len. cbn. by rewrite length_fmap. Qed.

Lemma lookup_kept p i : p_workers (kept_proc p) !! i = kept_worker <$> p_workers p !! i.
Proof. apply list_lookup_fmap. Qed.

Lemma own_todo_insert id ws i w : Forall (own_todo id) ws -> own_todo id w -> Forall (own_todo id) (<[i := w]> ws).
Proof. intros H Hw. by apply Forall_insert. Qed.

Lemma own_todo_results id labels email : own_todo id (Recording email (results_of answer failed_at id labels email)).
Proof. cbn. unfold results_of. apply list.Forall_fmap, list.Forall_forall. intros x _. by exists email. Qed.

(** A result is recorded in both stores, or has no document. *)
Lemma record_sim t m id e now x email :
  refines t m -> m !! id = Some e -> len (je_results e) < 2147483647 -> res_Verdict x = recorded id email -> sized (recorded id email) ->
  match js_Append now id x t with
  | Ok t' => refines t' (<[id := append_entry now (kept_result x) e]> m)
  | Err _ => marshal (recorded id email) = None
  end.
Proof.
  intros R He Hl Hx Hs. cbn [js_Append pg_jobs]. destruct (marshal (recorded id email)) as [raw|] eqn:Hm.
  - assert (Hs' : sized (res_Verdict x)) by (by rewrite Hx). assert (Hm' : marshal (res_Verdict x) = Some raw) by (by rewrite Hx).
    destruct (append_kept t m now id x raw R Hs' Hm') as [R' A]; [intros e' He'; congruence|].
    cbn [pg_op mem_op] in *. unfold AppendResult in *. rewrite He in *. destruct (pg_AppendResult _ now id x t) as [[[]|er] t']; cbn in *; done.
  - unfold pg_AppendResult. by rewrite Hx, Hm.
Qed.

Lemma status_sim t m id e now s :
  refines t m -> m !! id = Some e -> known_status s ->
  exists t', js_SetStatus now id s t = Ok t' /\ refines t' (<[id := status_entry now s e]> m).
Proof.
  intros R He Hk. cbn [js_SetStatus pg_jobs]. destruct (status_refines t m now id s R Hk) as [R' A].
  cbn [pg_op mem_op] in *. unfold SetStatus in *. rewrite He in *. destruct (pg_SetStatus true now id s t) as [[[]|er] t']; cbn in *; [eauto|done].
Qed.

(** The event by which the simulating run answers a step of a job. *)
Definition answers (id : string) (ev ev' : event) : Prop :=
  ev' = ev \/ exists i now email, ev = ERecord id i now /\ ev' = ERefuse id i /\ marshal (recorded id email) = None.

Lemma exec_proc_sim id p t m e ev p' t' :
  refines t m -> m !! id = Some e -> (Exists (fun w => match w with Recording _ (_ :: _) => True | _ => False end) (p_workers p) -> len (je_results e) < 2147483647) ->
  (forall email, sized (recorded id email)) -> Forall (own_todo id) (p_workers p) -> event_id ev = Some id ->
  exec_proc answer failed_at id p t ev = Some (p', t') ->
  Forall (own_todo id) (p_workers p') /\
  exists ev' e', answers id ev ev' /\ event_id ev' = Some id /\ job_Total (je_job e') = job_Total (je_job e) /\
    exec_proc kept_answer failed_at id (kept_proc p) m ev' = Some (kept_proc p', <[id := e']> m) /\ refines t' (<[id := e']> m).
Proof.
  intros R He Hl Hs Ho Hid Hx. assert (Hm : <[id := e]> m = m) by (by apply insert_id).
  assert (Hself : forall p1, p' = p1 -> t' = t -> exec_proc kept_answer failed_at id (kept_proc p) m ev = Some (kept_proc p1, m) ->
    exists ev' e', answers id ev ev' /\ event_id ev' = Some id /\ job_Total (je_job e') = job_Total (je_job e) /\
      exec_proc kept_answer failed_at id (kept_proc p) m ev' = Some (kept_proc p', <[id := e']> m) /\ refines t' (<[id := e']> m)).
  { intros p1 -> -> H. exists ev, e. rewrite Hm. split; [by left|]. auto. }
  destruct ev; cbn in Hid; simplify_eq; cbn [exec_proc] in Hx.
  - destruct (p_phase p) eqn:Hph; try done. destruct (p_order p) as [|email rest] eqn:Hor; [done|].
    destruct (slot_free p) eqn:Hf; simplify_eq. split; [cbn; apply Forall_app; split; [done|by constructor]|].
    apply (Hself _ eq_refl eq_refl). rewrite kept_workers, fmap_app. cbn [exec_proc]. rewrite slot_free_kept, Hf.
    change (p_phase (kept_proc p)) with (p_phase p). change (p_order (kept_proc p)) with (p_order p). by rewrite Hph, Hor.
  - destruct (p_phase p) eqn:Hph; try done. destruct (p_done p || _) eqn:Hd; simplify_eq. split; [done|].
    apply (Hself _ eq_refl eq_refl). cbn [exec_proc]. cbn. by rewrite Hph, Hd.
  - destruct (p_workers p !! i) as [[email|]|] eqn:Hi; simplify_eq. split; [apply own_todo_insert; [done|apply own_todo_results]|].
    apply (Hself _ eq_refl eq_refl). cbn [exec_proc]. rewrite lookup_kept, Hi. cbn [fmap option_fmap option_map kept_worker].
    rewrite kept_workers, list_fmap_insert. cbn [kept_worker]. by rewrite results_kept.
  - destruct (p_workers p !! i) as [[|email [|x todo]]|] eqn:Hi; try done.
    pose proof (Forall_lookup_1 _ _ _ _ Ho Hi) as Hw. cbn in Hw. apply list.Forall_cons in Hw as [[em Hem] Hw].
    assert (Hlen : len (je_results e) < 2147483647) by (apply Hl, list.Exists_exists; eexists; split; [by eapply list_elem_of_lookup_2|done]).
    pose proof (record_sim t m id e now x em R He Hlen Hem (Hs em)) as Hr.
    assert (Hlk : p_workers (kept_proc p) !! i = Some (Recording email (kept_result x :: (kept_result <$> todo)))) by (by rewrite lookup_kept, Hi).
    destruct (js_Append now id x t) as [t1|er]; simplify_eq; (split; [by apply own_todo_insert|]).
    + exists (ERecord id i now), (append_entry now (kept_result x) e). split; [by left|]. split; [done|].
      split; [unfold append_entry; by destruct (_ && _)|]. split; [|done].
      cbn [exec_proc]. rewrite Hlk, kept_workers, list_fmap_insert. cbn [js_Append memory_jobs]. unfold AppendResult. by rewrite He.
    + exists (ERefuse id i), e. rewrite Hm. split; [right; by exists i, now, em|]. split; [done|]. split; [done|]. split; [|done].
      cbn [exec_proc]. by rewrite Hlk, kept_workers, list_fmap_insert.
  - destruct (p_workers p !! i) as [[|email [|x todo]]|] eqn:Hi; simplify_eq.
    pose proof (Forall_lookup_1 _ _ _ _ Ho Hi) as Hw. cbn in Hw. apply list.Forall_cons in Hw as [_ Hw].
    split; [by apply own_todo_insert|]. apply (Hself _ eq_refl eq_refl). cbn [exec_proc].
    rewrite lookup_kept, Hi, kept_workers, list_fmap_insert. done.
  - destruct (p_workers p !! i) as [[|email [|]]|] eqn:Hi; simplify_eq. split; [by apply Forall_delete|].
    apply (Hself _ eq_refl eq_refl). cbn [exec_proc]. rewrite lookup_kept, Hi, kept_workers, fmap_delete_list. done.
  - destruct (p_phase p) eqn:Hph; try done. destruct (get_exists t m id e R He) as (job & Hg & Hst).
    cbn [js_Get pg_jobs] in Hx. rewrite Hg in Hx. simplify_eq. split; [done|]. apply (Hself _ eq_refl eq_refl). cbn [exec_proc].
    cbn [p_phase kept_proc with_workers]. rewrite Hph. cbn [js_Get memory_jobs]. unfold GetJob. rewrite He, Hst. done.
  - destruct (p_phase p) eqn:Hph; simplify_eq. split; [done|]. apply (Hself _ eq_refl eq_refl). cbn. by rewrite Hph.
  - destruct (p_phase p) eqn:Hph; try done. destruct (status_sim t m id e now JobCanceled R He eq_refl) as (t1 & Ht & R1).
    rewrite Ht in Hx. simplify_eq. split; [done|]. exists (EMark id now), (status_entry now JobCanceled e).
    split; [by left|]. split; [done|]. split; [done|]. split; [|done]. cbn [exec_proc p_phase kept_proc with_workers].
    rewrite Hph. cbn [js_SetStatus memory_jobs]. unfold SetStatus. by rewrite He.
  - destruct (p_phase p) eqn:Hph; simplify_eq. split; [done|]. apply (Hself _ eq_refl eq_refl). cbn. by rewrite Hph.
Qed.
(** A job with a result to record has room for it. *)
Lemma room_left es r id p e :
  run_inv kept_answer failed_at es r -> r_procs r !! id = Some (kept_proc p) -> r_store r !! id = Some e -> int4_ok (job_Total (je_job e)) = true ->
  Exists (fun w => match w with Recording _ (_ :: _) => True | _ => False end) (p_workers p) -> len (je_results e) < 2147483647.
Proof.
  intros I Hp He Ht Hw. destruct (ri_jobs _ _ _ _ I id _ Hp) as (e' & He' & Hj). assert (e' = e) as -> by congruence.
  apply list.Exists_exists in Hw as (w & Hw & Hc). apply list_elem_of_lookup in Hw as [i Hi].
  destruct w as [|email [|x todo]]; try done.
  assert (Hk : p_workers (kept_proc p) !! i = Some (Recording email (kept_result <$> x :: todo))) by (by rewrite lookup_kept, Hi).
  destruct (worker_active _ _ _ _ _ _ _ _ _ _ _ _ Hj Hk) as [Hcr _].
  destruct (ji_conserved _ _ _ _ _ _ _ _ _ _ Hj Hcr) as (lost & _ & Hcons). apply conserved_len in Hcons.
  assert (Ho : 0 < len (outstanding kept_answer failed_at id (kept_proc p))).
  { unfold outstanding. rewrite <- (take_drop_middle _ _ _ Hk). rewrite fmap_app, fmap_cons, concat_app. cbn [concat owed].
    unfold len. rewrite !length_app. cbn [fmap list_fmap length]. lia. }
  pose proof (len_nonneg lost). rewrite (ji_total _ _ _ _ _ _ _ _ _ _ Hj) in Ht. unfold int4_ok in Ht. bool_to_prop. lia.
Qed.

Lemma sim_proc q r id p : sim q r -> r_procs q !! id = Some p -> r_procs r !! id = Some (kept_proc p).
Proof. intros S Hp. by rewrite (sm_procs q r S), lookup_fmap, Hp. Qed.

Lemma sim_none q r id : sim q r -> r_procs q !! id = None -> r_procs r !! id = None.
Proof. intros S Hp. by rewrite (sm_procs q r S), lookup_fmap, Hp. Qed.

(** A step of one job keeps the relation. *)
Lemma sim_set q r id p t m :
  sim q r -> refines t m -> map_Forall (fun _ e => int4_ok (job_Total (je_job e)) = true) m -> Forall (own_todo id) (p_workers p) ->
  sim (set_proc id p (set_store t q)) (set_proc id (kept_proc p) (set_store m r)).
Proof.
  intros S R Ht Ho. constructor; try apply S; try done; cbn.
  - by rewrite fmap_insert, (sm_procs q r S).
  - apply map_Forall_insert_2; [done|apply S].
Qed.

Lemma sim_own_step es q r ev q' id :
  (forall id email, sized (recorded id email)) -> run_inv kept_answer failed_at es r -> sim q r -> event_id ev = Some id ->
  exec answer failed_at ev q = Some q' ->
  exists ev' r', answers id ev ev' /\ exec kept_answer failed_at ev' r = Some r' /\ sim q' r'.
Proof.
  intros Hs I S Hid Hx. unfold exec in Hx. rewrite Hid in Hx. destruct (r_procs q !! id) as [p|] eqn:Hp; [|done]. cbn [mbind option_bind] in Hx.
  destruct (exec_proc answer failed_at id p (r_store q) ev) as [[p' t']|] eqn:Ep; [|done]. cbn [mbind option_bind] in Hx. injection Hx as <-.
  pose proof (sim_proc q r id p S Hp) as Hp'. destruct (ri_jobs _ _ _ _ I id _ Hp') as (e & He & _).
  destruct (exec_proc_sim id p (r_store q) (r_store r) e ev p' t') as (Ho & ev' & e' & Ha & Hid' & Htot & Hx' & R'); try done; [apply S| | |].
  - apply (room_left es r id p e I Hp' He). exact (sm_totals q r S id e He).
  - exact (sm_todo q r S id p Hp).
  - exists ev', (set_proc id (kept_proc p') (set_store (<[id := e']> (r_store r)) r)). split; [done|]. split.
    + unfold exec. rewrite Hid', Hp'. cbn [mbind option_bind]. by rewrite Hx'.
    + apply sim_set; try done. apply map_Forall_insert_2; [|apply S]. rewrite Htot. exact (sm_totals q r S id e He).
Qed.
(** The events that are not a step of a job's goroutines. *)
Lemma sim_submit q r id rows now q' :
  sim q r -> exec answer failed_at (ESubmit id rows now) q = Some q' ->
  sim q' r \/ exists r', exec kept_answer failed_at (ESubmit id rows now) r = Some r' /\ sim q' r'.
Proof.
  intros S Hx. unfold exec in *. cbn [event_id] in *. destruct (js_Get id (r_store q)) as [job|er] eqn:Hg; [done|].
  destruct (r_procs q !! id) as [p|] eqn:Hp; [done|]. rewrite (sim_none q r id S Hp).
  cbn [js_Get pg_jobs] in Hg. rewrite (get_refines _ _ id (sm_store q r S)) in Hg. cbn [js_Get memory_jobs].
  destruct (GetJob id (r_store r)) as [job|er'] eqn:Hg'; [done|].
  assert (Hn : r_store r !! id = None) by (unfold GetJob in Hg'; by destruct (r_store r !! id)).
  unfold submit_on in *. rewrite (sm_maxEmails q r S). destruct (len (dedup rows) =? 0); [right; simplify_eq; eauto|].
  destruct (len (dedup rows) >? r_maxEmails q); [right; simplify_eq; eauto|]. set (job := new_job id (dedup rows) now) in *.
  cbn [js_Create memory_jobs]. destruct (int4_ok (job_Total job)) eqn:H4.
  - right. eexists. split; [done|]. destruct (create_refines (r_store q) (r_store r) job (sm_store q r S)) as [R A]; [by repeat split|].
    cbn [pg_op mem_op js_Create pg_jobs] in *. destruct (pg_CreateJob true job (r_store q)) as [[[]|er2] t']; [|done]. cbn in Hx. injection Hx as <-.
    apply (sim_set q r id (new_proc (dedup rows)) t' _ S R); [|constructor].
    unfold CreateJob. apply map_Forall_insert_2; [done|apply S].
  - left. cbn [js_Create pg_jobs] in Hx. unfold pg_CreateJob, transact in Hx. rewrite H4 in Hx. cbn in Hx. by injection Hx as <-.
Qed.

Lemma sim_calls q r cs : sim q r -> sim (set_calls cs q) (set_calls cs r).
Proof. intros S. by constructor; try apply S. Qed.

Lemma sim_other_step es q r ev q' :
  run_inv kept_answer failed_at es r -> sim q r -> event_id ev = None -> (forall id rows now, ev <> ESubmit id rows now) ->
  exec answer failed_at ev q = Some q' -> exists r', exec kept_answer failed_at ev r = Some r' /\ sim q' r'.
Proof.
  intros I S Hid Hsub Hx. unfold exec in *. rewrite Hid in *. rewrite (sm_calls q r S), (sm_cancels q r S).
  assert (Hproc : forall id p' cs, Forall (own_todo id) (p_workers p') ->
    sim (set_cancels cs (set_proc id p' q)) (set_cancels cs (set_proc id (kept_proc p') r))).
  { intros id p' cs Ho. constructor; try apply S; try done; cbn; [by rewrite fmap_insert, (sm_procs q r S)|apply map_Forall_insert_2; [done|apply S]]. }
  destruct ev; cbn in Hid; try done.
  - by destruct (Hsub id rows now).
  - destruct (r_procs q !! id) as [p|] eqn:Hp; [|done]. rewrite (sim_proc q r id p S Hp). cbn [mbind option_bind] in *.
    change (p_phase (kept_proc p)) with (p_phase p). destruct (p_phase p) eqn:Hph; try done. injection Hx as <-. eexists. split; [done|].
    assert (Hst : start r (kept_proc p) = kept_proc (start q p)).
    { unfold start. change (p_rows (kept_proc p)) with (p_rows p). destruct (group (p_rows p)). by rewrite (sm_concurrency q r S). }
    rewrite Hst. apply Hproc. unfold start. destruct (group (p_rows p)). constructor.
  - destruct (r_procs q !! id) as [p|] eqn:Hp; [|done]. rewrite (sim_proc q r id p S Hp). cbn [mbind option_bind] in *.
    change (p_phase (kept_proc p)) with (p_phase p). destruct (p_phase p) eqn:Hph; try done.
    destruct (p_workers p) eqn:Hw; [|done]. cbn [kept_proc with_workers p_workers]. rewrite Hw. injection Hx as <-. eexists. split; [done|].
    replace (with_phase Released (if bool_decide (id ∈ r_cancels q) then with_done (kept_proc p) else kept_proc p))
      with (kept_proc (with_phase Released (if bool_decide (id ∈ r_cancels q) then with_done p else p))) by (by destruct (bool_decide _)).
    apply Hproc. destruct (bool_decide _); cbn; by rewrite Hw.
  - unfold Cancel_begin in *. cbn [js_Get pg_jobs memory_jobs] in *. rewrite (get_refines _ _ id (sm_store q r S)) in Hx.
    destruct (GetJob id (r_store r)) as [job|[]]; cbn [answer_us] in *; [|simplify_eq; eauto].
    change (job_Status (job_us job)) with (job_Status job) in Hx.
    destruct (job_Status job); simplify_eq/=; (eexists; split; [done|]); try done; rewrite ?(sm_calls q r S); by apply sim_calls.
  - destruct (r_calls q !! i) as [[id|]|]; simplify_eq. eexists. split; [done|]. case_bool_decide; [|by apply sim_calls].
    destruct (r_procs q !! id) as [p|] eqn:Hp; [|rewrite (sim_none q r id S Hp); by apply sim_calls]. rewrite (sim_proc q r id p S Hp).
    pose proof (sm_todo q r S id p Hp) as Ho.
    apply (sim_set (set_calls _ q) (set_calls _ r) id (with_done p) (r_store q) (r_store r)); [by apply sim_calls|apply S|apply S|done].
  - destruct (r_calls q !! i) as [[|id]|] eqn:Hi; try done. apply (inj Some) in Hx. subst q'.
    destruct (ri_calls _ _ _ _ I (CCalled id)) as [_ [p Hp]]; [rewrite (sm_calls q r S); by eapply list_elem_of_lookup_2|]. cbn [call_id] in Hp.
    destruct (ri_jobs _ _ _ _ I id p Hp) as (e & He & _).
    destruct (status_sim (r_store q) (r_store r) id e now JobCanceled (sm_store q r S) He eq_refl) as (t1 & -> & R1).
    eexists. split; [done|]. cbn [js_SetStatus memory_jobs]. unfold SetStatus. rewrite He. apply sim_calls.
    constructor; try apply S; try done. apply map_Forall_insert_2; [exact (sm_totals q r S id e He)|apply S].
  - destruct (r_calls q !! i) as [[|id]|]; simplify_eq. eexists. split; [done|]. by apply sim_calls.
  - injection Hx as <-. eexists. split; [done|]. constructor; try apply S; cbn; by rewrite ?(sm_concurrency q r S), ?(sm_maxEmails q r S).
Qed.

Hypothesis recorded_sized : forall id email, sized (recorded id email).

(** Every run over the tables is simulated by one over the in-memory store. *)
Lemma tables_simulated cfg es q :
  reaches answer failed_at cfg es q ->
  exists es' r, shadow es es' /\ reaches kept_answer failed_at cfg es' r /\ sim q r.
Proof.
  induction 1 as [|es q ev q' _ (es' & r & Hsh & Hr & S) Hx].
  - exists [], (New cfg). split; [constructor|]. split; [constructor|].
    constructor; try done. apply refines_empty.
  - pose proof (reaches_inv _ _ _ _ _ Hr) as I. destruct (event_id ev) as [id|] eqn:Hid.
    { destruct (sim_own_step es' q r ev q' id recorded_sized I S Hid Hx) as (ev' & r' & Ha & Hx' & S').
      exists (es' ++ [ev']), r'. split; [|split; [by econstructor|done]].
      destruct Ha as [->|(i & now & email & -> & -> & Hn)]; [by constructor|by econstructor]. }
    assert (Hother : (forall id rows now, ev <> ESubmit id rows now) ->
      exists es1 r1, shadow (es ++ [ev]) es1 /\ reaches kept_answer failed_at cfg es1 r1 /\ sim q' r1).
    { intros Hn. destruct (sim_other_step es' q r ev q' I S Hid Hn Hx) as (r' & Hx' & S').
      exists (es' ++ [ev]), r'. split; [by constructor|]. split; [by econstructor|done]. }
    destruct ev; try (by apply Hother). destruct (sim_submit q r id rows now q' S Hx) as [S'|(r' & Hx' & S')].
    + exists es', r. split; [by constructor|done].
    + exists (es' ++ [ESubmit id rows now]), r'. split; [by constructor|]. split; [by econstructor|done].
Qed.

Lemma expected_kept id rows : expected kept_answer failed_at id rows = kept_result <$> expected answer failed_at id rows.
Proof. unfold expected. rewrite <- list_fmap_compose. done. Qed.

(** C9: A bulk job over PostgreSQL completes: in every interleaving, with any
    statements failing but those that record its results, a job that nobody
    cancels and all of whose verdicts have a document is completed when its
    goroutine has returned, and a client that asks for its results reads, for
    every row of the deduplicated submission, exactly one result with the row's
    label and the verdict of its address as the document keeps it. *)
Theorem postgres_job_completes cfg es q id p max_cap :
  reaches answer failed_at cfg es q -> r_procs q !! id = Some p ->
  ECancelRead id ∉ es -> refusals id es = 0%nat -> (forall email, is_Some (marshal (recorded id email))) ->
  p_phase p = Exited -> len (p_rows p) <= max_cap ->
  exists job rs, pg_GetJob true id (r_store q) = Ok job /\ job_Status job = JobCompleted /\ job_Done job = len (p_rows p) /\
    pg_Results max_cap true true id 0 (len (p_rows p)) (r_store q) = Some (Ok (rs, 0)) /\
    rs ≡ₚ kept_result <$> expected answer failed_at id (p_rows p).
Proof.
  intros Hr Hp Hc Hk Hd Hx Hcap. destruct (tables_simulated cfg es q Hr) as (es' & r & Hsh & Hr' & S).
  pose proof (sim_proc q r id p S Hp) as Hp'. pose proof (reaches_inv _ _ _ _ _ Hr') as I.
  destruct (run_completes _ _ es' r id (kept_proc p) I Hp') as (e & He & Hs & Hdone & Hres);
    [intros Hin; by apply Hc, (shadow_cancel es es')|by rewrite (shadow_refusals es es')|done|].
  change (p_rows (kept_proc p)) with (p_rows p) in *. rewrite expected_kept in Hres.
  destruct (ri_jobs _ _ _ _ I id _ Hp') as (e' & He' & Hj). assert (e' = e) as -> by congruence.
  pose proof (ji_rows _ _ _ _ _ _ _ _ _ _ Hj) as Hpos. pose proof (ji_total _ _ _ _ _ _ _ _ _ _ Hj) as Htot.
  assert (H4 : int4_ok (job_Total (je_job e)) = true) by exact (sm_totals q r S id e He). rewrite Htot in H4. change (p_rows (kept_proc p)) with (p_rows p) in *.
  assert (Hlen : len (je_results e) = len (p_rows p)) by (by rewrite <- Hdone, (ji_done _ _ _ _ _ _ _ _ _ _ Hj)).
  assert (Hmax : len (je_results e) + len (p_rows p) < max_int64) by (unfold int4_ok, max_int64 in *; bool_to_prop; lia).
  destruct (results_refine max_cap (r_store q) (r_store r) id e 0 (len (p_rows p)) (sm_store q r S) He) as (pg & Hpg & Hq); [lia|done|].
  rewrite page_at in Hpg by lia. rewrite (proj2 (Z.ltb_ge _ _)) in Hpg by lia. injection Hpg as <-.
  exists (job_us (je_job e)), (je_results e). rewrite (get_refines _ _ id (sm_store q r S)). unfold GetJob. rewrite He.
  split; [done|]. split; [done|]. split; [done|]. split; [|done].
  rewrite Hq, drop_0, take_ge by (unfold len in *; lia). done.
Qed.
End Simulation.

(** ** A run over JSON columns *)

#[local] Instance ex_documents : VerdictDoc (list ascii) := json_verdicts 0.
#[local] Instance ex_microseconds : PgTime := microseconds.

Lemma ex_recorded id email :
  recorded ex_answer ex_failed id email = recorded ex_answer ex_failed "j" (if String.eqb email "b@y.org" then "b@y.org" else "A@x.com").
Proof. unfold recorded, ex_answer. destruct (String.eqb_spec email "b@y.org") as [->|_]; done. Qed.

Lemma postgres_job_completes_witness :
  exists (q : runner_of (Postgres.tables (J := list ascii))) job rs,
    run (HU := ascii_tables) ex_answer ex_failed ex_events (New_on ex_config) = Some q /\
    pg_GetJob true "j" (r_store q) = Ok job /\ job_Status job = JobCompleted /\
    pg_Results 1000 true true "j" 0 3 (r_store q) = Some (Ok (rs, 0)) /\ length rs = 3%nat.
Proof.
  assert (F : exists (q : runner_of (Postgres.tables (J := list ascii))) p,
    run (HU := ascii_tables) ex_answer ex_failed ex_events (New_on ex_config) = Some q /\
    r_procs q !! "j" = Some p /\ p_phase p = Exited /\ len (p_rows p) = 3).
  { eexists _, _. split; [vm_compute; reflexivity|]. split; [vm_compute; reflexivity|]. split; vm_compute; reflexivity. }
  destruct F as (q & p & Hrun & Hp & Hx & Hl).
  destruct (postgres_job_completes (HU := ascii_tables) ex_answer ex_failed) with (cfg := ex_config) (es := ex_events) (q := q) (id := "j") (p := p) (max_cap := 1000)
    as (job & rs & H1 & H2 & _ & H4 & H5).
  - intros id email. rewrite ex_recorded. destruct (String.eqb email _); vm_compute; repeat split; discriminate || reflexivity.
  - apply (run_reaches (HU := ascii_tables) ex_answer ex_failed ex_config ex_events [] (New_on ex_config)); [constructor|exact Hrun].
  - exact Hp.
  - exact ex_not_canceled.
  - reflexivity.
  - intros email. rewrite ex_recorded. destruct (String.eqb email _); vm_compute; by eexists.
  - exact Hx.
  - rewrite Hl. lia.
  - exists q, job, rs. rewrite Hl in H4. split; [exact Hrun|]. split; [exact H1|]. split; [exact H2|]. split; [exact H4|].
    apply Permutation_length in H5. rewrite H5. unfold expected. rewrite !length_fmap. unfold len in Hl. lia.
Defined.
