(* ===== verification/Mock.v ===== *)
(** [pkg/engine/mock]: the scripted engine.

    It never dials: the outcome is a rule of the address, or of the local part
    when that is one of the words it knows, or a default.  It keeps the contract
    that the prober keeps, so the service can run on it. *)

From Stdlib Require Import QArith.
From S2P Require Import Prelude GoStrings Float64 GoTime Verdict Engine Builtin BuiltinProps Verifier VerifierProps.
Local Open Scope Z_scope.

Record Outcome := { oc_Status : Status; oc_SubStatus : SubStatus; oc_SMTPCode : Z; oc_Signal : SignalKind }.

Record MockEngine := { Rules : gmap string Outcome; mock_Default : Outcome }.

Definition prefixOutcomes : gmap string Outcome :=
  let o st sub code sig := {| oc_Status := st; oc_SubStatus := sub; oc_SMTPCode := code; oc_Signal := sig |} in
  list_to_map [
    ("valid", o StatusDeliverable SubValidMailbox 250 SignalAccepted);
    ("invalid", o StatusUndeliverable SubMailboxNotFound 550 SignalMailboxGone);
    ("catchall", o StatusRisky SubCatchAll 250 SignalAccepted);
    ("role", o StatusRisky SubRoleAccount 250 SignalAccepted);
    ("disposable", o StatusRisky SubDisposable 250 SignalAccepted);
    ("tempfail", o StatusUnknown SubGreylisted 451 SignalTempFail);
    ("blocked", o StatusUnknown SubBlocked 554 SignalBlocked);
    ("timeout", o StatusUnknown SubTimeout 0 SignalTimeout)].

(** [New] *)
Definition mock_New : MockEngine :=
  {| Rules := ∅;
     mock_Default := {| oc_Status := StatusDeliverable; oc_SubStatus := SubValidMailbox; oc_SMTPCode := 250;
                        oc_Signal := SignalAccepted |} |}.

Definition mock_Name : string := "mock".
Definition mock_Capabilities : Caps := {| SupportsCatchAll := true; SupportsProxy := true; NeedsPort25 := false |}.

(** [confidenceFor] *)
Definition mock_confidenceFor (s : Status) : float64 :=
  match s with
  | StatusDeliverable | StatusUndeliverable => f64 (95 # 100)
  | StatusRisky => f64 (5 # 10)
  | _ => f64 0
  end.

(** [NewBinding] *)
Definition NewBinding (id : string) : EgressBinding :=
  {| binding_ID := id; binding_HELO := "mail.test.invalid"; binding_MailFrom := "probe@test.invalid" |}.

Section Mock.
Context `{UnicodeTables}.

(** [WithRule] *)
Definition WithRule (email : string) (o : Outcome) (e : MockEngine) : MockEngine :=
  {| Rules := <[ToLower email := o]> (Rules e); mock_Default := mock_Default e |}.

(** [outcomeFor] *)
Definition outcomeFor (e : MockEngine) (email : string) : Outcome :=
  let key := ToLower email in
  match Rules e !! key with
  | Some o => o
  | None =>
      let at_ := IndexByte key "@"%char in
      if at_ >? 0 then default (mock_Default e) (prefixOutcomes !! slice_to key at_) else mock_Default e
  end.

(** [Verify] *)
Definition mock_Verify (e : MockEngine) (now : Time) (t : Task) (eg : option EgressBinding) : Verdict * list Signal :=
  let o := outcomeFor e (Task_Email t) in
  let egressID := match eg with Some eg => binding_ID eg | None => "" end in
  ({| Email := Task_Email t; Normalized := firstNonEmpty [Task_Normalized t; ToLower (Task_Email t)];
      vStatus := oc_Status o; vSubStatus := oc_SubStatus o; Confidence := mock_confidenceFor (oc_Status o);
      vChecks := {| Checks_Syntax := {| Syntax_Valid := true |}; Checks_MX := {| MX_Found := true; MX_Records := [] |};
                    Checks_Disposable := false; Checks_Role := bool_decide (oc_SubStatus o = SubRoleAccount);
                    Checks_Free := false; Checks_CatchAll := bool_decide (oc_SubStatus o = SubCatchAll);
                    Checks_SMTP := {| SMTP_Probed := true; SMTP_Code := oc_SMTPCode o;
                                      SMTP_Response := SubStatus_String (oc_SubStatus o) |} |};
      Provider := Task_Provider t; Verdict.Engine := mock_Name; EgressID := egressID; Cached := false; CheckedAt := now |},
   [{| Signal_Kind := oc_Signal o; Signal_EgressID := egressID;
       Signal_Destination := firstNonEmpty [Task_Provider t; Task_Domain t]; Signal_Code := oc_SMTPCode o;
       Signal_Detail := SubStatus_String (oc_SubStatus o) |}]).

(** The engine as the service calls it; its error is always nil. *)
Definition mock_engine (e : MockEngine) (now : Time) : Engine_ Empty_set := fun t eg => Ok (mock_Verify e now t (Some eg)).

(** ** Its contract *)

(** An outcome a real probe could have had: one of the four statuses, and a
    signal that agrees with it; the script may also time out. *)
Definition outcome_ok (o : Outcome) : Prop :=
  Status_Valid (oc_Status o) = true /\
  (agrees (oc_Status o) (oc_Signal o) = true \/ (oc_Status o = StatusUnknown /\ oc_Signal o = SignalTimeout)).

Definition scripted (e : MockEngine) : Prop :=
  map_Forall (fun _ => outcome_ok) (Rules e) /\ outcome_ok (mock_Default e).

Lemma prefixes_ok : map_Forall (fun _ => outcome_ok) prefixOutcomes.
Proof.
  apply map_Forall_to_list. vm_compute.
  repeat (apply List.Forall_cons; [split; [reflexivity|first [left; reflexivity|right; split; reflexivity]]|]).
  apply List.Forall_nil.
Qed.

Lemma outcome_scripted e email : scripted e -> outcome_ok (outcomeFor e email).
Proof.
  intros [Hr Hd]. unfold outcomeFor. destruct (Rules e !! _) as [o|] eqn:E; [by eapply Hr|].
  destruct (_ >? 0); [|done]. destruct (prefixOutcomes !! _) as [o|] eqn:Ep; [|done]. by eapply prefixes_ok.
Qed.

Lemma mock_confidence_unit s : funit (mock_confidenceFor s).
Proof. destruct s; apply funit_f64; discriminate. Qed.

Lemma WithRule_scripted email o e : scripted e -> outcome_ok o -> scripted (WithRule email o e).
Proof. intros [Hr Hd] Ho. split; [|done]. by apply map_Forall_insert_2. Qed.

Lemma mock_New_scripted : scripted mock_New.
Proof. split; [apply map_Forall_empty|]. split; auto. Qed.

(** The scripted engine keeps the contract of a real one: with outcomes that a
    probe could have had, every call yields one signal, of the identity it was
    given, that agrees with the verdict, and a verdict that passes [Validate];
    a rule decides its address whatever the letter case, and no other. *)
Theorem mock_contract e now t eg email o :
  scripted e ->
  (let '(v, sigs) := mock_Verify e now t (Some eg) in
   exists s, sigs = [s] /\ Signal_EgressID s = binding_ID eg /\ EgressID v = binding_ID eg /\
     outcome_ok {| oc_Status := vStatus v; oc_SubStatus := vSubStatus v; oc_SMTPCode := Signal_Code s;
                   oc_Signal := Signal_Kind s |} /\
     (Task_Email t <> "" -> Validate v = None)) /\
  engine_sound (mock_engine e now) /\
  outcomeFor (WithRule email o e) (Task_Email t)
  = if bool_decide (ToLower (Task_Email t) = ToLower email) then o else outcomeFor e (Task_Email t).
Proof.
  intros Hs. pose proof (fun t => outcome_scripted e (Task_Email t) Hs) as Ho.
  assert (Hv : forall t eg, Task_Email t <> "" -> Validate (mock_Verify e now t eg).1 = None).
  { intros t' eg' Ht. apply Validate_ok; [done|apply Ho|apply mock_confidence_unit]. }
  split; [|split].
  - eexists. split; [reflexivity|]. split; [done|]. split; [done|]. split; [apply Ho|by apply (Hv t (Some eg))].
  - intros t' b ev sigs [= <- <-] Ht. by apply (Hv t' (Some b)).
  - unfold outcomeFor, WithRule. cbn [Rules mock_Default]. rewrite lookup_insert.
    case_bool_decide as Hb; case_decide as Hd; congruence || done.
Qed.
End Mock.

(** A scripted "blocked" outcome for one address, asked for in capitals. *)
Lemma mock_contract_witness :
  let _ := ascii_tables in
  let o := {| oc_Status := StatusUnknown; oc_SubStatus := SubBlocked; oc_SMTPCode := 554; oc_Signal := SignalBlocked |} in
  let t := {| Task_ID := ""; Task_JobID := ""; Task_Email := "Ann@example.com"; Task_Normalized := ""; Task_Domain := "example.com";
              Task_Provider := "custom"; Task_MX := [] |} in
  outcomeFor (WithRule "ann@EXAMPLE.com" o mock_New) (Task_Email t) = o.
Proof.
  intros tables o t.
  destruct (mock_contract (H := tables) mock_New 0 t (NewBinding "a") "ann@EXAMPLE.com" o mock_New_scripted) as (_ & _ & ->).
  reflexivity.
Defined.
