(* ===== verification/Ports.v ===== *)
(** The ports through which the JSON API and the dashboard see the rest of the
    server, and the adapters of [cmd/rcptto-server] that implement them.

    A port is a record of operations on a state [S].  A result [None] is a panic
    of the operation, which the HTTP server turns into a broken connection. *)

From Stdlib Require Import QArith.
From S2P Require Import Prelude GoStrings GoConv Float64 GoTime Verdict Engine Settings Policy Health Egress Store Memory Runner.
Local Open Scope list_scope.
Local Open Scope Z_scope.

(** ** Interfaces *)

Inductive verify_error := VCanceled | VDeadlineExceeded | VFailed.

Inductive jobs_error := JNoEmails | JTooManyEmails | JNotFound | JFailed.

(** [Verifier] *)
Record VerifierPort (S : Type) := { vp_Verify : string -> S -> result verify_error Verdict * S }.

(** [Jobs] *)
Record JobsPort (S : Type) := {
  jp_Submit : list Row -> S -> result jobs_error Job * S;
  jp_Get : string -> S -> result jobs_error Job;
  jp_List : Z -> S -> result jobs_error (list Job);
  jp_Results : string -> Z -> Z -> S -> option (result jobs_error (list Result * Z));
  jp_Stats : string -> S -> result jobs_error JobStats;
  jp_Cancel : string -> S -> result jobs_error unit * S;
}.

Record EgressIdentity := { ei_ID : string; ei_IP : string; ei_State : string; ei_Reason : string; ei_Online : bool }.

(** [Egress] *)
Record EgressPort (S : Type) := {
  ep_Identities : S -> option (list EgressIdentity);
  ep_Quarantine : string -> string -> S -> S;
  ep_Enable : string -> S -> S;
  ep_Disable : string -> string -> S -> S;
}.

Record PolicyEntry := { pe_Key : string; pe_Strategy : string; pe_Reason : string }.

(** [Policy] *)
Record PolicyPort (S : Type) := {
  pp_List : S -> list PolicyEntry;
  pp_Set : string -> string -> string -> S -> S;
}.

Arguments vp_Verify {S} _ _ _.
Arguments jp_Submit {S} _ _ _.
Arguments jp_Get {S} _ _ _.
Arguments jp_List {S} _ _ _.
Arguments jp_Results {S} _ _ _ _ _.
Arguments jp_Stats {S} _ _ _.
Arguments jp_Cancel {S} _ _ _.
Arguments ep_Identities {S} _ _.
Arguments ep_Quarantine {S} _ _ _ _.
Arguments ep_Enable {S} _ _ _.
Arguments ep_Disable {S} _ _ _ _.
Arguments pp_List {S} _ _.
Arguments pp_Set {S} _ _ _ _ _.

(** ** The server's state *)

(** What the handlers of one server share: the reputation manager, the policy set,
    the job runner, and whatever else the verifier works on. *)
Record plane (W : Type) := { pl_egress : Manager; pl_policy : Set_; pl_runner : Runner; pl_world : W }.
Arguments pl_egress {W} _.
Arguments pl_policy {W} _.
Arguments pl_runner {W} _.
Arguments pl_world {W} _.

Definition set_egress {W} (m : Manager) (s : plane W) : plane W :=
  {| pl_egress := m; pl_policy := pl_policy s; pl_runner := pl_runner s; pl_world := pl_world s |}.
Definition set_policy {W} (p : Set_) (s : plane W) : plane W :=
  {| pl_egress := pl_egress s; pl_policy := p; pl_runner := pl_runner s; pl_world := pl_world s |}.
Definition set_runner {W} (r : Runner) (s : plane W) : plane W :=
  {| pl_egress := pl_egress s; pl_policy := pl_policy s; pl_runner := r; pl_world := pl_world s |}.

(** ** Adapters *)

Definition identity_of (i : IdentityInfo) : EgressIdentity :=
  {| ei_ID := info_ID i; ei_IP := info_IP i; ei_State := State_String (info_State i);
     ei_Reason := info_Reason i; ei_Online := info_Online i |}.

(** [egressAdapter]; [now] is the time the manager reads. *)
Definition egressAdapter {W} (now : Time) : EgressPort (plane W) := {|
  ep_Identities := fun s => l ← Identities (pl_egress s); Some (map identity_of l);
  ep_Quarantine := fun id reason s => set_egress (Quarantine id reason now (pl_egress s)) s;
  ep_Enable := fun id s => set_egress (Enable id (pl_egress s)) s;
  ep_Disable := fun id reason s => set_egress (Disable id reason (pl_egress s)) s;
|}.

(** [webEgressAdapter]: the same code, for the dashboard's interface. *)
Definition webEgressAdapter {W} (now : Time) : EgressPort (plane W) := egressAdapter now.

(** [string(strategy)] and [policy.Strategy(s)]. *)
Definition Strategy_String (s : Strategy) : string :=
  match s with
  | StrategyProbe => "probe" | StrategySkip => "skip" | StrategyStatistical => "statistical" | Strategy_other s => s
  end.
Definition Strategy_of (s : string) : Strategy :=
  if String.eqb s "probe" then StrategyProbe else if String.eqb s "skip" then StrategySkip
  else if String.eqb s "statistical" then StrategyStatistical else Strategy_other s.

Section Adapters.
Context `{HU : UnicodeTables}.

Definition entry_of (e : Entry) : PolicyEntry :=
  {| pe_Key := entry_Key e; pe_Strategy := Strategy_String (rule_Strategy (entry_Rule e));
     pe_Reason := rule_Reason (entry_Rule e) |}.

(** [policyAdapter] *)
Definition policyAdapter {W} : PolicyPort (plane W) := {|
  pp_List := fun s => map entry_of (List_ (pl_policy s));
  pp_Set := fun key strategy reason s =>
    set_policy (Set_rule key {| rule_Strategy := Strategy_of strategy; rule_Reason := reason |} (pl_policy s)) s;
|}.

(** [webPolicyAdapter]: the same code, for the dashboard's interface. *)
Definition webPolicyAdapter {W} : PolicyPort (plane W) := policyAdapter.

(** *** The job runner behind the port *)

Definition jobs_error_of (e : job_error) : jobs_error := match e with ErrJobNotFound => JNotFound end.
Definition submit_error_of (e : submit_error) : jobs_error :=
  match e with ErrNoEmails => JNoEmails | ErrTooManyEmails => JTooManyEmails end.

(** [Submit] as one call: the job is created and its goroutine started. *)
Definition runner_Submit (answer : string -> string -> option Verdict) (failed_at : string -> string -> Time)
    (rand : option (list ascii)) (now : Time) (rows : list Row) (r : Runner) : result jobs_error Job * Runner :=
  let id := newJobID rand in
  match Submit id rows now r with
  | Err e => (Err (submit_error_of e), r)
  | Ok (job, r') => (Ok job, default r' (exec answer failed_at (EStart id) r'))
  end.

(** [Cancel] as one call, with nothing in between its store calls. *)
Definition runner_Cancel (now : Time) (id : string) (r : Runner) : result jobs_error unit * Runner :=
  match Cancel_begin id (r_store r) with
  | Err e => (Err (jobs_error_of e), r)
  | Ok None => (Ok tt, r)
  | Ok (Some _) =>
      let r := if bool_decide (id ∈ r_cancels r) then
                 match r_procs r !! id with Some p => set_proc id (with_done p) r | None => r end
               else r in
      match SetStatus now id JobCanceled (r_store r) with
      | Ok st => (Ok tt, set_store st r)
      | Err e => (Err (jobs_error_of e), r)
      end
  end.

Definition lift_error {A} (r : result job_error A) : result jobs_error A :=
  match r with Ok a => Ok a | Err e => Err (jobs_error_of e) end.

(** [*jobs.Runner] as the port; [Get], [List], [Results] and [Stats] are the store's. *)
Definition runnerPort {W} (answer : string -> string -> option Verdict) (failed_at : string -> string -> Time)
    (rand : option (list ascii)) (now : Time) : JobsPort (plane W) := {|
  jp_Submit := fun rows s => let '(a, r) := runner_Submit answer failed_at rand now rows (pl_runner s) in (a, set_runner r s);
  jp_Get := fun id s => lift_error (GetJob id (r_store (pl_runner s)));
  jp_List := fun limit s => Ok (ListJobs limit (r_store (pl_runner s)));
  jp_Results := fun id cursor limit s =>
    a ← Results id cursor limit (r_store (pl_runner s)); Some (lift_error a);
  jp_Stats := fun id s => lift_error (Stats id (r_store (pl_runner s)));
  jp_Cancel := fun id s => let '(a, r) := runner_Cancel now id (pl_runner s) in (a, set_runner r s);
|}.
End Adapters.

(** ** Environment variables *)

(** [getenv] *)
Definition getenv (v def : string) : string := if String.eqb v "" then def else v.

(** [strconv.ParseBool] *)
Definition ParseBool (s : string) : option bool :=
  if bool_decide (s ∈ ["1"; "t"; "T"; "true"; "TRUE"; "True"]) then Some true
  else if bool_decide (s ∈ ["0"; "f"; "F"; "false"; "FALSE"; "False"]) then Some false else None.

(** [getenvBool] *)
Definition getenvBool (v : string) (def : bool) : bool :=
  if String.eqb v "" then def else match ParseBool v with Some b => b | None => def end.

(** [splitAndTrim] *)
Definition splitAndTrim (csv : string) : list string :=
  if String.eqb csv "" then []
  else List.filter (fun t => negb (String.eqb t "")) (map TrimSpace (Split csv ","%char)).

(** *** The verification service behind the port *)

(** What [verifier.Service] does with an address: it reads the policy, works on
    the egress manager and on its own state (cache, limiter, engines). *)
Definition service W : Type := Set_ -> string -> Manager -> W -> result verify_error Verdict * (Manager * W).

Definition verifierPort {W} (svc : service W) : VerifierPort (plane W) := {|
  vp_Verify := fun email s =>
    let '(a, (m, w)) := svc (pl_policy s) email (pl_egress s) (pl_world s) in
    (a, {| pl_egress := m; pl_policy := pl_policy s; pl_runner := pl_runner s; pl_world := w |});
|}.
