(* ===== verification/Api.v ===== *)
(** [internal/api]: the JSON API.

    A request is what the handlers read of it: the method, the path as the
    segments the router compares, the key header, the query and the body.  A
    handler is a function on the state behind the ports and gives a response;
    [None] is a panic.  What [Decode] gives for a body read up to a limit is the
    interface [Decoder], which [ApiJson] discharges. *)

From Stdlib Require Import QArith.
From S2P Require Import Prelude GoStrings GoConv Float64 GoTime Verdict Engine Settings Store Memory Runner Ports.
Local Open Scope list_scope.
Local Open Scope Z_scope.

(** ** Requests and responses *)

Record http_request := {
  hr_method : string;
  hr_segments : list string;   (** the path, unescaped segment by segment *)
  hr_clean : bool;             (** the path is its own [path.Clean] form *)
  hr_key : string;             (** the header X-API-Key, empty when absent *)
  hr_query : string -> string; (** [URL.Query().Get] *)
  hr_body : list ascii;
}.

(** [r.URL.Path] *)
Definition hr_Path (r : http_request) : string := "/" +:+ Join (hr_segments r) "/".

Inductive body :=
| BStatus (s : string)
| BVerdict (v : Verdict)
| BJob (j : Job)
| BResults (items : list Result) (next_cursor : Z)
| BStats (s : JobStats)
| BJobStatus (id status : string)
| BIdentities (l : list EgressIdentity)
| BIdentityState (id state : string)
| BPolicies (l : list PolicyEntry)
| BPolicy (e : PolicyEntry).

(** [writeJSON], [writeProblem], and what the router answers by itself. *)
Inductive response :=
| JSON (status : Z) (b : body)
| Problem (status : Z) (title detail : string)
| MuxRedirect            (** 301 to the clean path *)
| MuxError (status : Z). (** 404 or 405 *)

Record rowRequest := { rr_Label : string; rr_Email : string }.
Record createJobRequest := { cj_Emails : list string; cj_Rows : list rowRequest }.
Record policyUpdateRequest := { pu_Strategy : string; pu_Reason : string }.

(** Decoding at most so many bytes of a body.  The last one ignores the error:
    it is what the request's reason is afterwards. *)
Class Decoder := {
  decode_verify : Z -> list ascii -> option string;
  decode_create : Z -> list ascii -> option createJobRequest;
  decode_policy : Z -> list ascii -> option policyUpdateRequest;
  decode_reason : Z -> list ascii -> string;
}.

(** [toRows] *)
Definition toRows (r : createJobRequest) : list Row :=
  map (fun e => {| row_Label := ""; row_Email := e |}) (cj_Emails r) ++
  map (fun row => {| row_Label := rr_Label row; row_Email := rr_Email row |}) (cj_Rows r).

Definition defaultResultsLimit : Z := 100.
Definition maxResultsLimit : Z := 1000.
Definition maxBulkBodyBytes : Z := Z.shiftl 8 20.

(** [queryInt] *)
Definition queryInt (r : http_request) (key : string) (def : Z) : Z :=
  let v := hr_query r key in
  if String.eqb v "" then def else match Atoi v with Some n => n | None => def end.

Definition quote (s : string) : string := of_bytes ["034"%char] +:+ s +:+ of_bytes ["034"%char].

(** ** The server *)

Section Server.
Context {S : Type}.

Record Server := {
  srv_verifier : VerifierPort S;
  srv_jobs : option (JobsPort S);
  srv_egress : option (EgressPort S);
  srv_policy : option (PolicyPort S);
  srv_keys : gset string;
}.

(** [New], with a verifier. *)
Definition New (verifier : VerifierPort S) (jobs : option (JobsPort S)) (egress : option (EgressPort S))
    (policy : option (PolicyPort S)) (apiKeys : list string) : Server :=
  {| srv_verifier := verifier; srv_jobs := jobs; srv_egress := egress; srv_policy := policy;
     srv_keys := fold_left (fun ks k => if String.eqb k "" then ks else {[ k ]} ∪ ks) apiKeys ∅ |}.

Variable srv : Server.
Context `{HD : Decoder}.

(** The detail of a malformed body: the form that was expected. *)
Definition invalid_request (form : string) : response :=
  Problem 400 "invalid_request" ("request body must be JSON of the form " +:+ form).

(** [handleVerify] *)
Definition handleVerify (r : http_request) (s : S) : option (response * S) :=
  match decode_verify (Z.shiftl 1 16) (hr_body r) with
  | None => Some (invalid_request ("{" +:+ quote "email" +:+ ": " +:+ quote "..." +:+ "}"), s)
  | Some email =>
      if String.eqb (TrimSpace email) "" then Some (Problem 400 "missing_email" "the 'email' field is required", s)
      else
        let '(a, s) := vp_Verify (srv_verifier srv) email s in
        Some (match a with
              | Ok v => JSON 200 (BVerdict v)
              | Err VCanceled | Err VDeadlineExceeded =>
                  Problem 408 "verification_timeout" "verification did not complete in time"
              | Err VFailed => Problem 502 "verification_failed" "the verification could not be completed"
              end, s)
  end.

(** [handleHealth], [handleReady] *)
Definition handleHealth (s : S) : option (response * S) := Some (JSON 200 (BStatus "ok"), s).
Definition handleReady (s : S) : option (response * S) := Some (JSON 200 (BStatus "ready"), s).

(** *** Jobs *)

Definition jobs_disabled : response := Problem 501 "jobs_disabled" "bulk jobs are not enabled on this server".
Definition job_not_found : response := Problem 404 "job_not_found" "no job with that id".

(** [handleCreateJob] *)
Definition handleCreateJob (r : http_request) (s : S) : option (response * S) :=
  match srv_jobs srv with
  | None => Some (jobs_disabled, s)
  | Some jobs =>
      match decode_create maxBulkBodyBytes (hr_body r) with
      | None => Some (invalid_request ("{" +:+ quote "emails" +:+ ": [" +:+ quote "..." +:+ "]}"), s)
      | Some req =>
          let '(a, s) := jp_Submit jobs (toRows req) s in
          Some (match a with
                | Err JNoEmails => Problem 400 "no_emails" "at least one email address is required"
                | Err JTooManyEmails =>
                    Problem 413 "too_many_emails" "the job exceeds the maximum number of addresses"
                | Err _ => Problem 500 "job_create_failed" "the job could not be created"
                | Ok job => JSON 202 (BJob job)
                end, s)
      end
  end.

(** [handleGetJob] *)
Definition handleGetJob (id : string) (s : S) : option (response * S) :=
  match srv_jobs srv with
  | None => Some (jobs_disabled, s)
  | Some jobs =>
      Some (match jp_Get jobs id s with
            | Err JNotFound => job_not_found
            | Err _ => Problem 500 "job_lookup_failed" "the job could not be retrieved"
            | Ok job => JSON 200 (BJob job)
            end, s)
  end.

(** The limit of [handleJobResults]. *)
Definition results_limit (r : http_request) : Z :=
  let limit := queryInt r "limit" defaultResultsLimit in
  let limit := if limit >? maxResultsLimit then maxResultsLimit else limit in
  if limit <? 1 then defaultResultsLimit else limit.

(** [handleJobResults] *)
Definition handleJobResults (id : string) (r : http_request) (s : S) : option (response * S) :=
  match srv_jobs srv with
  | None => Some (jobs_disabled, s)
  | Some jobs =>
      let cursor := queryInt r "cursor" 0 in
      a ← jp_Results jobs id cursor (results_limit r) s;
      Some (match a with
            | Err JNotFound => job_not_found
            | Err _ => Problem 500 "results_failed" "the results could not be retrieved"
            | Ok (items, next) => JSON 200 (BResults items next)
            end, s)
  end.

(** [handleJobStats] *)
Definition handleJobStats (id : string) (s : S) : option (response * S) :=
  match srv_jobs srv with
  | None => Some (jobs_disabled, s)
  | Some jobs =>
      Some (match jp_Stats jobs id s with
            | Err JNotFound => job_not_found
            | Err _ => Problem 500 "stats_failed" "the statistics could not be computed"
            | Ok stats => JSON 200 (BStats stats)
            end, s)
  end.

(** [handleCancelJob] *)
Definition handleCancelJob (id : string) (s : S) : option (response * S) :=
  match srv_jobs srv with
  | None => Some (jobs_disabled, s)
  | Some jobs =>
      let '(a, s) := jp_Cancel jobs id s in
      Some (match a with
            | Err JNotFound => job_not_found
            | Err _ => Problem 500 "cancel_failed" "the job could not be canceled"
            | Ok _ => JSON 200 (BJobStatus id "canceled")
            end, s)
  end.

(** *** Administration *)

Definition egress_disabled : response :=
  Problem 501 "admin_disabled" "the egress admin API is not enabled on this server".
Definition policy_disabled : response :=
  Problem 501 "admin_disabled" "the policy admin API is not enabled on this server".

(** [handleListEgress] *)
Definition handleListEgress (s : S) : option (response * S) :=
  match srv_egress srv with
  | None => Some (egress_disabled, s)
  | Some egress => l ← ep_Identities egress s; Some (JSON 200 (BIdentities l), s)
  end.

(** [handleQuarantineEgress] *)
Definition handleQuarantineEgress (id : string) (r : http_request) (s : S) : option (response * S) :=
  match srv_egress srv with
  | None => Some (egress_disabled, s)
  | Some egress =>
      let reason := decode_reason (Z.shiftl 1 12) (hr_body r) in
      Some (JSON 200 (BIdentityState id "quarantined"), ep_Quarantine egress id (firstNonEmpty [reason; "manual"]) s)
  end.

(** [handleEnableEgress] *)
Definition handleEnableEgress (id : string) (s : S) : option (response * S) :=
  match srv_egress srv with
  | None => Some (egress_disabled, s)
  | Some egress => Some (JSON 200 (BIdentityState id "warming"), ep_Enable egress id s)
  end.

(** [handleDisableEgress] *)
Definition handleDisableEgress (id : string) (r : http_request) (s : S) : option (response * S) :=
  match srv_egress srv with
  | None => Some (egress_disabled, s)
  | Some egress =>
      let reason := decode_reason (Z.shiftl 1 12) (hr_body r) in
      Some (JSON 200 (BIdentityState id "disabled"), ep_Disable egress id (firstNonEmpty [reason; "manual"]) s)
  end.

(** [handleListPolicies] *)
Definition handleListPolicies (s : S) : option (response * S) :=
  match srv_policy srv with
  | None => Some (policy_disabled, s)
  | Some policy => Some (JSON 200 (BPolicies (pp_List policy s)), s)
  end.

(** The switch of [handleSetPolicy]. *)
Definition known_strategy (s : string) : bool :=
  String.eqb s "probe" || String.eqb s "skip" || String.eqb s "statistical".

(** [handleSetPolicy] *)
Definition handleSetPolicy (key : string) (r : http_request) (s : S) : option (response * S) :=
  match srv_policy srv with
  | None => Some (policy_disabled, s)
  | Some policy =>
      match decode_policy (Z.shiftl 1 12) (hr_body r) with
      | None => Some (invalid_request ("{" +:+ quote "strategy" +:+ ": " +:+ quote "probe|skip|statistical" +:+ ", "
                                                 +:+ quote "reason" +:+ ": " +:+ quote "..." +:+ "}"), s)
      | Some req =>
          if negb (known_strategy (pu_Strategy req)) then
            Some (Problem 400 "invalid_strategy" "strategy must be one of: probe, skip, statistical", s)
          else
            Some (JSON 200 (BPolicy {| pe_Key := key; pe_Strategy := pu_Strategy req; pe_Reason := pu_Reason req |}),
                  pp_Set policy key (pu_Strategy req) (pu_Reason req) s)
      end
  end.

(** ** Routes *)

Inductive endpoint :=
| EpVerify | EpCreateJob | EpGetJob (id : string) | EpJobResults (id : string) | EpJobStats (id : string)
| EpCancelJob (id : string) | EpListEgress | EpQuarantine (id : string) | EpEnable (id : string)
| EpDisable (id : string) | EpListPolicies | EpSetPolicy (provider : string) | EpHealth | EpReady.

(** The patterns that match a path, each with its method.  A wildcard does not
    match an empty segment. *)
Definition routes (segs : list string) : list (string * endpoint) :=
  match segs with
  | [a] =>
      if String.eqb a "healthz" then [("GET", EpHealth)]
      else if String.eqb a "readyz" then [("GET", EpReady)] else []
  | [a; b] =>
      if String.eqb a "v1" && String.eqb b "verify" then [("POST", EpVerify)]
      else if String.eqb a "v1" && String.eqb b "jobs" then [("POST", EpCreateJob)] else []
  | [a; b; c] =>
      if String.eqb a "v1" && String.eqb b "jobs" && negb (String.eqb c "") then [("GET", EpGetJob c)]
      else if String.eqb a "v1" && String.eqb b "admin" && String.eqb c "egress" then [("GET", EpListEgress)]
      else if String.eqb a "v1" && String.eqb b "admin" && String.eqb c "policies" then [("GET", EpListPolicies)]
      else []
  | [a; b; c; d] =>
      if String.eqb a "v1" && String.eqb b "jobs" && negb (String.eqb c "") then
        if String.eqb d "results" then [("GET", EpJobResults c)]
        else if String.eqb d "stats" then [("GET", EpJobStats c)]
        else if String.eqb d "cancel" then [("POST", EpCancelJob c)] else []
      else if String.eqb a "v1" && String.eqb b "admin" && String.eqb c "policies" && negb (String.eqb d "")
      then [("PUT", EpSetPolicy d)] else []
  | [a; b; c; d; e] =>
      if String.eqb a "v1" && String.eqb b "admin" && String.eqb c "egress" && negb (String.eqb d "") then
        if String.eqb e "quarantine" then [("POST", EpQuarantine d)]
        else if String.eqb e "enable" then [("POST", EpEnable d)]
        else if String.eqb e "disable" then [("POST", EpDisable d)] else []
      else []
  | _ => []
  end.

(** A pattern for GET also serves HEAD. *)
Definition method_ok (pattern method : string) : bool :=
  String.eqb pattern method || (String.eqb pattern "GET" && String.eqb method "HEAD").

Definition dispatch (e : endpoint) (r : http_request) (s : S) : option (response * S) :=
  match e with
  | EpVerify => handleVerify r s
  | EpCreateJob => handleCreateJob r s
  | EpGetJob id => handleGetJob id s
  | EpJobResults id => handleJobResults id r s
  | EpJobStats id => handleJobStats id s
  | EpCancelJob id => handleCancelJob id s
  | EpListEgress => handleListEgress s
  | EpQuarantine id => handleQuarantineEgress id r s
  | EpEnable id => handleEnableEgress id s
  | EpDisable id => handleDisableEgress id r s
  | EpListPolicies => handleListPolicies s
  | EpSetPolicy provider => handleSetPolicy provider r s
  | EpHealth => handleHealth s
  | EpReady => handleReady s
  end.

(** The router that [Handler] builds. *)
Definition mux (r : http_request) (s : S) : option (response * S) :=
  if negb (hr_clean r) then Some (MuxRedirect, s)
  else match List.find (fun me => method_ok me.1 (hr_method r)) (routes (hr_segments r)) with
  | Some (_, e) => dispatch e r s
  | None => Some (MuxError (match routes (hr_segments r) with [] => 404 | _ => 405 end), s)
  end.

Definition unauthorized : response := Problem 401 "unauthorized" "a valid X-API-Key header is required".

(** [authMiddleware] *)
Definition authMiddleware (next : http_request -> S -> option (response * S)) (r : http_request) (s : S)
    : option (response * S) :=
  if bool_decide (srv_keys srv <> ∅) && HasPrefix (hr_Path r) "/v1/" && negb (bool_decide (hr_key r ∈ srv_keys srv))
  then Some (unauthorized, s)
  else next r s.

(** [Handler] *)
Definition Handler (r : http_request) (s : S) : option (response * S) := authMiddleware mux r s.
End Server.
Arguments Server _ : clear implicits.
