(* ===== verification/ApiProps.v ===== *)
(** The JSON API: who may call it, what it answers, and what a call leaves behind. *)

From Stdlib Require Import QArith.
From S2P Require Import Prelude GoStrings GoConv Float64 GoTime Verdict Engine Settings Policy Health Egress EgressInv.
From S2P Require Import EgressOps EgressProps Store Memory Runner Ports Api.
Local Open Scope list_scope.
Local Open Scope Z_scope.

(** ** Keys *)

Lemma new_keys {S} v j e p keys k :
  k ∈ srv_keys (Api.New (S := S) v j e p keys) <-> k ∈ keys /\ k <> "".
Proof.
  unfold Api.New. cbn [srv_keys].
  assert (H : forall ks : gset string,
    k ∈ fold_left (fun ks k => if String.eqb k "" then ks else {[ k ]} ∪ ks) keys ks <-> k ∈ ks \/ (k ∈ keys /\ k <> "")).
  { induction keys as [|x keys IH]; intros ks; cbn [fold_left]; [set_solver|]. rewrite IH.
    destruct (String.eqb_spec x ""); set_solver. }
  rewrite H. set_solver.
Qed.

Lemma splitAndTrim_nonempty csv k : k ∈ splitAndTrim csv -> k <> "".
Proof.
  unfold splitAndTrim. destruct (String.eqb csv ""); [by intros ?%not_elem_of_nil|].
  intros Hk%list_elem_of_In%filter_In. destruct Hk as [_ Hk]. by destruct (String.eqb_spec k "").
Qed.

(** Every route is under /v1/, apart from the two probes of liveness. *)
Lemma routes_v1 segs m e :
  (m, e) ∈ routes segs -> e = EpHealth \/ e = EpReady \/ HasPrefix ("/" +:+ Join segs "/") "/v1/" = true.
Proof.
  assert (Hp : forall b rest, HasPrefix ("/" +:+ Join ("v1" :: b :: rest) "/") "/v1/" = true)
    by (intros; reflexivity).
  destruct segs as [|a [|b [|c [|d [|f [|g rest]]]]]]; cbn [routes]; intros H; try by apply not_elem_of_nil in H.
  1: repeat case_match; set_solver.
  all: right; right; destruct (String.eqb_spec a "v1") as [->|]; [apply Hp|cbn [andb] in H; set_solver].
Qed.

Section Keys.
Context {S : Type} `{HD : Decoder} (srv : Api.Server S).

(** Without a key of the server, all a request can get is the refusal, the two
    liveness answers, or what the router says of a path it does not serve. *)
Definition keyless_answer (r : response) : Prop :=
  r = unauthorized \/ r = JSON 200 (BStatus "ok") \/ r = JSON 200 (BStatus "ready") \/
  r = MuxRedirect \/ exists n, r = MuxError n.

Lemma keyless r s :
  srv_keys srv <> ∅ -> hr_key r ∉ srv_keys srv ->
  exists a, Handler srv r s = Some (a, s) /\ keyless_answer a /\
            (HasPrefix (hr_Path r) "/v1/" = true -> a = unauthorized).
Proof.
  intros Hk Hn. unfold Handler, authMiddleware. rewrite bool_decide_eq_true_2 by done. cbn [andb].
  rewrite (bool_decide_eq_false_2 _ Hn). destruct (HasPrefix (hr_Path r) "/v1/") eqn:Hp; cbn [negb andb].
  { eexists. split; [done|]. split; [by left|done]. }
  unfold mux. destruct (hr_clean r); cbn [negb].
  2: { eexists. split; [done|]. split; [|done]. unfold keyless_answer. tauto. }
  destruct (List.find _ _) as [[m e]|] eqn:E.
  2: { eexists. split; [done|]. split; [|done]. unfold keyless_answer. eauto 6. }
  apply find_some in E as [He%list_elem_of_In _].
  destruct (routes_v1 _ _ _ He) as [->|[->|Hv]]; [| |unfold hr_Path in Hp; congruence];
    (eexists; split; [reflexivity|]; split; [|done]); unfold keyless_answer; tauto.
Qed.

(** The API is closed without a key: when keys are configured, a request that
    does not carry one of them never panics, changes nothing on the server and
    learns nothing but the liveness answers; every path under /v1/ answers 401.
    A request with a key is served as if no keys were configured. *)
Theorem api_key_gate r s :
  srv_keys srv <> ∅ ->
  (hr_key r ∉ srv_keys srv ->
     exists a, Handler srv r s = Some (a, s) /\ keyless_answer a /\
               (HasPrefix (hr_Path r) "/v1/" = true -> a = unauthorized)) /\
  (hr_key r ∈ srv_keys srv -> Handler srv r s = mux srv r s).
Proof.
  intros Hk. split; [by apply keyless|]. intros Hin. unfold Handler, authMiddleware.
  by rewrite (bool_decide_eq_true_2 _ Hin), andb_false_r.
Qed.
End Keys.

(** ** The server of [run] *)

Section Plane.
Context `{HU : UnicodeTables} `{HD : Decoder} {W : Type}.
Variable svc : service W.
Variable answer : string -> string -> option Verdict.
Variable failed_at : string -> string -> Time.

(** What a plane the server starts with has, and keeps: a well-formed egress
    manager, policies of known strategies, jobs of at most [b] results. *)
Definition rule_typed (r : Rule) : Prop := known_strategy (Strategy_String (rule_Strategy (normalize r))) = true.
Definition policy_typed (p : Set_) : Prop := map_Forall (fun _ => rule_typed) (rules p) /\ rule_typed (defRule p).
Definition jobs_within (b : Z) (st : job_store) : Prop := map_Forall (fun _ e => len (je_results e) <= b) st.

(** A bound on the results of a job that leaves room for a page in an int64. *)
Definition room (b : Z) : Prop := 0 <= b /\ b + maxResultsLimit <= max_int64.

Record plane_wf (b : Z) (s : plane W) : Prop := {
  plw_egress : mgr_wf (pl_egress s);
  plw_policy : policy_typed (pl_policy s);
  plw_jobs : jobs_within b (r_store (pl_runner s));
}.

(** The service keeps the manager well formed. *)
Definition service_ok : Prop := forall p email m w, mgr_wf m -> mgr_wf (svc p email m w).2.1.

(** The API server that [run] builds; [keys] is the environment variable,
    [rand] and [now] what the call reads of the random source and the clock. *)
Definition api_server (keys : string) (rand : option (list ascii)) (now : Time) : Api.Server (plane W) :=
  Api.New (verifierPort svc) (Some (runnerPort answer failed_at rand now)) (Some (egressAdapter now))
          (Some policyAdapter) (splitAndTrim keys).

Definition status_of (a : response) : Z :=
  match a with JSON n _ | Problem n _ _ | MuxError n => n | MuxRedirect => 301 end.

Definition api_statuses : list Z := [200; 202; 301; 400; 401; 404; 405; 408; 413; 500; 501; 502].

Lemma results_limit_range r : 1 <= results_limit r <= maxResultsLimit.
Proof.
  unfold results_limit, maxResultsLimit, defaultResultsLimit. rewrite Z.gtb_ltb.
  destruct (Z.ltb_spec 1000 (queryInt r "limit" 100)); [done|].
  destruct (Z.ltb_spec (queryInt r "limit" 100) 1); lia.
Qed.

Lemma page_total rs cursor limit :
  0 < limit -> len rs + limit <= max_int64 -> exists p, page rs cursor limit = Some p.
Proof.
  intros Hl Hmax. destruct (Z.le_gt_cases (len rs) (if cursor <? 0 then 0 else cursor)) as [Hge|Hlt].
  - unfold page. rewrite Z.geb_leb, (proj2 (Z.leb_le _ _)) by done. eauto.
  - assert (Hp : page rs cursor limit = page rs (if cursor <? 0 then 0 else cursor) limit).
    { unfold page. destruct (cursor <? 0) eqn:Ec; [done|]. by rewrite Ec. }
    rewrite Hp, page_at; eauto. destruct (Z.ltb_spec cursor 0); lia.
Qed.

Lemma identities_total m : mgr_wf m -> exists l, Identities m = Some l.
Proof.
  intros Wm. unfold Identities. apply mapM_is_Some_2. apply List.Forall_forall. intros id Hid.
  apply list_elem_of_In, (mwf_order m Wm) in Hid as [r Hr]. cbn. rewrite Hr. cbn. eauto.
Qed.

Lemma set_rule_typed k r p : policy_typed p -> rule_typed r -> policy_typed (Set_rule k r p).
Proof.
  intros [H1 H2] Hr. unfold Set_rule. destruct (String.eqb _ _); split; try done. by apply map_Forall_insert_2.
Qed.

Lemma default_typed : policy_typed Policy.Default.
Proof. unfold Policy.Default, Policy.New. cbn. repeat (apply set_rule_typed; [|done]). by split. Qed.

Lemma strategy_string s : Strategy_String (Strategy_of s) = s.
Proof.
  unfold Strategy_of. destruct (String.eqb_spec s "probe") as [->|]; [done|].
  destruct (String.eqb_spec s "skip") as [->|]; [done|]. by destruct (String.eqb_spec s "statistical") as [->|].
Qed.

Lemma known_rule strategy reason :
  known_strategy strategy = true -> rule_typed {| rule_Strategy := Strategy_of strategy; rule_Reason := reason |}.
Proof.
  intros H. unfold rule_typed, normalize. cbn [rule_Strategy].
  destruct (Strategy_of strategy) as [| | |[|c t]] eqn:E; try done. cbn [rule_Strategy]. rewrite <- E, strategy_string. done.
Qed.

Lemma submit_paged b rand now rows r :
  0 <= b -> jobs_within b (r_store r) -> jobs_within b (r_store (runner_Submit answer failed_at rand now rows r).2).
Proof.
  intros Hb H. unfold runner_Submit, Submit. destruct (len (dedup rows) =? 0); [done|].
  destruct (len (dedup rows) >? r_maxEmails r); [done|]. cbn. rewrite lookup_insert_eq. cbn.
  unfold jobs_within, CreateJob. by apply map_Forall_insert_2.
Qed.

Lemma cancel_paged b now id r : jobs_within b (r_store r) -> jobs_within b (r_store (runner_Cancel now id r).2).
Proof.
  intros H. unfold runner_Cancel. destruct (Cancel_begin id (r_store r)) as [[c|]|]; [|done|done].
  set (r1 := if bool_decide _ then _ else _).
  assert (Hr1 : r_store r1 = r_store r) by (unfold r1; case_bool_decide; [by case_match|done]). rewrite Hr1.
  unfold SetStatus. destruct (r_store r !! id) as [e|] eqn:E; cbn; [|by rewrite Hr1].
  apply map_Forall_insert_2; [|done]. exact (H id e E).
Qed.

(** An answer of the API that leaves a well-formed plane behind. *)
Definition good (b : Z) (o : option (response * plane W)) : Prop :=
  exists a s, o = Some (a, s) /\ plane_wf b s /\ status_of a ∈ api_statuses.

Lemma good_intro b a s : plane_wf b s -> status_of a ∈ api_statuses -> good b (Some (a, s)).
Proof. intros H1 H2. by exists a, s. Qed.

Ltac answered := apply good_intro; [done|repeat case_match; vm_compute; set_solver].

Lemma dispatch_good b keys rand now e r s :
  room b -> service_ok -> plane_wf b s -> good b (dispatch (api_server keys rand now) e r s).
Proof.
  intros [Hb0 Hb] Hsvc Wp. destruct e; cbn [dispatch].
  - unfold handleVerify. destruct (decode_verify _ _) as [email|]; [|answered]. destruct (String.eqb _ ""); [answered|].
    cbn. pose proof (Hsvc (pl_policy s) email (pl_egress s) (pl_world s) (plw_egress b s Wp)) as Hm.
    destruct (svc _ _ _ _) as [a [m w]]. apply good_intro; [constructor; [exact Hm|apply Wp|apply Wp]|].
    repeat case_match; vm_compute; set_solver.
  - unfold handleCreateJob. cbn. destruct (decode_create _ _) as [req|]; [|answered].
    pose proof (submit_paged b rand now (toRows req) (pl_runner s) Hb0 (plw_jobs b s Wp)) as Hp.
    destruct (runner_Submit _ _ _ _ _ _) as [a r']. apply good_intro; [constructor; [apply Wp|apply Wp|exact Hp]|].
    repeat case_match; vm_compute; set_solver.
  - unfold handleGetJob. cbn. answered.
  - unfold handleJobResults. cbn. pose proof (results_limit_range r) as Hl. unfold Results.
    destruct (r_store (pl_runner s) !! id) as [e|] eqn:E; [|cbn; answered].
    pose proof (plw_jobs b s Wp id e E) as Hmax. cbn in Hmax.
    destruct (page_total (je_results e) (queryInt r "cursor" 0) (results_limit r)) as [[items next] Hpg]; [lia|lia|].
    rewrite Hpg. cbn. answered.
  - unfold handleJobStats. cbn. answered.
  - unfold handleCancelJob. cbn. pose proof (cancel_paged b now id (pl_runner s) (plw_jobs b s Wp)) as Hp.
    destruct (runner_Cancel _ _ _) as [a r']. apply good_intro; [constructor; [apply Wp|apply Wp|exact Hp]|].
    repeat case_match; vm_compute; set_solver.
  - unfold handleListEgress. cbn. destruct (identities_total _ (plw_egress b s Wp)) as [l Hl]. rewrite Hl. cbn. answered.
  - unfold handleQuarantineEgress. cbn. apply good_intro; [|vm_compute; set_solver].
    constructor; [apply Quarantine_wf, Wp|apply Wp|apply Wp].
  - unfold handleEnableEgress. cbn. apply good_intro; [|vm_compute; set_solver].
    constructor; [apply Enable_wf, Wp|apply Wp|apply Wp].
  - unfold handleDisableEgress. cbn. apply good_intro; [|vm_compute; set_solver].
    constructor; [apply Disable_wf, Wp|apply Wp|apply Wp].
  - unfold handleListPolicies. cbn. answered.
  - unfold handleSetPolicy. cbn. destruct (decode_policy _ _) as [req|]; [|answered].
    destruct (known_strategy (pu_Strategy req)) eqn:Ek; [|answered]. cbn. apply good_intro; [|vm_compute; set_solver].
    constructor; [apply Wp|apply set_rule_typed; [apply Wp|by apply known_rule]|apply Wp].
  - unfold handleHealth. answered.
  - unfold handleReady. answered.
Qed.

(** Every request is answered and leaves a well-formed server: whatever its
    method, path, query and body, no handler panics, the status is one of the
    documented ones, the egress pool keeps its invariant, and the policies stay
    typed, each with one of the three strategies the verifier knows. *)
Theorem api_total b keys rand now r s :
  room b -> service_ok -> plane_wf b s ->
  exists a s', Handler (api_server keys rand now) r s = Some (a, s') /\ plane_wf b s' /\ status_of a ∈ api_statuses.
Proof.
  intros Hb Hsvc Wp. change (good b (Handler (api_server keys rand now) r s)).
  unfold Handler, authMiddleware. destruct (_ && _); [answered|]. unfold mux.
  destruct (negb (hr_clean r)); [answered|]. destruct (List.find _ _) as [[m e]|]; [by apply dispatch_good|answered].
Qed.

(** ** Reading a job's results *)

(** A client's request for the page at [cursor]. *)
Definition results_request (key id limit : string) (cursor : Z) : http_request :=
  {| hr_method := "GET"; hr_segments := ["v1"; "jobs"; id; "results"]; hr_clean := true; hr_key := key;
     hr_query := fun k => if String.eqb k "cursor" then FormatInt cursor else if String.eqb k "limit" then limit else "";
     hr_body := [] |}.

(** A client that follows [next_cursor] until it is 0; [fuel] bounds the pages. *)
Fixpoint fetch (srv : Api.Server (plane W)) (key id limit : string) (fuel : nat) (cursor : Z) (s : plane W) : option (list Result) :=
  match fuel with
  | O => None
  | S fuel =>
      match Handler srv (results_request key id limit cursor) s with
      | Some (JSON 200 (BResults items next), s') =>
          if next =? 0 then Some items else rest ← fetch srv key id limit fuel next s'; Some (items ++ rest)
      | _ => None
      end
  end.

Definition admitted (srv : Api.Server (plane W)) (key : string) : Prop := srv_keys srv = ∅ \/ key ∈ srv_keys srv.

Lemma handler_admitted srv r s : admitted srv (hr_key r) -> Handler srv r s = mux srv r s.
Proof.
  unfold Handler, authMiddleware. intros [->|Hin]; [done|]. by rewrite (bool_decide_eq_true_2 _ Hin), andb_false_r.
Qed.

Lemma page_next rs cursor limit items next :
  len rs <= max_int64 -> page rs cursor limit = Some (items, next) -> int64_ok next = true.
Proof.
  intros Hmax. unfold page. destruct (_ >=? _); [by intros [= <- <-]|].
  set (end_ := if wrap64 _ >? len rs then len rs else wrap64 _).
  destruct (slice rs _ end_); [|done]. cbn [mbind option_bind]. intros [= <- <-].
  assert (He : int64_ok end_ = true).
  { unfold end_. destruct (_ >? _); [|apply wrap64_range]. pose proof (len_nonneg rs).
    unfold int64_ok, min_int64, max_int64 in *. lia. }
  destruct (end_ <? len rs); done.
Qed.

(** The answer to a request for a page. *)
Lemma results_handler keys rand now key id limit s e cursor :
  id <> "" -> admitted (api_server keys rand now) key -> r_store (pl_runner s) !! id = Some e -> int64_ok cursor = true ->
  Handler (api_server keys rand now) (results_request key id limit cursor) s
  = '(items, next) ← page (je_results e) cursor (results_limit (results_request key id limit 0));
    Some (JSON 200 (BResults items next), s).
Proof.
  intros Hid Had He Hc. rewrite handler_admitted by done. unfold mux. cbn [hr_clean negb results_request hr_segments hr_method].
  unfold routes. rewrite !String.eqb_refl, (proj2 (String.eqb_neq _ _) Hid). cbn.
  unfold handleJobResults. cbn. unfold Results. rewrite He.
  assert (Hq : queryInt (results_request key id limit cursor) "cursor" 0 = cursor).
  { unfold queryInt. cbn [hr_query results_request]. rewrite String.eqb_refl.
    rewrite Atoi_FormatInt by done. destruct (String.eqb_spec (FormatInt cursor) "") as [E|]; [|done].
    pose proof (Atoi_FormatInt cursor Hc) as Ha. rewrite E in Ha. done. }
  rewrite Hq. change (results_limit (results_request key id limit cursor)) with (results_limit (results_request key id limit 0)).
  by destruct (page _ cursor _) as [[items next]|].
Qed.

Lemma fetch_collect keys rand now key id limit s e fuel : forall cursor,
  id <> "" -> admitted (api_server keys rand now) key -> r_store (pl_runner s) !! id = Some e ->
  len (je_results e) <= max_int64 -> int64_ok cursor = true ->
  fetch (api_server keys rand now) key id limit fuel cursor s
  = collect fuel (je_results e) cursor (results_limit (results_request key id limit 0)).
Proof.
  induction fuel as [|fuel IH]; intros cursor Hid Had He Hmax Hc; [done|]. cbn [fetch collect].
  rewrite (results_handler _ _ _ _ _ _ _ e) by done.
  destruct (page _ cursor _) as [[items next]|] eqn:Ep; [|done]. cbn [mbind option_bind].
  destruct (next =? 0); [done|]. rewrite IH; try done. by eapply page_next.
Qed.

(** A client reads a job's results completely: following [next_cursor] from 0,
    with whatever limit it sends, it is answered a page at a time, at most 1000
    results each, until it has every result of the job once and in order. *)
Theorem api_results_complete keys rand now key id limit s e :
  id <> "" -> admitted (api_server keys rand now) key -> r_store (pl_runner s) !! id = Some e ->
  len (je_results e) + maxResultsLimit <= max_int64 ->
  fetch (api_server keys rand now) key id limit (S (length (je_results e))) 0 s = Some (je_results e) /\
  forall cursor items next s', Handler (api_server keys rand now) (results_request key id limit cursor) s
    = Some (JSON 200 (BResults items next), s') -> len items <= maxResultsLimit.
Proof.
  intros Hid Had He Hmax. pose proof (results_limit_range (results_request key id limit 0)) as Hl.
  unfold maxResultsLimit in *. split.
  - rewrite (fetch_collect _ _ _ _ _ _ _ e) by (done || lia). apply collect_all; lia.
  - intros cursor items next s'. rewrite handler_admitted by done. unfold mux.
    cbn [hr_clean negb results_request hr_segments hr_method]. unfold routes.
    rewrite !String.eqb_refl, (proj2 (String.eqb_neq _ _) Hid). cbn. unfold handleJobResults. cbn. unfold Results. rewrite He.
    change (results_limit (results_request key id limit cursor)) with (results_limit (results_request key id limit 0)).
    destruct (page _ _ _) as [[it nx]|] eqn:Ep; [|done]. cbn. intros [= <- _ _]. apply page_bound in Ep; lia.
Qed.

(** ** Submitting a job *)

Definition job_request (key id : string) : http_request :=
  {| hr_method := "GET"; hr_segments := ["v1"; "jobs"; id]; hr_clean := true; hr_key := key; hr_query := fun _ => "";
     hr_body := [] |}.
Definition submit_request (key : string) (body : list ascii) : http_request :=
  {| hr_method := "POST"; hr_segments := ["v1"; "jobs"]; hr_clean := true; hr_key := key; hr_query := fun _ => "";
     hr_body := body |}.

Lemma get_job_handler srv jobs key id s :
  admitted srv key -> id <> "" -> srv_jobs srv = Some jobs ->
  Handler srv (job_request key id) s
  = Some (match jp_Get jobs id s with
          | Err JNotFound => job_not_found
          | Err _ => Problem 500 "job_lookup_failed" "the job could not be retrieved"
          | Ok job => JSON 200 (BJob job)
          end, s).
Proof.
  intros Had Hid Hj. rewrite handler_admitted by done. unfold mux, job_request. cbn [hr_clean negb hr_segments hr_method].
  unfold routes. rewrite !String.eqb_refl, (proj2 (String.eqb_neq _ _) Hid). cbn. unfold handleGetJob. by rewrite Hj.
Qed.

(** A submission the runner takes, as the two steps of the runner it is. *)
Lemma submit_runs rand now rows r :
  let unique := dedup rows in
  let id := newJobID rand in
  0 < len unique <= r_maxEmails r -> r_store r !! id = None -> r_procs r !! id = None ->
  exists r', runner_Submit answer failed_at rand now rows r = (Ok (new_job id unique now), r') /\
    run answer failed_at [ESubmit id rows now; EStart id] r = Some r' /\
    exists p, r_procs r' !! id = Some p /\ p_rows p = unique.
Proof.
  intros unique id Hl Hs Hp. unfold runner_Submit, run, exec. cbn [fold_left mbind option_bind event_id]. fold id.
  assert (js_Get id (r_store r) = Err ErrJobNotFound) as -> by (cbn; unfold GetJob; by rewrite Hs). rewrite Hp.
  unfold Submit, submit_on. fold unique. rewrite (proj2 (Z.eqb_neq (len unique) 0)), Z.gtb_ltb, (proj2 (Z.ltb_ge _ _)) by lia.
  cbn. rewrite lookup_insert_eq. cbn. eexists. split; [reflexivity|]. split; [reflexivity|].
  cbn. eexists. rewrite lookup_insert_eq. split; [done|]. unfold start. by destruct (group _).
Qed.

Lemma create_handler keys rand now key body req s :
  let srv := api_server keys rand now in
  admitted srv key -> decode_create maxBulkBodyBytes body = Some req ->
  Handler srv (submit_request key body) s
  = let '(a, r) := runner_Submit answer failed_at rand now (toRows req) (pl_runner s) in
    Some (match a with
          | Ok job => JSON 202 (BJob job)
          | Err JNoEmails => Problem 400 "no_emails" "at least one email address is required"
          | Err JTooManyEmails => Problem 413 "too_many_emails" "the job exceeds the maximum number of addresses"
          | Err _ => Problem 500 "job_create_failed" "the job could not be created"
          end, set_runner r s).
Proof.
  intros srv Had Hdec. rewrite handler_admitted by done. unfold mux. cbn. unfold handleCreateJob. cbn. rewrite Hdec.
  destruct (runner_Submit _ _ _ _ _ _) as [[job|[]] r]; done.
Qed.

#[local] Arguments group : simpl never.
#[local] Arguments start : simpl never.

(** C15: A bulk submission does what it answers: from the addresses and the labelled
    rows together, without blanks and duplicates, no row left is a 400 and more
    than the server's limit a 413, both leaving everything as it was; otherwise
    the answer is a 202 with a running job of that many rows, the rows are handed
    to the job's goroutine, and asking for the job's id answers that very job. *)
Theorem api_bulk_submit keys rand now key body req s :
  let srv := api_server keys rand now in
  let unique := dedup (toRows req) in
  let id := newJobID rand in
  admitted srv key -> decode_create maxBulkBodyBytes body = Some req ->
  exists a s', Handler srv (submit_request key body) s = Some (a, s') /\
    (unique = [] -> a = Problem 400 "no_emails" "at least one email address is required" /\ s' = s) /\
    (len unique > r_maxEmails (pl_runner s) -> unique <> [] ->
       a = Problem 413 "too_many_emails" "the job exceeds the maximum number of addresses" /\ s' = s) /\
    (0 < len unique <= r_maxEmails (pl_runner s) -> exists job p,
       a = JSON 202 (BJob job) /\ job_ID job = id /\ job_Status job = JobRunning /\ job_Total job = len unique /\
       r_procs (pl_runner s') !! id = Some p /\ p_rows p = unique /\ p_phase p = Dispatching /\
       p_order p = (group unique).1 /\
       Handler srv (job_request key id) s' = Some (JSON 200 (BJob job), s')).
Proof.
  intros srv unique id Had Hdec. rewrite handler_admitted by done. unfold mux. cbn.
  unfold handleCreateJob. cbn. rewrite Hdec. unfold runner_Submit, Submit. fold unique id.
  destruct (Z.eqb_spec (len unique) 0) as [H0|H0].
  { assert (unique = []) as -> by (destruct unique; [done|unfold len in H0; simpl in H0; lia]).
    eexists _, _. split; [reflexivity|]. split; [by destruct s|]. split; [done|]. unfold len. simpl. lia. }
  assert (Hne : unique <> []) by (intros E; rewrite E in H0; done).
  rewrite Z.gtb_ltb. destruct (Z.ltb_spec (r_maxEmails (pl_runner s)) (len unique)) as [Hgt|Hle].
  { eexists _, _. split; [reflexivity|]. split; [done|]. split; [by destruct s|lia]. }
  eexists _, _. split; [reflexivity|]. split; [done|]. split; [lia|]. intros _. cbn. rewrite lookup_insert_eq. cbn.
  destruct (group unique) as [order byEmail] eqn:Eg. cbn. eexists _, _. repeat (split; [reflexivity|]).
  split; [by rewrite lookup_insert_eq|]. unfold start. cbn. rewrite ?Eg. repeat (split; [reflexivity|]).
  assert (Hid : id <> "") by (unfold id, newJobID; by destruct rand).
  rewrite (get_job_handler _ (runnerPort answer failed_at rand now)) by done. cbn. unfold GetJob, CreateJob.
  by rewrite lookup_insert_eq.
Qed.
End Plane.

(** ** A server at work *)

(** A decoder that takes the body for the address, the strategy or the reason. *)
#[local] Instance plain_decoder : Decoder := {|
  decode_verify := fun _ b => Some (of_bytes b);
  decode_create := fun _ b => Some {| cj_Emails := Split (of_bytes b) ","%char; cj_Rows := [{| rr_Label := "Ann"; rr_Email := "a@x.org" |}] |};
  decode_policy := fun _ b => Some {| pu_Strategy := of_bytes b; pu_Reason := "" |};
  decode_reason := fun _ b => of_bytes b;
|}.

Definition ex_service : service unit := fun _ _ m w => (Err VFailed, (m, w)).
Definition ex_answer (id email : string) : option Verdict := None.
Definition ex_failed_at (id email : string) : Time := 7.

Definition ex_planes (tables : UnicodeTables) : plane unit :=
  {| pl_egress := ex_mgr; pl_policy := Policy.Default; pl_runner := Runner.New {| Runner.cfg_Concurrency := 2; cfg_MaxEmails := 3 |};
     pl_world := tt |}.

Definition ex_api (tables : UnicodeTables) : Api.Server (plane unit) :=
  api_server ex_service ex_answer ex_failed_at " k1 , k2," (Some ["a"%char]) ex_start.

Lemma ex_plane_wf tables : plane_wf 0 (ex_planes tables).
Proof.
  constructor; [exact ex_mgr_wf|apply default_typed|apply map_Forall_empty].
Qed.

Lemma api_key_gate_witness :
  let tables := ascii_tables in
  Handler (ex_api tables) (submit_request "k3" []) (ex_planes tables) = Some (unauthorized, ex_planes tables).
Proof.
  intros tables.
  destruct (api_key_gate (ex_api tables) (submit_request "k3" []) (ex_planes tables)) as [H _]; [vm_compute; discriminate|].
  destruct H as (a & Ha & _ & Hu); [apply (bool_decide_unpack _); reflexivity|]. rewrite Ha, Hu by reflexivity. reflexivity.
Defined.

Lemma api_total_witness :
  let tables := ascii_tables in
  exists a s', Handler (ex_api tables) (submit_request "k1" (bytes "b@x.org, A@x.org")) (ex_planes tables) = Some (a, s') /\
               plane_wf 0 s' /\ status_of a ∈ api_statuses.
Proof.
  intros tables. apply (api_total (HU := tables)); [done|intros p email m w Hm; exact Hm|apply ex_plane_wf].
Defined.

(** The two bare addresses and the labelled one make three rows. *)
Lemma api_bulk_submit_witness :
  let tables := ascii_tables in
  exists job p s', Handler (ex_api tables) (submit_request "k1" (bytes "b@x.org, A@x.org,,B@X.org")) (ex_planes tables)
               = Some (JSON 202 (BJob job), s') /\ job_Total job = 3 /\
             r_procs (pl_runner s') !! job_ID job = Some p /\ p_order p = ["b@x.org"; "A@x.org"].
Proof.
  intros tables. set (body := bytes "b@x.org, A@x.org,,B@X.org").
  set (req := {| cj_Emails := Split (of_bytes body) ","%char; cj_Rows := [{| rr_Label := "Ann"; rr_Email := "a@x.org" |}] |}).
  destruct (api_bulk_submit (HU := tables) ex_service ex_answer ex_failed_at " k1 , k2," (Some ["a"%char]) ex_start "k1" body req
              (ex_planes tables)) as (a & s' & Hh & _ & _ & H3).
  - right. apply (bool_decide_unpack _). reflexivity.
  - reflexivity.
  - destruct H3 as (job & p & -> & Hid & _ & Ht & Hp & _ & _ & Ho & _); [vm_compute; split; [reflexivity|discriminate]|].
    exists job, p, s'. split; [exact Hh|]. rewrite Ht, Hid, Ho. split; [reflexivity|]. split; [exact Hp|reflexivity].
Defined.

Definition ex_full (tables : UnicodeTables) : plane unit :=
  set_runner (set_store {[ "job_1" := {| je_job := ex_job; je_results := repeat (ex_result StatusRisky) 3 |} ]}
                (pl_runner (ex_planes tables))) (ex_planes tables).

Lemma api_results_complete_witness :
  let tables := ascii_tables in
  fetch (ex_api tables) "k2" "job_1" "2" 4 0 (ex_full tables) = Some (repeat (ex_result StatusRisky) 3).
Proof.
  intros tables.
  destruct (api_results_complete (HU := tables) ex_service ex_answer ex_failed_at " k1 , k2," (Some ["a"%char]) ex_start "k2" "job_1" "2"
           (ex_full tables) {| je_job := ex_job; je_results := repeat (ex_result StatusRisky) 3 |}) as [H _].
  - discriminate.
  - right. apply (bool_decide_unpack _). reflexivity.
  - reflexivity.
  - vm_compute. discriminate.
  - exact H.
Defined.
