(* ===== verification/ApiJson.v ===== *)
(** The bodies of the JSON API: what [Decode] makes of a request's bytes, as the
    decoder the handlers of [Api] are given, and the bytes of a response. *)

From Stdlib Require Import QArith.
From S2P Require Import Prelude GoStrings GoConv Float64 GoTime Json GoDate JsonFloat JsonCodec.
From S2P Require Import Verdict Engine Settings Store Memory Runner Wire Columns Postgres Ports Api.
Local Open Scope list_scope.
Local Open Scope Z_scope.

(** ** Requests *)

Definition e_verifyRequest (email : string) : option json := e_struct [str "email" email].
Definition d_verifyRequest : decoder string :=
  strict ["email"] (d_struct [("email", dbad d_string)] (fun h => dval d_string (h "email"))).

Definition e_rowRequest (r : rowRequest) : option json := e_struct [str "label" (rr_Label r); str "email" (rr_Email r)].
Definition d_rowRequest : decoder rowRequest :=
  strict ["label"; "email"] (d_struct [("label", dbad d_string); ("email", dbad d_string)]
    (fun h => {| rr_Label := dval d_string (h "label"); rr_Email := dval d_string (h "email") |})).

Definition e_createJobRequest (r : createJobRequest) : option json :=
  e_struct [list_opt "emails" (fun s => Some (e_string s)) (cj_Emails r); list_opt "rows" e_rowRequest (cj_Rows r)].
Definition d_createJobRequest : decoder createJobRequest :=
  strict ["emails"; "rows"] (d_struct [("emails", dbad (d_list d_string)); ("rows", dbad (d_list d_rowRequest))]
    (fun h => {| cj_Emails := dval (d_list d_string) (h "emails"); cj_Rows := dval (d_list d_rowRequest) (h "rows") |})).

Definition e_policyUpdateRequest (r : policyUpdateRequest) : option json :=
  e_struct [str "strategy" (pu_Strategy r); str "reason" (pu_Reason r)].
Definition d_policyUpdateRequest : decoder policyUpdateRequest :=
  strict ["strategy"; "reason"] (d_struct [("strategy", dbad d_string); ("reason", dbad d_string)]
    (fun h => {| pu_Strategy := dval d_string (h "strategy"); pu_Reason := dval d_string (h "reason") |})).

(** The reason of a quarantine is optional, and unknown members are let pass. *)
Definition d_quarantineRequest : decoder string := d_struct [("reason", dbad d_string)] (fun h => dval d_string (h "reason")).

(** The decoder of the API. *)
#[global] Instance json_bodies : Decoder := {|
  decode_verify limit body := Decode (MaxBytes limit) d_verifyRequest body;
  decode_create limit body := Decode (MaxBytes limit) d_createJobRequest body;
  decode_policy limit body := Decode (MaxBytes limit) d_policyUpdateRequest body;
  decode_reason limit body := Decoded (MaxBytes limit) d_quarantineRequest body |}.

Example unknown_member : decode_create 100 (ticks "{'emails':['a@x.org'],'email':'b@x.org'}") = None.
Proof. reflexivity. Qed.
Example folded_and_repeated :
  decode_create 100 (ticks "{'EMAILS':['a@x.org','b@x.org'], 'emails':[null]} trailing") = Some {| cj_Emails := ["a@x.org"]; cj_Rows := [] |}.
Proof. reflexivity. Qed.
Example too_long : decode_verify 10 (ticks "{'email':'a@x.org'}") = None /\ decode_reason 100 (ticks "{'reason':'spam','n':[1]}") = "spam".
Proof. split; reflexivity. Qed.

(** ** Responses *)

Definition e_ints (m : gmap string Z) : option json :=
  Some (JObj ((fun kv => (escape 0 (bytes kv.1), e_int kv.2)) <$> sorted_members m)).

Section Zone.
Variable zone : Z.

Definition e_Job (j : Job) : option json :=
  e_struct [str "id" (job_ID j); str "status" (JobStatus_String (job_Status j)); int "total" (job_Total j); int "done" (job_Done j);
            ("created_at", true, e_time zone (job_CreatedAt j));
            ("completed_at", match job_CompletedAt j with Some _ => true | None => false end,
             match job_CompletedAt j with Some t => e_time zone t | None => None end)].
Definition e_Result (r : Result) : option json :=
  e_struct [str_opt "label" (res_Label r); ("verdict", true, e_Verdict zone (res_Verdict r))].
Definition e_resultsResponse (p : list Result * Z) : option json :=
  e_struct [("results", true, e_list e_Result p.1); int "next_cursor" p.2].
Definition e_JobStats (s : JobStats) : option json :=
  e_struct [int "total" (stats_Total s); ("by_status", true, e_ints (ByStatus s)); ("by_sub_status", true, e_ints (BySubStatus s));
            ("by_provider", true, e_ints (ByProvider s)); int "probed" (stats_Probed s); int "not_probed" (stats_NotProbed s)].
Definition e_EgressIdentity (i : EgressIdentity) : option json :=
  e_struct [str "id" (ei_ID i); str_opt "ip" (ei_IP i); str "state" (ei_State i); str_opt "reason" (ei_Reason i); flag "online" (ei_Online i)].
Definition e_PolicyEntry (p : PolicyEntry) : option json :=
  e_struct [str "key" (pe_Key p); str "strategy" (pe_Strategy p); str_opt "reason" (pe_Reason p)].
Definition e_problem (status : Z) (title detail : string) : option json :=
  e_struct [str "type" "about:blank"; str "title" title; int "status" status; str_opt "detail" detail].

(** What a handler passes to [writeJSON]; maps have their keys sorted. *)
Definition e_body (b : body) : option json :=
  match b with
  | BStatus s => e_struct [str "status" s]
  | BVerdict v => e_Verdict zone v
  | BJob j => e_Job j
  | BResults items next => e_resultsResponse (items, next)
  | BStats s => e_JobStats s
  | BJobStatus id status => e_struct [str "id" id; str "status" status]
  | BIdentities l => e_struct [("identities", true, e_list e_EgressIdentity l)]
  | BIdentityState id state => e_struct [str "id" id; str "state" state]
  | BPolicies l => e_struct [("policies", true, e_list e_PolicyEntry l)]
  | BPolicy e => e_PolicyEntry e
  end.

(** [writeJSON] and [writeProblem]: the status, the content type and the body,
    empty when it cannot be encoded.  What the router answers by itself is left
    out. *)
Definition write_response (r : response) : option (Z * string * list ascii) :=
  match r with
  | JSON status b => Some (status, "application/json", default [] (Encode e_body b))
  | Problem status title detail =>
      Some (status, "application/problem+json", default [] (Encode (fun _ => e_problem status title detail) tt))
  | _ => None
  end.
End Zone.

(** A client's reading of a page of results. *)
Definition d_Result : decoder Result :=
  d_struct [("label", dbad d_string); ("verdict", dbad d_Verdict)]
    (fun h => {| res_Label := dval d_string (h "label"); res_Verdict := dval d_Verdict (h "verdict") |}).
Definition d_resultsResponse : decoder (list Result * Z) :=
  d_struct [("results", dbad (d_list d_Result)); ("next_cursor", dbad d_int)]
    (fun h => (dval (d_list d_Result) (h "results"), dval d_int (h "next_cursor"))).

(** A client's reading of a job: its id, status and progress. *)
Definition d_Job : decoder (string * string * Z * Z) :=
  d_struct [("id", dbad d_string); ("status", dbad d_string); ("total", dbad d_int); ("done", dbad d_int)]
    (fun h => (dval d_string (h "id"), dval d_string (h "status"), dval d_int (h "total"), dval d_int (h "done"))).

(** ** What arrives *)

Definition utf8_row (r : rowRequest) : rowRequest := {| rr_Label := utf8 (rr_Label r); rr_Email := utf8 (rr_Email r) |}.
Definition utf8_create (r : createJobRequest) : createJobRequest :=
  {| cj_Emails := utf8 <$> cj_Emails r; cj_Rows := utf8_row <$> cj_Rows r |}.
Definition utf8_policy (r : policyUpdateRequest) : policyUpdateRequest :=
  {| pu_Strategy := utf8 (pu_Strategy r); pu_Reason := utf8 (pu_Reason r) |}.
Definition utf8_result (r : Result) : Result := {| res_Label := utf8 (res_Label r); res_Verdict := utf8_verdict (res_Verdict r) |}.

Lemma codes_row r : codes (e_rowRequest r) d_rowRequest 1 (utf8_row r).
Proof. apply codes_strict; [codes_struct_tac 0|reflexivity|reflexivity]. Qed.

Lemma codes_rows l : codes (e_list e_rowRequest l) (d_list d_rowRequest) 2 (utf8_row <$> l).
Proof. apply (codes_list _ _ 1); [lia|]. induction l as [|r l IH]; cbn; constructor; [apply codes_row|exact IH]. Qed.
#[local] Hint Resolve codes_rows : codes.

Lemma codes_create r : codes (e_createJobRequest r) d_createJobRequest 3 (utf8_create r).
Proof. apply codes_strict; [codes_struct_tac 2|reflexivity|reflexivity]. Qed.

Lemma codes_policy r : codes (e_policyUpdateRequest r) d_policyUpdateRequest 1 (utf8_policy r).
Proof. apply codes_strict; [codes_struct_tac 0|reflexivity|reflexivity]. Qed.

Lemma codes_email s : codes (e_verifyRequest s) d_verifyRequest 1 (utf8 s).
Proof.
  apply codes_strict; [|reflexivity|reflexivity]. apply (codes_struct _ _ 0); [lia|codes_members|]. intros h ->. cbn [pick str fst snd String.eqb Ascii.eqb Bool.eqb app].
  rewrite app_nil_r. apply (dval_present _ _ 0), codes_string.
Qed.

#[local] Hint Resolve codes_verdict : codes.
Lemma codes_result zone r : printable zone (res_Verdict r) -> codes (e_Result zone r) d_Result 5 (utf8_result r).
Proof. intros H. codes_struct_tac 4. Qed.

Lemma codes_results zone l : Forall (fun r => printable zone (res_Verdict r)) l ->
  codes (e_list (e_Result zone) l) (d_list d_Result) 6 (utf8_result <$> l).
Proof. intros H. apply (codes_list _ _ 5); [lia|]. induction H; [constructor|]. rewrite fmap_cons. constructor; [by apply codes_result|done]. Qed.
#[local] Hint Resolve codes_results : codes.

Lemma codes_page zone l next : Forall (fun r => printable zone (res_Verdict r)) l -> int64_ok next = true ->
  codes (e_resultsResponse zone (l, next)) d_resultsResponse 7 (utf8_result <$> l, next).
Proof. intros H1 H2. codes_struct_tac 6. Qed.

Lemma codes_job zone j :
  int64_ok (job_Total j) = true -> int64_ok (job_Done j) = true -> dated_time zone (job_CreatedAt j) -> job_CompletedAt j = None ->
  codes (e_Job zone j) d_Job 1 (utf8 (job_ID j), utf8 (JobStatus_String (job_Status j)), job_Total j, job_Done j).
Proof.
  intros H1 H2 H3 H4. unfold e_Job. rewrite H4. apply (codes_struct _ _ 0); [lia|codes_members|].
  intros h Hh. rewrite !Hh. cbn [pick str int fst snd String.eqb Ascii.eqb Bool.eqb app]. rewrite ?app_nil_r.
  repeat f_equal; eapply (dval_present _ _ 0); eauto with codes.
Qed.

(** A body posted as [Marshal] writes it. *)
Lemma body_read {A B} (e : A -> option json) (d : decoder B) l depth a b limit rest :
  codes (e a) d depth b -> depth <= maxNestingDepth -> e a = e_struct l -> fits e limit a ->
  exists text, Marshal e a = Some text /\ Decode (MaxBytes limit) d (text ++ rest) = Some b.
Proof.
  intros Hc Hd Hl (text & Hm & Hlen). exists text. split; [done|]. eapply Decode_printed; [exact Hc|]. intros j Hj He Hn.
  unfold Marshal in Hm. rewrite Hj in Hm. apply (inj Some) in Hm. subst text. apply MaxBytes_printed; try done; [lia|].
  rewrite Hl in Hj. unfold e_struct in Hj. by apply fmap_Some in Hj as (ms & _ & ->).
Qed.

(** What [Encode] writes is read back with its line ending. *)
Lemma encoded_read {A B} (e : A -> option json) (d : decoder B) depth a b :
  codes (e a) d depth b -> depth <= maxNestingDepth -> Unmarshal d (default [] (Encode e a)) = Some b.
Proof.
  intros Hc Hd. pose proof Hc as (j & Hj & He & Hn & _). unfold Encode, Marshal. rewrite Hj. cbn [fmap option_fmap option_map default from_option].
  eapply Decode_printed; [exact Hc|]. intros j' Hj' _ _. assert (j' = j) as -> by congruence.
  change (only_value (print j ++ [ascii_of_N 10]) = Some j). unfold only_value. rewrite scan_printed by (done || lia). done.
Qed.

(** C40: The API and its clients read each other's bytes.  A verification, bulk or
    policy request that fits the body's limit is decoded to what the client meant,
    whatever bytes follow it in the body; and of the page of results the server
    answers, whose verdicts have finite confidences and writable times, the client
    decodes every label and verdict, in order, and the cursor.  In both
    directions bytes that are not UTF-8 arrive as U+FFFD. *)
Theorem api_bytes zone email req upd items next rest :
  (fits e_verifyRequest (Z.shiftl 1 16) email ->
     exists text, Marshal e_verifyRequest email = Some text /\ decode_verify (Z.shiftl 1 16) (text ++ rest) = Some (utf8 email)) /\
  (fits e_createJobRequest maxBulkBodyBytes req ->
     exists text, Marshal e_createJobRequest req = Some text /\ decode_create maxBulkBodyBytes (text ++ rest) = Some (utf8_create req)) /\
  (fits e_policyUpdateRequest (Z.shiftl 1 12) upd ->
     exists text, Marshal e_policyUpdateRequest upd = Some text /\ decode_policy (Z.shiftl 1 12) (text ++ rest) = Some (utf8_policy upd)) /\
  (Forall (fun r => printable zone (res_Verdict r)) items -> int64_ok next = true ->
     exists text, write_response zone (JSON 200 (BResults items next)) = Some (200, "application/json", text) /\
       Unmarshal d_resultsResponse text = Some (utf8_result <$> items, next)).
Proof.
  repeat split.
  - intros Hf. eapply body_read; [apply codes_email|done|done|done].
  - intros Hf. eapply body_read; [apply codes_create|done|done|done].
  - intros Hf. eapply body_read; [apply codes_policy|done|done|done].
  - intros Hi Hn. eexists. split; [reflexivity|]. apply (encoded_read _ _ 7); [by apply codes_page|done].
Qed.

(** ** Witness *)

Lemma api_bytes_witness :
  exists text, decode_create maxBulkBodyBytes (text ++ bytes "0]}e")
    = Some {| cj_Emails := ["a@x.org"]; cj_Rows := [{| rr_Label := "Zoë & Co"; rr_Email := "z@x.org" |}] |}.
Proof.
  set (req := {| cj_Emails := ["a@x.org"]; cj_Rows := [{| rr_Label := "Zoë & Co"; rr_Email := "z@x.org" |}] |}).
  destruct (api_bytes 0 "" req {| pu_Strategy := ""; pu_Reason := "" |} [] 0 (bytes "0]}e")) as (_ & H & _).
  destruct H as (text & _ & H).
  - eexists. split; [reflexivity|]. vm_compute. discriminate.
  - exists text. rewrite H. vm_compute. reflexivity.
Defined.
