(* ===== verification/Client.v ===== *)
(** A client of the bulk API: what it reads of the answers' bytes.

    The parts of a bulk verification meet here: the request's body, the handler,
    the runner with its workers, the store, the pages of results and their JSON.
    The client is the specification: it posts its addresses, then follows
    [next_cursor] from page to page, and knows nothing but the bytes. *)

From Stdlib Require Import QArith.
From S2P Require Import Prelude GoStrings GoConv Float64 GoTime Json GoDate JsonFloat JsonCodec.
From S2P Require Import Verdict Engine Settings Policy Health Egress EgressProps Builtin Store Memory Runner RunnerProps Wire Ports Api ApiProps ApiJson.
Local Open Scope list_scope.
Local Open Scope Z_scope.

(** ** Identifiers *)

Lemma ascii_valid l : Forall (fun a => byte_val a < 128) l -> to_valid 0 l = l.
Proof.
  induction 1 as [|a l Ha Hl IH]; [done|]. cbn [to_valid rune_len].
  rewrite (proj2 (Z.ltb_lt _ _) Ha). by rewrite IH.
Qed.

Lemma hex_digit_ascii n : (n < 16)%N -> byte_val (hex_digit n) < 128.
Proof.
  intros H. unfold hex_digit, byte_val. destruct (N.ltb_spec n 10); rewrite N_ascii_embedding by lia; lia.
Qed.

(** An identifier of a job is plain text. *)
Lemma newJobID_utf8 rand : utf8 (newJobID rand) = newJobID rand.
Proof.
  destruct rand as [b|]; [|vm_compute; reflexivity]. apply utf8_valid, ascii_valid. unfold newJobID, hex_encode.
  rewrite bytes_app, bytes_of_bytes. apply Forall_app. split; [repeat constructor|].
  induction b as [|a b IH]; [constructor|]. cbn [map concat app]. pose proof (N_ascii_bounded a).
  constructor; [|constructor; [|exact IH]]; apply hex_digit_ascii; [apply N.Div0.div_lt_upper_bound; lia|by apply N.mod_lt].
Qed.

(** ** The client *)

Section Client.
Context `{HU : UnicodeTables} {W : Type}.
Variable svc : service W.
Variable answer : string -> string -> option Verdict.
Variable failed_at : string -> string -> Time.
Variable zone : Z.

(** A request served as bytes. *)
Definition serve_bytes (srv : Api.Server (plane W)) (r : http_request) (s : plane W)
    : option (option (Z * string * list ascii) * plane W) :=
  '(a, s') ← Handler srv r s; Some (write_response zone a, s').

(** A client that follows [next_cursor] until it is 0; [fuel] bounds the pages. *)
Fixpoint fetch_bytes (srv : Api.Server (plane W)) (key id limit : string) (fuel : nat) (cursor : Z) (s : plane W)
    : option (list Result) :=
  match fuel with
  | O => None
  | S fuel =>
      match serve_bytes srv (results_request key id limit cursor) s with
      | Some (Some (200, _, text), s') =>
          '(items, next) ← Unmarshal d_resultsResponse text;
          if next =? 0 then Some items else rest ← fetch_bytes srv key id limit fuel next s'; Some (items ++ rest)
      | _ => None
      end
  end.

Lemma page_items rs cursor limit items next (P : Result -> Prop) :
  page rs cursor limit = Some (items, next) -> Forall P rs -> Forall P items.
Proof.
  intros Hp H. unfold page in Hp. destruct (_ >=? _); [by injection Hp as <- _|]. unfold slice in Hp.
  destruct (_ && _); [|done]. cbn [mbind option_bind] in Hp. injection Hp as <- _. by apply Forall_take, Forall_drop.
Qed.

(** The client reads what the pages hold, up to bytes that are not UTF-8. *)
Lemma fetch_bytes_collect keys rand now key id limit s e fuel : forall cursor,
  id <> "" -> admitted (api_server svc answer failed_at keys rand now) key -> r_store (pl_runner s) !! id = Some e ->
  len (je_results e) <= max_int64 -> Forall (fun r => printable zone (res_Verdict r)) (je_results e) -> int64_ok cursor = true ->
  fetch_bytes (api_server svc answer failed_at keys rand now) key id limit fuel cursor s
  = (fun rs : list Result => utf8_result <$> rs) <$> collect fuel (je_results e) cursor (results_limit (results_request key id limit 0)).
Proof.
  induction fuel as [|fuel IH]; intros cursor Hid Had He Hmax Hpr Hc; [done|]. cbn [fetch_bytes collect]. unfold serve_bytes.
  rewrite (results_handler _ _ _ _ _ _ _ _ _ _ e) by done.
  destruct (page _ cursor _) as [[items next]|] eqn:Ep; [|done]. cbn [mbind option_bind write_response].
  pose proof (page_next _ _ _ _ _ Hmax Ep) as Hn.
  rewrite (encoded_read (e_body zone) d_resultsResponse 7 (BResults items next) (utf8_result <$> items, next));
    [|apply codes_page; [by eapply page_items|done]|done].
  cbn [mbind option_bind]. destruct (next =? 0); [done|]. rewrite IH by done.
  destruct (collect fuel _ next _) as [rest|]; [|done]. cbn. by rewrite fmap_app.
Qed.

(** An identifier that no job has and nobody has asked about. *)
Definition unused (id : string) (es : list event) (r : Runner) : Prop :=
  r_store r !! id = None /\ r_procs r !! id = None /\ ~ troubled id es.

Lemma expected_printable id rows :
  (forall email, printable zone (recorded answer failed_at id email)) ->
  Forall (fun r => printable zone (res_Verdict r)) (expected answer failed_at id rows).
Proof. intros H. apply list.Forall_forall. intros r Hr. apply list_elem_of_fmap in Hr as (row & -> & _). apply H. Qed.

Lemma refusals_app id es es' : refusals id (es ++ es') = (refusals id es + refusals id es')%nat.
Proof. unfold refusals. by rewrite fmap_app, sum_list_with_app. Qed.

(** The results of a job that has ended undisturbed, as the client reads them. *)
Lemma fetched_complete cfg es s keys rand now key id limit p :
  reaches answer failed_at cfg es (pl_runner s) -> ~ troubled id es ->
  r_procs (pl_runner s) !! id = Some p -> p_phase p = Exited ->
  id <> "" -> admitted (api_server svc answer failed_at keys rand now) key ->
  len (p_rows p) + maxResultsLimit <= max_int64 ->
  (forall email, printable zone (recorded answer failed_at id email)) ->
  exists rs, fetch_bytes (api_server svc answer failed_at keys rand now) key id limit (S (length (p_rows p))) 0 s = Some rs /\
    rs ≡ₚ utf8_result <$> expected answer failed_at id (p_rows p).
Proof.
  intros Hr Ht Hp Hx Hid Had Hmax Hpr. unfold troubled in Ht.
  destruct (run_completes answer failed_at es (pl_runner s) id p) as (e & He & _ & _ & Hres);
    [by eapply reaches_inv|done|tauto|lia|done|].
  assert (Hl : length (je_results e) = length (p_rows p)).
  { rewrite Hres. unfold expected. by rewrite length_fmap. }
  pose proof (results_limit_range (results_request key id limit 0)) as Hlim. unfold maxResultsLimit in *.
  exists (utf8_result <$> je_results e). split; [|by rewrite Hres].
  rewrite (fetch_bytes_collect _ _ _ _ _ _ _ e); try done.
  - rewrite <- Hl, collect_all; [done|lia|]. unfold len in *. lia.
  - unfold len in *. lia.
  - rewrite Hres. by apply expected_printable.
Qed.

(** A submission and the events after it leave a new job's identifier alone. *)
Lemma troubled_later id es rows now es' :
  ~ troubled id es -> ~ troubled id es' -> ~ troubled id ((es ++ [ESubmit id rows now; EStart id]) ++ es').
Proof.
  unfold troubled. intros H H'. rewrite !elem_of_app, !refusals_app. intros [[[?|Hi]|?]|Hn]; [tauto| |tauto|].
  - by repeat (apply elem_of_cons in Hi as [Hi|Hi]; [discriminate Hi|]); apply not_elem_of_nil in Hi.
  - change (refusals id [ESubmit id rows now; EStart id]) with 0%nat in Hn. lia.
Qed.

(** C4: A bulk verification over HTTP is complete.  A client posts the bytes of a
    request that fits the limit; whatever the server has been doing, the answer is
    a 202 whose bytes hold the new job's identifier, running, with as many rows as
    the request has without blanks and duplicates.  Whatever happens on the server
    after that, once the job has ended, nobody having canceled it and no result
    of it refused, the client that follows [next_cursor] over the bytes of the
    pages, with any limit, reads exactly one result for every row, with the row's
    label and the verdict of its address — up to bytes that are not UTF-8. *)
Theorem bulk_over_http cfg es s keys rand now key req rest :
  let id := newJobID rand in
  let unique := dedup (toRows (utf8_create req)) in
  admitted (api_server svc answer failed_at keys rand now) key -> fits e_createJobRequest maxBulkBodyBytes req ->
  reaches answer failed_at cfg es (pl_runner s) -> unused id es (pl_runner s) ->
  0 < len unique <= r_maxEmails (pl_runner s) -> len unique + maxResultsLimit <= max_int64 ->
  dated_time zone now -> (forall email, printable zone (recorded answer failed_at id email)) ->
  exists text created s1,
    Marshal e_createJobRequest req = Some text /\
    serve_bytes (api_server svc answer failed_at keys rand now) (submit_request key (text ++ rest)) s
      = Some (Some (202, "application/json", created), s1) /\
    Unmarshal d_Job created = Some (id, "running", len unique, 0) /\
    forall es' s2 rand' now' limit p,
      run answer failed_at es' (pl_runner s1) = Some (pl_runner s2) -> ~ troubled id es' ->
      r_procs (pl_runner s2) !! id = Some p -> p_phase p = Exited ->
      exists rs, fetch_bytes (api_server svc answer failed_at keys rand' now') key id limit (S (length unique)) 0 s2 = Some rs /\
        rs ≡ₚ utf8_result <$> expected answer failed_at id unique.
Proof.
  intros id unique Had Hf Hr (Hs & Hp & Ht) Hl Hmax Hd Hpr.
  destruct (body_read e_createJobRequest d_createJobRequest _ 3 req (utf8_create req) maxBulkBodyBytes rest (codes_create req) ltac:(done) eq_refl Hf)
    as (text & Hm & Hdec).
  destruct (submit_runs answer failed_at rand now _ _ Hl Hs Hp) as (r1 & Hsub & Hrun1 & p1 & Hp1 & Hrows1).
  exists text, (default [] (Encode (e_body zone) (BJob (new_job id unique now)))), (set_runner r1 s). split; [done|]. split; [|split].
  - unfold serve_bytes. rewrite (create_handler _ _ _ _ _ _ _ _ (utf8_create req)) by done. by rewrite Hsub.
  - pose proof (newJobID_utf8 rand) as Hid. fold id in Hid. rewrite <- Hid at 2. apply (encoded_read _ _ 1); [|done].
    apply (codes_job zone (new_job id unique now)); [|done|done|done]. cbn [new_job job_Total]. unfold int64_ok, min_int64, maxResultsLimit in *. bool_to_prop. lia.
  - intros es' s2 rand' now' limit p Hrun Ht' Hp2 Hx.
    destruct (run_rows _ _ es' r1 (pl_runner s2) id p1 Hrun Hp1) as (p' & Hp' & Hrows). assert (p' = p) as -> by congruence.
    pose proof (run_reaches _ _ cfg _ _ _ _ (run_reaches _ _ cfg _ _ _ _ Hr Hrun1) Hrun) as Hr2.
    assert (Hu : unique = p_rows p) by (rewrite Hrows; symmetry; exact Hrows1). rewrite Hu in Hmax |- *.
    eapply fetched_complete; try done; [by apply troubled_later|by unfold id, newJobID; destruct rand].
Qed.
End Client.

(** ** A bulk verification *)

Definition ex_bulk : createJobRequest :=
  {| cj_Emails := ["b@x.org"; "A@x.org"; "B@X.org"]; cj_Rows := [{| rr_Label := "Zoë & Co"; rr_Email := "a@x.org" |}] |}.

(** The events of the job [id] of that request, with one worker at a time. *)
Definition ex_work (id : string) : list event := [
  EDispatch id; EVerified id 0; ERecord id 0 20; ELeave id 0; EDispatch id; EVerified id 0; ERecord id 0 21; ERecord id 0 22;
  ELeave id 0; EStop id; ERelease id; EInspect id].

Lemma ex_untroubled id : ~ troubled id (ex_work id).
Proof.
  intros [H|H]; [|cbn in H; lia].
  repeat (apply elem_of_cons in H as [H|H]; [discriminate H|]). by apply not_elem_of_nil in H.
Qed.

Lemma ex_printable id email : printable 0 (recorded ex_answer ex_failed_at id email).
Proof. repeat split; vm_compute; reflexivity || discriminate. Qed.

(** Three rows, read two to a page. *)
Lemma bulk_over_http_witness :
  let tables := ascii_tables in
  exists s2 rs, fetch_bytes 0 (ex_api tables) "k2" "job_61" "2" 4 0 s2 = Some rs /\ length rs = 3%nat.
Proof.
  intros tables.
  destruct (bulk_over_http (HU := tables) ex_service ex_answer ex_failed_at 0 {| cfg_Concurrency := 2; cfg_MaxEmails := 3 |} []
              (ex_planes tables) " k1 , k2," (Some ["a"%char]) ex_start "k2" ex_bulk [newline_byte])
    as (text & created & s1 & Hm & Hs & _ & H).
  - right. apply (bool_decide_unpack _). reflexivity.
  - eexists. split; [vm_compute; reflexivity|]. vm_compute. discriminate.
  - apply (reach_new (HU := tables)).
  - split; [reflexivity|]. split; [reflexivity|]. intros [Hx|Hx]; [by apply not_elem_of_nil in Hx|cbn in Hx; lia].
  - vm_compute. split; [reflexivity|discriminate].
  - vm_compute. discriminate.
  - repeat split; vm_compute; reflexivity || discriminate.
  - apply ex_printable.
  - assert (F : exists r2 p, run (HU := tables) ex_answer ex_failed_at (ex_work "job_61") (pl_runner s1) = Some r2 /\
                             r_procs r2 !! "job_61" = Some p /\ p_phase p = Exited).
    { vm_compute in Hm. injection Hm as <-. vm_compute in Hs. injection Hs as _ <-. eexists _, _.
      split; [vm_compute; reflexivity|]. split; vm_compute; reflexivity. }
    destruct F as (r2 & p & Hrun & Hp & Hx).
    destruct (H (ex_work "job_61") (set_runner r2 s1) (Some ["a"%char]) ex_start "2" p Hrun (ex_untroubled _) Hp Hx) as (rs & Hf & Hperm).
    exists (set_runner r2 s1), rs. split; [exact Hf|]. apply Permutation_length in Hperm. rewrite Hperm. vm_compute. reflexivity.
Defined.
