(* ===== verification/Web.v ===== *)
(** [internal/web]: the dashboard's pages.

    A handler gives the template it renders and the data it renders it with, or
    a plain HTTP error; the markup itself is not modelled.  The sign-in handlers
    are those of [Auth.v]; uploads, exports and settings, which have files of
    their own, are a parameter of the router that [Assembly.v] instantiates.
    [None] is a panic. *)

From Stdlib Require Import QArith.
From S2P Require Import Control Upload.
From S2P Require Import Prelude GoStrings GoConv Float64 GoTime Verdict Engine Settings Store Memory Runner Reports Worker Auth Ports Api.
Local Open Scope list_scope.
Local Open Scope Z_scope.

(** ** View models *)

Record verdictView := { vv_Verdict : Verdict; vv_ConfidencePct : Z; vv_Label : string }.

Definition newVerdictView `{FloatConv} (v : Verdict) : verdictView :=
  {| vv_Verdict := v; vv_ConfidencePct := f64_to_int64 (fadd (fmul (Confidence v) (f64 100)) (f64 (1 # 2)));
     vv_Label := "" |}.

Definition newResultView `{FloatConv} (r : Result) : verdictView :=
  let view := newVerdictView (res_Verdict r) in
  {| vv_Verdict := vv_Verdict view; vv_ConfidencePct := vv_ConfidencePct view; vv_Label := res_Label r |}.

Record jobShowData := {
  js_Job : jobView; js_Results : list verdictView; js_HasMore : bool; js_NextCursor : Z; js_Buckets : list bucketView;
}.

(** [web.AgentInfo]: an agent with its last error and last sighting as texts. *)
Record AgentView := {
  av_ID : string; av_BaseURL : string; av_Online : bool; av_IP : string; av_HELO : string; av_Region : string;
  av_ASN : string; av_LastErr : string; av_LastSeen : string;
}.

Record serverRow := {
  sr_Role : string; sr_ID : string; sr_Address : string; sr_Online : bool; sr_IP : string; sr_HELO : string;
  sr_Region : string; sr_LastSeen : string; sr_LastErr : string; sr_State : string;
}.

Inductive web_data :=
| DNone
| DMessage (m : string)
| DVerdict (v : verdictView)
| DJob (j : Job)
| DJobs (l : list jobView)
| DShow (d : jobShowData)
| DMetrics (m : jobMetrics)
| DIdentities (l : list EgressIdentity)
| DIdentity (i : EgressIdentity)
| DPolicies (l : list PolicyEntry)
| DPolicy (e : PolicyEntry)
| DServers (rows : list serverRow) (agentsEnabled : bool).

(** [renderPage], [renderFragment], [http.Error], [http.NotFound], and what the
    router and the sign-in handlers answer. *)
Inductive web_response :=
| Page (title template : string) (d : web_data)
| Fragment (template : string) (d : web_data)
| HTTPError (status : Z) (msg : string)
| NotFoundPage
| SignIn (a : auth_response)
| WebRedirect
| WebMuxError (status : Z)
| FromUpload (a : Upload.response)           (** an upload or an export *)
| SettingsPage (v : settingsView)            (** the settings page *)
| SettingsForm (v : settingsView)            (** the settings form *)
| Asset.

(** ** Requests *)

(** The multipart form of an upload: unreadable, without a file, or with one. *)
Inductive multipart := Unreadable | NoFile | FormFile (filename : string) (content : list ascii).

Record web_request := {
  wr_method : string;
  wr_segments : list string;
  wr_clean : bool;
  wr_session : option string;
  wr_HX : string;
  wr_query : string -> string;
  wr_form_ok : bool;
  wr_form : gmap string string;  (** what [ParseForm] read, even when it failed *)
  wr_file : multipart;
}.

Definition wr_Path (r : web_request) : string := "/" +:+ Join (wr_segments r) "/".

(** What the sign-in handlers read of the request. *)
Definition auth_request (r : web_request) : request :=
  {| rq_Path := wr_Path r; rq_session := wr_session r; rq_HX := wr_HX r; rq_form_ok := wr_form_ok r; rq_form := wr_form r |}.

(** [FormValue] *)
Definition FormValue (r : web_request) (key : string) : string := default "" (wr_form r !! key).

(** [queryInt] *)
Definition web_queryInt (r : web_request) (key : string) (def : Z) : Z :=
  let v := wr_query r key in
  if String.eqb v "" then def else match Atoi v with Some n => n | None => def end.

(** [webServersAdapter]; the layout of a time and the text of an error are
    parameters. *)
Definition webServersAdapter (format : Time -> string) (text : reach_error -> string) (reg : Registry)
    : option (list AgentView) :=
  agents ← Agents reg;
  Some (map (fun ag =>
    {| av_ID := ai_ID ag; av_BaseURL := ai_BaseURL ag; av_Online := ai_Online ag; av_IP := ai_IP ag;
       av_HELO := ai_HELO ag; av_Region := ai_Region ag; av_ASN := ai_ASN ag;
       av_LastErr := match ai_LastErr ag with None => "" | Some e => text e end;
       av_LastSeen := if IsZero (ai_LastSeen ag) then "" else format (ai_LastSeen ag) |}) agents).

(** ** The dashboard *)

Section Dashboard.
Context {S : Type} `{HF : FloatConv}.

(** [Config]; the agents of [Servers] are those the registry shows at the time. *)
Record Config := {
  wc_Verifier : VerifierPort S;
  wc_Jobs : option (JobsPort S);
  wc_Egress : option (EgressPort S);
  wc_Policy : option (PolicyPort S);
  wc_Servers : option (S -> option (list AgentView));
  wc_auth : option auth;
}.

Variable cfg : Config.

Definition answer (a : web_response) (s : S) : option (web_response * S) := Some (a, s).

(** [handleHome] *)
Definition handleHome (s : S) : option (web_response * S) := answer (Page "rcpttō — Verify" "content-home" DNone) s.

Definition verdict_error (m : string) : web_response := Fragment "verdict-error" (DMessage m).

(** [handleVerifySubmit] *)
Definition handleVerifySubmit (r : web_request) (s : S) : option (web_response * S) :=
  if negb (wr_form_ok r) then answer (verdict_error "invalid form submission") s
  else
    let email := TrimSpace (FormValue r "email") in
    if String.eqb email "" then answer (verdict_error "email is required") s
    else
      let '(a, s) := vp_Verify (wc_Verifier cfg) email s in
      answer (match a with
              | Err _ => verdict_error "verification failed"
              | Ok v => Fragment "verdict-result" (DVerdict (newVerdictView v))
              end) s.

(** *** Jobs *)

Definition jobs_off : web_response := HTTPError 501 "bulk jobs are not enabled on this server".

(** The text of a port's error. *)
Variable jobs_error_text : jobs_error -> string.

(** The rows of [handleJobSubmit]. *)
Definition lines_rows (text : string) : list Row :=
  map (fun t => {| row_Label := ""; row_Email := t |})
      (List.filter (fun t => negb (String.eqb t "")) (map TrimSpace (Split text "010"%char))).

(** [handleJobSubmit] *)
Definition handleJobSubmit (r : web_request) (s : S) : option (web_response * S) :=
  match wc_Jobs cfg with
  | None => answer jobs_off s
  | Some jobs =>
      if negb (wr_form_ok r) then answer (verdict_error "invalid form submission") s
      else
        let '(a, s) := jp_Submit jobs (lines_rows (FormValue r "emails")) s in
        answer (match a with
                | Err e => verdict_error ("could not submit job: " +:+ jobs_error_text e)
                | Ok job => Fragment "job-created" (DJob job)
                end) s
  end.

(** [handleJobsList] *)
Definition handleJobsList (s : S) : option (web_response * S) :=
  match wc_Jobs cfg with
  | None => answer jobs_off s
  | Some jobs =>
      answer (match jp_List jobs 100 s with
              | Err _ => HTTPError 500 "could not list jobs"
              | Ok l => Page "rcpttō — Jobs" "content-jobs" (DJobs (map newJobView l))
              end) s
  end.

(** [loadJobShowData] *)
Definition loadJobShowData (jobs : JobsPort S) (id : string) (s : S) : option (result jobs_error jobShowData) :=
  match jp_Get jobs id s with
  | Err e => Some (Err e)
  | Ok job =>
      a ← jp_Results jobs id 0 50 s;
      Some (match a with
            | Err e => Err e
            | Ok (items, next) =>
                Ok {| js_Job := newJobView job; js_Results := map newResultView items;
                      js_HasMore := next >? 0; js_NextCursor := next;
                      js_Buckets := match jp_Stats jobs id s with Ok stats => bucketViews stats | Err _ => [] end |}
            end)
  end.

(** The answer to a job's data, rendered by [render]. *)
Definition show_answer (a : result jobs_error jobShowData) (render : jobShowData -> web_response) : web_response :=
  match a with
  | Err JNotFound => NotFoundPage
  | Err _ => HTTPError 500 "could not load job"
  | Ok data => render data
  end.

(** [handleJobShow] *)
Definition handleJobShow (id : string) (s : S) : option (web_response * S) :=
  match wc_Jobs cfg with
  | None => answer jobs_off s
  | Some jobs =>
      a ← loadJobShowData jobs id s;
      answer (show_answer a (fun d => Page ("rcpttō — Job " +:+ job_ID (jv_Job (js_Job d))) "content-job" (DShow d))) s
  end.

(** [handleJobStatus] *)
Definition handleJobStatus (id : string) (s : S) : option (web_response * S) :=
  match wc_Jobs cfg with
  | None => answer jobs_off s
  | Some jobs =>
      a ← loadJobShowData jobs id s; answer (show_answer a (fun d => Fragment "job-status-inner" (DShow d))) s
  end.

(** [handleJobResultsPage] *)
Definition handleJobResultsPage (id : string) (r : web_request) (s : S) : option (web_response * S) :=
  match wc_Jobs cfg with
  | None => answer jobs_off s
  | Some jobs =>
      match jp_Get jobs id s with
      | Err JNotFound => answer NotFoundPage s
      | Err _ => answer (HTTPError 500 "could not load job") s
      | Ok job =>
          a ← jp_Results jobs id (web_queryInt r "cursor" 0) 50 s;
          answer (match a with
                  | Err _ => HTTPError 500 "could not load results"
                  | Ok (items, next) =>
                      Fragment "job-result-rows-page"
                        (DShow {| js_Job := newJobView job; js_Results := map newResultView items;
                                  js_HasMore := next >? 0; js_NextCursor := next; js_Buckets := [] |})
                  end) s
      end
  end.

(** [handleJobCancel] *)
Definition handleJobCancel (id : string) (s : S) : option (web_response * S) :=
  match wc_Jobs cfg with
  | None => answer jobs_off s
  | Some jobs =>
      match jp_Cancel jobs id s with
      | (Ok _, s) | (Err JNotFound, s) =>
          a ← loadJobShowData jobs id s; answer (show_answer a (fun d => Fragment "job-status-inner" (DShow d))) s
      | (Err _, s) => answer (HTTPError 500 "could not cancel job") s
      end
  end.

(** [handleJobMetrics] *)
Definition handleJobMetrics (id : string) (s : S) : option (web_response * S) :=
  match wc_Jobs cfg with
  | None => answer jobs_off s
  | Some jobs =>
      answer (match jp_Get jobs id s with
              | Err JNotFound => NotFoundPage
              | Err e => HTTPError 500 ("could not load job: " +:+ jobs_error_text e)
              | Ok job =>
                  match jp_Stats jobs id s with
                  | Err e => HTTPError 500 ("could not compute statistics: " +:+ jobs_error_text e)
                  | Ok stats => Page "rcpttō — Report" "content-metrics" (DMetrics (buildJobMetrics job stats))
                  end
              end) s
  end.

(** *** Egress *)

Definition egress_off : web_response := HTTPError 501 "the egress dashboard is not enabled on this server".

(** [handleEgress] *)
Definition handleEgress (s : S) : option (web_response * S) :=
  match wc_Egress cfg with
  | None => answer egress_off s
  | Some egress => l ← ep_Identities egress s; answer (Page "rcpttō — Egress" "content-egress" (DIdentities l)) s
  end.

(** [renderEgressRow] *)
Definition renderEgressRow (egress : EgressPort S) (id : string) (s : S) : option (web_response * S) :=
  l ← ep_Identities egress s;
  answer (match List.find (fun i => String.eqb (ei_ID i) id) l with
          | Some i => Fragment "egress-row" (DIdentity i)
          | None => NotFoundPage
          end) s.

(** [handleEgressQuarantine], [handleEgressEnable], [handleEgressDisable] *)
Definition handleEgressQuarantine (id : string) (r : web_request) (s : S) : option (web_response * S) :=
  match wc_Egress cfg with
  | None => answer egress_off s
  | Some egress => renderEgressRow egress id (ep_Quarantine egress id (firstNonEmpty [FormValue r "reason"; "manual"]) s)
  end.

Definition handleEgressEnable (id : string) (s : S) : option (web_response * S) :=
  match wc_Egress cfg with
  | None => answer egress_off s
  | Some egress => renderEgressRow egress id (ep_Enable egress id s)
  end.

Definition handleEgressDisable (id : string) (r : web_request) (s : S) : option (web_response * S) :=
  match wc_Egress cfg with
  | None => answer egress_off s
  | Some egress => renderEgressRow egress id (ep_Disable egress id (firstNonEmpty [FormValue r "reason"; "manual"]) s)
  end.

(** *** Policies *)

Definition policy_off : web_response := HTTPError 501 "the policy dashboard is not enabled on this server".

(** [handlePolicies] *)
Definition handlePolicies (s : S) : option (web_response * S) :=
  match wc_Policy cfg with
  | None => answer policy_off s
  | Some policy => answer (Page "rcpttō — Policies" "content-policies" (DPolicies (pp_List policy s))) s
  end.

(** [handlePolicySet] *)
Definition handlePolicySet (key : string) (r : web_request) (s : S) : option (web_response * S) :=
  match wc_Policy cfg with
  | None => answer policy_off s
  | Some policy =>
      let strategy := FormValue r "strategy" in
      if negb (known_strategy strategy) then answer (HTTPError 400 "strategy must be one of: probe, skip, statistical") s
      else
        let s := pp_Set policy key strategy "dashboard edit" s in
        answer (match List.find (fun e => String.eqb (pe_Key e) key) (pp_List policy s) with
                | Some e => Fragment "policy-row" (DPolicy e)
                | None => NotFoundPage
                end) s
  end.

(** *** Servers *)

(** [identitiesOrEmpty] *)
Definition identitiesOrEmpty (s : S) : option (list EgressIdentity) :=
  match wc_Egress cfg with None => Some [] | Some egress => ep_Identities egress s end.

(** The map [states] of [handleServers]. *)
Definition identity_states (l : list EgressIdentity) : gmap string EgressIdentity :=
  fold_left (fun m i => <[ei_ID i := i]> m) l ∅.

Definition agent_row (states : gmap string EgressIdentity) (a : AgentView) : serverRow :=
  {| sr_Role := "probe agent"; sr_ID := av_ID a; sr_Address := av_BaseURL a; sr_Online := av_Online a; sr_IP := av_IP a;
     sr_HELO := av_HELO a; sr_Region := av_Region a; sr_LastSeen := av_LastSeen a; sr_LastErr := av_LastErr a;
     sr_State := match states !! av_ID a with Some i => ei_State i | None => "" end |}.

Definition local_row (i : EgressIdentity) : serverRow :=
  {| sr_Role := "control plane"; sr_ID := ei_ID i; sr_Address := "local"; sr_Online := ei_Online i; sr_IP := ei_IP i;
     sr_HELO := ""; sr_Region := ""; sr_LastSeen := ""; sr_LastErr := ""; sr_State := ei_State i |}.

(** The rows of [handleServers], for the identities read twice and the agents. *)
Definition server_rows (ids ids2 : list EgressIdentity) (agents : list AgentView) : list serverRow :=
  let remote : gset string := list_to_set (map av_ID agents) in
  map (agent_row (identity_states ids)) agents ++
  map local_row (List.filter (fun i => negb (bool_decide (ei_ID i ∈ remote))) ids2).

(** [handleServers] *)
Definition handleServers (s : S) : option (web_response * S) :=
  ids ← identitiesOrEmpty s;
  agents ← match wc_Servers cfg with None => Some [] | Some servers => servers s end;
  ids2 ← identitiesOrEmpty s;
  answer (Page "rcpttō — Servers" "content-servers"
            (DServers (server_rows ids ids2 agents) (match wc_Servers cfg with Some _ => true | None => false end))) s.

(** ** Routes *)

Inductive web_endpoint :=
| WHome | WVerify | WJobSubmit | WJobsList | WJobShow (id : string) | WJobStatus (id : string)
| WJobResults (id : string) | WJobCancel (id : string) | WEgress | WQuarantine (id : string) | WEnable (id : string)
| WDisable (id : string) | WServers | WPolicies | WPolicySet (key : string) | WLoginForm | WLoginSubmit | WLogout
| WExport (id format : string) | WMetrics (id : string) | WUpload | WUploadConfirm | WSettings | WSettingsSave | WAssets | WAssetsDir.

Definition web_routes (segs : list string) : list (string * web_endpoint) :=
  match segs with
  | [a] =>
      if String.eqb a "" then [("GET", WHome)]
      else if String.eqb a "verify" then [("POST", WVerify)]
      else if String.eqb a "jobs" then [("POST", WJobSubmit); ("GET", WJobsList)]
      else if String.eqb a "upload" then [("POST", WUpload)]
      else if String.eqb a "egress" then [("GET", WEgress)]
      else if String.eqb a "servers" then [("GET", WServers)]
      else if String.eqb a "settings" then [("GET", WSettings); ("POST", WSettingsSave)]
      else if String.eqb a "policies" then [("GET", WPolicies)]
      else if String.eqb a "login" then [("GET", WLoginForm); ("POST", WLoginSubmit)]
      else if String.eqb a "logout" then [("POST", WLogout)]
      else if String.eqb a "assets" then [("GET", WAssetsDir)] else []
  | a :: b :: rest =>
      if String.eqb a "assets" then [("GET", WAssets)]
      else if String.eqb b "" then []
      else match rest with
      | [] =>
          if String.eqb a "jobs" then [("GET", WJobShow b)]
          else if String.eqb a "upload" && String.eqb b "confirm" then [("POST", WUploadConfirm)]
          else if String.eqb a "policies" then [("POST", WPolicySet b)] else []
      | [c] =>
          if String.eqb a "jobs" then
            if String.eqb c "status" then [("GET", WJobStatus b)]
            else if String.eqb c "results" then [("GET", WJobResults b)]
            else if String.eqb c "cancel" then [("POST", WJobCancel b)]
            else if String.eqb c "metrics" then [("GET", WMetrics b)] else []
          else if String.eqb a "egress" then
            if String.eqb c "quarantine" then [("POST", WQuarantine b)]
            else if String.eqb c "enable" then [("POST", WEnable b)]
            else if String.eqb c "disable" then [("POST", WDisable b)] else []
          else []
      | [c; d] =>
          if String.eqb a "jobs" && String.eqb c "export" && negb (String.eqb d "") then [("GET", WExport b d)] else []
      | _ => []
      end
  | _ => []
  end.

(** The handlers that are modelled elsewhere. *)
Variable elsewhere : web_endpoint -> web_request -> S -> option (web_response * S).

Definition web_dispatch (now : Time) (e : web_endpoint) (r : web_request) (s : S) : option (web_response * S) :=
  match e with
  | WHome => handleHome s
  | WVerify => handleVerifySubmit r s
  | WJobSubmit => handleJobSubmit r s
  | WJobsList => handleJobsList s
  | WJobShow id => handleJobShow id s
  | WJobStatus id => handleJobStatus id s
  | WJobResults id => handleJobResultsPage id r s
  | WJobCancel id => handleJobCancel id s
  | WEgress => handleEgress s
  | WQuarantine id => handleEgressQuarantine id r s
  | WEnable id => handleEgressEnable id s
  | WDisable id => handleEgressDisable id r s
  | WServers => handleServers s
  | WPolicies => handlePolicies s
  | WPolicySet key => handlePolicySet key r s
  | WLoginForm => answer (SignIn (handleLoginForm (wc_auth cfg) now (auth_request r))) s
  | WLoginSubmit => answer (SignIn (handleLoginSubmit (wc_auth cfg) now (auth_request r))) s
  | WLogout => answer (SignIn (handleLogout (wc_auth cfg))) s
  | WMetrics id => handleJobMetrics id s
  | WAssets => answer Asset s
  | WAssetsDir => answer WebRedirect s
  | _ => elsewhere e r s
  end.

Definition web_mux (now : Time) (r : web_request) (s : S) : option (web_response * S) :=
  if negb (wr_clean r) then answer WebRedirect s
  else match List.find (fun me => method_ok me.1 (wr_method r)) (web_routes (wr_segments r)) with
  | Some (_, e) => web_dispatch now e r s
  | None => answer (WebMuxError (match web_routes (wr_segments r) with [] => 404 | _ => 405 end)) s
  end.

(** [Handler] *)
Definition web_Handler (now : Time) (r : web_request) (s : S) : option (web_response * S) :=
  match requireAuth (wc_auth cfg) now (fun _ => web_mux now r s) (auth_request r) with
  | inl o => o
  | inr a => answer (SignIn a) s
  end.
End Dashboard.
Arguments Config _ : clear implicits.

(** ** The dashboard's protection, as [run] reads it from the environment *)

(** [None] is the error of credentials that are set by half. *)
Definition dashboard_auth (user pass secret secure : string) : option (option AuthConfig) :=
  if negb (Bool.eqb (String.eqb user "") (String.eqb pass "")) then None
  else Some (if negb (String.eqb user "")
             then Some {| ac_Username := user; ac_Password := pass; ac_Secret := bytes secret; ac_TTL := 0;
                          ac_SecureCookie := getenvBool secure false |}
             else None).

(** ** Helpers of the upload templates ([templateFuncs]) *)

Definition columnName (header : list string) (c : Z) : string :=
  let h := if (0 <=? c) && (c <? len header) then TrimSpace (default "" (header !! Z.to_nat c)) else "" in
  if negb (String.eqb h "") then h else "Column " +:+ FormatInt (wrap64 (c + 1)).

Definition cell (row : list string) (c : Z) : string :=
  if (0 <=? c) && (c <? len row) then default "" (row !! Z.to_nat c) else "".

(** ** The root router of [run] *)

(** A request with all that the API and the dashboard read of it. *)
Record full_request := {
  fr_http : http_request; fr_session : option string; fr_HX : string; fr_form_ok : bool; fr_form : gmap string string;
  fr_file : multipart;
}.

Definition to_web (r : full_request) : web_request :=
  {| wr_method := hr_method (fr_http r); wr_segments := hr_segments (fr_http r); wr_clean := hr_clean (fr_http r);
     wr_session := fr_session r; wr_HX := fr_HX r; wr_query := hr_query (fr_http r); wr_form_ok := fr_form_ok r;
     wr_form := fr_form r; wr_file := fr_file r |}.

Inductive root_response := FromAPI (a : response) | FromDashboard (a : web_response) | RootRedirect | RootNotFound.

Inductive owner := OwnAPI | OwnDashboard | OwnRedirect.

(** Who answers a path: /v1/ and the liveness probes are the API's; /v1 itself is
    redirected to /v1/; the dashboard has the rest. *)
Definition root_owner (segs : list string) : owner :=
  match segs with
  | [a] => if String.eqb a "v1" then OwnRedirect
           else if String.eqb a "healthz" || String.eqb a "readyz" then OwnAPI else OwnDashboard
  | a :: _ :: _ => if String.eqb a "v1" then OwnAPI else OwnDashboard
  | [] => OwnDashboard
  end.

Section Root.
Context {S : Type} `{HF : FloatConv} `{HD : Decoder}.
Variable api : Api.Server S.
Variable dashboard : option (Config S).
Variable jobs_error_text : jobs_error -> string.
Variable elsewhere : web_endpoint -> web_request -> S -> option (web_response * S).

Definition root_serve (now : Time) (r : full_request) (s : S) : option (root_response * S) :=
  if negb (hr_clean (fr_http r)) then Some (RootRedirect, s)
  else match root_owner (hr_segments (fr_http r)) with
  | OwnRedirect => Some (RootRedirect, s)
  | OwnAPI => '(a, s) ← Api.Handler api (fr_http r) s; Some (FromAPI a, s)
  | OwnDashboard =>
      match dashboard with
      | None => Some (RootNotFound, s)
      | Some cfg => '(a, s) ← web_Handler cfg jobs_error_text elsewhere now (to_web r) s; Some (FromDashboard a, s)
      end
  end.
End Root.
