(* ===== verification/WebProps.v ===== *)
(** The dashboard and the whole HTTP surface: who gets in, and what the pages
    show and do. *)

From Stdlib Require Import QArith.
From S2P Require Import Prelude GoStrings GoConv Float64 GoTime Verdict Engine Settings Policy Health Egress EgressInv.
From S2P Require Import EgressOps EgressProps Store Memory Runner Reports Worker Auth Ports Api ApiProps Web.
Local Open Scope list_scope.
Local Open Scope Z_scope.

(** ** The gate *)

(** The login paths and the assets lead to the sign-in handlers and the files. *)
Definition open_endpoint (e : web_endpoint) : bool :=
  match e with WLoginForm | WLoginSubmit | WAssets => true | _ => false end.

Lemma open_routes segs m e :
  HasPrefix ("/" +:+ Join segs "/") "/login" || HasPrefix ("/" +:+ Join segs "/") "/assets/" = true ->
  (m, e) ∈ web_routes segs -> open_endpoint e = true.
Proof.
  destruct segs as [|a [|b rest]]; cbn [web_routes]; intros Hp He; [by apply not_elem_of_nil in He| |].
  - repeat (match type of He with context [if String.eqb a ?l then _ else _] =>
              destruct (String.eqb_spec a l) as [->|]; [first [discriminate Hp|set_solver]|] end).
    by apply not_elem_of_nil in He.
  - destruct (String.eqb_spec a "assets") as [->|Ha]; [set_solver|].
    destruct (String.eqb b ""); [by apply not_elem_of_nil in He|].
    destruct (String.eqb_spec a "jobs") as [->|]; [discriminate Hp|].
    destruct (String.eqb_spec a "upload") as [->|]; [discriminate Hp|].
    destruct (String.eqb_spec a "policies") as [->|]; [discriminate Hp|].
    destruct (String.eqb_spec a "egress") as [->|]; [discriminate Hp|].
    exfalso. destruct rest as [|c [|d [|f rest]]]; cbn [andb] in He; by apply not_elem_of_nil in He.
Qed.

Section Gate.
Context {S : Type} `{HF : FloatConv} `{HD : Decoder}.
Variable jobs_error_text : jobs_error -> string.
Variable elsewhere : web_endpoint -> web_request -> S -> option (web_response * S).

Lemma web_closed (cfg : Config S) a now r s :
  wc_auth cfg = Some a -> authenticated (Some a) now (auth_request r) = false ->
  exists resp, web_Handler cfg jobs_error_text elsewhere now r s = Some (resp, s).
Proof.
  intros Ha Hn. unfold web_Handler, requireAuth. rewrite Ha, Hn.
  destruct (HasPrefix _ "/login" || HasPrefix _ "/assets/") eqn:Eo; [|destruct (String.eqb _ "true"); eexists; reflexivity].
  unfold web_mux. destruct (negb (wr_clean r)); [by eexists|].
  destruct (List.find _ _) as [[m e]|] eqn:Ef; [|by eexists]. apply find_some in Ef as [He%list_elem_of_In _].
  pose proof (open_routes _ _ _ Eo He) as Hop. destruct e; try discriminate Hop; by eexists.
Qed.

(** C5: Nothing on the server changes for a stranger: with API keys configured and
    the dashboard switched off or protected, a request to any path that carries
    neither a key of the API nor a session the server has signed is answered
    without a panic and leaves the state of every component as it was. *)
Theorem server_closed (api : Api.Server S) (dashboard : option (Config S)) now r s :
  srv_keys api <> ∅ -> hr_key (fr_http r) ∉ srv_keys api ->
  (forall cfg, dashboard = Some cfg ->
     exists a, wc_auth cfg = Some a /\ authenticated (Some a) now (auth_request (to_web r)) = false) ->
  exists resp, root_serve api dashboard jobs_error_text elsewhere now r s = Some (resp, s).
Proof.
  intros Hk Hn Hd. unfold root_serve. destruct (negb _); [by eexists|].
  destruct (root_owner _).
  - destruct (keyless api (fr_http r) s Hk Hn) as (a & Ha & _). rewrite Ha. by eexists.
  - destruct dashboard as [cfg|]; [|by eexists]. destruct (Hd cfg eq_refl) as (a & Ha & Hau).
    destruct (web_closed cfg a now (to_web r) s Ha Hau) as (resp & ->). by eexists.
  - by eexists.
Qed.
End Gate.

(** The configuration [run] makes of the environment is one [newAuth] accepts, and
    the dashboard is protected exactly when credentials are set. *)
Lemma dashboard_auth_accepted user pass secret secure cfg rand :
  dashboard_auth user pass secret secure = Some cfg ->
  exists a, newAuth cfg (Some rand) = Ok a /\ (a = None <-> user = "") /\
    forall a', a = Some a' -> au_username a' = user /\ au_password a' = pass.
Proof.
  unfold dashboard_auth. destruct (String.eqb_spec user "") as [Hu|Hu], (String.eqb_spec pass "") as [Hp|Hp]; try done;
    intros [= <-]; [by exists None|].
  unfold newAuth. cbn. rewrite (proj2 (String.eqb_neq _ _) Hu), (proj2 (String.eqb_neq _ _) Hp). cbn.
  destruct (len (bytes secret) =? 0); eexists; (split; [reflexivity|]); split; [done| |done|]; by intros ? [= <-].
Qed.

(** ** The servers page *)

Lemma identity_states_lookup l i :
  NoDup (map ei_ID l) -> i ∈ l -> identity_states l !! ei_ID i = Some i.
Proof.
  unfold identity_states. intros Hnd Hi. revert Hnd.
  induction l as [|x l IH] using rev_ind; [by apply not_elem_of_nil in Hi|]. intros Hnd.
  rewrite fold_left_app. cbn [fold_left]. rewrite map_app in Hnd. cbn [map] in Hnd.
  apply list.NoDup_app in Hnd as (Hnd & Hx & _). apply elem_of_app in Hi as [Hi|Hi].
  - rewrite lookup_insert_ne; [by apply IH|]. intros E. apply (Hx (ei_ID i)); [by apply (list_elem_of_fmap_2 ei_ID)|].
    rewrite <- E. by left.
  - apply list_elem_of_singleton in Hi as ->. apply lookup_insert_eq.
Qed.

Section Servers.
Context {S : Type} `{HF : FloatConv}.

(** The fleet page shows every machine once: a row per agent, in the
    registry's order, and after them one per egress identity that no agent
    serves, as the control plane's own; every identity of the pool appears, with
    its current state, and nothing else does. *)
Theorem servers_page_complete (cfg : Config S) egress servers ids agents s :
  wc_Egress cfg = Some egress -> ep_Identities egress s = Some ids -> NoDup (map ei_ID ids) ->
  wc_Servers cfg = Some servers -> servers s = Some agents -> NoDup (map av_ID agents) ->
  exists rows, handleServers cfg s = Some (Page "rcpttō — Servers" "content-servers" (DServers rows true), s) /\
    NoDup (map sr_ID rows) /\
    map sr_ID (take (length agents) rows) = map av_ID agents /\
    (forall i, i ∈ ids -> exists row, row ∈ rows /\ sr_ID row = ei_ID i /\ sr_State row = ei_State i) /\
    (forall row, row ∈ rows ->
       (sr_Role row = "probe agent" /\ sr_ID row ∈ map av_ID agents) \/
       (sr_Role row = "control plane" /\ sr_ID row ∈ map ei_ID ids /\ sr_ID row ∉ map av_ID agents)).
Proof.
  intros He Hids Hnd Hs Hag Hnda. unfold handleServers, identitiesOrEmpty. rewrite He, Hs, Hids, Hag. cbn.
  eexists. split; [reflexivity|]. unfold server_rows.
  set (locals := List.filter (fun i => negb (bool_decide (ei_ID i ∈ (list_to_set (map av_ID agents) : gset string)))) ids).
  assert (Hloc : forall i, i ∈ locals <-> i ∈ ids /\ ei_ID i ∉ map av_ID agents).
  { intros i. unfold locals. rewrite !list_elem_of_In, filter_In, negb_true_iff, bool_decide_eq_false, elem_of_list_to_set.
    by rewrite list_elem_of_In. }
  assert (Hm1 : map sr_ID (map (agent_row (identity_states ids)) agents) = map av_ID agents) by (by rewrite map_map).
  assert (Hm2 : map sr_ID (map local_row locals) = map ei_ID locals) by (by rewrite map_map).
  split; [|split; [|split]].
  - rewrite map_app, Hm1, Hm2. apply list.NoDup_app. split; [done|]. split.
    + intros x Hx Hx2. apply (list_elem_of_fmap_1 ei_ID) in Hx2 as (i & -> & Hi). by apply Hloc in Hi as [_ Hn].
    + unfold locals. clear -Hnd. induction ids as [|i l IH]; [constructor|]. cbn [map List.filter] in *.
      apply list.NoDup_cons in Hnd as [Hi Hnd]. destruct (negb _); [|by apply IH]. cbn [map]. constructor; [|by apply IH].
      intros Hin. apply Hi. apply (list_elem_of_fmap_1 ei_ID) in Hin as (x & -> & Hx). apply (list_elem_of_fmap_2 ei_ID).
      apply list_elem_of_In, filter_In in Hx as [Hx _]. by apply list_elem_of_In.
  - rewrite take_app_length'; [done|]. by rewrite length_map.
  - intros i Hi. destruct (decide (ei_ID i ∈ map av_ID agents)) as [Ha|Ha].
    + apply (list_elem_of_fmap_1 av_ID) in Ha as (a & Ea & Ha). exists (agent_row (identity_states ids) a).
      split; [apply elem_of_app; left; by apply (list_elem_of_fmap_2 (agent_row (identity_states ids)))|].
      split; [done|]. cbn. by rewrite <- Ea, identity_states_lookup.
    + exists (local_row i). split; [|done]. apply elem_of_app. right. apply (list_elem_of_fmap_2 local_row). by apply Hloc.
  - intros row Hrow. apply elem_of_app in Hrow as [Hrow|Hrow].
    + left. apply (list_elem_of_fmap_1 (agent_row _)) in Hrow as (a & -> & Ha). split; [done|].
      by apply (list_elem_of_fmap_2 av_ID).
    + right. apply (list_elem_of_fmap_1 local_row) in Hrow as (i & -> & Hi). apply Hloc in Hi as [Hi Hn].
      split; [done|]. split; [by apply (list_elem_of_fmap_2 ei_ID)|done].
Qed.
End Servers.

(** ** Policies *)

Section Policies.
Context `{HU : UnicodeTables} `{HF : FloatConv} {W : Type}.

(** The entry the dashboard finds for a key. *)
Lemma find_entry p key :
  set_wf p ->
  List.find (fun e => String.eqb (pe_Key e) key) (map entry_of (List_ p))
  = match rules p !! key with
    | Some r => Some (entry_of {| entry_Key := key; entry_Rule := normalize r |})
    | None => if String.eqb key "default" then Some (entry_of {| entry_Key := "default"; entry_Rule := normalize (defRule p) |})
              else None
    end.
Proof.
  intros Wp.
  assert (Hin : forall e, e ∈ map entry_of (List_ p) <->
    (exists k r, rules p !! k = Some r /\ e = entry_of {| entry_Key := k; entry_Rule := normalize r |}) \/
    e = entry_of {| entry_Key := "default"; entry_Rule := normalize (defRule p) |}).
  { intros e. unfold List_. rewrite map_app, elem_of_app. split.
    - intros [He|He]; [left|right; by apply list_elem_of_singleton in He].
      apply (list_elem_of_fmap_1 entry_of) in He as (x & -> & Hx). rewrite sort_entries_perm in Hx.
      apply list_elem_of_fmap_1 in Hx as ([k r] & -> & Hx). apply elem_of_map_to_list in Hx. by exists k, r.
    - intros [(k & r & Hr & ->)| ->]; [left|right; by left]. apply (list_elem_of_fmap_2 entry_of).
      rewrite sort_entries_perm. apply list_elem_of_fmap. exists (k, r). split; [done|]. by apply elem_of_map_to_list. }
  destruct (List.find _ _) as [e|] eqn:E.
  - apply find_some in E as [He%list_elem_of_In Hk]. apply String.eqb_eq in Hk. apply Hin in He as [(k & r & Hr & ->)| ->].
    + cbn in Hk. subst k. by rewrite Hr.
    + cbn in Hk. subst key. by rewrite Wp.
  - assert (Hno : forall e, e ∈ map entry_of (List_ p) -> pe_Key e <> key).
    { intros e He Hk. apply list_elem_of_In in He. pose proof (find_none _ _ E e He) as Hf. cbn in Hf.
      by rewrite Hk, String.eqb_refl in Hf. }
    destruct (rules p !! key) as [r|] eqn:Er.
    + exfalso. apply (Hno (entry_of {| entry_Key := key; entry_Rule := normalize r |})); [|done]. apply Hin. left. by exists key, r.
    + destruct (String.eqb_spec key "default") as [->|]; [|done]. exfalso.
      apply (Hno (entry_of {| entry_Key := "default"; entry_Rule := normalize (defRule p) |})); [|done]. apply Hin. by right.
Qed.

Lemma normalize_known r : known_strategy (Strategy_String (rule_Strategy r)) = true -> normalize r = r.
Proof. destruct r as [[| | |[]] reason]; done. Qed.

Definition dashboard (verifier : VerifierPort (plane W)) (servers : option (plane W -> option (list AgentView))) (now : Time)
    (jobs : option (JobsPort (plane W))) (auth : option auth) : Config (plane W) :=
  {| wc_Verifier := verifier; wc_Jobs := jobs; wc_Egress := Some (webEgressAdapter now); wc_Policy := Some webPolicyAdapter;
     wc_Servers := servers; wc_auth := auth |}.

(** Every key of the set is in lower case. *)
Definition lower_keys (p : Set_) : Prop := map_Forall (fun k _ => ToLower k = k) (rules p).

(** Editing a policy in the dashboard: a strategy that is not one of the three
    is refused and changes nothing; otherwise the rule is in force for the key,
    in every spelling of it, and for no other key.  The row is shown only when
    the key was given in lower case: for any other spelling the rule is stored
    and the answer is "not found". *)
Theorem dashboard_policy_edit verifier servers now jobs auth key r (s : plane W) :
  set_wf (pl_policy s) -> lower_keys (pl_policy s) ->
  let strategy := FormValue r "strategy" in
  let cfg := dashboard verifier servers now jobs auth in
  let rule := {| rule_Strategy := Strategy_of strategy; rule_Reason := "dashboard edit" |} in
  if known_strategy strategy then
    exists s', handlePolicySet cfg key r s
      = Some (if bool_decide (ToLower key = key)
              then Fragment "policy-row" (DPolicy {| pe_Key := key; pe_Strategy := strategy; pe_Reason := "dashboard edit" |})
              else NotFoundPage, s') /\
      (forall k, ToLower k = ToLower key -> Lookup (pl_policy s') k = rule) /\
      (forall k, ToLower k <> ToLower key -> ToLower key <> "default" -> Lookup (pl_policy s') k = Lookup (pl_policy s) k)
  else handlePolicySet cfg key r s = Some (HTTPError 400 "strategy must be one of: probe, skip, statistical", s).
Proof.
  intros Wp Hlow. cbv zeta. unfold handlePolicySet. cbn.
  destruct (known_strategy (FormValue r "strategy")) eqn:Ek; [|done]. cbn [negb]. eexists. split; [|split].
  - unfold answer. do 2 f_equal. rewrite find_entry by (by apply Set_rule_wf). cbn. unfold Set_rule.
    set (rule := {| rule_Strategy := _; rule_Reason := _ |}).
    assert (Hent : forall k, entry_of {| entry_Key := k; entry_Rule := normalize rule |}
                   = {| pe_Key := k; pe_Strategy := FormValue r "strategy"; pe_Reason := "dashboard edit" |}).
    { intros k. unfold entry_of. cbn [entry_Key entry_Rule]. rewrite (normalize_known rule); [|unfold rule; cbn; by rewrite strategy_string]. cbn. by rewrite strategy_string. }
    destruct (String.eqb_spec (ToLower key) "default") as [Hd|Hd]; cbn.
    + case_bool_decide as Hb.
      * rewrite <- Hb, Hd, Wp. cbn. by rewrite Hent.
      * destruct (rules (pl_policy s) !! key) as [r0|] eqn:Er; [by apply Hlow in Er|].
        destruct (String.eqb_spec key "default") as [->|]; [|done]. by destruct Hb.
    + case_bool_decide as Hb.
      * rewrite Hb, lookup_insert_eq. by rewrite Hent.
      * rewrite lookup_insert_ne by done. destruct (rules (pl_policy s) !! key) as [r0|] eqn:Er; [by apply Hlow in Er|].
        destruct (String.eqb_spec key "default") as [->|]; [|done]. by destruct Hd.
  - intros k Hk. cbn. unfold Lookup, Set_rule. rewrite Hk.
    destruct (String.eqb_spec (ToLower key) "default") as [Hd|Hd]; cbn; [rewrite Hd, Wp|rewrite lookup_insert_eq];
      apply normalize_known; cbn; by rewrite strategy_string.
  - intros k Hk Hd. cbn. unfold Lookup, Set_rule. rewrite (proj2 (String.eqb_neq _ _) Hd). cbn.
    by rewrite lookup_insert_ne.
Qed.
End Policies.

(** ** Withdrawing an identity *)

Section Withdraw.
Context `{HU : UnicodeTables} `{HF : FloatConv} `{HD : Decoder} {W : Type}.

Lemma find_identity m l id :
  mgr_wf m -> Identities m = Some l ->
  List.find (fun i => String.eqb (ei_ID i) id) (map identity_of l)
  = (fun r => {| ei_ID := id; ei_IP := Spec_IP (spec r); ei_State := State_String (state r);
                 ei_Reason := quarantineReason r; ei_Online := online r |}) <$> records m !! id.
Proof.
  intros Wm Hl. unfold Identities in Hl. apply mapM_Some in Hl.
  assert (Hin : id ∈ order m <-> is_Some (records m !! id)) by apply (mwf_order m Wm).
  destruct (records m !! id) as [r|] eqn:Er.
  - assert (Hid : id ∈ order m) by (apply Hin; eauto). clear Hin Wm.
    induction Hl as [|x i ids l Hx _ IH]; [by apply not_elem_of_nil in Hid|]. cbn [map List.find].
    destruct (records m !! x) as [rx|] eqn:Ex; [|done]. cbn in Hx. injection Hx as <-. cbn.
    destruct (String.eqb_spec x id) as [->|Hne].
    + by rewrite Er in Ex; injection Ex as ->.
    + apply IH. by apply elem_of_cons in Hid as [->|].
  - assert (Hid : id ∉ order m) by (intros H; apply Hin in H as [? ?]; done). clear Hin Wm.
    induction Hl as [|x i ids l Hx _ IH]; [done|]. cbn [map List.find].
    destruct (records m !! x) as [rx|] eqn:Ex; [|done]. cbn in Hx. injection Hx as <-. cbn.
    apply not_elem_of_cons in Hid as [Hne Hid]. rewrite (proj2 (String.eqb_neq _ _)) by done. by apply IH.
Qed.

(** Withdrawing an identity by hand, from the API or from the dashboard, is the
    same quarantine of the manager; the dashboard answers the identity's new row
    with the reason ("manual" when none is given), and "not found" for an id that
    is not in the pool, which changes nothing.  The API answers 200 and
    "quarantined" in both cases. *)
Theorem admin_quarantine svc answer failed_at keys rand verifier servers now jobs auth id wr hr (s : plane W) :
  mgr_wf (pl_egress s) ->
  let srv := api_server svc answer failed_at keys rand now in
  let cfg := dashboard verifier servers now jobs auth in
  let after reason := set_egress (Quarantine id reason now (pl_egress s)) s in
  let manual reason := if String.eqb reason "" then "manual" else reason in
  handleQuarantineEgress srv id hr s
    = Some (JSON 200 (BIdentityState id "quarantined"), after (manual (decode_reason (Z.shiftl 1 12) (hr_body hr)))) /\
  match records (pl_egress s) !! id with
  | None => handleEgressQuarantine cfg id wr s = Some (NotFoundPage, s) /\ forall reason, after reason = s
  | Some r => handleEgressQuarantine cfg id wr s
      = Some (Fragment "egress-row" (DIdentity
               {| ei_ID := id; ei_IP := Spec_IP (spec r); ei_State := "quarantined";
                  ei_Reason := manual (FormValue wr "reason"); ei_Online := online r |}), after (manual (FormValue wr "reason")))
  end.
Proof.
  intros Wm. cbv zeta. split; [unfold handleQuarantineEgress; cbn [srv_egress api_server Api.New]; by rewrite firstNonEmpty_2|].
  unfold handleEgressQuarantine. cbn [wc_Egress dashboard]. rewrite firstNonEmpty_2.
  set (reason := if String.eqb _ "" then _ else _). unfold renderEgressRow. cbn [ep_Identities webEgressAdapter egressAdapter ep_Quarantine].
  pose proof (Quarantine_wf id reason now _ Wm) as W1. cbn [pl_egress set_egress].
  destruct (identities_total _ W1) as [l Hl]. rewrite Hl. cbn [mbind option_bind].
  rewrite (find_identity _ l id W1 Hl). unfold Quarantine, update_record.
  destruct (records (pl_egress s) !! id) as [r|] eqn:Er; cbn.
  - rewrite lookup_insert_eq. cbn. done.
  - rewrite Er. cbn. split; [unfold Web.answer, set_egress; by destruct s|]. intros _. unfold set_egress. by destruct s.
Qed.
End Withdraw.

(** ** The surface at work *)

#[local] Existing Instance plain_decoder.
#[local] Existing Instance amd64.

Definition ex_form (segs : list string) (form : gmap string string) : web_request :=
  {| wr_method := "POST"; wr_segments := segs; wr_clean := true; wr_session := None; wr_HX := ""; wr_query := fun _ => "";
     wr_form_ok := true; wr_form := form; wr_file := NoFile |}.

Definition ex_agents (s : plane unit) : option (list AgentView) :=
  Some [{| av_ID := "b"; av_BaseURL := "https://b"; av_Online := true; av_IP := "192.0.2.7"; av_HELO := "b.example"; av_Region := "";
           av_ASN := ""; av_LastErr := ""; av_LastSeen := "" |}].

Definition ex_dashboard (tables : UnicodeTables) : Config (plane unit) :=
  dashboard (verifierPort ex_service) (Some ex_agents) ex_start None (Some ex_auth).

(** A stranger who tries to quarantine an identity through the dashboard. *)
Lemma server_closed_witness :
  let tables := ascii_tables in
  let r := {| fr_http := {| hr_method := "POST"; hr_segments := ["egress"; "a"; "quarantine"]; hr_clean := true; hr_key := "guess";
                            hr_query := fun _ => ""; hr_body := [] |};
              fr_session := Some "9999999999.AAAA"; fr_HX := ""; fr_form_ok := true; fr_form := ∅; fr_file := NoFile |} in
  exists resp, root_serve (ex_api tables) (Some (ex_dashboard tables)) (fun _ => "") (fun _ _ _ => None) ex_now r (ex_planes tables)
               = Some (resp, ex_planes tables).
Proof.
  intros tables r.
  apply (server_closed (fun _ => "") (fun _ _ _ => None) (ex_api tables) (Some (ex_dashboard tables)) ex_now r (ex_planes tables)).
  - vm_compute. discriminate.
  - apply (bool_decide_unpack _). reflexivity.
  - intros cfg Hcfg. exists ex_auth. injection Hcfg as <-. split; [reflexivity|]. unfold authenticated.
    cbn [rq_session auth_request wr_session to_web fr_session r]. unfold validToken. reflexivity.
Defined.

(** An agent that serves "b", and "a" as the control plane's own. *)
Lemma servers_page_complete_witness :
  let tables := ascii_tables in
  exists rows, handleServers (ex_dashboard tables) (ex_planes tables)
    = Some (Page "rcpttō — Servers" "content-servers" (DServers rows true), ex_planes tables) /\
    map sr_ID (take 1 rows) = ["b"].
Proof.
  intros tables.
  destruct (ep_Identities (egressAdapter ex_start) (ex_planes tables)) as [ids|] eqn:E; [|vm_compute in E; discriminate].
  destruct (servers_page_complete (ex_dashboard tables) (egressAdapter ex_start) ex_agents ids
              (default [] (ex_agents (ex_planes tables))) (ex_planes tables)) as (rows & H1 & _ & H3 & _).
  - reflexivity.
  - exact E.
  - vm_compute in E. injection E as <-. apply (bool_decide_unpack _). reflexivity.
  - reflexivity.
  - reflexivity.
  - apply (bool_decide_unpack _). reflexivity.
  - exists rows. split; [exact H1|]. exact H3.
Defined.

(** "Gmail" is stored and answered with "not found". *)
Lemma dashboard_policy_edit_witness :
  let tables := ascii_tables in
  let r := ex_form ["policies"; "Gmail"] {["strategy" := "probe"]} in
  exists s', handlePolicySet (ex_dashboard tables) "Gmail" r (ex_planes tables) = Some (NotFoundPage, s') /\
             rule_Strategy (Lookup (pl_policy s') "gmail") = StrategyProbe.
Proof.
  intros tables r.
  pose proof (dashboard_policy_edit (HU := tables) (verifierPort ex_service) (Some ex_agents) ex_start None (Some ex_auth) "Gmail" r
                (ex_planes tables)) as H.
  destruct H as (s' & H1 & H2 & _).
  - reflexivity.
  - apply map_Forall_to_list. vm_compute. repeat constructor.
  - exists s'. split; [exact H1|]. by rewrite H2.
Defined.

Lemma admin_quarantine_witness :
  let tables := ascii_tables in
  exists row s', handleEgressQuarantine (ex_dashboard tables) "a" (ex_form ["egress"; "a"; "quarantine"] ∅) (ex_planes tables)
    = Some (Fragment "egress-row" (DIdentity row), s') /\ ei_State row = "quarantined" /\ ei_Reason row = "manual".
Proof.
  intros tables.
  destruct (admin_quarantine (HU := tables) ex_service ex_answer ex_failed_at "" None (verifierPort ex_service) (Some ex_agents) ex_start
              None (Some ex_auth) "a" (ex_form ["egress"; "a"; "quarantine"] ∅) (submit_request "k1" []) (ex_planes tables)) as [_ H];
    [exact ex_mgr_wf|].
  destruct (records (pl_egress (ex_planes tables)) !! "a") as [r|] eqn:E; [|vm_compute in E; discriminate].
  eexists _, _. split; [exact H|]. split; reflexivity.
Defined.
