(* ===== verification/Boot.v ===== *)
(** The start of the two processes: [run] of [cmd/rcptto-server] up to the point
    where it serves, and [run] of [cmd/rcptto-worker].

    [env] is [os.Getenv].  What the stores load, whether they can, the random
    source and the clock are arguments; opening the database and running its
    migrations come before and are [Postgres.v]'s. *)

From Stdlib Require Import QArith.
From S2P Require Import Prelude GoStrings GoConv Float64 GoTime Verdict Engine Settings Policy RateLimit Health Egress EgressInv EgressOps.
From S2P Require Import EgressProps Builtin Store Memory Verifier Service Runner Worker Fleet Control Auth Ports Api ApiProps Web WebProps.
Local Open Scope list_scope.
Local Open Scope Z_scope.

Inductive boot_error :=
| BootAgents (e : agents_error)
| BootRegistry (e : registry_error)
| BootCredentials          (** only one of user and password is set *)
| BootPanic (e : auth_error).

(** The server, ready to serve. *)
Record server := {
  sv_settings : settingsManager;
  sv_policy : Set_;
  sv_registry : Registry;
  sv_keys : list string;
  sv_dashboard : option (option auth);  (** [None] when it is switched off *)
}.

Definition env_of : Type := string -> string.

Section Boot.
Context `{HU : UnicodeTables}.
(** [strconv.ParseFloat(s, 64)]: [None] for an error. *)
Variable ParseFloat : string -> option float64.

(** [getenvFloat] *)
Definition getenvFloat (v : string) (def : float64) : float64 :=
  if String.eqb v "" then def
  else match ParseFloat v with
  | None => def
  | Some f => if fle f (f64 0) then def else f
  end.

(** *** The stores *)

Inductive backend := InMemory | OnPostgres.
Inductive backend_error := ErrOpenPostgres | ErrPingPostgres | ErrMigrate.

(** [postgres.Open]: whether the pool could be made and answered the ping. *)
Definition Open (opened pinged : bool) : result backend_error unit :=
  if negb opened then Err ErrOpenPostgres else if negb pinged then Err ErrPingPostgres else Ok tt.

(** The stores [run] chooses: in memory without a DSN, else Postgres, opened and
    migrated, or the error that ends the process; there is no fallback. *)
Definition boot_backend (dsn : string) (opened pinged migrated : bool) : result backend_error backend :=
  if negb (String.eqb dsn "") then
    let? _ := Open opened pinged in
    if negb migrated then Err ErrMigrate else Ok OnPostgres
  else Ok InMemory.

(** The identity of the server's own address. *)
Definition direct_spec (helo mailFrom : string) : Spec :=
  {| Spec_ID := "direct"; Spec_Kind := KindLocalIP; Spec_IP := ""; Spec_HELO := helo; Spec_MailFrom := mailFrom;
     Spec_ASN := ""; Spec_Region := ""; Spec_WarmUp := false |}.
Definition egress_config (helo mailFrom : string) : Egress.Config :=
  {| cfg_Identities := [direct_spec helo mailFrom]; cfg_HealthAlpha := f64 0; cfg_CircuitThreshold := 0;
     cfg_CircuitCooldown := 0; cfg_QuarantineThreshold := 0; cfg_QuarantineCooldown := 0; cfg_WarmupStages := [];
     cfg_ActiveDailyCap := 0 |}.

(** The reputation manager: new, then with the persisted states, if they load. *)
Definition boot_egress (env : env_of) (loaded : option (list EgressState)) (now : Time) : Manager :=
  let m := Egress.New (egress_config (getenv (env "RCPTTO_HELO") "localhost") (getenv (env "RCPTTO_MAIL_FROM") "verify@localhost")) now in
  match loaded with Some (x :: l) => Restore (x :: l) m | _ => m end.

Definition boot_engine (env : env_of) : Builtin.Config :=
  Builtin.New {| Port := 0; ConnectTimeout := 0; CommandTimeout := 0;
                 cfg_DetectCatchAll := getenvBool (env "RCPTTO_DETECT_CATCHALL") true;
                 cfg_HELO := getenv (env "RCPTTO_HELO") "localhost";
                 cfg_MailFrom := getenv (env "RCPTTO_MAIL_FROM") "verify@localhost" |}.

Definition boot_limiter (env : env_of) : Limiter :=
  RateLimit.New {| cfg_Rate := getenvFloat (env "RCPTTO_PROBE_RATE") (f64 1);
                   cfg_Burst := getenvFloat (env "RCPTTO_PROBE_BURST") (f64 5); cfg_MaxWait := 0; cfg_MaxIdle := 0 |}.

(** The settings manager over the components; [settings_ok] is whether the saved
    settings could be loaded. *)
Definition boot_settings (env : env_of) (settings_ok : bool) (st : settings_store) (m : Manager) : settingsManager :=
  let d := WithDefaults Settings.Default in
  let rate := getenvFloat (env "RCPTTO_PROBE_RATE") (ProbeRate d) in
  let burst := getenvFloat (env "RCPTTO_PROBE_BURST") (ProbeBurst d) in
  let detect := getenvBool (env "RCPTTO_DETECT_CATCHALL") true in
  let sm := {| sm_current := d; sm_store := st; sm_limiter := boot_limiter env;
               sm_runner := Runner.New {| Runner.cfg_Concurrency := 0; cfg_MaxEmails := 0 |};
               sm_egress := m; sm_engine := boot_engine env |} in
  if settings_ok then startup rate burst detect sm else activate (startup_settings rate burst detect None) sm.

(** [web.New] panics on a configuration [newAuth] refuses; its verifier is never
    absent here, and its templates are part of the program. *)
Definition web_New (cfg : option AuthConfig) (rand : option (list ascii)) : result boot_error (option auth) :=
  match newAuth cfg rand with Err e => Err (BootPanic e) | Ok a => Ok a end.

(** The dashboard: off, open, or protected. *)
Definition boot_dashboard (env : env_of) (rand : option (list ascii)) : result boot_error (option (option auth)) :=
  if negb (getenvBool (env "RCPTTO_DASHBOARD") true) then Ok None
  else match dashboard_auth (env "RCPTTO_DASHBOARD_USER") (env "RCPTTO_DASHBOARD_PASSWORD")
                            (env "RCPTTO_SESSION_SECRET") (env "RCPTTO_SECURE_COOKIE") with
  | None => Err BootCredentials
  | Some cfg => let? a := web_New cfg rand in Ok (Some a)
  end.

(** [run], up to the server *)
Definition boot (env : env_of) (loaded : option (list EgressState)) (settings_ok : bool) (st : settings_store)
    (rand : option (list ascii)) (now : Time) : result boot_error server :=
  let m := boot_egress env loaded now in
  match ParseAgents (env "RCPTTO_WORKERS") (env "RCPTTO_WORKER_TOKEN") with
  | Err e => Err (BootAgents e)
  | Ok cfgs =>
      match NewRegistry cfgs (60 * Second) with
      | Err e => Err (BootRegistry e)
      | Ok reg =>
          let sm := boot_settings env settings_ok st (register now cfgs m) in
          let? dash := boot_dashboard env rand in
          Ok {| sv_settings := sm; sv_policy := Policy.Default; sv_registry := reg;
                sv_keys := splitAndTrim (env "RCPTTO_API_KEYS"); sv_dashboard := dash |}
      end
  end.

(** What the HTTP handlers share of the server. *)
Definition plane_of {W} (sv : server) (w : W) : plane W :=
  {| pl_egress := sm_egress (sv_settings sv); pl_policy := sv_policy sv; pl_runner := sm_runner (sv_settings sv); pl_world := w |}.

(** [run] of the agent, up to its server *)
Inductive agent_error := AgentNoID | AgentNoToken | AgentServer (e : server_error).

Definition agent_boot (env : env_of) (engine : Builtin.Config -> Engine_ Empty_set)
    : result agent_error (Worker.Server Empty_set) :=
  let id := env "RCPTTO_WORKER_ID" in
  let token := env "RCPTTO_WORKER_TOKEN" in
  let helo := getenv (env "RCPTTO_HELO") "localhost" in
  let mailFrom := getenv (env "RCPTTO_MAIL_FROM") "verify@localhost" in
  if String.eqb id "" then Err AgentNoID
  else if String.eqb token "" then Err AgentNoToken
  else match NewServer {| id_ID := id; id_IP := env "RCPTTO_WORKER_IP"; id_HELO := helo; id_MailFrom := mailFrom;
                          id_Region := env "RCPTTO_WORKER_REGION"; id_ASN := env "RCPTTO_WORKER_ASN" |}
                       (Some (engine (Builtin.New {| Port := 0; ConnectTimeout := 0; CommandTimeout := 0;
                                                     cfg_DetectCatchAll := getenvBool (env "RCPTTO_DETECT_CATCHALL") true;
                                                     cfg_HELO := helo; cfg_MailFrom := mailFrom |})))
                       token with
  | Err e => Err (AgentServer e)
  | Ok s => Ok s
  end.
End Boot.

(** ** What a server that starts is like *)

Section Props.
Context `{HU : UnicodeTables} (ParseFloat : string -> option float64).

Lemma activated s sm :
  sm_egress (activate s sm) = SetThresholds (QuarantineThreshold s) (CircuitThreshold s) (sm_egress sm) /\
  sm_limiter (activate s sm) = SetRate (ProbeRate s) (ProbeBurst s) (sm_limiter sm) /\
  r_store (sm_runner (activate s sm)) = r_store (sm_runner sm).
Proof. done. Qed.

(** The settings a server starts with, whatever happens to the saved ones. *)
Lemma boot_settings_activate env settings_ok st m :
  exists s sm, boot_settings ParseFloat env settings_ok st m = activate s sm /\ sm_egress sm = m /\
               r_store (sm_runner sm) = ∅ /\ sm_limiter sm = boot_limiter ParseFloat env /\
               (settings_ok = false \/ st = None ->
                ProbeRate s = getenvFloat ParseFloat (env "RCPTTO_PROBE_RATE") (f64 1)).
Proof.
  unfold boot_settings, startup. destruct settings_ok; eexists _, _; (split; [reflexivity|]); repeat (split; [done|]).
  - intros [?| ->]; done.
  - done.
Qed.

Lemma boot_egress_wf env loaded now :
  (forall l, loaded = Some l -> Forall (saved_wf (len defaultWarmupStages)) l) -> mgr_wf (boot_egress env loaded now).
Proof.
  intros Hl. unfold boot_egress. set (m := Egress.New _ now).
  assert (Wm : mgr_wf m) by (by apply New_wf).
  destruct loaded as [[|x l]|]; [done| |done]. specialize (Hl _ eq_refl).
  destruct (apply_op_wf now (OpRestore (x :: l)) m Wm) as (m' & Hm & W' & _); [exact Hl|]. cbn in Hm. by injection Hm as <-.
Qed.

Lemma SetThresholds_linked b id q c m : linked b id m -> linked b id (SetThresholds q c m).
Proof. done. Qed.

(** The plane of a server that starts, and the agents it starts with. *)
Lemma boot_plane_wf {W} env loaded settings_ok st rand now sv (w : W) :
  (forall l, loaded = Some l -> Forall (saved_wf (len defaultWarmupStages)) l) ->
  boot ParseFloat env loaded settings_ok st rand now = Ok sv ->
  plane_wf 0 (plane_of sv w) /\
  exists cfgs, ParseAgents (env "RCPTTO_WORKERS") (env "RCPTTO_WORKER_TOKEN") = Ok cfgs /\
    NewRegistry cfgs (60 * Second) = Ok (sv_registry sv) /\
    forall id, id ∈ (ac_ID <$> cfgs) -> linked false id (sm_egress (sv_settings sv)).
Proof.
  intros Hl Hb. unfold boot in Hb. destruct (ParseAgents _ _) as [cfgs|e] eqn:Ep; [|done].
  destruct (NewRegistry cfgs (60 * Second)) as [reg|e] eqn:Er; [|done].
  destruct (boot_dashboard env rand) as [dash|e] eqn:Ed; [|done]. cbn in Hb. injection Hb as <-.
  cbn [sv_registry sv_settings].
  set (m := register now cfgs _).
  destruct (boot_settings_activate env settings_ok st m) as (s & sm & Hs & Hm & Hr & _). rewrite Hs.
  destruct (activated s sm) as (Ha & _ & Hst). split.
  - constructor; cbn [plane_of pl_egress pl_policy pl_runner sv_settings sv_policy]; rewrite ?Hs.
    + rewrite Ha, Hm. apply SetThresholds_wf, register_wf. by apply boot_egress_wf.
    + apply default_typed.
    + rewrite Hst, Hr. apply map_Forall_empty.
  - exists cfgs. split; [done|]. split; [done|]. intros id Hid. rewrite Ha, Hm. by apply SetThresholds_linked, register_linked.
Qed.

(** A server that starts is in order: from states that a manager has saved,
    and whatever the environment holds, the egress pool is well formed, the
    policies are typed and there are no jobs yet, so that the API's guarantees
    hold from the first request on; no remote agent is routed to before it has
    been reached; and the dashboard is open only if neither a user nor a password
    is set. *)
Theorem boot_wf {W} env loaded settings_ok st rand now sv (w : W) :
  (forall l, loaded = Some l -> Forall (saved_wf (len defaultWarmupStages)) l) ->
  boot ParseFloat env loaded settings_ok st rand now = Ok sv ->
  plane_wf 0 (plane_of sv w) /\
  (exists cfgs, ParseAgents (env "RCPTTO_WORKERS") (env "RCPTTO_WORKER_TOKEN") = Ok cfgs /\
     NewRegistry cfgs (60 * Second) = Ok (sv_registry sv) /\
     forall id, id ∈ (ac_ID <$> cfgs) -> linked false id (sm_egress (sv_settings sv))) /\
  match sv_dashboard sv with
  | None => getenvBool (env "RCPTTO_DASHBOARD") true = false
  | Some None => env "RCPTTO_DASHBOARD_USER" = "" /\ env "RCPTTO_DASHBOARD_PASSWORD" = ""
  | Some (Some a) => au_username a = env "RCPTTO_DASHBOARD_USER" /\ au_password a = env "RCPTTO_DASHBOARD_PASSWORD" /\
                     au_username a <> "" /\ au_password a <> ""
  end.
Proof.
  intros Hl Hb. destruct (boot_plane_wf env loaded settings_ok st rand now sv w Hl Hb) as [H1 H2].
  split; [exact H1|]. split; [exact H2|].
  unfold boot in Hb. destruct (ParseAgents _ _) as [cfgs|e]; [|done].
  destruct (NewRegistry cfgs (60 * Second)) as [reg|e]; [|done].
  destruct (boot_dashboard env rand) as [dash|e] eqn:Ed; [|done]. cbn in Hb. injection Hb as <-. cbn [sv_dashboard].
  unfold boot_dashboard in Ed. destruct (getenvBool _ _) eqn:Eg; cbn [negb] in Ed; [|by injection Ed as <-].
    unfold dashboard_auth, web_New in Ed.
    destruct (String.eqb_spec (env "RCPTTO_DASHBOARD_USER") "") as [Hu|Hu],
             (String.eqb_spec (env "RCPTTO_DASHBOARD_PASSWORD") "") as [Hp|Hp]; cbn in Ed; try done; [by injection Ed as <-|].
    rewrite (proj2 (String.eqb_neq _ _) Hu), (proj2 (String.eqb_neq _ _) Hp) in Ed. cbn in Ed.
    destruct (len _ =? 0); [destruct rand; [|done]|]; injection Ed as <-; done.
Qed.

(** *** The server's own address *)

Definition own_pool (m : Manager) : Prop :=
  order m = ["direct"] /\ exists r, records m !! "direct" = Some r /\ Spec_IP (spec r) = "".

Lemma restore_one_own m x : own_pool m -> own_pool (restore_one m x).
Proof.
  intros [Ho (r & Hr & Hi)]. unfold restore_one. destruct (records m !! es_ID x) as [r0|] eqn:E; [|split; by eauto].
  split; [done|]. cbn [records set_records]. rewrite lookup_insert. case_decide as Hd; [|by eauto].
  rewrite Hd in E. rewrite Hr in E. injection E as <-. by eexists.
Qed.

(** The audits never look at the server's own address: its identity is configured
    without one, so that on a server without remote agents an audit leaves the
    manager as it is, whatever the blocklists list. *)
Theorem own_address_unaudited env loaded start check now :
  AuditDNSBL check now (boot_egress env loaded start) = Some (boot_egress env loaded start).
Proof.
  assert (Hown : own_pool (boot_egress env loaded start)).
  { unfold boot_egress. set (m := Egress.New _ start). assert (Hm : own_pool m) by (split; [done|]; by eexists).
    destruct loaded as [[|x l]|]; [done| |done]. unfold Restore.
    destruct (fold_left_inv own_pool restore_one (x :: l) m) as [H1 H2]; [intros; by apply restore_one_own|done|]. by split. }
  destruct Hown as [Ho (r & Hr & Hi)]. unfold AuditDNSBL, audit_items. rewrite Ho. cbn [mapM]. rewrite Hr. cbn. by rewrite Hi.
Qed.

(** The environment is not held to the hard limits: without saved settings the
    limiter starts with any positive rate that [RCPTTO_PROBE_RATE] holds. *)
Theorem env_rate_unchecked env loaded st settings_ok rand now sv f :
  boot ParseFloat env loaded settings_ok st rand now = Ok sv -> settings_ok = false \/ st = None ->
  ParseFloat (env "RCPTTO_PROBE_RATE") = Some f -> env "RCPTTO_PROBE_RATE" <> "" -> flt (f64 0) f = true -> fle f (f64 0) = false ->
  rate (sm_limiter (sv_settings sv)) = f.
Proof.
  intros Hb Hno Hf Hne Hpos Hle. unfold boot in Hb. destruct (ParseAgents _ _) as [cfgs|e]; [|done].
  destruct (NewRegistry cfgs (60 * Second)) as [reg|e]; [|done].
  destruct (boot_dashboard env rand) as [dash|e]; [|done]. cbn in Hb. injection Hb as <-. cbn [sv_settings].
  destruct (boot_settings_activate env settings_ok st (register now cfgs (boot_egress env loaded now))) as (s & sm & Hs & _ & _ & _ & Hrate).
  rewrite Hs. destruct (activated s sm) as (_ & -> & _). specialize (Hrate Hno).
  unfold getenvFloat in Hrate. rewrite (proj2 (String.eqb_neq _ _) Hne), Hf, Hle in Hrate.
  unfold SetRate. cbn. by rewrite Hrate, Hpos.
Qed.
End Props.

(** ** A server that starts *)

Definition ex_float (s : string) : option float64 := if String.eqb s "1000" then Some (f64 1000) else None.

Definition ex_env : env_of := fun k =>
  if String.eqb k "RCPTTO_WORKERS" then "r1=https://r1.example"
  else if String.eqb k "RCPTTO_WORKER_TOKEN" then "secret"
  else if String.eqb k "RCPTTO_API_KEYS" then "k1"
  else if String.eqb k "RCPTTO_DASHBOARD_USER" then "ops"
  else if String.eqb k "RCPTTO_DASHBOARD_PASSWORD" then "hunter2"
  else if String.eqb k "RCPTTO_PROBE_RATE" then "1000" else "".

Definition ex_boot (tables : UnicodeTables) : result boot_error server :=
  boot ex_float ex_env None true None (Some (bytes "0123456789")) ex_start.

Lemma boot_wf_witness :
  let tables := ascii_tables in
  exists sv, ex_boot tables = Ok sv /\ plane_wf 0 (plane_of sv tt) /\ linked false "r1" (sm_egress (sv_settings sv)).
Proof.
  intros tables. destruct (ex_boot tables) as [sv|e] eqn:E; [|vm_compute in E; discriminate]. exists sv. split; [reflexivity|].
  destruct (boot_wf (HU := tables) ex_float ex_env None true None (Some (bytes "0123456789")) ex_start sv tt)
    as (H1 & (cfgs & Hc & _ & H2) & _); [discriminate|exact E|]. split; [exact H1|]. apply H2.
  vm_compute in Hc. injection Hc as <-. by left.
Defined.

Lemma env_rate_unchecked_witness :
  let tables := ascii_tables in
  exists sv, ex_boot tables = Ok sv /\ rate (sm_limiter (sv_settings sv)) = f64 1000.
Proof.
  intros tables. destruct (ex_boot tables) as [sv|e] eqn:E; [|vm_compute in E; discriminate]. exists sv. split; [reflexivity|].
  apply (env_rate_unchecked (HU := tables) ex_float ex_env None None true (Some (bytes "0123456789")) ex_start sv (f64 1000));
    [exact E|by right|reflexivity|discriminate|reflexivity|reflexivity].
Defined.
