(* ===== verification/Assembly.v ===== *)
(** The server put together: the constructors of [internal/verifier] and
    [internal/pipeline], the verification service over the live components, the
    upload, export and settings handlers on the dashboard's routes, and the whole
    server: requests, the workers of the jobs, the health checks of the agents and
    their callbacks, the blocklist audits and the persister, step by step in any
    order.

    [Api.v], [Web.v] and [Upload.v] model the handlers against ports; here the
    ports are the components of [run], with the state they share in one record. *)

From Stdlib Require Import QArith.
From S2P Require Import Prelude GoStrings GoConv Float64 GoTime Verdict Engine Settings Policy RateLimit Health.
From S2P Require Import Egress EgressInv EgressSel EgressOps EgressProps Regex Syntax Pipeline PipelineProps.
From S2P Require Import Builtin Store Memory Restart Process Verifier VerifierProps Service Runner Csv Ingest Reports Upload UploadProps.
From S2P Require Import Worker Fleet Control Auth Ports Api ApiProps Web WebProps Boot.
Local Open Scope list_scope.
Local Open Scope Z_scope.

(** ** [pipeline.New] *)

(** [pipeline.Config]; the clock is read by each run. *)
Record pipe_config (DnsEr : Type) := { pc_Resolver : option (Resolver DnsEr); pc_Disposable : option (string -> bool) }.
Arguments pc_Resolver {DnsEr} _.
Arguments pc_Disposable {DnsEr} _.

(** A pipeline: what its stages consult. *)
Record pipeline (DnsEr : Type) := { pl_resolver : Resolver DnsEr; pl_disposable : string -> bool }.
Arguments pl_resolver {DnsEr} _.
Arguments pl_disposable {DnsEr} _.

(** [pipeline.New]; [system] is the system resolver. *)
Definition pipeline_New {DnsEr} (system : Resolver DnsEr) (cfg : pipe_config DnsEr) : pipeline DnsEr :=
  {| pl_resolver := default system (pc_Resolver cfg); pl_disposable := default defaultDisposableSet (pc_Disposable cfg) |}.

(** ** [verifier.New] *)

(** An egress provider and a sink as the service holds them: the default
    [DirectProvider] or a manager, and whether the signals go to the manager. *)
Record pool (P : Type) := { pool_egress : DirectProvider + P; pool_sink : bool }.
Arguments pool_egress {P} _.
Arguments pool_sink {P} _.

#[global] Instance pool_provider {P PoolEr} `{HP : EgressProvider P PoolEr} : EgressProvider (pool P) PoolEr := {|
  provide := fun now t p =>
    match pool_egress p with
    | inl d => (match (provide now t d).1 with Ok b => Ok b | Err e => match e : Empty_set with end end, p)
    | inr m => let '(r, m) := provide now t m in (r, {| pool_egress := inr m; pool_sink := pool_sink p |})
    end;
  emit := fun now sigs p =>
    match pool_egress p with
    | inr m => if pool_sink p then {| pool_egress := inr (emit now sigs m); pool_sink := pool_sink p |} else p
    | inl _ => p
    end |}.

Section Construct.
Context {DnsEr C P EngEr : Type}.

(** [verifier.Config] *)
Record svc_config := {
  vc_Pipeline : option (pipeline DnsEr);
  vc_Engine : option (Engine_ EngEr);
  vc_Egress : option P;
  vc_Cache : option C;
  vc_CacheTTL : Duration;
  vc_Sink : bool;                         (** whether a sink, the manager, is set *)
  vc_Policy : option Set_;
  vc_Engines : option (string -> option (Engine_ EngEr));
  vc_Limiter : option Limiter;
}.

(** [verifier.Service], without what changes during a call. *)
Record Service_ := {
  s_pipeline : pipeline DnsEr;
  s_engine : Engine_ EngEr;
  s_cacheTTL : Duration;
  s_policy : Set_;
  s_engines : option (string -> option (Engine_ EngEr));
}.

(** [verifier.New]; [None] is the panic. *)
Definition verifier_New `{UnicodeTables} (cfg : svc_config) : option (Service_ * World C (pool P)) :=
  match vc_Pipeline cfg, vc_Engine cfg with
  | Some p, Some e =>
      Some ({| s_pipeline := p; s_engine := e;
               s_cacheTTL := if vc_CacheTTL cfg =? 0 then defaultCacheTTL else vc_CacheTTL cfg;
               s_policy := default Policy.Default (vc_Policy cfg); s_engines := vc_Engines cfg |},
            {| w_cache := vc_Cache cfg; w_limiter := vc_Limiter cfg;
               w_egress := {| pool_egress := match vc_Egress cfg with
                                             | None => inl {| direct_ID := ""; direct_HELO := ""; direct_MailFrom := "" |}
                                             | Some m => inr m
                                             end;
                              pool_sink := vc_Sink cfg |} |})
  | _, _ => None
  end.

(** A call of the service. *)
Definition service_Verify `{UnicodeTables} `{FloatConv} {CacheEr PoolEr CtxEr} `{ResultStore C CacheEr} `{EgressProvider P PoolEr}
    (s : Service_) (sleep : Duration -> option CtxEr) (ctx_Err : option CtxEr) (clk : Clocks) (email : string)
    (w : World C (pool P)) : result (Verifier.verify_error DnsEr CtxEr EngEr) Verdict * World C (pool P) :=
  Verifier.Verify (H1 := pl_resolver (s_pipeline s)) (pl_disposable (s_pipeline s)) (s_policy s) (s_cacheTTL s) (s_engine s)
    (s_engines s) sleep ctx_Err clk email w.
End Construct.
Arguments svc_config _ _ _ _ : clear implicits.
Arguments Service_ _ _ : clear implicits.

(** ** The manager behind the service *)

(** The manager as the provider and the sink.  [Binding] on a nil record would
    panic; the provider's interface has no way to say so, so that the panic is
    recorded beside the manager, and whoever called is to stop there. *)
Inductive pool_error := PoolNoEgress | PoolPanic.

Record live := { live_manager : Manager; live_panicked : bool }.

#[global] Instance live_provider : EgressProvider live pool_error := {|
  provide := fun now t p =>
    match Binding (live_manager p) t now with
    | Some (Ok b, m) => (Ok b, {| live_manager := m; live_panicked := live_panicked p |})
    | Some (Err ErrNoEgress, m) => (Err PoolNoEgress, {| live_manager := m; live_panicked := live_panicked p |})
    | None => (Err PoolPanic, {| live_manager := live_manager p; live_panicked := true |})
    end;
  emit := fun now sigs p => {| live_manager := Emit sigs now (live_manager p); live_panicked := live_panicked p |} |}.

(** The prober's error type widened to that of the remote engines; the prober
    itself never fails. *)
Definition local_engine (e : Engine_ Empty_set) : Engine_ client_error :=
  fun t b => match e t b with Ok r => Ok r | Err x => match x : Empty_set with end end.

(** ** The state of the server *)

(** What the handlers and the background goroutines share besides the manager,
    the policies and the runner. *)
Record shared := {
  sh_cache : items;
  sh_limiter : Limiter;
  sh_engine : Builtin.Config;
  sh_current : Settings;
  sh_store : settings_store;
  sh_uploads : uploadCache;
  sh_registry : Registry;
  sh_todo : list string;         (** agents the current health round has not checked yet *)
  sh_pending : list AgentInfo;   (** flipped agents whose callback has not run yet *)
  sh_disk : egress_states;       (** what the store holds of the reputation *)
  sh_per : persister;
  sh_aud : auditor;
  sh_panicked : bool;            (** a verification met a panic *)
}.

Definition site : Type := plane shared.

Definition set_uploads (c : uploadCache) (s : site) : site :=
  let w := pl_world s in
  {| pl_egress := pl_egress s; pl_policy := pl_policy s; pl_runner := pl_runner s;
     pl_world := {| sh_cache := sh_cache w; sh_limiter := sh_limiter w; sh_engine := sh_engine w; sh_current := sh_current w;
                    sh_store := sh_store w; sh_uploads := c; sh_registry := sh_registry w; sh_todo := sh_todo w;
                    sh_pending := sh_pending w; sh_disk := sh_disk w; sh_per := sh_per w; sh_aud := sh_aud w;
                    sh_panicked := sh_panicked w |} |}.

(** The settings manager's view of the state, and back. *)
Definition settings_of (s : site) : settingsManager :=
  let w := pl_world s in
  {| sm_current := sh_current w; sm_store := sh_store w; sm_limiter := sh_limiter w; sm_runner := pl_runner s;
     sm_egress := pl_egress s; sm_engine := sh_engine w |}.
Definition with_settings (m : settingsManager) (s : site) : site :=
  let w := pl_world s in
  {| pl_egress := sm_egress m; pl_policy := pl_policy s; pl_runner := sm_runner m;
     pl_world := {| sh_cache := sh_cache w; sh_limiter := sm_limiter m; sh_engine := sm_engine m;
                    sh_current := sm_current m; sh_store := sm_store m; sh_uploads := sh_uploads w;
                    sh_registry := sh_registry w; sh_todo := sh_todo w; sh_pending := sh_pending w; sh_disk := sh_disk w;
                    sh_per := sh_per w; sh_aud := sh_aud w; sh_panicked := sh_panicked w |} |}.

(** The health loop's view, and back. *)
Definition with_fleet (m : Manager) (reg : Registry) (todo : list string) (pending : list AgentInfo) (s : site) : site :=
  let w := pl_world s in
  {| pl_egress := m; pl_policy := pl_policy s; pl_runner := pl_runner s;
     pl_world := {| sh_cache := sh_cache w; sh_limiter := sh_limiter w; sh_engine := sh_engine w; sh_current := sh_current w;
                    sh_store := sh_store w; sh_uploads := sh_uploads w; sh_registry := reg; sh_todo := todo;
                    sh_pending := pending; sh_disk := sh_disk w; sh_per := sh_per w; sh_aud := sh_aud w;
                    sh_panicked := sh_panicked w |} |}.

(** The persister's and the auditor's view, a process that is serving, and back. *)
Definition proc_of (s : site) : Process.proc :=
  let w := pl_world s in
  {| mgr := pl_egress s; disk := sh_disk w; per := sh_per w; aud := sh_aud w; hl := HRun; requests := 0; Process.jobs := 0;
     cancelled := false; main := MServing |}.
Definition with_proc (p : Process.proc) (s : site) : site :=
  let w := pl_world s in
  {| pl_egress := mgr p; pl_policy := pl_policy s; pl_runner := pl_runner s;
     pl_world := {| sh_cache := sh_cache w; sh_limiter := sh_limiter w; sh_engine := sh_engine w; sh_current := sh_current w;
                    sh_store := sh_store w; sh_uploads := sh_uploads w; sh_registry := sh_registry w; sh_todo := sh_todo w;
                    sh_pending := sh_pending w; sh_disk := disk p; sh_per := per p; sh_aud := aud p;
                    sh_panicked := sh_panicked w |} |}.

(** The state a booted server starts serving with: [zones] tells whether the
    blocklist audits are configured, [disk] what the store holds. *)
Definition site_of (zones : bool) (disk : egress_states) (sv : Boot.server) : site :=
  let sm := sv_settings sv in
  plane_of sv {| sh_cache := ∅; sh_limiter := sm_limiter sm; sh_engine := sm_engine sm; sh_current := sm_current sm;
                 sh_store := sm_store sm; sh_uploads := newUploadCache; sh_registry := sv_registry sv; sh_todo := [];
                 sh_pending := []; sh_disk := disk; sh_per := PIdle; sh_aud := if zones then AFirst else AExited;
                 sh_panicked := false |}.

(** The contexts' errors. *)
Inductive ctx_error := Canceled | DeadlineExceeded.

(** What one request, or one verification of a job, meets outside the server: the
    clock, the random source, the context, the exchangers behind the dialer, the
    network to the agents and the settings store. *)
Record moment := {
  mo_now : Time;
  mo_clk : Clocks;
  mo_rand : option (list ascii);
  mo_sleep : Duration -> option ctx_error;
  mo_ctx : option ctx_error;
  mo_dial : string -> option Builtin.server;
  mo_post : string -> string -> VerifyRequest -> http_reply VerifyResponse;
  mo_save_ok : bool;
}.

(** Starting a job's goroutine asks for no verification: the addresses are verified
    by the job's own steps. *)
Definition unasked (_ _ : string) : option Verdict := None.
Definition untimed (_ _ : string) : Time := 0.

Section Site.
Context `{HU : UnicodeTables} `{HF : FloatConv} `{HD : Decoder} `{HT : TimeFormat}.
Context {DnsEr : Type}.
(** The system resolver, with [errors.Is] of its errors against the context's. *)
Variable system : Resolver DnsEr.
Variable dns_ctx : DnsEr -> option ctx_error.
(** Texts and number formats, and the reader of workbooks. *)
Variable ParseFloat : string -> option float64.
Variable FormatFloat : float64 -> string.
Variable jobs_error_text : jobs_error -> string.
Variable apply_error_text : apply_error -> string.
Variable upload_error_text : string.
Variable format_time : Time -> string.
Variable reach_text : reach_error -> string.
Variable xlsx_open : list ascii -> option workbook.

(** The service [run] builds: all fields set but the cache's lifetime. *)
Definition site_config (mo : moment) (policy : Set_) (m : Manager) (w : shared) : svc_config DnsEr items live client_error := {|
  vc_Pipeline := Some (pipeline_New system {| pc_Resolver := None; pc_Disposable := None |});
  vc_Engine := Some (local_engine (builtin_engine (sh_engine w) (c_final (mo_clk mo)) (mo_rand mo) (mo_dial mo)));
  vc_Egress := Some {| live_manager := m; live_panicked := sh_panicked w |}; vc_Cache := Some (sh_cache w); vc_CacheTTL := 0; vc_Sink := true; vc_Policy := Some policy;
  vc_Engines := Some (EngineFor (mo_post mo) (sh_registry w)); vc_Limiter := Some (sh_limiter w) |}.

(** [errors.Is] of a verification's error, as the API asks it. *)
Definition port_error (e : Verifier.verify_error DnsEr ctx_error client_error) : Ports.verify_error :=
  let of_ctx c := match c with Canceled => VCanceled | DeadlineExceeded => VDeadlineExceeded end in
  match e with
  | FunnelError e => match dns_ctx e with Some c => of_ctx c | None => VFailed end
  | ContextError c => of_ctx c
  | EngineError _ => VFailed
  end.

(** What a verification leaves of the shared state. *)
Definition after_verify (cache : items) (limiter : Limiter) (panicked : bool) (w : shared) : shared :=
  {| sh_cache := cache; sh_limiter := limiter; sh_engine := sh_engine w; sh_current := sh_current w; sh_store := sh_store w;
     sh_uploads := sh_uploads w; sh_registry := sh_registry w; sh_todo := sh_todo w; sh_pending := sh_pending w;
     sh_disk := sh_disk w; sh_per := sh_per w; sh_aud := sh_aud w; sh_panicked := panicked |}.

(** [Service.Verify] over the live components.  A panic on the way, of the
    constructor or of the manager, is noted in the state. *)
Definition site_service (mo : moment) : service shared := fun policy email m w =>
  match verifier_New (site_config mo policy m w) with
  | None => (Err VFailed, (m, after_verify (sh_cache w) (sh_limiter w) true w))
  | Some (svc, world) =>
      let '(r, world) := service_Verify svc (mo_sleep mo) (mo_ctx mo) (mo_clk mo) email world in
      let '(m', panicked) := match pool_egress (w_egress world) with
                             | inr l => (live_manager l, live_panicked l)
                             | inl _ => (m, sh_panicked w)
                             end in
      (match r with Ok v => Ok v | Err e => Err (port_error e) end,
       (m', after_verify (default (sh_cache w) (w_cache world)) (default (sh_limiter w) (w_limiter world)) panicked w))
  end.

(** ** The dashboard's remaining routes *)

(** [handleUploadPreview] *)
Definition site_upload (mo : moment) (cfg : Web.Config site) (r : web_request) (s : site) : option (web_response * site) :=
  match wc_Jobs cfg with
  | None => Some (jobs_off, s)
  | Some _ =>
      match wr_file r with
      | Unreadable => Some (FromUpload (VerdictError ("could not read the upload: " +:+ upload_error_text)), s)
      | f =>
          let file := match f with FormFile name content => Some (name, content) | _ => None end in
          '(a, c) ← handleUploadPreview xlsx_open file (mo_rand mo) (mo_now mo) (sh_uploads (pl_world s));
          Some (FromUpload a, set_uploads c s)
      end
  end.

(** [handleUploadConfirm]; a job it submits is started. *)
Definition site_confirm (mo : moment) (cfg : Web.Config site) (r : web_request) (s : site) : option (web_response * site) :=
  match wc_Jobs cfg with
  | None => Some (jobs_off, s)
  | Some _ =>
      if negb (wr_form_ok r) then Some (FromUpload (VerdictError "invalid form submission"), s)
      else
        let id := newJobID (mo_rand mo) in
        let '(a, c, rn) := handleUploadConfirm (wr_form r) id (mo_now mo) (sh_uploads (pl_world s)) (pl_runner s) in
        let rn := match a with
                  | JobCreated _ => default rn (exec unasked untimed (EStart id) rn)
                  | _ => rn
                  end in
        Some (FromUpload a, set_uploads c (set_runner rn s))
  end.

(** [handleJobExport] *)
Definition site_export (cfg : Web.Config site) (id format : string) (r : web_request) (s : site) : option (web_response * site) :=
  match wc_Jobs cfg with
  | None => Some (jobs_off, s)
  | Some _ => a ← handleJobExport (r_store (pl_runner s)) id format (wr_query r "bucket"); Some (FromUpload a, s)
  end.

(** [handleSettings] and [handleSettingsSave]; [enabled] tells whether the
    dashboard was given a settings manager. *)
Definition settings_off : web_response := HTTPError 501 "settings are not enabled on this server".

Definition site_settings (enabled : bool) (s : site) : option (web_response * site) :=
  if negb enabled then Some (settings_off, s)
  else Some (SettingsPage (buildSettingsView FormatFloat (Current (settings_of s)) "" false), s).

Definition apply_message (e : apply_error) : string :=
  match e with Invalid _ => "Rejected: " +:+ apply_error_text e | SaveFailed => apply_error_text e end.

Definition site_save (enabled : bool) (mo : moment) (r : web_request) (s : site) : option (web_response * site) :=
  if negb enabled then Some (settings_off, s) else
  let '(reply, sm) := handleSettingsSave ParseFloat (mo_save_ok mo) (if wr_form_ok r then Some (wr_form r) else None) (settings_of s) in
  let view := match reply with
              | FormInvalid current => buildSettingsView FormatFloat current "Invalid form submission." false
              | Rejected next e => buildSettingsView FormatFloat next (apply_message e) false
              | Saved current => buildSettingsView FormatFloat current "" true
              end in
  Some (SettingsForm view, with_settings sm s).

(** The dashboard's routes to these handlers; the router sends no other here.
    [run] always sets the settings manager. *)
Definition site_routes (mo : moment) (cfg : Web.Config site) (e : web_endpoint) (r : web_request) (s : site)
    : option (web_response * site) :=
  match e with
  | WUpload => site_upload mo cfg r s
  | WUploadConfirm => site_confirm mo cfg r s
  | WExport id format => site_export cfg id format r s
  | WSettings => site_settings true s
  | WSettingsSave => site_save true mo r s
  | _ => Some (NotFoundPage, s)
  end.

(** ** The whole server *)

(** The dashboard of [run]. *)
Definition site_dashboard (mo : moment) (a : option auth) : Web.Config site :=
  dashboard (verifierPort (site_service mo)) (Some (fun s => webServersAdapter format_time reach_text (sh_registry (pl_world s))))
    (mo_now mo) (Some (runnerPort unasked untimed (mo_rand mo) (mo_now mo))) a.

(** A panic that was noted on the way ends what was going on. *)
Definition unless_panicked {A} (o : option (A * site)) : option (A * site) :=
  '(a, s) ← o; if sh_panicked (pl_world s) then None else Some (a, s).

(** A request to the server: [keys] and [dash] are fixed at its start. *)
Definition site_serve (keys : string) (dash : option (option auth)) (mo : moment) (r : full_request) (s : site)
    : option (root_response * site) :=
  let cfg := site_dashboard mo <$> dash in
  unless_panicked
    (root_serve (api_server (site_service mo) unasked untimed keys (mo_rand mo) (mo_now mo)) cfg jobs_error_text
      (fun e r s => match cfg with Some cfg => site_routes mo cfg e r s | None => Some (NotFoundPage, s) end)
      (mo_now mo) r s).

(** *** The background *)

(** The address the worker [i] of a job is to verify. *)
Definition verifying_at (id : string) (i : nat) (r : Runner) : option string :=
  p ← r_procs r !! id;
  match p_workers p !! i with Some (Verifying email) => Some email | _ => None end.

(** A step of a job's goroutine or of one of its workers; a step that is not the
    next one of anybody changes nothing.  The call of [Verify] is the service's,
    over the live components, and its verdict is the one the worker records. *)
Definition job_step (mo : moment) (e : Runner.event) (s : site) : option site :=
  match e with
  | EVerified id i =>
      match verifying_at id i (pl_runner s) with
      | None => Some s
      | Some email =>
          let '(r, (m, w)) := site_service mo (pl_policy s) email (pl_egress s) (pl_world s) in
          let answer _ _ := match r with Ok v => Some v | Err _ => None end in
          snd <$> unless_panicked (Some (tt, {| pl_egress := m; pl_policy := pl_policy s;
            pl_runner := default (pl_runner s) (Runner.exec answer (fun _ _ => mo_now mo) e (pl_runner s)); pl_world := w |}))
      end
  | EDispatch _ | EStop _ | ERecord _ _ _ | ELeave _ _ | ERelease _ | EInspect _ | EMark _ _ =>
      Some (set_runner (default (pl_runner s) (Runner.exec unasked untimed e (pl_runner s))) s)
  | _ => Some s
  end.

(** One step of the health loop: the start of a round, the check of an agent the
    round has left, and the callback for an agent that has flipped. *)
Inductive health_event :=
| HRound
| HCheck (now : Time) (fetch : string -> string -> http_reply HealthResponse) (n : nat)
| HChanged (now : Time) (n : nat).

Definition fleet_step (e : health_event) (s : site) : site :=
  let w := pl_world s in
  let reg := sh_registry w in
  match e with
  | HRound =>
      match sh_todo w, sh_pending w with
      | [], [] => with_fleet (pl_egress s) reg (reg_order reg) [] s
      | _, _ => s
      end
  | HCheck now fetch n =>
      match sh_todo w !! n with
      | None => s
      | Some id =>
          let '(info, changed, reg) := check fetch now id reg in
          with_fleet (pl_egress s) reg (delete n (sh_todo w))
            (match info with Some i => if changed then i :: sh_pending w else sh_pending w | None => sh_pending w end) s
      end
  | HChanged now n =>
      match sh_pending w !! n with
      | None => s
      | Some info => with_fleet (on_change now info (pl_egress s)) reg (sh_todo w) (delete n (sh_pending w)) s
      end
  end.

(** Whether the persister or the auditor is at the point the event is about. *)
Definition due (ev : Process.event) (p : Process.proc) : bool :=
  match ev with
  | EvTick => match per p with PIdle => true | _ => false end
  | EvSnapshot => match per p with PSnapshot _ => true | _ => false end
  | EvSave _ _ => match per p with PSave _ _ => true | _ => false end
  | EvClear => match per p with PClear _ => true | _ => false end
  | EvAuditRound => match aud p with AFirst | AWait => true | _ => false end
  | EvAudit _ _ => match aud p with ARun (_ :: _) => true | _ => false end
  | EvAuditDone => match aud p with ARun [] => true | _ => false end
  | _ => false
  end.

(** A step of the persister or of the auditor; one that is due and does not go
    has panicked. *)
Definition back_step (ev : Process.event) (s : site) : option site :=
  if due ev (proc_of s) then p ← Process.step ev (proc_of s); Some (with_proc p s) else Some s.

(** *** Everything together *)

Inductive happening :=
| Request (mo : moment) (r : full_request)
| JobStep (mo : moment) (e : Runner.event)
| Health (e : health_event)
| Background (ev : Process.event).

(** One happening, with the answer when it is a request; [None] is a panic. *)
Definition happen (keys : string) (dash : option (option auth)) (h : happening) (s : site)
    : option (option root_response * site) :=
  match h with
  | Request mo r => '(a, s) ← site_serve keys dash mo r s; Some (Some a, s)
  | JobStep mo e => s ← job_step mo e s; Some (None, s)
  | Health e => Some (None, fleet_step e s)
  | Background ev => s ← back_step ev s; Some (None, s)
  end.

(** A run of the server: the answers it gives, in order, and the state after it. *)
Fixpoint run_site (keys : string) (dash : option (option auth)) (hs : list happening) (s : site)
    : option (list root_response * site) :=
  match hs with
  | [] => Some ([], s)
  | h :: hs =>
      '(a, s) ← happen keys dash h s;
      '(l, s) ← run_site keys dash hs s;
      Some (option_list a ++ l, s)
  end.
End Site.
