(* ===== verification/AssemblyProps.v ===== *)
(** The assembled server answers every request: nothing a client sends to the
    API or the dashboard, and nothing the jobs, the health checks, the audits and
    the persister do in between, makes a goroutine panic, and the invariants of
    the components hold after every step. *)

From Stdlib Require Import QArith.
From S2P Require Import Prelude GoStrings GoConv Float64 GoTime Verdict Engine Settings Policy RateLimit Health.
From S2P Require Import Egress EgressInv EgressSel EgressOps EgressProps Regex Syntax Pipeline PipelineProps.
From S2P Require Import Builtin Store Memory Restart Process Verifier VerifierProps Service Runner Csv Ingest Reports Upload UploadProps.
From S2P Require Import Worker Fleet Control Auth Ports Api ApiProps Web WebProps Boot Assembly.
Local Open Scope list_scope.
Local Open Scope Z_scope.

(** ** The service *)

Section Pool.
Context `{HU : UnicodeTables} `{HF : FloatConv} {DnsEr : Type} `{HR : Resolver DnsEr}.
Context {C CacheEr : Type} `{HC : ResultStore C CacheEr}.
Context {P PoolEr : Type} `{HP : EgressProvider P PoolEr}.
Context {CtxEr EngEr : Type}.

(** What the egress provider keeps, a verification keeps. *)
Lemma Verify_pool (I : P -> Prop) disposable policy ttl (engine : Engine_ EngEr) engines (sleep : Duration -> option CtxEr)
    ctx clk email (w : World C P) :
  (forall now t p, I p -> I (provide now t p).2) -> (forall now sigs p, I p -> I (emit now sigs p)) ->
  I (w_egress w) -> I (w_egress (Verifier.Verify disposable policy ttl engine engines sleep ctx clk email w).2).
Proof.
  intros Hp He Hw. rewrite run_cases. destruct (Run disposable (c_run clk) email) as [res|e]; [|done].
  destruct (cacheGet (c_get clk) (key_of res) w) as [hit w1] eqn:Eg.
  assert (H1 : w_egress w1 = w_egress w).
  { unfold cacheGet in Eg. destruct (w_cache w); [|congruence]. destruct (String.eqb _ ""); [congruence|].
    destruct (Get _ _ _). by injection Eg as _ <-. }
  destruct hit as [v|]; [cbn [snd]; by rewrite H1|].
  assert (Hd : I (w_egress (decide_verdict (DnsEr := DnsEr) policy engine engines sleep ctx clk res w1).2)).
  { unfold decide_verdict. destruct (Terminal res); [cbn [snd]; by rewrite H1|].
    destruct (skipped policy res); [cbn [snd]; by rewrite H1|]. unfold probe.
    destruct (pace sleep (c_wait clk) res w1) as [go w2] eqn:Ep.
    assert (H2 : w_egress w2 = w_egress w).
    { unfold pace in Ep. destruct (w_limiter w1); [|congruence]. destruct (Wait _ _ _ _). injection Ep as _ <-. exact H1. }
    destruct go; cbn [negb]; [|destruct ctx; cbn [snd]; by rewrite H2].
    pose proof (Hp (c_bind clk) (res_Task res) (w_egress w2)) as Hp2. rewrite H2 in Hp2 |- *.
    destruct (provide (c_bind clk) (res_Task res) (w_egress w)) as [[b|e] p]; cbn [snd] in Hp2; [|by apply Hp2].
    destruct (engineFor engine engines b) as [eng remote].
    destruct (eng (res_Task res) b) as [[ev sigs]|e]; [by apply He, Hp2|destruct remote; by apply Hp2]. }
  destruct (decide_verdict _ _ _ _ _ _ _ _) as [[v|e] w2]; cbn [snd] in *; [|done]. case_bool_decide; [done|].
  unfold cachePut. destruct (w_cache w2); [|done]. by destruct (String.eqb _ "").
Qed.
End Pool.

(** The well-formed manager in a pool, which panics no more than it had. *)
Definition pool_wf (q : bool) (p : pool live) : Prop :=
  match pool_egress p with inr l => mgr_wf (live_manager l) /\ live_panicked l = q | inl _ => True end.

Lemma pool_provide_wf q now t (p : pool live) : pool_wf q p -> pool_wf q (provide now t p).2.
Proof.
  destruct p as [[d|[m q']] b]; [done|]. unfold pool_wf. cbn. intros [W Hq].
  destruct (Binding_spec m t now W) as (res & m' & Hb & W' & _). rewrite Hb. by destruct res as [b0|[]].
Qed.

Lemma pool_emit_wf q now sigs (p : pool live) : pool_wf q p -> pool_wf q (emit now sigs p).
Proof.
  destruct p as [[d|[m q']] b]; [done|]. unfold pool_wf. cbn. intros [W Hq]. destruct b; [split; [by apply Emit_wf|done]|done].
Qed.

(** ** The API *)

Section Served.
Context `{HU : UnicodeTables} `{HF : FloatConv} `{HD : Decoder} {W : Type}.
Variable svc : service W.
Variable answer : string -> string -> option Verdict.
Variable failed_at : string -> string -> Time.
Variable b : Z.
Hypothesis Hroom : room b.

(** A request changes the rest of the state at most by one verification. *)
Definition world_step (s s' : plane W) : Prop :=
  pl_world s' = pl_world s \/ exists email, pl_world s' = (svc (pl_policy s) email (pl_egress s) (pl_world s)).2.2.

(** An answered request that leaves a well-formed plane. *)
Definition safe {A} (s : plane W) (o : option (A * plane W)) : Prop :=
  exists a s', o = Some (a, s') /\ plane_wf b s' /\ world_step s s'.

Lemma safe_intro {A} (a : A) s s' : plane_wf b s' -> world_step s s' -> safe s (Some (a, s')).
Proof. intros. by exists a, s'. Qed.

Lemma safe_same {A} (a : A) s : plane_wf b s -> safe s (Some (a, s)).
Proof. intros H. apply safe_intro; [done|by left]. Qed.

Lemma dispatch_world keys rand now e r s a s' :
  dispatch (api_server svc answer failed_at keys rand now) e r s = Some (a, s') -> world_step s s'.
Proof.
  intros H. destruct e; cbn [dispatch] in H.
  - unfold handleVerify in H. destruct (decode_verify _ _) as [email|]; [|simplify_eq; by left].
    destruct (String.eqb _ ""); [simplify_eq; by left|]. cbn in H.
    destruct (svc (pl_policy s) email (pl_egress s) (pl_world s)) as [x [m w]] eqn:Es. simplify_eq. right. exists email. by rewrite Es.
  - unfold handleCreateJob in H. cbn in H. destruct (decode_create _ _); [|simplify_eq; by left].
    destruct (runner_Submit _ _ _ _ _ _). simplify_eq. by left.
  - unfold handleGetJob in H. cbn in H. simplify_eq. by left.
  - unfold handleJobResults in H. cbn in H. destruct (Results _ _ _ _); simplify_eq/=. by left.
  - unfold handleJobStats in H. cbn in H. simplify_eq. by left.
  - unfold handleCancelJob in H. cbn in H. destruct (runner_Cancel _ _ _). simplify_eq. by left.
  - unfold handleListEgress in H. cbn in H. destruct (Identities _); simplify_eq/=. by left.
  - unfold handleQuarantineEgress in H. cbn in H. simplify_eq. by left.
  - unfold handleEnableEgress in H. cbn in H. simplify_eq. by left.
  - unfold handleDisableEgress in H. cbn in H. simplify_eq. by left.
  - unfold handleListPolicies in H. cbn in H. simplify_eq. by left.
  - unfold handleSetPolicy in H. cbn in H. destruct (decode_policy _ _); [|simplify_eq; by left].
    destruct (negb _); simplify_eq; by left.
  - unfold handleHealth in H. cbn in H. simplify_eq. by left.
  - unfold handleReady in H. cbn in H. simplify_eq. by left.
Qed.

Lemma api_safe keys rand now r s :
  service_ok svc -> plane_wf b s -> safe s (Api.Handler (api_server svc answer failed_at keys rand now) r s).
Proof.
  intros Hsvc Wp. unfold Handler, authMiddleware. destruct (_ && _); [by apply safe_same|]. unfold mux.
  destruct (negb (hr_clean r)); [by apply safe_same|]. destruct (List.find _ _) as [[m e]|]; [|by apply safe_same].
  destruct (dispatch_good svc answer failed_at b keys rand now e r s Hroom Hsvc Wp) as (a & s' & E & Wp' & _).
  rewrite E. apply safe_intro; [done|]. by eapply dispatch_world.
Qed.

(** ** The dashboard *)

Variable servers : plane W -> option (list AgentView).
Variable jobs_error_text : jobs_error -> string.
Variable elsewhere : web_endpoint -> web_request -> plane W -> option (web_response * plane W).

Abbreviation board now rand auth :=
  (dashboard (verifierPort svc) (Some servers) now (Some (runnerPort answer failed_at rand now)) auth).

Lemma results_total (s : plane W) id cursor limit :
  plane_wf b s -> 0 < limit <= maxResultsLimit -> exists a, Results id cursor limit (r_store (pl_runner s)) = Some a.
Proof.
  intros Wp Hl. unfold Results. destruct (r_store (pl_runner s) !! id) as [e|] eqn:E; [|by eexists].
  pose proof (plw_jobs b s Wp id e E) as Hmax. cbn in Hmax. destruct Hroom as [_ Hr].
  destruct (page_total (je_results e) cursor limit) as [[items next] ->]; [lia|lia|]. by eexists.
Qed.

Lemma show_total now rand id (s : plane W) :
  plane_wf b s -> exists a, loadJobShowData (runnerPort answer failed_at rand now) id s = Some a.
Proof.
  intros Wp. unfold loadJobShowData. cbn. destruct (lift_error _); [|by eexists].
  destruct (results_total s id 0 50 Wp) as [x ->]; [done|]. by eexists.
Qed.

Lemma with_runner_wf r (s : plane W) : plane_wf b s -> jobs_within b (r_store r) -> plane_wf b (Ports.set_runner r s).
Proof. intros Wp Hr. constructor; [apply Wp|apply Wp|exact Hr]. Qed.

Lemma row_safe now id (s s0 : plane W) :
  plane_wf b s -> pl_world s = pl_world s0 -> safe s0 (renderEgressRow (egressAdapter now) id s).
Proof.
  intros Wp Hw. unfold renderEgressRow. cbn. destruct (identities_total _ (plw_egress b s Wp)) as [l ->]. cbn.
  apply safe_intro; [done|by left].
Qed.

Lemma verify_submit_safe now rand auth r s :
  service_ok svc -> plane_wf b s -> safe s (handleVerifySubmit (board now rand auth) r s).
Proof.
  intros Hsvc Wp. unfold handleVerifySubmit. destruct (negb _); [by apply safe_same|].
  destruct (String.eqb _ ""); [by apply safe_same|]. cbn.
  pose proof (Hsvc (pl_policy s) (TrimSpace (FormValue r "email")) (pl_egress s) (pl_world s) (plw_egress b s Wp)) as Hm.
  destruct (svc _ _ _ _) as [a [m w]] eqn:Es. apply safe_intro; [constructor; [exact Hm|apply Wp|apply Wp]|].
  right. eexists. by rewrite Es.
Qed.

Lemma job_submit_safe now rand auth r s :
  plane_wf b s -> safe s (handleJobSubmit (board now rand auth) jobs_error_text r s).
Proof.
  intros Wp. unfold handleJobSubmit. cbn. destruct (negb _); [by apply safe_same|].
  pose proof (submit_paged answer failed_at b rand now (lines_rows (FormValue r "emails")) (pl_runner s) (proj1 Hroom) (plw_jobs b s Wp)) as Hp.
  destruct (runner_Submit _ _ _ _ _ _) as [a r']. apply safe_intro; [by apply with_runner_wf|by left].
Qed.

Lemma job_cancel_safe now rand auth id s :
  plane_wf b s -> safe s (handleJobCancel (board now rand auth) id s).
Proof.
  intros Wp. unfold handleJobCancel. cbn.
  pose proof (cancel_paged b now id (pl_runner s) (plw_jobs b s Wp)) as Hp.
  destruct (runner_Cancel now id (pl_runner s)) as [a r'].
  assert (Wp' : plane_wf b (Ports.set_runner r' s)) by (by apply with_runner_wf).
  destruct (show_total now rand id _ Wp') as [x Hx].
  destruct a as [u|[]]; rewrite ?Hx; cbn; apply safe_intro; try done; by left.
Qed.

Lemma policy_set_safe now rand auth key r s : plane_wf b s -> safe s (handlePolicySet (board now rand auth) key r s).
Proof.
  intros Wp. unfold handlePolicySet. cbn. destruct (known_strategy (FormValue r "strategy")) eqn:Ek; cbn; [|by apply safe_same].
  apply safe_intro; [|by left]. constructor; [apply Wp|apply set_rule_typed; [apply Wp|by apply known_rule]|apply Wp].
Qed.

Lemma servers_safe now rand auth s :
  plane_wf b s -> is_Some (servers s) -> safe s (handleServers (board now rand auth) s).
Proof.
  intros Wp [l Hl]. unfold handleServers, identitiesOrEmpty. cbn. destruct (identities_total _ (plw_egress b s Wp)) as [ids ->]. cbn.
  rewrite Hl. cbn. by apply safe_same.
Qed.

(** The endpoints that [elsewhere] answers. *)
Definition routed_elsewhere (e : web_endpoint) : bool :=
  match e with WExport _ _ | WUpload | WUploadConfirm | WSettings | WSettingsSave => true | _ => false end.

Lemma board_safe now rand auth e r s :
  service_ok svc -> plane_wf b s -> is_Some (servers s) -> routed_elsewhere e = false ->
  safe s (web_dispatch (board now rand auth) jobs_error_text elsewhere now e r s).
Proof.
  intros Hsvc Wp Hs He. destruct e; try discriminate He; cbn [web_dispatch]; try (by apply safe_same).
  - by apply verify_submit_safe.
  - by apply job_submit_safe.
  - unfold handleJobShow. cbn. destruct (show_total now rand id s Wp) as [x ->]. by apply safe_same.
  - unfold handleJobStatus. cbn. destruct (show_total now rand id s Wp) as [x ->]. by apply safe_same.
  - unfold handleJobResultsPage. cbn. destruct (lift_error _) as [j|[]]; try (by apply safe_same).
    destruct (results_total s id (web_queryInt r "cursor" 0) 50 Wp) as [x ->]; [done|]. by apply safe_same.
  - by apply job_cancel_safe.
  - unfold handleEgress. cbn. destruct (identities_total _ (plw_egress b s Wp)) as [l ->]. by apply safe_same.
  - apply row_safe; [|done]. constructor; [apply Quarantine_wf, Wp|apply Wp|apply Wp].
  - apply row_safe; [|done]. constructor; [apply Enable_wf, Wp|apply Wp|apply Wp].
  - apply row_safe; [|done]. constructor; [apply Disable_wf, Wp|apply Wp|apply Wp].
  - by apply servers_safe.
  - by apply policy_set_safe.
Qed.
End Served.

(** ** The site *)

(** Every agent the registry lists, it knows. *)
Definition listed (reg : Registry) : Prop := forall id, id ∈ reg_order reg -> is_Some (agents reg !! id).

(** What the server's state has between requests. *)
Record site_wf (b : Z) (s : site) : Prop := {
  sw_plane : plane_wf b s;
  sw_uploads : stamped (sh_uploads (pl_world s));
  sw_registry : listed (sh_registry (pl_world s));
  sw_quiet : sh_panicked (pl_world s) = false;
}.

Definition site_safe {A} (b : Z) (o : option (A * site)) : Prop := exists a s', o = Some (a, s') /\ site_wf b s'.

Lemma site_safe_intro {A} b (a : A) s : site_wf b s -> site_safe b (Some (a, s)).
Proof. intros H. by exists a, s. Qed.

Lemma unless_panicked_safe {A} b (o : option (A * site)) : site_safe b o -> site_safe b (unless_panicked o).
Proof. intros (a & s & -> & W). unfold unless_panicked. cbn. rewrite (sw_quiet b s W). by apply site_safe_intro. Qed.

Lemma evict_stamped now c : stamped c -> stamped (evictLocked now c).
Proof. intros Hs k u Hk. apply map_lookup_filter_Some in Hk as [Hk _]. by apply (Hs k). Qed.

Lemma put_total b now u c :
  stamped c -> 0 < pu_created u -> exists t c', put b now u c = Some (t, c') /\ stamped c'.
Proof.
  intros Hs Hu. unfold put. destruct b as [b|]; [|by exists None, c].
  destruct (make_room_spec (size (evictLocked now c)) (evictLocked now c) (evict_stamped now c Hs) ltac:(done)) as (c' & -> & _ & Hsub & _).
  eexists _, _. split; [done|]. apply map_Forall_insert_2; [done|]. intros k v Hk.
  apply (evict_stamped now c Hs k). by eapply lookup_weaken.
Qed.

Lemma preview_total `{UnicodeTables} xlsx_open file b now c :
  stamped c -> 0 < now -> exists a c', handleUploadPreview xlsx_open file b now c = Some (a, c') /\ stamped c'.
Proof.
  intros Hs Hn. unfold handleUploadPreview. destruct file as [[name content]|]; [|by eexists _, _].
  destruct (Parse_runs xlsx_open name content) as [[sheet|e] ->]; [|by eexists _, _].
  destruct (put_total b now {| pu_filename := name; pu_sheet := sheet; pu_created := now |} c Hs Hn) as (t & c' & -> & Hs').
  destruct t as [t|]; [|by eexists _, _]. destruct (DetectColumns sheet). by eexists _, _.
Qed.

(** What a confirmation does to the uploads and the runner. *)
Lemma confirm_effect `{UnicodeTables} form id now c r a c' r' :
  handleUploadConfirm form id now c r = (a, c', r') -> stamped c ->
  stamped c' /\ (r' = r /\ (forall j, a <> JobCreated j) \/ exists rows j, Submit id rows now r = Ok (j, r') /\ a = JobCreated j).
Proof.
  intros H0 Hs. unfold handleUploadConfirm in H0. pose proof (evict_stamped now c Hs) as Hs'.
  cbn [get] in H0. destruct (evictLocked now c !! _) as [p|]; [|injection H0 as <- <- <-; split; [done|by left]].
  destruct (Atoi _) as [emailCol|]; [|injection H0 as <- <- <-; split; [done|by left]].
  destruct (emailCol <? 0); [injection H0 as <- <- <-; split; [done|by left]|].
  destruct (len _ =? 0); [injection H0 as <- <- <-; split; [done|by left]|].
  destruct (len _ =? 0); [injection H0 as <- <- <-; split; [done|by left]|].
  destruct (Submit _ _ _ _) as [[j r1]|e] eqn:Es; [|injection H0 as <- <- <-; split; [done|by left]].
  injection H0 as <- <- <-. split; [|right; by eexists _, _]. intros k v Hk. unfold drop_ in Hk. apply lookup_delete_Some in Hk as [_ Hk]. by apply (Hs' k).
Qed.

Lemma agents_total reg : listed reg -> is_Some (Agents reg).
Proof.
  intros Hl. unfold Agents.
  assert (H : is_Some (mapM (fun id => agent_info <$> agents reg !! id) (reg_order reg))).
  { apply mapM_is_Some_2. apply List.Forall_forall. intros id Hid%list_elem_of_In. destruct (Hl id Hid) as [a Ha]. cbn. rewrite Ha. by eexists. }
  destruct H as [l ->]. by eexists.
Qed.

(** A step of a job adds one result at most. *)
Lemma exec_proc_within `{UnicodeTables} answer failed_at id p st e p' st' b :
  0 <= b -> jobs_within b st -> Runner.exec_proc answer failed_at id p st e = Some (p', st') -> jobs_within (b + 1) st'.
Proof.
  intros Hb Hw Hx.
  assert (Hmono : jobs_within (b + 1) st) by (intros k en Hk; pose proof (Hw k en Hk); cbn in *; lia).
  assert (Happ : forall now i x, jobs_within (b + 1) (match js_Append now i x st with Ok st' => st' | Err _ => st end)).
  { intros now i x. cbn. unfold AppendResult. destruct (st !! i) as [en|] eqn:Ee; [|done].
    apply map_Forall_insert_2; [|done]. pose proof (Hw i en Ee) as Hl. cbn in *. rewrite len_app. change (len [x]) with 1. lia. }
  assert (Hset : forall now i status, jobs_within (b + 1) (match js_SetStatus now i status st with Ok st' => st' | Err _ => st end)).
  { intros now i x. cbn. unfold SetStatus. destruct (st !! i) as [en|] eqn:Ee; [|done].
    apply map_Forall_insert_2; [|done]. exact (Hmono i en Ee). }
  assert (Hkeep : st' = st -> jobs_within (b + 1) st') by (intros ->; exact Hmono).
  unfold Runner.exec_proc in Hx. destruct e; try done;
    repeat (match type of Hx with context [match ?d with _ => _ end] =>
              lazymatch d with js_Append _ _ _ _ => fail | js_SetStatus _ _ _ _ => fail | _ => destruct d; try done end end);
    apply (inj Some) in Hx; injection Hx as _ <-; try (by apply Happ); try (by apply Hset); exact Hmono.
Qed.

Lemma exec_within `{UnicodeTables} answer failed_at e r r' b :
  0 <= b -> jobs_within b (r_store r) -> Runner.exec answer failed_at e r = Some r' -> jobs_within (b + 1) (r_store r').
Proof.
  intros Hb Hw Hx.
  assert (Hmono : jobs_within (b + 1) (r_store r)) by (intros k en Hk; pose proof (Hw k en Hk); cbn in *; lia).
  unfold Runner.exec in Hx. destruct (event_id e) as [i|] eqn:Ei.
  - destruct (r_procs r !! i) as [p|]; [|done]. cbn [mbind option_bind] in Hx.
    destruct (Runner.exec_proc _ _ _ _ _ _) as [[p' st']|] eqn:Ep; [|done]. cbn [mbind option_bind] in Hx.
    apply (inj Some) in Hx. subst r'. cbn. by eapply exec_proc_within.
  - destruct e; try done.
    + destruct (js_Get id (r_store r)); [done|]. destruct (r_procs r !! id); [done|]. unfold submit_on in Hx.
      destruct (_ =? 0); [by simplify_eq|]. destruct (_ >? _); [by simplify_eq|]. cbn [js_Create memory_jobs] in Hx.
      apply (inj Some) in Hx. subst r'. cbn. unfold CreateJob. apply map_Forall_insert_2; [|done]. cbn. unfold len. simpl. lia.
    + destruct (r_procs r !! id) as [p|]; [|done]. cbn [mbind option_bind] in Hx. destruct (p_phase p); by simplify_eq/=.
    + destruct (r_procs r !! id) as [p|]; [|done]. cbn [mbind option_bind] in Hx.
      destruct (p_phase p); try done. destruct (p_workers p); by simplify_eq/=.
    + destruct (Cancel_begin id (r_store r)) as [[c|]|]; by simplify_eq/=.
    + destruct (r_calls r !! i) as [[id|id]|]; try done. apply (inj Some) in Hx. subst r'.
      destruct (bool_decide _); [|done]. by destruct (r_procs r !! id).
    + destruct (r_calls r !! i) as [[id|id]|]; try done. apply (inj Some) in Hx. subst r'. cbn. unfold SetStatus.
      destruct (r_store r !! id) as [en|] eqn:Ee; [|done]. apply map_Forall_insert_2; [|done]. exact (Hmono id en Ee).
    + destruct (r_calls r !! i) as [[id|id]|]; by simplify_eq/=.
    + by simplify_eq/=.
Qed.

(** A settings change keeps the manager well formed and the results. *)
Lemma settings_save_keeps ParseFloat ok form m reply m' :
  handleSettingsSave ParseFloat ok form m = (reply, m') -> mgr_wf (sm_egress m) ->
  mgr_wf (sm_egress m') /\ r_store (sm_runner m') = r_store (sm_runner m).
Proof.
  intros H Wm. unfold handleSettingsSave in H. destruct form as [form|]; [|by injection H as <- <-].
  destruct (Apply ok _ m) as [m1|e] eqn:Ea; [|by injection H as <- <-]. injection H as <- <-.
  unfold Apply, begin_change in Ea. destruct (Settings.Validate _); [done|]. destruct ok; [|done]. cbn [negb] in Ea. injection Ea as <-.
  split; [by apply SetThresholds_wf|done].
Qed.

Section Site.
Context `{HU : UnicodeTables} `{HF : FloatConv} `{HD : Decoder} `{HT : TimeFormat}.
Context {DnsEr : Type}.
Variable system : Resolver DnsEr.
Variable dns_ctx : DnsEr -> option ctx_error.
Variable ParseFloat : string -> option float64.
Variable FormatFloat : float64 -> string.
Variable jobs_error_text : jobs_error -> string.
Variable apply_error_text : apply_error -> string.
Variable upload_error_text : string.
Variable format_time : Time -> string.
Variable reach_text : reach_error -> string.
Variable xlsx_open : list ascii -> option workbook.

Abbreviation serve keys dash mo r s :=
  (site_serve system dns_ctx ParseFloat FormatFloat jobs_error_text apply_error_text upload_error_text format_time reach_text
     xlsx_open keys dash mo r s).
Abbreviation run_list keys dash hs s :=
  (run_site system dns_ctx ParseFloat FormatFloat jobs_error_text apply_error_text upload_error_text format_time reach_text
     xlsx_open keys dash hs s).
Abbreviation svc mo := (site_service system dns_ctx mo).

Section Kept.
Variable b : Z.
Hypothesis Hroom : room b.

(** The service keeps the manager well formed, and what it does not own. *)
Lemma site_service_keeps mo policy email m w m' w' :
  mgr_wf m -> (svc mo policy email m w).2 = (m', w') ->
  mgr_wf m' /\ sh_uploads w' = sh_uploads w /\ sh_registry w' = sh_registry w /\ sh_panicked w' = sh_panicked w.
Proof.
  intros Wm. unfold site_service, service_Verify. cbn [verifier_New site_config vc_Pipeline vc_Engine].
  set (world0 := {| w_cache := _; w_limiter := _; w_egress := _ |}).
  match goal with |- context [Verifier.Verify ?d ?p ?t ?e ?es ?sl ?c ?k ?em world0] =>
    pose proof (Verify_pool (HR := pl_resolver (pipeline_New system {| pc_Resolver := None; pc_Disposable := None |}))
                  (pool_wf (sh_panicked w)) d p t e es sl c k em world0 (pool_provide_wf _) (pool_emit_wf _) (conj Wm eq_refl)) as Hp;
    destruct (Verifier.Verify d p t e es sl c k em world0) as [r world] end.
  cbn [fst snd] in *. unfold pool_wf in Hp. destruct (pool_egress (w_egress world)) as [d|l]; cbn [snd]; intros [= <- <-].
  - done.
  - by destruct Hp.
Qed.

Lemma site_service_ok mo : service_ok (svc mo).
Proof.
  intros p email m w Wm. destruct (svc mo p email m w).2 as [m' w'] eqn:E. by destruct (site_service_keeps mo p email m w m' w' Wm E).
Qed.

Lemma world_step_site mo (s s' : site) :
  site_wf b s -> plane_wf b s' -> world_step (svc mo) s s' -> site_wf b s'.
Proof.
  intros [Wp Hu Hr Hq] Wp' [Hw|[email Hw]]; constructor; try done; rewrite Hw; try done.
  all: destruct (svc mo (pl_policy s) email (pl_egress s) (pl_world s)).2 as [m' w'] eqn:E;
    destruct (site_service_keeps mo (pl_policy s) email (pl_egress s) (pl_world s) m' w' (plw_egress b s Wp) E) as (_ & H1 & H2 & H3);
    cbn [snd]; by rewrite ?H1, ?H2, ?H3.
Qed.

Lemma safe_site {A} mo (s : site) (o : option (A * site)) : site_wf b s -> safe (svc mo) b s o -> site_safe b o.
Proof. intros Ws (a & s' & -> & Wp' & Hw). apply site_safe_intro. by eapply world_step_site. Qed.

Lemma set_uploads_wf c s : site_wf b s -> stamped c -> site_wf b (set_uploads c s).
Proof. intros [Wp Hu Hr Hq] Hc. constructor; [|exact Hc|exact Hr|exact Hq]. constructor; apply Wp. Qed.

Lemma site_upload_safe mo cfg r s :
  site_wf b s -> 0 < mo_now mo -> site_safe b (site_upload upload_error_text xlsx_open mo cfg r s).
Proof.
  intros Ws Hn. unfold site_upload. destruct (wc_Jobs cfg); [|by apply site_safe_intro].
  assert (Hgo : forall file, site_safe b ('(a, c) ← handleUploadPreview xlsx_open file (mo_rand mo) (mo_now mo) (sh_uploads (pl_world s));
                                        Some (FromUpload a, set_uploads c s))).
  { intros file. destruct (preview_total xlsx_open file (mo_rand mo) (mo_now mo) _ (sw_uploads b s Ws) Hn) as (a & c & -> & Hc).
    apply site_safe_intro. by apply set_uploads_wf. }
  destruct (wr_file r); [by apply site_safe_intro|apply Hgo|apply Hgo].
Qed.

Lemma site_confirm_safe mo cfg r s : site_wf b s -> site_safe b (site_confirm mo cfg r s).
Proof.
  intros Ws. unfold site_confirm. destruct (wc_Jobs cfg) as [jp|]; [|by apply site_safe_intro].
  destruct (negb _); [by apply site_safe_intro|].
  destruct (handleUploadConfirm _ _ _ _ _) as [[a c] rn] eqn:Ec.
  destruct (confirm_effect _ _ _ _ _ _ _ _ Ec (sw_uploads b s Ws)) as [Hc Hrn]. apply site_safe_intro.
  apply set_uploads_wf; [|done]. destruct Ws as [Wp Hu Hr Hq]. constructor; [|done|done|done].
  apply with_runner_wf; [done|]. destruct Hrn as [[-> Ha]|(rows & j & Hs & ->)].
  - destruct a; try apply Wp. by destruct (Ha job).
  - pose proof (submit_paged unasked untimed b (mo_rand mo) (mo_now mo) rows (pl_runner s) (proj1 Hroom) (plw_jobs b s Wp)) as Hp.
    unfold runner_Submit in Hp. by rewrite Hs in Hp.
Qed.

Lemma site_export_safe cfg id format r s : site_wf b s -> site_safe b (site_export cfg id format r s).
Proof.
  intros Ws. unfold site_export. destruct (wc_Jobs cfg) as [jp|]; [|by apply site_safe_intro].
  assert (Ht : exists a, handleJobExport (r_store (pl_runner s)) id format (wr_query r "bucket") = Some a).
  { unfold handleJobExport. destruct (GetJob id _) as [j|e] eqn:Eg; [|by eexists]. destruct (negb _); [by eexists|].
    unfold GetJob in Eg. destruct (r_store (pl_runner s) !! id) as [en|] eqn:E; [|done].
    pose proof (plw_jobs b s (sw_plane b s Ws) id en E) as Hmax. cbn in Hmax. destruct Hroom as [_ Hmx].
    rewrite (allResults_complete _ _ en E); [|unfold exportPageSize, maxResultsLimit in *; lia].
    destruct (String.eqb format "csv"); [by eexists|]. destruct (String.eqb format "xlsx"); by eexists. }
  destruct Ht as [a ->]. by apply site_safe_intro.
Qed.

Lemma site_save_safe enabled mo r s :
  site_wf b s -> site_safe b (site_save ParseFloat FormatFloat apply_error_text enabled mo r s).
Proof.
  intros [Wp Hu Hr Hq]. unfold site_save. destruct enabled; [cbn [negb]|by apply site_safe_intro].
  destruct (handleSettingsSave _ _ _ _) as [reply sm] eqn:Es.
  destruct (settings_save_keeps _ _ _ _ _ _ Es (plw_egress b s Wp)) as [Wm Hst].
  apply site_safe_intro. constructor; [|exact Hu|exact Hr|exact Hq]. constructor; [exact Wm|apply Wp|].
  cbn. rewrite Hst. apply (plw_jobs b s Wp).
Qed.

Lemma site_routes_safe mo cfg e r s :
  site_wf b s -> 0 < mo_now mo ->
  site_safe b (site_routes ParseFloat FormatFloat apply_error_text upload_error_text xlsx_open mo cfg e r s).
Proof.
  intros Ws Hn. destruct e; cbn [site_routes]; try (by apply site_safe_intro).
  - by apply site_export_safe.
  - by apply site_upload_safe.
  - by apply site_confirm_safe.
  - by apply site_save_safe.
Qed.

Lemma site_board_safe mo a r s :
  site_wf b s -> 0 < mo_now mo ->
  let cfg := site_dashboard system dns_ctx format_time reach_text mo a in
  site_safe b (web_Handler cfg jobs_error_text
               (site_routes ParseFloat FormatFloat apply_error_text upload_error_text xlsx_open mo cfg) (mo_now mo) r s).
Proof.
  intros Ws Hn cfg. unfold web_Handler, requireAuth.
  assert (Hmux : site_safe b (web_mux cfg jobs_error_text
    (site_routes ParseFloat FormatFloat apply_error_text upload_error_text xlsx_open mo cfg) (mo_now mo) r s)).
  { unfold web_mux. destruct (negb _); [by apply site_safe_intro|].
    destruct (List.find _ _) as [[m e]|]; [|by apply site_safe_intro].
    destruct (routed_elsewhere e) eqn:Ee.
    - assert (Hd : web_dispatch cfg jobs_error_text (site_routes ParseFloat FormatFloat apply_error_text upload_error_text xlsx_open mo cfg)
                     (mo_now mo) e r s
                   = site_routes ParseFloat FormatFloat apply_error_text upload_error_text xlsx_open mo cfg e r s)
        by (by destruct e).
      rewrite Hd. by apply site_routes_safe.
    - apply (safe_site mo s); [done|]. apply board_safe; [done|apply site_service_ok|apply Ws| |done].
      unfold webServersAdapter. destruct (agents_total _ (sw_registry b s Ws)) as [l ->]. by eexists. }
  destruct (wc_auth cfg) as [au|]; [|exact Hmux]. destruct (_ || _); [exact Hmux|].
  destruct (authenticated _ _ _); [exact Hmux|]. destruct (String.eqb _ _); by apply site_safe_intro.
Qed.

Lemma site_serve_safe keys dash mo r s :
  site_wf b s -> 0 < mo_now mo -> site_safe b (serve keys dash mo r s).
Proof.
  intros Ws Hn. unfold site_serve. apply unless_panicked_safe. unfold root_serve. destruct (negb _); [by apply site_safe_intro|].
  destruct (root_owner _); [| |by apply site_safe_intro].
  - destruct (safe_site mo s _ Ws (api_safe (svc mo) unasked untimed b Hroom keys (mo_rand mo) (mo_now mo) (fr_http r) s
      (site_service_ok mo) (sw_plane b s Ws))) as (a & s' & -> & Ws'). by apply site_safe_intro.
  - destruct dash as [a|]; cbn [fmap option_fmap option_map]; [|by apply site_safe_intro].
    destruct (site_board_safe mo a (to_web r) s Ws Hn) as (x & s' & E & Ws').
    match goal with |- site_safe b (?o ≫= _) => assert (o = Some (x, s')) as -> by exact E end. by apply site_safe_intro.
Qed.

End Kept.

(** *** The background *)

Lemma site_wf_mono b b' s : b <= b' -> site_wf b s -> site_wf b' s.
Proof.
  intros Hb [[W1 W2 W3] Hu Hr Hq]. constructor; try done. constructor; try done.
  intros k e Hk. pose proof (W3 k e Hk). cbn in *. lia.
Qed.

Lemma runner_step_wf b answer failed_at e (s : site) :
  0 <= b -> site_wf b s ->
  site_wf (b + 1) (set_runner (default (pl_runner s) (Runner.exec answer failed_at e (pl_runner s))) s).
Proof.
  intros Hb Ws. destruct (Runner.exec answer failed_at e (pl_runner s)) as [r'|] eqn:Hx; cbn [default from_option].
  - destruct Ws as [[W1 W2 W3] Hu Hr Hq]. constructor; try done. constructor; try done. by eapply exec_within.
  - apply (site_wf_mono b); [lia|]. by destruct s.
Qed.

Lemma job_step_wf b mo e s :
  0 <= b -> site_wf b s -> exists s', job_step system dns_ctx mo e s = Some s' /\ site_wf (b + 1) s'.
Proof.
  intros Hb Ws. assert (Hmono : site_wf (b + 1) s) by (apply (site_wf_mono b); [lia|done]).
  destruct e; cbn [job_step]; try (by exists s);
    try (eexists; split; [done|]; by apply runner_step_wf).
  destruct (verifying_at id i (pl_runner s)) as [email|]; [|by exists s].
  destruct (svc mo (pl_policy s) email (pl_egress s) (pl_world s)) as [r [m w]] eqn:Es.
  destruct (site_service_keeps mo (pl_policy s) email (pl_egress s) (pl_world s) m w (plw_egress b s (sw_plane b s Ws)))
    as (Wm & H1 & H2 & H3); [by rewrite Es|].
  unfold unless_panicked. cbn. rewrite H3, (sw_quiet b s Ws). cbn. eexists. split; [done|].
  set (answer := fun _ _ : string => match r with Ok v => Some v | Err _ => None end).
  destruct (runner_step_wf b answer (fun _ _ => mo_now mo) (EVerified id i) s Hb Ws) as [[_ W2 W3] Hu Hr Hq].
  constructor; cbn [pl_world]; [|by rewrite H1|by rewrite H2|by rewrite H3].
  constructor; [exact Wm|exact W2|exact W3].
Qed.

Lemma with_fleet_wf b m reg todo pending s :
  site_wf b s -> mgr_wf m -> listed reg -> site_wf b (with_fleet m reg todo pending s).
Proof. intros [[W1 W2 W3] Hu Hr Hq] Wm Hl. by constructor. Qed.

Lemma check_listed fetch now id reg info changed reg' :
  check fetch now id reg = (info, changed, reg') -> listed reg -> listed reg'.
Proof.
  unfold check. destruct (agents reg !! id) as [a|]; intros [= <- <- <-] Hl; [|done].
  intros i Hi. cbn in *. destruct (decide (id = i)) as [->|Hne]; [rewrite lookup_insert_eq; by eexists|].
  rewrite lookup_insert_ne by done. by apply Hl.
Qed.

Lemma fleet_step_wf b e s : site_wf b s -> site_wf b (fleet_step e s).
Proof.
  intros Ws. pose proof (plw_egress b s (sw_plane b s Ws)) as Wm. pose proof (sw_registry b s Ws) as Hl.
  destruct e as [|now fetch n|now n]; cbn [fleet_step].
  - destruct (sh_todo _); [|done]. destruct (sh_pending _); [|done]. by apply with_fleet_wf.
  - destruct (sh_todo _ !! n) as [id|]; [|done]. destruct (check fetch now id _) as [[info changed] reg] eqn:Ec.
    apply with_fleet_wf; [done|done|]. by eapply check_listed.
  - destruct (sh_pending _ !! n) as [info|]; [|done]. apply with_fleet_wf; [done|by apply on_change_wf|done].
Qed.

(** The persister and the auditor go on whenever they are due, and what they do to
    the manager keeps it well formed. *)
Lemma process_step ev p :
  mgr_wf (mgr p) -> main p = MServing -> due ev p = true ->
  exists p', Process.step ev p = Some p' /\ mgr_wf (mgr p').
Proof.
  intros W Hm Hd. unfold Process.step. rewrite Hm. unfold due in Hd.
  destruct ev; try done; cbn [persist_step audit_step].
  - destruct (aud p); try done.
    + destruct (AuditDNSBL_total (fun _ => []) 0 (mgr p) W) as (items & -> & _). eexists. by split.
    + destruct (AuditDNSBL_total (fun _ => []) 0 (mgr p) W) as (items & -> & _). eexists. by split.
  - destruct (aud p) as [| |[|it items]|]; try done. eexists. split; [done|]. by apply audit_one_wf.
  - destruct (aud p) as [| |[|]|]; try done. eexists. by split.
  - destruct (per p); try done. eexists. by split.
  - destruct (per p); try done. destruct (Snapshot_total (mgr p) W) as (l & -> & _). eexists. by split.
  - destruct (per p); try done. eexists. split; [done|]. cbn. by destruct (_ || _).
  - destruct (per p); try done. eexists. split; [done|]. cbn. by apply mgr_wf_set_dirty.
Qed.

Lemma back_step_wf b ev s : site_wf b s -> exists s', back_step ev s = Some s' /\ site_wf b s'.
Proof.
  intros Ws. unfold back_step. destruct (due ev (proc_of s)) eqn:Hd; [|by exists s].
  destruct (process_step ev (proc_of s) (plw_egress b s (sw_plane b s Ws)) eq_refl Hd) as (p & -> & Wm). eexists. split; [done|].
  destruct Ws as [[W1 W2 W3] Hu Hr Hq]. by constructor.
Qed.

(** *** Runs *)

Definition is_request (h : happening) : bool := match h with Request _ _ => true | _ => false end.
Definition timely (h : happening) : Prop := match h with Request mo _ => 0 < mo_now mo | _ => True end.

Lemma run_site_safe keys dash hs : forall b s,
  site_wf b s -> Forall timely hs -> 0 <= b -> b + len hs + maxResultsLimit <= max_int64 ->
  exists l s', run_list keys dash hs s = Some (l, s') /\ length l = length (List.filter is_request hs) /\ site_wf (b + len hs) s'.
Proof.
  induction hs as [|h hs IH]; intros b s Ws Ht Hb Hmax.
  - exists [], s. split; [done|]. split; [done|]. unfold len. simpl. by rewrite Z.add_0_r.
  - apply list.Forall_cons in Ht as [Hh Ht]. pose proof (len_nonneg hs).
    assert (Hlen : len (h :: hs) = 1 + len hs) by (unfold len; simpl; lia). rewrite Hlen in *.
    assert (Hstep : exists a s1, happen system dns_ctx ParseFloat FormatFloat jobs_error_text apply_error_text upload_error_text
                      format_time reach_text xlsx_open keys dash h s = Some (a, s1) /\
                    (if is_request h then exists x, a = Some x else a = None) /\ site_wf (b + 1) s1).
    { assert (Hroom : room b) by (split; [done|]; lia). destruct h as [mo r|mo e|e|ev]; cbn [happen is_request].
      - destruct (site_serve_safe b Hroom keys dash mo r s Ws Hh) as (a & s1 & -> & Ws1). cbn. eexists _, _.
        split; [done|]. split; [by eexists|]. apply (site_wf_mono b); [lia|done].
      - destruct (job_step_wf b mo e s Hb Ws) as (s1 & -> & Ws1). cbn. by eexists _, _.
      - eexists _, _. split; [done|]. split; [done|]. apply (site_wf_mono b); [lia|]. by apply fleet_step_wf.
      - destruct (back_step_wf b ev s Ws) as (s1 & -> & Ws1). cbn. eexists _, _. split; [done|]. split; [done|].
        apply (site_wf_mono b); [lia|done]. }
    destruct Hstep as (a & s1 & Hs1 & Ha & Ws1). cbn [run_site]. rewrite Hs1. cbn [mbind option_bind].
    destruct (IH (b + 1) s1 Ws1 Ht) as (l & s2 & -> & Hl & Ws2); [lia|lia|]. cbn [mbind option_bind]. eexists _, s2.
    split; [done|]. rewrite Z.add_assoc. split; [|done]. rewrite length_app, Hl. cbn [List.filter].
    destruct (is_request h); [destruct Ha as [x ->]|subst a]; done.
Qed.

(** ** From the start *)

Lemma registry_listed cfgs timeout reg : NewRegistry cfgs timeout = Ok reg -> listed reg.
Proof.
  intros H id Hid. destruct (NewRegistry_wf cfgs timeout reg H) as [[Ho _ Hd _] _]. apply Hd. by rewrite <- Ho.
Qed.

Lemma site_of_wf env loaded settings_ok st rand now sv zones disk :
  (forall l, loaded = Some l -> Forall (saved_wf (len defaultWarmupStages)) l) ->
  boot ParseFloat env loaded settings_ok st rand now = Ok sv -> site_wf 0 (site_of zones disk sv).
Proof.
  intros Hl Hb. unfold site_of.
  match goal with |- context [plane_of sv ?w] => destruct (boot_plane_wf ParseFloat env loaded settings_ok st rand now sv w Hl Hb) as [Wp (cfgs & _ & Hr & _)] end.
  constructor; [exact Wp|apply map_Forall_empty| |done]. by eapply registry_listed.
Qed.

(** C10: A server that has started keeps answering whatever it is sent and whatever
    goes on behind: from reputation states a manager with the same ramp can have
    saved and any environment, in every run of requests to the API and the
    dashboard (verifications, jobs, uploads, exports, settings, policies,
    administration, with any bodies, forms and files), of steps of the jobs (their
    addresses verified by the same service over the live components), of health
    checks of the agents with their callbacks, of blocklist audits and of the
    persister, one after the other in any order, over the in-memory job store and
    cache, whatever the network, DNS and the agents do and whichever writes of the
    settings and the reputation fail, no step panics (no nil record in the manager or the
    registry, no slice out of range in a page or an export), every request gets one answer, and the invariants of the components
    hold at the end.  The clock is past the zero time, and the run is short enough
    for a job's results and one page to fit an int64. *)
Theorem server_answers_all env loaded settings_ok st rand now sv zones disk hs :
  (forall l, loaded = Some l -> Forall (saved_wf (len defaultWarmupStages)) l) ->
  boot ParseFloat env loaded settings_ok st rand now = Ok sv ->
  Forall timely hs -> len hs + maxResultsLimit <= max_int64 ->
  exists l s', run_list (env "RCPTTO_API_KEYS") (sv_dashboard sv) hs (site_of zones disk sv) = Some (l, s') /\
    length l = length (List.filter is_request hs) /\ site_wf (len hs) s'.
Proof. intros Hl Hb Ht Hmax. apply (run_site_safe _ _ _ 0); [by eapply site_of_wf|done|done|lia]. Qed.
End Site.

(** ** Witness *)

(** A moment at which the network is down and the context is never cancelled. *)
Definition ex_moment : moment :=
  {| mo_now := ex_start; mo_clk := ex_clk ex_start; mo_rand := Some (bytes "0123456789"); mo_sleep := fun _ => None; mo_ctx := None;
     mo_dial := fun _ => None; mo_post := fun _ _ _ => NoReply; mo_save_ok := true |}.

Definition ex_request (method : string) (segs : list string) (key : string) (body : list ascii) (file : multipart) : full_request :=
  {| fr_http := {| hr_method := method; hr_segments := segs; hr_clean := true; hr_key := key; hr_query := fun _ => ""; hr_body := body |};
     fr_session := None; fr_HX := ""; fr_form_ok := true; fr_form := ∅; fr_file := file |}.

(** What the agent answers to a health check. *)
Definition ex_health (base token : string) : http_reply HealthResponse :=
  Reply 200 (Some {| hr_Version := 1; hr_ID := "r1"; hr_IP := "192.0.2.9"; hr_HELO := "r1.example"; hr_Region := ""; hr_ASN := "" |}).

Definition ex_job : string := newJobID (Some (bytes "0123456789")).

(** A verification with a key; a job of two addresses, the first of which is
    verified and recorded while the agent comes online and an audit withdraws it;
    a write of the reputation; the job's results; an upload without a session. *)
Definition ex_happenings : list happening :=
  [Request ex_moment (ex_request "POST" ["v1"; "verify"] "k1" (bytes "user@example.com") NoFile);
   Request ex_moment (ex_request "POST" ["v1"; "jobs"] "k1" (bytes "b@x.org") NoFile);
   JobStep ex_moment (EDispatch ex_job); Health HRound; Health (HCheck (ex_start + 1) ex_health 0); JobStep ex_moment (EVerified ex_job 0);
   Health (HChanged (ex_start + 2) 0); JobStep ex_moment (ERecord ex_job 0 (ex_start + 3)); Background EvAuditRound;
   Background (EvAudit (ex_start + 4) ["zen"]); Background (EvAudit (ex_start + 4) ["zen"]); Background EvTick; Background EvSnapshot;
   Background (EvSave true true); Background EvClear;
   Request ex_moment (ex_request "GET" ["v1"; "jobs"; ex_job; "results"] "k1" [] NoFile);
   Request ex_moment (ex_request "POST" ["upload"] "" [] (FormFile "list.csv" (bytes "a@example.com")))].

Definition ex_run (tables : UnicodeTables) (sv : Boot.server) : option (list root_response * site) :=
  run_site (HU := tables) (HF := amd64) (HD := plain_decoder) (HT := ex_format) ex_dns (fun _ => None) ex_float (fun _ => "")
    (fun _ => "") (fun _ => "") "" (fun _ => "") (fun _ => "") (fun _ => None) (ex_env "RCPTTO_API_KEYS") (sv_dashboard sv) ex_happenings
    (site_of true ∅ sv).

(** The page holds the verified address, and the audited agent is on disk as
    quarantined. *)
Lemma ex_run_outcome :
  match ex_boot ascii_tables with
  | Ok sv =>
      match ex_run ascii_tables sv with
      | Some (l, s) =>
          match l !! 2%nat with
          | Some (FromAPI (JSON 200 (BResults items _))) => Verdict.Email ∘ res_Verdict <$> items
          | _ => []
          end = ["b@x.org"] /\
          es_State <$> sh_disk (pl_world s) !! "r1" = Some "quarantined"
      | None => False
      end
  | Err _ => False
  end.
Proof. vm_compute. by split. Qed.

Lemma server_answers_all_witness :
  let tables := ascii_tables in
  exists sv l s', ex_boot tables = Ok sv /\ ex_run tables sv = Some (l, s') /\ length l = 4%nat /\ site_wf 17 s'.
Proof.
  intros tables. destruct (ex_boot tables) as [sv|e] eqn:E; [|vm_compute in E; discriminate].
  destruct (server_answers_all (HU := tables) (HF := amd64) (HD := plain_decoder) (HT := ex_format) ex_dns (fun _ => None) ex_float
    (fun _ => "") (fun _ => "") (fun _ => "") "" (fun _ => "") (fun _ => "") (fun _ => None) ex_env None true None
    (Some (bytes "0123456789")) ex_start sv true ∅ ex_happenings) as (l & s' & H1 & H2 & H3).
  - discriminate.
  - exact E.
  - repeat constructor.
  - vm_compute. discriminate.
  - exists sv, l, s'. split; [reflexivity|]. split; [exact H1|]. split; [exact H2|exact H3].
Defined.
