(* ===== verification/Agent.v ===== *)
(** The probe agent ([cmd/rcptto-worker], [internal/worker/server.go]) and the
    dialing of the egress identities ([internal/egress/identity.go],
    [internal/verifier/egress.go]).

    The network is the parameter [Network]: which connections can be opened from
    which source address, and what the server at the other end sends.  What an
    identity means is that its probes leave through its own address. *)

From Stdlib Require Import QArith FunctionalExtensionality.
From S2P Require Import Prelude GoStrings GoConv Float64 GoTime GoNet Verdict Engine Policy Health Egress EgressInv EgressSel.
From S2P Require Import EgressOps EgressProps Builtin BuiltinProps Textproto Store Memory Verifier Service Worker Fleet Ports Api Boot.
Local Open Scope list_scope.
Local Open Scope Z_scope.

(** ** Dialing *)

(** [net.Dialer]: the connection opened from a source address ([None]: the
    system's choice) over a network to an address, [None] when there is none. *)
Class Network := { connect : option (list Z) -> string -> string -> option byte_server }.

Inductive dial_result := Connected (bs : byte_server) | DialFailed | InvalidEgressIP.

(** [net.JoinHostPort] *)
Definition JoinHostPort (host : string) (port : Z) : string :=
  if Contains host ":" then "[" +:+ host +:+ "]:" +:+ FormatInt port
  else host +:+ ":" +:+ FormatInt port.

Section Dial.
Context `{HN : Network}.

Definition Dialer_DialContext (local : option (list Z)) (network addr : string) : dial_result :=
  match connect local network addr with Some bs => Connected bs | None => DialFailed end.

(** [DirectTransport] *)
Record DirectTransport := { LocalAddr : option (list Z) }.
Definition DirectTransport_DialContext (t : DirectTransport) (network addr : string) : dial_result :=
  Dialer_DialContext (LocalAddr t) network addr.

(** [binding.DialContext] of the manager's bindings; the identities of the
    control plane all have the transport [DirectTransport{}]. *)
Definition binding_DialContext (t : DirectTransport) (network addr : string) : dial_result :=
  DirectTransport_DialContext t network addr.

(** [directBinding.DialContext] *)
Definition directBinding_DialContext (network addr : string) : dial_result := Dialer_DialContext None network addr.

(** [localBinding.DialContext] *)
Definition localBinding_DialContext (i : Identity) (network addr : string) : dial_result :=
  if negb (String.eqb (id_IP i) "") then
    match ParseIP (id_IP i) with
    | None => InvalidEgressIP
    | Some ip => Dialer_DialContext (Some ip) network addr
    end
  else Dialer_DialContext None network addr.

(** The prober's dial of a host through a binding: the session over the
    connection, if there is one. *)
Definition probe_dial (dial : string -> string -> dial_result) (port : Z) (host : string) : option Builtin.server :=
  match dial "tcp" (JoinHostPort host port) with
  | Connected bs => Some (text_server bs)
  | DialFailed | InvalidEgressIP => None
  end.
End Dial.

(** The agent's engine as [handleVerify] calls it: every call passes
    [s.binding()], so that the connections are dialled by [localBinding] whatever
    the task; the argument [b] is the rest of that binding (identity, HELO name,
    sender). *)
Definition agent_engine `{UnicodeTables} (net : Network) (cfg : Builtin.Config) (now : Time) (rand : option (list ascii))
    (i : Identity) : Engine_ Empty_set :=
  builtin_engine cfg now rand (probe_dial (localBinding_DialContext i) (Port cfg)).

(** ** The agent's handler *)

Record agent_request := {
  aq_method : string; aq_path : string; aq_clean : bool; aq_auth : string;
  aq_body : option VerifyRequest;  (** [None] when it does not decode *)
}.

Definition map_reply {A B} (f : A -> B) (r : http_reply A) : http_reply B :=
  match r with NoReply => NoReply | Reply n b => Reply n (f <$> b) end.

(** The router of [Handler]. *)
Definition agent_mux {Er} (s : Worker.Server Er) (r : agent_request) : http_reply (VerifyResponse + HealthResponse) :=
  if negb (aq_clean r) then Reply 301 None
  else if String.eqb (aq_path r) PathVerify then
    if method_ok "POST" (aq_method r) then map_reply inl (Worker.handleVerify s (aq_body r)) else Reply 405 None
  else if String.eqb (aq_path r) PathHealth then
    if method_ok "GET" (aq_method r) then map_reply inr (Worker.handleHealth s) else Reply 405 None
  else Reply 404 None.

(** [Server.Handler] *)
Definition agent_Handler {Er} (s : Worker.Server Er) (r : agent_request) : http_reply (VerifyResponse + HealthResponse) :=
  Worker.authMiddleware s (aq_auth r) (agent_mux s r).

(** ** The agent's lifetime *)

Inductive agent_pc := AServing | ADraining | AExited (err : bool).

Record agent_proc := {
  ap_accepted : nat; ap_answered : nat;  (** requests accepted and answered so far *)
  ap_cancelled : bool;
  ap_main : agent_pc;
}.

Inductive agent_event := AgAccept | AgAnswer | AgSignal | AgServerErr | AgDrain | AgDrained | AgTimeout.

(** [run] from [ListenAndServe] on, and its requests. *)
Definition agent_step (ev : agent_event) (p : agent_proc) : option agent_proc :=
  let go pc := Some {| ap_accepted := ap_accepted p; ap_answered := ap_answered p; ap_cancelled := ap_cancelled p; ap_main := pc |} in
  match ev, ap_main p with
  | _, AExited _ => None
  | AgAccept, AServing =>
      Some {| ap_accepted := S (ap_accepted p); ap_answered := ap_answered p; ap_cancelled := ap_cancelled p; ap_main := AServing |}
  | AgAnswer, pc =>
      if Nat.ltb (ap_answered p) (ap_accepted p)
      then Some {| ap_accepted := ap_accepted p; ap_answered := S (ap_answered p); ap_cancelled := ap_cancelled p; ap_main := pc |}
      else None
  | AgSignal, pc => Some {| ap_accepted := ap_accepted p; ap_answered := ap_answered p; ap_cancelled := true; ap_main := pc |}
  | AgServerErr, AServing => go (AExited true)
  | AgDrain, AServing => if ap_cancelled p then go ADraining else None
  | AgDrained, ADraining => if Nat.eqb (ap_answered p) (ap_accepted p) then go (AExited false) else None
  | AgTimeout, ADraining => go (AExited true)
  | _, _ => None
  end.

Fixpoint agent_exec (tr : list agent_event) (p : agent_proc) : option agent_proc :=
  match tr with [] => Some p | ev :: tr => p ← agent_step ev p; agent_exec tr p end.

Definition agent_started : agent_proc := {| ap_accepted := 0; ap_answered := 0; ap_cancelled := false; ap_main := AServing |}.

(** ** Probes leave through the agent's address *)

Lemma probe_dial_ext (d1 d2 : string -> string -> dial_result) port :
  (forall addr, d1 "tcp" addr = d2 "tcp" addr) -> probe_dial d1 port = probe_dial d2 port.
Proof. intros H. apply functional_extensionality. intros host. unfold probe_dial. by rewrite H. Qed.

(** A prober that reaches no exchanger sends nothing and knows nothing. *)
Lemma Verify_unreachable `{UnicodeTables} cfg now rand t b :
  exists v sigs, Builtin.Verify cfg now rand (fun _ => None) t b = (v, sigs, []) /\
    vStatus v = StatusUnknown /\ vSubStatus v = SubNoConnect.
Proof.
  unfold Builtin.Verify. destruct (len (Task_MX t) =? 0); [by eexists _, _|].
  assert (Hn : forall hosts, try_hosts cfg now rand (fun _ => None) t b hosts = None).
  { induction hosts as [|h hosts IH]; [done|]. cbn [try_hosts]. unfold probeHost. exact IH. }
  rewrite Hn. by eexists _, _.
Qed.

(** C37: The agent probes from its own address only: with a valid address two
    networks that agree on the connections opened from it give the same probes,
    whatever can be reached from the host's other addresses; with an address that
    does not parse no connection is attempted at all, over any network, and every
    probe ends as unknown without a line sent. *)
Theorem agent_source_pinned `{UnicodeTables} (net1 net2 : Network) cfg now rand i t b :
  id_IP i <> "" ->
  (forall ip, ParseIP (id_IP i) = Some ip ->
     (forall network addr, connect (Network := net1) (Some ip) network addr = connect (Network := net2) (Some ip) network addr) ->
     agent_engine net1 cfg now rand i t b = agent_engine net2 cfg now rand i t b) /\
  (ParseIP (id_IP i) = None ->
     exists v sigs, agent_engine net1 cfg now rand i t b = Ok (v, sigs) /\ vStatus v = StatusUnknown /\ vSubStatus v = SubNoConnect /\
       (Builtin.Verify cfg now rand (probe_dial (localBinding_DialContext (HN := net1) i) (Port cfg)) t b).2 = []).
Proof.
  intros Hi. apply String.eqb_neq in Hi. split.
  - intros ip Hp Hnet. unfold agent_engine. f_equal.
    rewrite (probe_dial_ext (localBinding_DialContext (HN := net1) i) (localBinding_DialContext (HN := net2) i)); [done|].
    intros addr. unfold localBinding_DialContext, Dialer_DialContext. by rewrite Hi, Hp, Hnet.
  - intros Hp. unfold agent_engine, builtin_engine.
    assert (Hd : probe_dial (localBinding_DialContext (HN := net1) i) (Port cfg) = fun _ => None).
    { apply functional_extensionality. intros host. unfold probe_dial, localBinding_DialContext. by rewrite Hi, Hp. }
    rewrite Hd. destruct (Verify_unreachable cfg now rand t b) as (v & sigs & -> & H1 & H2). by exists v, sigs.
Qed.

(** ** The handler *)

Definition agent_statuses : list Z := [200; 301; 400; 401; 404; 405; 502].

Definition reply_status {A} (r : http_reply A) : option Z := match r with NoReply => None | Reply n _ => Some n end.

(** Every request to the agent is answered with one of the documented statuses;
    without the token with 401 on every path, the liveness check included; and
    the two routes are those the control plane's client calls. *)
Theorem agent_handler_total {Er} (s : Worker.Server Er) r :
  (exists n, reply_status (agent_Handler s r) = Some n /\ n ∈ agent_statuses) /\
  (TrimPrefix (aq_auth r) "Bearer " <> sv_token s -> agent_Handler s r = Reply 401 None) /\
  (TrimPrefix (aq_auth r) "Bearer " = sv_token s -> aq_clean r = true ->
     (aq_method r = "POST" -> aq_path r = PathVerify -> agent_Handler s r = map_reply inl (Worker.handleVerify s (aq_body r))) /\
     (aq_method r = "GET" -> aq_path r = PathHealth -> agent_Handler s r = map_reply inr (Worker.handleHealth s))).
Proof.
  split; [|split].
  - unfold agent_Handler, Worker.authMiddleware, agent_mux, Worker.handleVerify.
    assert (Hin : forall n, bool_decide (n ∈ agent_statuses) = true -> exists n', Some n = Some n' /\ n' ∈ agent_statuses).
    { intros n Hn. exists n. split; [done|]. by apply bool_decide_eq_true in Hn. }
    repeat first [case_match; simplify_eq; cbn [reply_status map_reply]; try (by apply Hin)|progress cbn [reply_status map_reply]].
    all: by apply Hin.
  - intros Hne. unfold agent_Handler, Worker.authMiddleware. by rewrite (proj2 (String.eqb_neq _ _) Hne).
  - intros He Hc. unfold agent_Handler, Worker.authMiddleware, agent_mux. rewrite He, String.eqb_refl, Hc. cbn [negb].
    split; intros -> ->; done.
Qed.

(** ** Shutdown *)

(** An agent that stops in order has answered every probe it accepted: when
    [run] returns without an error, the signal had arrived and no request is left
    without its answer. *)
Theorem agent_exit_answered tr p :
  agent_exec tr agent_started = Some p -> ap_main p = AExited false -> ap_answered p = ap_accepted p /\ ap_cancelled p = true.
Proof.
  set (inv p := (ap_answered p <= ap_accepted p)%nat /\
                match ap_main p with
                | AServing => True
                | ADraining => ap_cancelled p = true
                | AExited false => ap_answered p = ap_accepted p /\ ap_cancelled p = true
                | AExited true => True
                end).
  assert (Hinv : forall tr p p', inv p -> agent_exec tr p = Some p' -> inv p').
  { clear. induction tr as [|ev tr IH]; intros p p' Hi H; cbn [agent_exec] in H; [by simplify_eq|].
    apply bind_Some in H as (q & Hs & H). apply (IH q p'); [|exact H]. clear IH H. destruct Hi as [Hle Hm].
    unfold agent_step in Hs. unfold inv.
    destruct ev, (ap_main p) as [| |err] eqn:Em; simplify_eq; cbn [ap_accepted ap_answered ap_cancelled ap_main]; try (split; [lia|done]).
    - destruct (Nat.ltb_spec (ap_answered p) (ap_accepted p)); simplify_eq; cbn; split; [lia|done].
    - destruct (Nat.ltb_spec (ap_answered p) (ap_accepted p)); simplify_eq; cbn; split; [lia|done].
    - destruct (ap_cancelled p) eqn:Ec; simplify_eq; cbn; split; [lia|done].
    - destruct (Nat.eqb_spec (ap_answered p) (ap_accepted p)); simplify_eq; cbn; split; [lia|done]. }
  intros H Hm. destruct (Hinv tr agent_started p) as [_ Hp]; [by split|done|]. by rewrite Hm in Hp.
Qed.

(** *** Witnesses *)

Definition ex_identity (ip : string) : Identity :=
  {| id_ID := "a1"; id_IP := ip; id_HELO := "a1.example"; id_MailFrom := "probe@a1.example"; id_Region := ""; id_ASN := "" |}.

(** A network on which only connections from 192.0.2.7 are accepted, and one on
    which every other source is accepted too. *)
Definition ex_src : list Z := default [] (ParseIP "192.0.2.7").
Definition ex_net (others : bool) : Network := {|
  connect := fun src _ _ => if others || bool_decide (src = Some ex_src) then Some (speak ex_script) else None |}.

Definition ex_agent_cfg : Builtin.Config :=
  Builtin.New {| Port := 0; ConnectTimeout := 0; CommandTimeout := 0; cfg_DetectCatchAll := true; cfg_HELO := ""; cfg_MailFrom := "" |}.

Lemma agent_source_pinned_witness :
  let tables := ascii_tables in
  agent_engine (ex_net true) ex_agent_cfg 7 None (ex_identity "192.0.2.7") ex_task (binding_of (fresh_record (ex_spec "a" false) 0))
  = agent_engine (ex_net false) ex_agent_cfg 7 None (ex_identity "192.0.2.7") ex_task (binding_of (fresh_record (ex_spec "a" false) 0)) /\
  exists v sigs, agent_engine (ex_net true) ex_agent_cfg 7 None (ex_identity "192.0.2.700") ex_task
                   (binding_of (fresh_record (ex_spec "a" false) 0)) = Ok (v, sigs) /\ vStatus v = StatusUnknown.
Proof.
  intros tables. split.
  - apply (agent_source_pinned (H := tables) (ex_net true) (ex_net false) ex_agent_cfg 7 None (ex_identity "192.0.2.7") ex_task
             (binding_of (fresh_record (ex_spec "a" false) 0)) ltac:(discriminate)) with (ip := ex_src); [reflexivity|].
    intros network addr. reflexivity.
  - destruct (agent_source_pinned (H := tables) (ex_net true) (ex_net true) ex_agent_cfg 7 None (ex_identity "192.0.2.700") ex_task
                (binding_of (fresh_record (ex_spec "a" false) 0)) ltac:(discriminate)) as [_ H].
    destruct (H eq_refl) as (v & sigs & H1 & H2 & _). exists v, sigs. split; [exact H1|exact H2].
Defined.

Lemma agent_exit_answered_witness :
  exists p, agent_exec [AgAccept; AgAccept; AgAnswer; AgSignal; AgDrain; AgAnswer; AgDrained] agent_started = Some p /\
    ap_answered p = ap_accepted p.
Proof.
  eexists. split; [reflexivity|].
  destruct (agent_exit_answered [AgAccept; AgAccept; AgAnswer; AgSignal; AgDrain; AgAnswer; AgDrained] _ eq_refl eq_refl) as [H _]. exact H.
Defined.
